(* ===== verification/_CoqProject ===== *)
-Q . S2P
Prelude.v
Usb.v
Buffer.v
Transport.v
Bbb.v
BotSpec.v
BbbRefine.v
BbbMethods.v
BbbReach.v
MockBus.v
BbbSafe.v
BotStream.v
Transfer.v
BotLive.v
BbbSpec.v
BufferSpec.v
Subclass.v
Scsi.v
ScsiSpec.v
Ufi.v
UfiSpec.v
Firmware.v
FirmwareSpec.v
FirmwareSense.v
FirmwareRun.v
FirmwareLive.v
FirmwareReply.v
Disk.v
FirmwareSession.v
Stm32Scsi.v
Stm32ScsiSpec.v
Stm32ScsiDisk.v
Stm32Ufi.v
Stm32UfiSpec.v
Stm32UfiDisk.v
Rp2040Scsi.v
Rp2040ScsiSpec.v
Rp2040ScsiDisk.v
Tests.v
DummyBus.v
Integration.v
