(* ===== verification/Prelude.v ===== *)
(** * usbd-storage: a verification development

    [usbd-storage] (under src/usbd-storage/src) implements the USB Mass Storage
    class for devices: a transport ([transport/bbb.rs], the Bulk-Only Transport)
    moves commands, data and statuses between a USB stack ([usb-device], a
    dependency) and a subclass ([subclass/scsi.rs], [subclass/ufi.rs]), which
    decodes a command block and hands it to the user's callback. The development
    translates the crate function by function into executable definitions and
    proves what makes it correct.

    ** How the program works, and where it is modelled

    - [Prelude] (this file): Rust expressions that can panic ([outcome]), the state
      monad [M] whose [Err] values keep the mutations made before them, slices and
      integers, the [wp] calculus with the tactic [wp_steps], [len_lia] for lengths
      of lists. A [u8], [u16], [u32] or [usize] is a [Z]; saturating and checked
      subtractions and the casts are written out.
    - [Usb]: the class [UsbStack], what the crate calls in [usb-device], and
      [UsbStackLaws], what it relies on: one packet per call, in order, and an error
      moves nothing. A bus may refuse, accept part of a packet, or fail at any time.
    - [Buffer] is [buffer.rs]: the record [Buffer] and [write], [write_all], [read],
      [fill_up_to], [clear], [shift] with their panics, and the lemmas that they
      implement a FIFO queue. [BufferSpec] states that contract.
    - [Transport] is [transport.rs]: the trait as a class, errors, statuses.
    - [Bbb] is [transport/bbb.rs]: the record [BulkOnly] has the fields of the struct
      and the bus that its endpoints share; every function has its definition, under
      its name. [poll] dispatches on [state] to the [handle_...] functions, these
      move packets between the buffer and the endpoints and call the
      [enter_state_...] functions.
    - [BotSpec]: the abstract protocol machine. A state [Bot] has the phase, the
      queue, what is left to transfer, the command, the status and the two byte
      streams of the wire; [bot_poll] is one step. [bot_inv] is its invariant.
    - [BbbRefine], [BbbMethods]: each handler and each method is a step of the
      machine under the abstraction [view]. [BbbReach]: [reachable] states, by
      induction over calls in any order and steps of the host.
    - [Subclass] is [subclass.rs] and the body of [poll_command], against the
      interface [OverBulkOnly] that [Scsi] and [Ufi] implement. [Scsi] and [Ufi] are
      [subclass/scsi.rs] and [subclass/ufi.rs]: constants, command types, parsers,
      constructors, [poll_command] and the [UsbClass] methods. The callback is an
      argument. The conversion that num_enum derives for [PageControl] is the class
      [TryFromPrimitive]; the cargo feature [extended_addressing] is a [bool].
    - [Firmware] is what the three example programs share (src/examples): the record
      [Device] (the class, the global [STATE], the memory), the answers and status
      steps of their command handlers, the calls that the stack makes, [main] up to its
      loop ([power_on]) and a round of the loop ([main_loop]). [Stm32Scsi]
      ([stm32f411x_scsi_bbb.rs], a drive in RAM), [Stm32Ufi] ([stm32f411x_ufi_bbb.rs], a
      read-only floppy) and [Rp2040Scsi] ([rp2040_scsi_bbb.rs], a drive in flash) are
      the handlers, each the callback of [poll_command]: they are called once per turn
      and keep their place in [STATE]. Image files are arguments; the flash chip with
      the crate that programs it is the class [FlashChip] with [FlashChipLaws].
    - [FirmwareSpec]: what a turn of a handler may do and the invariant [device_inv];
      [FirmwareRun]: commands over many turns ([loop_step]) and runs from power-on
      ([run_step]). [FirmwareLive]: a command that the loop drives ([driven], in [round]s)
      ends. [FirmwareReply]: commands that are answered in one turn ([reply]).
      [FirmwareSense]: what of [STATE] the handlers of READ and WRITE leave alone. All are
      parametric in class, memory and handler.
    - [Disk]: the abstract specification of a drive, without turns, buffers or phases:
      [run_disk] answers one request after the other, [scsi_disk] are the commands of a
      disk of blocks, [spoken] how requests lie in the byte stream of a host.
      [FirmwareSession]: a [session] of a host with a firmware is a run of the main loop
      over any number of commands; for any class, memory and handler it is a run of the
      disk, if the handler serves each command as the disk does ([session_refines]).
    - [MockBus]: the bus of the unit tests of [bbb.rs] as an instance of [UsbStack]
      that satisfies the laws, and the tests' harness [run]. [Tests]: the unit tests
      of the crate as definitions that are evaluated. Most witnesses are histories
      on this bus.
    - [DummyBus] is the bus and host of the integration tests ([tests/common/bbb.rs]),
      also an instance that satisfies the laws; [Integration] has their encoders, steps
      and tests.

    ** What the theorems show

    - [BbbSafe]: in every reachable state no method panics; every [poll] is exactly
      one step of the protocol machine; the invariant of the type; an invalid command
      wrapper halts the transport until a reset. The handlers call each other in a
      cycle, modelled with fuel: one entry of [handle_status_transfer] per [poll] is
      enough, in any state, and more fuel changes nothing.
    - [Transfer] (with [BotStream]): over a whole command, with polls, calls and the
      host interleaved in any order, the wire carries the data that the subclass
      wrote, in order and filled to the length the host asked for, then the status
      wrapper; the subclass reads what the host sent, in order; the command it is
      shown is the one on the wire; no command moves more to the host than it announces,
      and from the host only the rest of the last packet more.
    - [BbbSpec] (with [BotLive]): once a status is set the transport waits for the bus
      only, and a bounded number of moves ends the command; encoding and decoding of
      the two wrappers; what each method does on every branch, errors included.
    - [BufferSpec]: the buffer refines a bounded FIFO queue, [write_all] and [read] with
      any closure of their type.
    - [ScsiSpec], [UfiSpec]: the parsers decode what the standards encode, for every
      command; the SCSI parser is total, the UFI parser panics exactly on blocks that
      are too short for their opcode, which a host can send; [poll_command] runs the
      callback exactly when a command awaits the user and keeps the transport
      reachable; the descriptors; the geometry of a floppy.
    - [Stm32ScsiSpec], [Stm32UfiSpec], [Rp2040ScsiSpec]: a READ and a WRITE, over all the
      turns of the main loop that they take, in any run from power-on, move exactly the
      blocks that they address; [main] comes to its loop; from there the invariant holds
      in every run, and a turn panics on the commands listed in [panics_on] and on no
      others. A bus reset may come in any round; until the loop sees an event nothing is
      said of the offset, and the round that sees one must find the stack in
      [UsbDeviceState::Default], where it clears [STATE]. That is what the firmware counts
      on: [flash_reset_offsets] evaluates rounds with and without it. The loops of the handlers have the size of the IO buffer and one more as
      fuel ([buffer_fuel]): every round but the last moves a byte through it, and the
      theorems say that they end.
    - The same files: the READs and WRITEs complete. A [round] of the main loop is a poll of
      the stack and a turn of the command, with a host that moves a packet whenever the
      transport is ready for one ([offered]); the [work] that is left is bytes for the
      handler and bytes for the wire, no step of the loop adds to it and each round takes
      from it, and until the status wrapper is out another round runs. The hypotheses that
      these theorems need show what the handlers lack: [rp2040_write_overruns] and
      [floppy_read_overshoots] evaluate runs without them.
    - The same files: the commands that a handler answers at once ([replied]). An answer that
      the host has room for is on the wire with its status, after a bounded number of rounds;
      one that is longer than what the host asked for is never sent, and no status comes
      ([flash_short_inquiry_hangs]).
    - [Stm32ScsiDisk], [Rp2040ScsiDisk], [Stm32UfiDisk]: the three firmwares are disks. From
      any moment between two commands of a run from power-on, a session of any commands is a
      run of the disk on the wrappers and the data that are in the byte stream of the host:
      what the host has received, the memory and the sense data are those of the disk. The
      two SCSI drives implement the same [scsi_disk], in RAM and in a flash chip; for the
      latter the commands have to be [orderly]. A command that the disk does not serve has
      no end ([panic_lasts]): on READ CAPACITY (16) and beyond the blocks the firmware
      panics, and an answer that is longer than what the host asks for gets no status. What
      is written is read back.
    - [Tests]: the thirteen cases of the Bulk-Only specification and the other unit
      tests pass on the model, at every packet size. [Integration]: so do the
      integration tests; what the crate makes of the commands that the simulated host
      encodes. Their loops have a fuel of 1000 rounds, which the evaluation shows to be
      enough.

    ** What is not modelled

    The runs of the firmwares have a Bulk-Only reset only where they have a bus reset: the
    stack calls [control_in] for requests with an IN data phase, which that reset is not (the
    theorems about the transport have it anywhere). Log output ([fmt.rs]) has no effect on
    the state. The stack behind [UsbStack] and the flash chip are not part of the
    repository. The set-up of the example boards (clocks, pins, peripherals, descriptors of
    the device) is hardware access, the build scripts copy files, and the libraries of the
    examples are empty. Critical sections and [RefCell] borrows do not appear: a handler runs
    on one core with interrupts off and never borrows a global twice. *)
From Stdlib Require Export ZArith Lia.
From Stdlib Require Export Strings.Byte.
From stdpp Require Export base tactics decidable list.

#[export] Set Default Goal Selector "!".

Declare Scope rust_scope.
Delimit Scope rust_scope with rust.

(** ** Outcomes and the state monad *)

(** What running a Rust expression can do: return, unwind, or (for the one
    recursion that is modelled with fuel) exhaust the fuel. *)
Inductive outcome (A : Type) : Type :=
| Returns (a : A)
| Panics
| OutOfFuel.
Arguments Returns {A} a.
Arguments Panics {A}.
Arguments OutOfFuel {A}.

(** Rust's [Result]. *)
Inductive result (A E : Type) : Type :=
| Ok (a : A)
| Err (e : E).
Arguments Ok {A E} a.
Arguments Err {A E} e.

(** A computation that mutates a state of type [S]. An [Err] is a value of the
    computation, so the mutations made before it survive, as in Rust. *)
Definition M (S A : Type) : Type := S -> outcome (A * S).

Definition ret {S A} (a : A) : M S A := fun s => Returns (a, s).

Definition bind {S A B} (m : M S A) (k : A -> M S B) : M S B := fun s =>
  match m s with
  | Returns (a, s') => k a s'
  | Panics => Panics
  | OutOfFuel => OutOfFuel
  end.

(** The [?] operator: continue with the value, or return the error. *)
Definition bind_try {S A B E} (m : M S (result A E))
    (k : A -> M S (result B E)) : M S (result B E) :=
  bind m (fun r => match r with Ok a => k a | Err e => ret (Err e) end).

Definition panic {S A} : M S A := fun _ => Panics.
Definition out_of_fuel {S A} : M S A := fun _ => OutOfFuel.

(** Read-only access to the state, total or partial. *)
Definition gets {S A} (f : S -> A) : M S A := fun s => Returns (f s, s).
Definition gets_o {S A} (f : S -> outcome A) : M S A := fun s =>
  match f s with
  | Returns a => Returns (a, s)
  | Panics => Panics
  | OutOfFuel => OutOfFuel
  end.
Definition modify {S} (f : S -> S) : M S unit := fun s => Returns (tt, f s).
Definition lift {S A} (o : outcome A) : M S A := gets_o (fun _ => o).

(** [assert!], [debug_assert!] and [assert_matches!]. *)
Definition assert {S} (b : bool) : M S unit := if b then ret tt else panic.
Definition when {S} (b : bool) (m : M S unit) : M S unit := if b then m else ret tt.

(** Run a computation on a part of the state. *)
Definition zoom {S T A} (get : S -> T) (put : T -> S -> S) (m : M T A) : M S A :=
  fun s =>
    match m (get s) with
    | Returns (a, t) => Returns (a, put t s)
    | Panics => Panics
    | OutOfFuel => OutOfFuel
    end.

Notation "'let!' x := m 'in' k" := (bind m (fun x => k))
  (at level 10, x pattern, m at level 100, k at level 200) : rust_scope.
Notation "'let?' x := m 'in' k" := (bind_try m (fun x => k))
  (at level 10, x pattern, m at level 100, k at level 200) : rust_scope.
Notation "'do!' m 'in' k" := (bind m (fun _ => k))
  (at level 10, m at level 100, k at level 200) : rust_scope.

(** [loop { body }]: the value of the body says whether it goes round again; [break]
    is [Ok false]. A loop that needs more than [fuel] rounds runs out of fuel. *)
Fixpoint loop {S E} (fuel : nat) (body : M S (result bool E)) : M S (result unit E) :=
  match fuel with
  | O => out_of_fuel
  | Datatypes.S fuel =>
    bind_try body (fun again => if again then loop fuel body else ret (Ok tt))
  end.

(** The same operations on stateless partial expressions. *)
Definition obind {A B} (o : outcome A) (k : A -> outcome B) : outcome B :=
  match o with
  | Returns a => k a
  | Panics => Panics
  | OutOfFuel => OutOfFuel
  end.
Notation "'let*' x := o 'in' k" := (obind o (fun x => k))
  (at level 10, x pattern, o at level 100, k at level 200) : rust_scope.

Local Open Scope Z_scope.

(** ** Machine integers, slices and byte strings *)

Abbreviation byte := Byte.byte.
#[export] Instance byte_eq_decision : EqDecision byte := Byte.byte_eq_dec.

Definition u8_max : Z := 2 ^ 8 - 1.
Definition u16_modulus : Z := 2 ^ 16.
Definition u32_modulus : Z := 2 ^ 32.

Definition is_u32 (z : Z) : Prop := 0 <= z < u32_modulus.

(** [x as u32] for a wider [x]. *)
Definition as_u32 (z : Z) : Z := z mod u32_modulus.
(** [u32::saturating_sub] and [usize::saturating_sub]. *)
Definition saturating_sub (a b : Z) : Z := Z.max 0 (a - b).
(** [a - b] on [usize]: an underflow panics (overflow checks on). *)
Definition usize_sub (a b : Z) : outcome Z := if b <=? a then Returns (a - b) else Panics.

Definition len {A} (l : list A) : Z := Z.of_nat (length l).
Definition ztake {A} (n : Z) (l : list A) : list A := take (Z.to_nat n) l.
Definition zdrop {A} (n : Z) (l : list A) : list A := drop (Z.to_nat n) l.
(** The elements at positions [a] to [b] (excluded). *)
Definition zslice {A} (a b : Z) (l : list A) : list A := ztake (b - a) (zdrop a l).

(** [&l[a..b]]: panics unless [a <= b <= l.len()]. *)
Definition slice {A} (l : list A) (a b : Z) : outcome (list A) :=
  if (0 <=? a) && (a <=? b) && (b <=? len l) then Returns (zslice a b l) else Panics.
(** [l[i]]. *)
Definition index {A} (l : list A) (i : Z) : outcome A :=
  if i <? 0 then Panics
  else match l !! Z.to_nat i with Some x => Returns x | None => Panics end.
(** The list after the part that starts at [a] was overwritten by [new]: what a
    write through [&mut l[a..a + new.len()]] leaves. *)
Definition splice {A} (l : list A) (a : Z) (new : list A) : list A :=
  ztake a l ++ new ++ zdrop (a + len new) l.
(** [dst.copy_from_slice(src)]: what [dst] holds afterwards. *)
Definition copy_from_slice {A} (dst src : list A) : outcome (list A) :=
  if len dst =? len src then Returns src else Panics.

Definition zreplicate {A} (n : Z) (x : A) : list A := replicate (Z.to_nat n) x.

(** A byte's value, and the byte [z as u8]. *)
Definition u8 (b : byte) : Z := Z.of_N (Byte.to_N b).
Definition byte_of (z : Z) : byte :=
  match Byte.of_N (Z.to_N (z mod 256)) with Some b => b | None => Byte.x00 end.

(** [l[i]] of a byte slice, as a number. *)
Definition u8_at (l : list byte) (i : Z) : outcome Z :=
  obind (index l i) (fun b => Returns (u8 b)).

(** [to_le_bytes] and [from_le_bytes] at [n] bytes, and the big-endian ones. *)
Fixpoint to_le_bytes (n : nat) (z : Z) : list byte :=
  match n with
  | O => []
  | S n => byte_of z :: to_le_bytes n (z / 256)
  end.
Fixpoint from_le_bytes (l : list byte) : Z :=
  match l with
  | [] => 0
  | b :: l => u8 b + 256 * from_le_bytes l
  end.
Definition to_be_bytes (n : nat) (z : Z) : list byte := rev (to_le_bytes n z).
Definition from_be_bytes (l : list byte) : Z := from_le_bytes (rev l).

Arguments len : simpl never.
Arguments ztake : simpl never.
Arguments zdrop : simpl never.
Arguments zslice : simpl never.
Arguments zreplicate : simpl never.
Arguments Z.testbit : simpl never.
Arguments Z.sub : simpl never.
Arguments Z.add : simpl never.
Arguments Z.min : simpl never.

(** ** Weakest preconditions *)

(** [wp m Q s]: run from [s], [m] returns (it neither panics nor runs out of
    fuel) and its value and final state satisfy [Q]. *)
Definition wp {S A} (m : M S A) (Q : A -> S -> Prop) (s : S) : Prop :=
  match m s with
  | Returns (a, s') => Q a s'
  | Panics | OutOfFuel => False
  end.

Arguments wp : simpl never.
Arguments ret : simpl never.
Arguments bind : simpl never.
Arguments bind_try : simpl never.
Arguments gets : simpl never.
Arguments gets_o : simpl never.
Arguments modify : simpl never.
Arguments lift : simpl never.
Arguments zoom : simpl never.

(** The same for a stateless expression. *)
Definition owp {A} (o : outcome A) (Q : A -> Prop) : Prop :=
  match o with
  | Returns a => Q a
  | Panics | OutOfFuel => False
  end.

Section wp_rules.
Context {S A B : Type}.
Implicit Types (s : S).

Lemma wp_ret (a : A) (Q : A -> S -> Prop) s : Q a s -> wp (ret a) Q s.
Proof. done. Qed.

Lemma wp_bind (m : M S A) (k : A -> M S B) (Q : B -> S -> Prop) s :
  wp m (fun a s' => wp (k a) Q s') s -> wp (bind m k) Q s.
Proof. unfold wp, bind. by destruct (m s) as [[]| |]. Qed.

Lemma wp_bind_try {E} (m : M S (result A E)) (k : A -> M S (result B E))
    (Q : result B E -> S -> Prop) s :
  wp m (fun r s' => match r with
                    | Ok a => wp (k a) Q s'
                    | Err e => Q (Err e) s'
                    end) s ->
  wp (bind_try m k) Q s.
Proof.
  unfold wp, bind_try, bind. by destruct (m s) as [[[]]| |].
Qed.

Lemma wp_mono (m : M S A) (Q R : A -> S -> Prop) s :
  wp m Q s -> (forall a s', Q a s' -> R a s') -> wp m R s.
Proof. unfold wp. destruct (m s) as [[]| |]; eauto. Qed.

Lemma wp_and (m : M S A) (Q R : A -> S -> Prop) s :
  wp m Q s -> wp m R s -> wp m (fun a s' => Q a s' /\ R a s') s.
Proof. unfold wp. destruct (m s) as [[]| |]; eauto. Qed.

Lemma wp_gets (f : S -> A) (Q : A -> S -> Prop) s : Q (f s) s -> wp (gets f) Q s.
Proof. done. Qed.

Lemma wp_gets_o (f : S -> outcome A) (Q : A -> S -> Prop) s :
  owp (f s) (fun a => Q a s) -> wp (gets_o f) Q s.
Proof. unfold wp, owp, gets_o. by destruct (f s). Qed.

Lemma wp_lift (o : outcome A) (Q : A -> S -> Prop) s :
  owp o (fun a => Q a s) -> wp (lift o) Q s.
Proof. unfold wp, owp, lift, gets_o. by destruct o. Qed.

Lemma wp_modify (f : S -> S) (Q : unit -> S -> Prop) s : Q tt (f s) -> wp (modify f) Q s.
Proof. done. Qed.

Lemma wp_assert (b : bool) (Q : unit -> S -> Prop) s :
  b = true -> Q tt s -> wp (assert b) Q s.
Proof. by intros ->. Qed.

Lemma wp_when (b : bool) (m : M S unit) (Q : unit -> S -> Prop) s :
  (b = true -> wp m Q s) -> (b = false -> Q tt s) -> wp (when b m) Q s.
Proof. destruct b; unfold when; intros H1 H2; [by apply H1 | exact (H2 eq_refl)]. Qed.

Lemma wp_zoom {T} (get : S -> T) (put : T -> S -> S) (m : M T A) (Q : A -> S -> Prop) s :
  wp m (fun a t => Q a (put t s)) (get s) -> wp (zoom get put m) Q s.
Proof. unfold wp, zoom. by destruct (m (get s)) as [[]| |]. Qed.

(** What a [wp] says of one run. *)
Lemma wp_returns (m : M S A) (Q : A -> S -> Prop) s a s' :
  wp m Q s -> m s = Returns (a, s') -> Q a s'.
Proof. unfold wp. intros H E. by rewrite E in H. Qed.

Lemma wp_run (m : M S A) (Q : A -> S -> Prop) s :
  wp m Q s <-> exists a s', m s = Returns (a, s') /\ Q a s'.
Proof.
  unfold wp. destruct (m s) as [[a s']| |].
  - split; [eauto | by intros (? & ? & [= <- <-] & ?)].
  - split; [done | by intros (? & ? & [=] & ?)].
  - split; [done | by intros (? & ? & [=] & ?)].
Qed.

(** The first part of a computation, when it returns. *)
Lemma bind_returns (m : M S A) (k : A -> M S B) s a s' : m s = Returns (a, s') -> bind m k s = k a s'.
Proof. unfold bind. by intros ->. Qed.

(** Two continuations that agree on what the first part returns. *)
Lemma bind_ext (m : M S A) (k1 k2 : A -> M S B) s :
  (forall a s', m s = Returns (a, s') -> k1 a s' = k2 a s') ->
  bind m k1 s = bind m k2 s.
Proof. unfold bind. destruct (m s) as [[]| |]; auto. Qed.

Lemma bind_try_ext {E} (m : M S (result A E)) (k1 k2 : A -> M S (result B E)) s :
  (forall a s', m s = Returns (Ok a, s') -> k1 a s' = k2 a s') ->
  bind_try m k1 s = bind_try m k2 s.
Proof.
  unfold bind_try, bind. destruct (m s) as [[[]]| |]; auto.
Qed.
End wp_rules.

(** A loop with an invariant and a measure that each further round reduces: it ends, with
    any fuel beyond the measure. *)
Lemma wp_loop {S E} (I : S -> Prop) (m : S -> Z) (body : M S (result bool E))
    (Q : result unit E -> S -> Prop) :
  (forall s, I s -> wp body (fun r s' =>
     match r with
     | Ok true => I s' /\ m s' < m s
     | Ok false => Q (Ok tt) s'
     | Err e => Q (Err e) s'
     end) s) ->
  (forall s, I s -> 0 <= m s) ->
  forall fuel s, I s -> m s < Z.of_nat fuel -> wp (loop fuel body) Q s.
Proof.
  intros Hbody Hm fuel. induction fuel as [|fuel IH]; intros s HI Hf.
  - pose proof (Hm s HI). lia.
  - cbn [loop]. apply wp_bind_try. eapply wp_mono; [by apply Hbody|].
    intros [[]|e] s' HQ; [|exact HQ|exact HQ]. destruct HQ as [HI' Hlt]. apply IH; [done|lia].
Qed.

(** More fuel changes nothing. *)
Lemma loop_more_fuel {S E} (body : M S (result bool E)) n k s :
  (n <= k)%nat -> loop n body s <> OutOfFuel -> loop k body s = loop n body s.
Proof.
  revert k s. induction n as [|n IH]; intros k s Hk Hn; [done|]. destruct k as [|k]; [lia|].
  cbn [loop] in *. unfold bind_try, bind in *. destruct (body s) as [[[[]|e] s']| |]; try done.
  apply IH; [lia|done].
Qed.

Lemma owp_obind {A B} (o : outcome A) (k : A -> outcome B) (Q : B -> Prop) :
  owp o (fun a => owp (k a) Q) -> owp (obind o k) Q.
Proof. by destruct o. Qed.
Lemma owp_returns {A} (o : outcome A) Q : owp o Q -> exists a, o = Returns a /\ Q a.
Proof. destruct o as [a| |]; [by exists a|done..]. Qed.

(** ** Lengths and slices *)

Create Rewrite HintDb len_db.

Lemma len_nonneg {A} (l : list A) : 0 <= len l.
Proof. unfold len. lia. Qed.
Lemma len_nil {A} : len (@nil A) = 0.
Proof. done. Qed.
Lemma len_cons {A} (x : A) l : len (x :: l) = 1 + len l.
Proof. unfold len. cbn [length]. lia. Qed.
Lemma len_app {A} (l k : list A) : len (l ++ k) = len l + len k.
Proof. unfold len. rewrite length_app. lia. Qed.
Lemma len_ztake {A} n (l : list A) : len (ztake n l) = Z.max 0 (Z.min n (len l)).
Proof. unfold len, ztake. rewrite length_take. lia. Qed.
Lemma len_zdrop {A} n (l : list A) : len (zdrop n l) = Z.max 0 (len l - Z.max 0 n).
Proof. unfold len, zdrop. rewrite length_drop. lia. Qed.
Lemma len_zreplicate {A} n (x : A) : len (zreplicate n x) = Z.max 0 n.
Proof. unfold len, zreplicate. rewrite length_replicate. lia. Qed.
Lemma len_zslice {A} a b (l : list A) :
  len (zslice a b l) = Z.max 0 (Z.min (b - a) (len l - Z.max 0 a)).
Proof. unfold zslice. rewrite len_ztake, len_zdrop. lia. Qed.
Lemma len_rev {A} (l : list A) : len (rev l) = len l.
Proof. unfold len. by rewrite length_rev. Qed.
Lemma len_zero_inv {A} (l : list A) : len l = 0 -> l = [].
Proof. destruct l; [done | unfold len; cbn; lia]. Qed.
#[export] Hint Rewrite @len_nil @len_cons @len_app @len_ztake @len_zdrop @len_zreplicate
  @len_zslice @len_rev : len_db.

(** Put the fact that a length is not negative in the context, for each list in sight. *)
Ltac pose_len_nonneg :=
  repeat match goal with
  | |- context [len ?l] =>
      lazymatch goal with H : 0 <= len l |- _ => fail | _ => pose proof (len_nonneg l) end
  | _ : context [len ?l] |- _ =>
      lazymatch goal with H : 0 <= len l |- _ => fail | _ => pose proof (len_nonneg l) end
  end.

(** Arithmetic over lengths: normalise the lengths of composed lists, then [lia]. *)
Ltac len_lia := autorewrite with len_db in *; pose_len_nonneg; lia.

Lemma ztake_all {A} n (l : list A) : len l <= n -> ztake n l = l.
Proof. intros. unfold ztake. apply take_ge. unfold len in *. lia. Qed.
Lemma ztake_le0 {A} n (l : list A) : n <= 0 -> ztake n l = [].
Proof. intros. unfold ztake. by replace (Z.to_nat n) with 0%nat by lia. Qed.
Lemma zdrop_le0 {A} n (l : list A) : n <= 0 -> zdrop n l = l.
Proof. intros. unfold zdrop. by replace (Z.to_nat n) with 0%nat by lia. Qed.
Lemma zdrop_all {A} n (l : list A) : len l <= n -> zdrop n l = [].
Proof. intros. unfold zdrop. apply drop_ge. unfold len in *. lia. Qed.
Lemma ztake_zdrop {A} n (l : list A) : ztake n l ++ zdrop n l = l.
Proof. apply take_drop. Qed.
Lemma ztake_app_le {A} n (l k : list A) : n <= len l -> ztake n (l ++ k) = ztake n l.
Proof. intros. unfold ztake. apply take_app_le. unfold len in *. lia. Qed.
Lemma ztake_app_ge {A} n (l k : list A) :
  len l <= n -> ztake n (l ++ k) = l ++ ztake (n - len l) k.
Proof.
  intros. unfold ztake, len in *. rewrite take_app, take_ge by lia. do 2 f_equal. lia.
Qed.
Lemma zdrop_app_le {A} n (l k : list A) : n <= len l -> zdrop n (l ++ k) = zdrop n l ++ k.
Proof. intros. unfold zdrop. apply drop_app_le. unfold len in *. lia. Qed.
Lemma zdrop_app_ge {A} n (l k : list A) : len l <= n -> zdrop n (l ++ k) = zdrop (n - len l) k.
Proof.
  intros. unfold zdrop, len in *. rewrite drop_app, drop_ge by lia. cbn. f_equal. lia.
Qed.
Lemma zdrop_zdrop {A} n m (l : list A) :
  0 <= n -> 0 <= m -> zdrop m (zdrop n l) = zdrop (n + m) l.
Proof. intros. unfold zdrop. rewrite drop_drop. f_equal. lia. Qed.
Lemma ztake_ztake {A} n m (l : list A) : ztake n (ztake m l) = ztake (Z.min n m) l.
Proof. intros. unfold ztake. rewrite take_take. f_equal. lia. Qed.
Lemma zdrop_ztake {A} n m (l : list A) :
  0 <= n -> zdrop n (ztake m l) = ztake (m - n) (zdrop n l).
Proof. intros. unfold zdrop, ztake. rewrite skipn_firstn_comm. f_equal. lia. Qed.
Lemma zreplicate_add {A} n m (x : A) :
  0 <= n -> 0 <= m -> zreplicate (n + m) x = zreplicate n x ++ zreplicate m x.
Proof.
  intros. unfold zreplicate. rewrite <- replicate_add. f_equal. lia.
Qed.

Lemma zslice_all {A} n (l : list A) : n = len l -> zslice 0 n l = l.
Proof. intros ->. unfold zslice. rewrite zdrop_le0 by lia. apply ztake_all. lia. Qed.
Lemma zslice_empty {A} a b (l : list A) : b <= a -> zslice a b l = [].
Proof. intros. apply ztake_le0. lia. Qed.
Lemma zslice_shrink {A} a b n (l : list A) :
  0 <= a -> 0 <= n -> zslice (a + n) b l = zdrop n (zslice a b l).
Proof.
  intros. unfold zslice. rewrite zdrop_ztake, zdrop_zdrop by lia. f_equal. lia.
Qed.

Lemma zslice_zslice {A} a b c e (l : list A) :
  0 <= a -> 0 <= c -> a + e <= b -> zslice c e (zslice a b l) = zslice (a + c) (a + e) l.
Proof.
  intros. unfold zslice. rewrite zdrop_ztake, zdrop_zdrop, ztake_ztake by lia.
  f_equal. lia.
Qed.
Lemma ztake_zslice {A} n (l : list A) : ztake n l = zslice 0 n l.
Proof. unfold zslice. rewrite zdrop_le0 by lia. f_equal. lia. Qed.

Lemma len_splice {A} (l : list A) a new :
  0 <= a -> a + len new <= len l -> len (splice l a new) = len l.
Proof. intros. unfold splice. len_lia. Qed.

(** Overwriting the positions right after a slice, and lengthening it by some of
    them, appends to the slice. *)
Lemma zslice_splice_app {A} a w n (l new : list A) :
  0 <= a <= w -> 0 <= n <= len new -> w + len new <= len l ->
  zslice a (w + n) (splice l w new) = zslice a w l ++ ztake n new.
Proof.
  intros. unfold zslice, splice.
  rewrite zdrop_app_le by len_lia.
  rewrite zdrop_ztake by lia.
  rewrite ztake_app_ge by len_lia. f_equal.
  rewrite ztake_app_le by len_lia. f_equal. len_lia.
Qed.

(** Writing back what a slice held changes nothing. *)
Lemma splice_zslice {A} a b (l : list A) :
  0 <= a <= b -> b <= len l -> splice l a (zslice a b l) = l.
Proof.
  intros. unfold splice.
  replace (a + len (zslice a b l)) with b by len_lia.
  rewrite <- (ztake_zdrop a l) at 4. f_equal.
  unfold zslice. rewrite <- (ztake_zdrop (b - a) (zdrop a l)) at 2. f_equal.
  rewrite zdrop_zdrop by lia. f_equal. lia.
Qed.

(** Overwriting all of a list. *)
Lemma splice_all {A} (l new : list A) : len new = len l -> splice l 0 new = new.
Proof.
  intros H. unfold splice. rewrite (ztake_le0 0), H, zdrop_all by lia. apply app_nil_r.
Qed.

Lemma zslice_app {A} a b c (l : list A) :
  0 <= a <= b -> b <= c -> zslice a b l ++ zslice b c l = zslice a c l.
Proof.
  intros. unfold zslice. rewrite <- (ztake_zdrop (b - a) (ztake (c - a) (zdrop a l))).
  rewrite ztake_ztake, zdrop_ztake, zdrop_zdrop by lia.
  replace (Z.min (b - a) (c - a)) with (b - a) by lia. f_equal. f_equal; [lia|f_equal; lia].
Qed.

Lemma splice_nil {A} a (l : list A) : 0 <= a -> splice l a [] = l.
Proof. intros. unfold splice. cbn [app]. rewrite len_nil, Z.add_0_r. apply ztake_zdrop. Qed.

(** Two writes, one behind the other. *)
Lemma splice_splice_app {A} a (l x y : list A) :
  0 <= a -> a + len x <= len l -> splice (splice l a x) (a + len x) y = splice l a (x ++ y).
Proof.
  intros. pose proof (len_nonneg x). pose proof (len_nonneg y). unfold splice at 1.
  assert (ztake (a + len x) (splice l a x) = ztake a l ++ x) as ->.
  { unfold splice. rewrite app_assoc, ztake_app_le, ztake_all by len_lia. done. }
  unfold splice. rewrite <- !app_assoc. f_equal. f_equal. f_equal.
  rewrite app_assoc, zdrop_app_ge, zdrop_zdrop by len_lia. f_equal. len_lia.
Qed.

(** A write of which only the first part differs from what was there. *)
Lemma splice_prefix {A} a b (l x : list A) :
  0 <= a -> a + len x <= b -> b <= len l ->
  splice l a (x ++ zdrop (len x) (zslice a b l)) = splice l a x.
Proof.
  intros. pose proof (len_nonneg x). rewrite <- splice_splice_app by lia.
  rewrite <- zslice_shrink by lia.
  replace (zslice (a + len x) b l) with (zslice (a + len x) b (splice l a x)).
  { apply splice_zslice; [lia|]. rewrite len_splice; lia. }
  unfold zslice, splice. rewrite app_assoc, zdrop_app_ge by len_lia.
  by rewrite (zdrop_le0 (_ - _)) by len_lia.
Qed.

Lemma owp_slice {A} (l : list A) a b (Q : list A -> Prop) :
  0 <= a <= b -> b <= len l -> Q (zslice a b l) -> owp (slice l a b) Q.
Proof.
  intros ?? HQ. unfold slice.
  replace ((0 <=? a) && (a <=? b) && (b <=? len l)) with true by lia. exact HQ.
Qed.
Lemma owp_copy_from_slice {A} (dst src : list A) (Q : list A -> Prop) :
  len dst = len src -> Q src -> owp (copy_from_slice dst src) Q.
Proof. intros H ?. unfold copy_from_slice. by rewrite H, Z.eqb_refl. Qed.
Lemma owp_usize_sub a b (Q : Z -> Prop) : b <= a -> Q (a - b) -> owp (usize_sub a b) Q.
Proof. intros ??. unfold usize_sub. by replace (b <=? a) with true by lia. Qed.
Lemma index_lookup {A} (l : list A) i x : l !! Z.to_nat i = Some x -> 0 <= i -> index l i = Returns x.
Proof. intros H ?. unfold index. rewrite H. by replace (i <? 0) with false by lia. Qed.

Lemma slice_run {A} (l : list A) a b :
  0 <= a <= b -> b <= len l -> slice l a b = Returns (zslice a b l).
Proof. intros. unfold slice. by replace ((0 <=? a) && (a <=? b) && (b <=? len l)) with true by lia. Qed.
Lemma index_run {A} (l : list A) i :
  0 <= i < len l -> exists x, index l i = Returns x /\ zslice i (i + 1) l = [x].
Proof.
  intros Hi. unfold len in Hi.
  destruct (lookup_lt_is_Some_2 l (Z.to_nat i)) as [x Hx]; [lia|].
  exists x. split; [by apply index_lookup; [|lia]|].
  unfold zslice, ztake, zdrop. replace (Z.to_nat (i + 1 - i)) with 1%nat by lia.
  by rewrite (drop_S l x) by done.
Qed.

(** ** Symbolic execution

    One step of a [wp] goal, driven by the head of the program. The rules of the
    components' operations are not here: each component applies its own. *)
Ltac wp_step :=
  lazymatch goal with
  | |- wp (ret _) _ _ => apply wp_ret
  | |- wp (bind _ _) _ _ => apply wp_bind
  | |- wp (bind_try _ _) _ _ => apply wp_bind_try
  | |- wp (gets _) _ _ => apply wp_gets
  | |- wp (gets_o _) _ _ => apply wp_gets_o
  | |- wp (modify _) _ _ => apply wp_modify
  | |- wp (lift _) _ _ => apply wp_lift
  | |- wp (zoom _ _ _) _ _ => apply wp_zoom
  | |- owp (slice _ _ _) _ => apply owp_slice; [lia | len_lia | ]
  | |- owp (usize_sub _ _) _ => apply owp_usize_sub; [lia | ]
  | |- owp (copy_from_slice _ _) _ => apply owp_copy_from_slice; [len_lia | ]
  | |- owp (obind _ _) _ => apply owp_obind
  | |- owp (Returns _) _ => cbn [owp]
  end.
Ltac wp_steps := repeat (wp_step; cbn beta iota delta [id]).

(** ** Bytes and integers *)

(** [lia] with division and remainder by constants. *)
Ltac dm_lia := Z.to_euclidean_division_equations; lia.

Lemma u8_range b : 0 <= u8 b < 256.
Proof. unfold u8. pose proof (Byte.to_N_bounded b). lia. Qed.
Lemma u8_byte_of z : u8 (byte_of z) = z mod 256.
Proof.
  unfold u8, byte_of.
  destruct (Byte.of_N (Z.to_N (z mod 256))) as [b|] eqn:E.
  - apply Byte.to_of_N in E. rewrite E. dm_lia.
  - apply Byte.of_N_None_iff in E. dm_lia.
Qed.
Lemma byte_of_u8 b : byte_of (u8 b) = b.
Proof.
  unfold byte_of. rewrite Z.mod_small by apply u8_range.
  unfold u8. by rewrite N2Z.id, Byte.of_to_N.
Qed.

Lemma length_to_le_bytes n z : length (to_le_bytes n z) = n.
Proof. revert z. induction n; cbn [to_le_bytes length]; auto. Qed.
Lemma len_to_le_bytes n z : len (to_le_bytes n z) = Z.of_nat n.
Proof. unfold len. by rewrite length_to_le_bytes. Qed.
#[export] Hint Rewrite @len_to_le_bytes : len_db.

Lemma from_to_le_bytes n z : from_le_bytes (to_le_bytes n z) = z mod 256 ^ Z.of_nat n.
Proof.
  revert z. induction n as [|n IH]; intros z; cbn [to_le_bytes from_le_bytes].
  - by rewrite Z.mod_1_r.
  - rewrite IH, u8_byte_of, Nat2Z.inj_succ, Z.pow_succ_r by lia.
    rewrite Z.rem_mul_r by (pose proof (Z.pow_pos_nonneg 256 (Z.of_nat n)); lia). done.
Qed.
Lemma from_le_bytes_range l : 0 <= from_le_bytes l < 256 ^ len l.
Proof.
  induction l as [|b l IH]; [by vm_compute|].
  pose proof (len_nonneg l). rewrite len_cons, Z.pow_add_r by lia. cbn [from_le_bytes].
  pose proof (u8_range b). lia.
Qed.
Lemma to_from_le_bytes l : to_le_bytes (length l) (from_le_bytes l) = l.
Proof.
  induction l as [|b l IH]; [done|]. cbn [length to_le_bytes from_le_bytes].
  pose proof (u8_range b).
  replace ((u8 b + 256 * from_le_bytes l) / 256) with (from_le_bytes l) by dm_lia.
  rewrite IH. f_equal.
  transitivity (byte_of (u8 b)); [ | apply byte_of_u8].
  unfold byte_of. by replace ((u8 b + 256 * from_le_bytes l) mod 256) with (u8 b mod 256) by dm_lia.
Qed.
Lemma from_be_bytes_range l : 0 <= from_be_bytes l < 256 ^ len l.
Proof. rewrite <- (len_rev l). apply from_le_bytes_range. Qed.
Lemma from_to_be_bytes n z : from_be_bytes (to_be_bytes n z) = z mod 256 ^ Z.of_nat n.
Proof. unfold from_be_bytes, to_be_bytes. rewrite rev_involutive. apply from_to_le_bytes. Qed.
Lemma len_to_be_bytes n z : len (to_be_bytes n z) = Z.of_nat n.
Proof. unfold to_be_bytes. by rewrite len_rev, len_to_le_bytes. Qed.
#[export] Hint Rewrite @len_to_be_bytes : len_db.

(** ** Byte accesses *)

Lemma u8_at_run cb i : 0 <= i < len cb -> exists v, u8_at cb i = Returns v /\ 0 <= v < 256.
Proof.
  intros Hi. destruct (index_run cb i Hi) as (b & Hb & _). exists (u8 b).
  unfold u8_at. rewrite Hb. split; [done|apply u8_range].
Qed.
Lemma u8_at_out cb i : len cb <= i -> u8_at cb i = Panics.
Proof.
  intros Hi. pose proof (len_nonneg cb). unfold u8_at, index.
  replace (i <? 0) with false by lia. rewrite lookup_ge_None_2; [done|]. unfold len in Hi. lia.
Qed.
Lemma u8_at_lookup l i z :
  l !! Z.to_nat i = Some (byte_of z) -> 0 <= i -> 0 <= z < 256 -> u8_at l i = Returns z.
Proof.
  intros Hl Hi Hz. unfold u8_at. rewrite (index_lookup l i _ Hl Hi). cbn [obind].
  by rewrite u8_byte_of, Z.mod_small.
Qed.

(** A constant range, or one that a hypothesis states for the field. *)
Ltac field_range :=
  first
    [ lia
    | match goal with
      | |- _ <= _ < 256 ^ Z.of_nat ?n =>
        let v := eval vm_compute in (256 ^ Z.of_nat n) in change (256 ^ Z.of_nat n) with v; lia
      end
    | match goal with Hf : forall _ _, _ |- _ => apply Hf; lia end ].
Ltac byte_field :=
  match goal with
  | |- context [u8_at ?l ?i] =>
    erewrite (u8_at_lookup l i); [|reflexivity|lia|field_range]; cbn [obind]
  end.
(** Evaluate the comparisons of opcodes that are known. *)
Ltac closed_eqb :=
  repeat match goal with
  | |- context [?a =? ?b] =>
    let v := eval vm_compute in (a =? b) in
    lazymatch v with
    | true => change (a =? b) with true
    | false => change (a =? b) with false
    end
  end; cbn [andb].


Arguments to_le_bytes : simpl never.
Arguments from_le_bytes : simpl never.
