(* ===== verification/Usb.v ===== *)
(** * The interface to the [usb-device] stack

    [usb-device] is a dependency: its code is not part of the repository, so
    everything the transport and the subclasses call in it is an operation of
    the class [UsbStack], and what they rely on is the class [UsbStackLaws]. The
    laws state the documented behaviour of the stack's endpoints: a read or a
    write moves at most one packet, in order, and an error moves nothing. The
    test bus of the repository is an instance (file MockBus). *)
From S2P Require Import Prelude.

Local Open Scope Z_scope.
Local Open Scope rust_scope.

(** The direction an endpoint is allocated with ([Endpoint<In>], [Endpoint<Out>]). *)
Inductive UsbDirection := UsbDirOut | UsbDirIn.

(** The fields of a control request that the transport looks at. *)
Record Request := mkRequest {
  request_is_class : bool;          (* request_type == RequestType::Class *)
  recipient_is_interface : bool;    (* recipient == Recipient::Interface *)
  request : Z                       (* u8 *)
}.

(** Types and operations of the stack. [Bus] is everything behind the shared
    reference to the bus: the endpoints' buffers and stall flags, and the pending
    control transfer. *)
Class UsbStack := {
  Bus : Type;
  Endpoint : Type;
  UsbError : Type;
  InterfaceNumber : Type;
  DescriptorWriter : Type;
  (** [Endpoint::max_packet_size], a [u16]. *)
  max_packet_size : Endpoint -> Z;
  (** [UsbBusAllocator::bulk]: panics when the allocation fails. *)
  alloc_bulk : UsbDirection -> Z -> M Bus Endpoint;
  (** [UsbBusAllocator::interface]. *)
  alloc_interface : M Bus InterfaceNumber;
  (** [Endpoint<In>::write]. *)
  ep_write : Endpoint -> list byte -> M Bus (result Z UsbError);
  (** [Endpoint<Out>::read]: what the slice holds afterwards, and the result. *)
  ep_read : Endpoint -> list byte -> M Bus (list byte * result Z UsbError);
  ep_stall : Endpoint -> M Bus unit;
  ep_unstall : Endpoint -> M Bus unit;
  (** [ControlIn::accept_with]. *)
  accept_with : list byte -> M Bus (result unit UsbError);
  (** [DescriptorWriter::{endpoint, iad, interface}]. *)
  writer_endpoint : Endpoint -> M DescriptorWriter (result unit UsbError);
  writer_iad : InterfaceNumber -> Z -> Z -> Z -> Z -> M DescriptorWriter (result unit UsbError);
  writer_interface : InterfaceNumber -> Z -> Z -> Z -> M DescriptorWriter (result unit UsbError)
}.

(** Documented behaviour of the stack. [in_log] is all that the device has put on
    the IN endpoint since power-up, [out_log] all that it has taken from the OUT
    endpoint, [stalled] the halt condition; [bus_ok i o b] says that [i] and [o]
    are live IN and OUT endpoints of [b], and [host_step] what the host may do to
    the bus between two calls into the device. *)
Class UsbStackLaws `{!UsbStack} := {
  bus_fresh : Bus -> Prop;
  bus_ok : Endpoint -> Endpoint -> Bus -> Prop;
  in_log : Bus -> list byte;
  out_log : Bus -> list byte;
  stalled : Endpoint -> Bus -> Prop;
  host_step : Bus -> Bus -> Prop;

  (** Both bulk endpoints of a fresh bus can be allocated, with the asked size. *)
  alloc_law b ps :
    bus_fresh b -> 0 < ps < 2 ^ 16 ->
    wp (let! i := alloc_bulk UsbDirIn ps in
        let! o := alloc_bulk UsbDirOut ps in ret (i, o))
       (fun '(i, o) b' => bus_ok i o b' /\ max_packet_size i = ps /\ max_packet_size o = ps /\
          in_log b' = in_log b /\ out_log b' = out_log b) b;
  alloc_interface_law i o b :
    bus_ok i o b ->
    wp alloc_interface (fun _ b' => bus_ok i o b' /\ in_log b' = in_log b /\
      out_log b' = out_log b) b;

  (** One packet at most is written; its first [n] bytes are on their way. *)
  ep_write_law i o b data :
    bus_ok i o b -> len data <= max_packet_size i ->
    wp (ep_write i data)
       (fun r b' => bus_ok i o b' /\ out_log b' = out_log b /\
          match r with
          | Ok n => 0 <= n <= len data /\ in_log b' = in_log b ++ ztake n data
          | Err _ => in_log b' = in_log b
          end) b;
  (** One packet at most is read, into the beginning of the slice. *)
  ep_read_law i o b sl :
    bus_ok i o b -> max_packet_size o <= len sl ->
    wp (ep_read o sl)
       (fun '(sl', r) b' => bus_ok i o b' /\ in_log b' = in_log b /\ len sl' = len sl /\
          match r with
          | Ok n => 0 <= n <= len sl /\ out_log b' = out_log b ++ ztake n sl'
          | Err _ => out_log b' = out_log b
          end) b;
  ep_stall_law i o b ep :
    bus_ok i o b -> ep = i \/ ep = o ->
    wp (ep_stall ep) (fun _ b' => bus_ok i o b' /\ in_log b' = in_log b /\
      out_log b' = out_log b /\ stalled ep b' /\
      (forall ep', stalled ep' b -> stalled ep' b')) b;
  ep_unstall_law i o b ep :
    bus_ok i o b -> ep = i \/ ep = o ->
    wp (ep_unstall ep) (fun _ b' => bus_ok i o b' /\ in_log b' = in_log b /\
      out_log b' = out_log b) b;
  accept_with_law i o b data :
    bus_ok i o b ->
    wp (accept_with data) (fun _ b' => bus_ok i o b' /\ in_log b' = in_log b /\
      out_log b' = out_log b) b;
  (** The host keeps the endpoints alive and cannot take back what was moved. *)
  host_step_law i o b b' :
    host_step b b' -> bus_ok i o b ->
    bus_ok i o b' /\ in_log b' = in_log b /\ out_log b' = out_log b
}.
