(* ===== verification/Buffer.v ===== *)
(** * The transport's IO buffer ([usbd-storage/src/buffer.rs])

    [Buffer] is the byte array with a read and a write position; its methods
    are translated one by one, with the slice accesses, the subtractions and the
    assertions that can panic. The closures of [write_all] and [read] work on a
    slice and on a world [W] of captured variables (the bus, or a local array).
    The second half shows that the buffer implements a bounded FIFO queue
    ([Fifo]): every method keeps the positions in range, never panics, and does
    to the queue what the queue's operation does; [buf_equiv] is the equality of
    the queues, which the moves of [shift] do not change. *)
From S2P Require Import Prelude.
From Stdlib Require Import Setoid Morphisms.

Local Open Scope Z_scope.
Local Open Scope rust_scope.

Record Buffer := mkBuffer {
  inner : list byte;
  rpos : Z;
  wpos : Z
}.

Definition set_inner (l : list byte) (b : Buffer) : Buffer := mkBuffer l (rpos b) (wpos b).
Definition set_rpos (r : Z) (b : Buffer) : Buffer := mkBuffer (inner b) r (wpos b).
Definition set_wpos (w : Z) (b : Buffer) : Buffer := mkBuffer (inner b) (rpos b) w.

Definition new (inner : list byte) : Buffer := mkBuffer inner 0 0.

Definition available_read (b : Buffer) : outcome Z := usize_sub (wpos b) (rpos b).

Definition available_write (b : Buffer) : outcome Z := usize_sub (len (inner b)) (wpos b).

Definition clear : M Buffer unit :=
  do! modify (set_rpos 0) in modify (set_wpos 0).

(** [copy_within(r..w, 0)] moves the unread bytes to the front. *)
Definition shift : M Buffer unit :=
  let! b := gets id in
  if negb (rpos b =? wpos b) then
    let! moved := lift (slice (inner b) (rpos b) (wpos b)) in
    do! modify (set_inner (splice (inner b) 0 moved)) in
    let! w := lift (usize_sub (wpos b) (rpos b)) in
    do! modify (set_wpos w) in
    modify (set_rpos 0)
  else clear.

Definition write (data : list byte) : M Buffer Z :=
  let! aw := gets_o available_write in
  do! when (aw <? len data) shift in
  let! aw := gets_o available_write in
  let count := Z.min aw (len data) in
  let! b := gets id in
  let! src := lift (slice data 0 count) in
  let! dst := lift (slice (inner b) (wpos b) (wpos b + count)) in
  let! dst := lift (copy_from_slice dst src) in
  do! modify (set_inner (splice (inner b) (wpos b) dst)) in
  do! modify (set_wpos (wpos b + count)) in
  do! assert (wpos b + count <=? len (inner b)) in
  ret count.

Definition fill_up_to (value : byte) (up_to : Z) : M Buffer unit :=
  let! aw := gets_o available_write in
  do! when (aw <? up_to) shift in
  let! aw := gets_o available_write in
  let count := Z.min aw up_to in
  let! b := gets id in
  let! dst := lift (slice (inner b) (wpos b) (wpos b + count)) in
  do! modify (set_inner (splice (inner b) (wpos b) (zreplicate (len dst) value))) in
  do! modify (set_wpos (wpos b + count)) in
  assert (wpos b + count <=? len (inner b)).

(** The state of a method whose closure works on the world [W] is the pair of
    the buffer and that world. *)
Definition on_buf {W A} (m : M Buffer A) : M (Buffer * W) A :=
  zoom fst (fun b s => (b, snd s)) m.
Definition on_world {W A} (m : M W A) : M (Buffer * W) A :=
  zoom snd (fun w s => (fst s, w)) m.

(** A closure [FnOnce(&mut [u8]) -> Result<usize, E>]: what the slice holds after
    the call, and the result. *)
Definition closure (W E : Type) : Type := list byte -> M W (list byte * result Z E).

Definition write_all {W E} (max_count : Z) (overflow_err : E) (f : closure W E)
    : M (Buffer * W) (result Z E) :=
  let! aw := gets_o (available_write ∘ fst) in
  do! when (aw <? max_count) (on_buf shift) in
  let! aw := gets_o (available_write ∘ fst) in
  if aw <? max_count then ret (Err overflow_err)
  else
    let! b := gets fst in
    let! dst := lift (slice (inner b) (wpos b) (wpos b + max_count)) in
    let! (dst, r) := on_world (f dst) in
    do! on_buf (modify (set_inner (splice (inner b) (wpos b) dst))) in
    let? count := ret r in
    let! room := lift (usize_sub (len (inner b)) (wpos b)) in
    let advance_by := Z.min count room in
    do! on_buf (modify (set_wpos (wpos b + advance_by))) in
    do! assert (wpos b + advance_by <=? len (inner b)) in
    ret (Ok advance_by).

Definition read {W E} (f : closure W E) : M (Buffer * W) (result Z E) :=
  let! ar := gets_o (available_read ∘ fst) in
  let! b := gets fst in
  let boundary := rpos b + ar in
  let! src := lift (slice (inner b) (rpos b) boundary) in
  let! (src, r) := on_world (f src) in
  do! on_buf (modify (set_inner (splice (inner b) (rpos b) src))) in
  let? count := ret r in
  let! ar := gets_o (available_read ∘ fst) in
  let advance_by := Z.min count ar in
  do! on_buf (modify (set_rpos (rpos b + advance_by))) in
  do! assert (rpos b + advance_by <=? wpos b) in
  ret (Ok advance_by).

(** ** The specification: a bounded FIFO queue *)

Definition contents (b : Buffer) : list byte := zslice (rpos b) (wpos b) (inner b).
Definition capacity (b : Buffer) : Z := len (inner b).

(** Positions in range: the invariant of the type. *)
Definition wf_buf (b : Buffer) : Prop := 0 <= rpos b <= wpos b /\ wpos b <= len (inner b).

Record Fifo := mkFifo { fifo_capacity : Z; fifo_items : list byte }.

Definition abs (b : Buffer) : Fifo := mkFifo (capacity b) (contents b).

Definition fifo_room (q : Fifo) : Z := fifo_capacity q - len (fifo_items q).
Definition fifo_push (q : Fifo) (data : list byte) : Fifo :=
  mkFifo (fifo_capacity q) (fifo_items q ++ data).
(** Enqueue as much of [data] as fits. *)
Definition fifo_write (data : list byte) (q : Fifo) : Z * Fifo :=
  let n := Z.min (fifo_room q) (len data) in (n, fifo_push q (ztake n data)).
Definition fifo_pop (n : Z) (q : Fifo) : Fifo :=
  mkFifo (fifo_capacity q) (zdrop n (fifo_items q)).

(** Equality of the queues: what an observer of the buffer can tell apart. *)
Record buf_equiv (b1 b2 : Buffer) : Prop := {
  buf_equiv_capacity : capacity b1 = capacity b2;
  buf_equiv_contents : contents b1 = contents b2
}.
Infix "≃" := buf_equiv (at level 70).

#[export] Instance buf_equiv_equivalence : Equivalence buf_equiv.
Proof.
  split; red.
  - done.
  - by intros b1 b2 [].
  - intros b1 b2 b3 [] []. split; congruence.
Qed.
#[export] Instance contents_proper : Proper (buf_equiv ==> eq) contents.
Proof. by intros b1 b2 []. Qed.
#[export] Instance capacity_proper : Proper (buf_equiv ==> eq) capacity.
Proof. by intros b1 b2 []. Qed.
#[export] Instance abs_proper : Proper (buf_equiv ==> eq) abs.
Proof. intros b1 b2 []. unfold abs. congruence. Qed.

(** ** Facts about well-formed buffers *)

Lemma len_contents b : wf_buf b -> len (contents b) = wpos b - rpos b.
Proof. intros [? ?]. unfold contents. len_lia. Qed.

Lemma len_contents_le b : wf_buf b -> len (contents b) <= capacity b.
Proof. intros Hb. rewrite len_contents by done. destruct Hb. unfold capacity. lia. Qed.

Lemma available_read_eq b : wf_buf b -> available_read b = Returns (len (contents b)).
Proof.
  intros Hb. rewrite len_contents by done. destruct Hb.
  unfold available_read, usize_sub. by replace (rpos b <=? wpos b) with true by lia.
Qed.

Lemma available_write_eq b : wf_buf b -> available_write b = Returns (len (inner b) - wpos b).
Proof.
  intros [? ?]. unfold available_write, usize_sub.
  by replace (wpos b <=? len (inner b)) with true by lia.
Qed.

Lemma available_write_run {W} b (w : W) :
  wf_buf b -> gets_o (available_write ∘ fst) (b, w) = Returns (len (inner b) - wpos b, (b, w)).
Proof. intros Hb. unfold gets_o, compose. cbn [fst]. by rewrite available_write_eq. Qed.
Lemma available_read_run {W} b (w : W) :
  wf_buf b -> gets_o (available_read ∘ fst) (b, w) = Returns (len (contents b), (b, w)).
Proof. intros Hb. unfold gets_o, compose. cbn [fst]. by rewrite available_read_eq. Qed.

(** The step that [write], [fill_up_to] and [write_all] end with: bytes are put
    right behind the unread ones, and the first [n] of them join the queue. *)
Lemma append_wf new n b :
  wf_buf b -> 0 <= n <= len new -> len new <= len (inner b) - wpos b ->
  wf_buf (set_wpos (wpos b + n) (set_inner (splice (inner b) (wpos b) new) b)).
Proof. intros [? ?] ??. unfold wf_buf. cbn. rewrite len_splice by lia. lia. Qed.
Lemma append_abs new n b :
  wf_buf b -> 0 <= n <= len new -> len new <= len (inner b) - wpos b ->
  abs (set_wpos (wpos b + n) (set_inner (splice (inner b) (wpos b) new) b)) =
  fifo_push (abs b) (ztake n new).
Proof.
  intros [? ?] ??. unfold abs, fifo_push, capacity, contents. cbn.
  rewrite len_splice, zslice_splice_app by lia. done.
Qed.

(** Bytes scribbled behind the unread ones and then disowned do not matter. *)
Lemma scribble_wf new b :
  wf_buf b -> len new <= len (inner b) - wpos b ->
  wf_buf (set_inner (splice (inner b) (wpos b) new) b).
Proof. intros [? ?] ?. unfold wf_buf. cbn. rewrite len_splice by lia. lia. Qed.
Lemma scribble_equiv new b :
  wf_buf b -> len new <= len (inner b) - wpos b ->
  b ≃ set_inner (splice (inner b) (wpos b) new) b.
Proof.
  intros [? ?] ?. pose proof (len_nonneg new). split.
  - unfold capacity. cbn. by rewrite len_splice by lia.
  - unfold contents. cbn. rewrite <- (Z.add_0_r (wpos b)) at 2.
    by rewrite zslice_splice_app, (ztake_le0 0), app_nil_r by lia.
Qed.

(** Bytes consumed from the front. *)
Lemma advance_wf n b :
  wf_buf b -> 0 <= n <= len (contents b) -> wf_buf (set_rpos (rpos b + n) b).
Proof.
  intros Hb. rewrite len_contents by done. destruct Hb. intros. unfold wf_buf. cbn. lia.
Qed.
Lemma advance_abs n b :
  wf_buf b -> 0 <= n -> abs (set_rpos (rpos b + n) b) = fifo_pop n (abs b).
Proof.
  intros [? ?] ?. unfold abs, fifo_pop, contents. cbn. f_equal. apply zslice_shrink; lia.
Qed.

(** ** The rules of the methods *)

Lemma wp_clear Q b :
  0 <= len (inner b) ->
  (forall b', wf_buf b' -> abs b' = mkFifo (capacity b) [] -> Q tt b') ->
  wp clear Q b.
Proof.
  intros ? HQ. unfold clear. wp_steps. apply HQ; [by unfold wf_buf; cbn|].
  unfold abs, contents. by rewrite zslice_empty.
Qed.

Lemma wp_shift Q b :
  wf_buf b ->
  (forall b', wf_buf b' -> b ≃ b' -> rpos b' = 0 -> Q tt b') ->
  wp shift Q b.
Proof.
  intros [? ?] HQ. unfold shift. wp_steps. cbn [id].
  destruct (rpos b =? wpos b) eqn:E; cbn [negb].
  - unfold clear. wp_steps. apply HQ; [unfold wf_buf; cbn; len_lia | | done].
    split; [done|]. unfold contents. cbn. rewrite !zslice_empty by lia. done.
  - wp_steps. cbn. wp_steps. cbn.
    set (moved := zslice (rpos b) (wpos b) (inner b)).
    assert (len moved = wpos b - rpos b) by (unfold moved; len_lia).
    apply HQ; [ | | done].
    + unfold wf_buf. cbn. rewrite len_splice by lia. lia.
    + split; unfold contents, capacity; cbn; [by rewrite len_splice by lia|].
      replace (wpos b - rpos b) with (0 + len moved) by lia.
      rewrite zslice_splice_app, (zslice_empty 0 0), ztake_all by lia. done.
Qed.

(** The bytes from the write position to the end of the array, and how many they are once
    room was made for [n]: [shift] runs if they are fewer. *)
Definition behind (b : Buffer) : list byte := zslice (wpos b) (len (inner b)) (inner b).
Definition spare (n : Z) (b : Buffer) : Z :=
  if len (behind b) <? n then fifo_room (abs b) else len (behind b).

Lemma len_behind b : wf_buf b -> len (behind b) = len (inner b) - wpos b.
Proof. intros [? ?]. unfold behind. len_lia. Qed.

(** The first step of the writing methods: room is made for [n] bytes if there
    can be any, and what the queue holds stays. *)
Lemma make_room_run n b :
  wf_buf b ->
  exists b', when (len (inner b) - wpos b <? n) shift b = Returns (tt, b') /\
    wf_buf b' /\ b ≃ b' /\ len (inner b') - wpos b' = spare n b /\
    Z.min (len (inner b') - wpos b') n = Z.min (fifo_room (abs b)) n.
Proof.
  intros Hb. pose proof (len_contents _ Hb) as Hlen. unfold spare. rewrite (len_behind b Hb).
  unfold fifo_room, abs. cbn [fifo_capacity fifo_items]. unfold capacity at 1 2.
  enough (wp (when (len (inner b) - wpos b <? n) shift) (fun _ b' => wf_buf b' /\ b ≃ b' /\
    len (inner b') - wpos b' = (if len (inner b) - wpos b <? n then len (inner b) - len (contents b)
                                else len (inner b) - wpos b) /\
    Z.min (len (inner b') - wpos b') n = Z.min (len (inner b) - len (contents b)) n) b)
    as (? & b' & ? & ?)%wp_run by (destruct_all unit; eauto).
  apply wp_when; intros Hn; rewrite Hn.
  - apply wp_shift; [done|]. intros b' Hb' Heq Hr. split; [done|]. split; [done|].
    pose proof (len_contents _ Hb') as Hlen'. rewrite <- (buf_equiv_contents _ _ Heq) in Hlen'.
    pose proof (buf_equiv_capacity _ _ Heq). unfold capacity in *. destruct Hb, Hb'. lia.
  - destruct Hb. split; [done|]. split; [done|]. lia.
Qed.

Lemma fifo_room_nonneg b : wf_buf b -> 0 <= fifo_room (abs b).
Proof. intros Hb. apply len_contents_le in Hb. unfold fifo_room. cbn. lia. Qed.

(** [write] enqueues as much as fits. *)
Lemma wp_write data Q b :
  wf_buf b ->
  (forall b', wf_buf b' -> abs b' = snd (fifo_write data (abs b)) ->
     Q (fst (fifo_write data (abs b))) b') ->
  wp (write data) Q b.
Proof.
  intros Hb HQ. destruct (make_room_run (len data) b Hb) as (b' & Hrun & Hb' & Heq & _ & Hn).
  pose proof (fifo_room_nonneg b Hb). pose proof (len_nonneg data). pose proof Hb' as [? ?].
  unfold write. wp_steps. rewrite available_write_eq by done. cbn [owp]. wp_steps.
  unfold wp at 1. rewrite Hrun. wp_steps. rewrite available_write_eq by done. cbn [owp].
  rewrite Hn. unfold fifo_write in HQ. cbn [fst snd] in HQ.
  set (n := Z.min (fifo_room (abs b)) (len data)) in *. cbn [fst].
  assert (0 <= n <= len data /\ n <= len (inner b') - wpos b') by lia.
  wp_steps. cbn.
  assert (len (ztake n data) = n) by len_lia.
  replace (zslice 0 n data) with (ztake n data)
    by (unfold zslice; rewrite zdrop_le0 by lia; f_equal; lia).
  apply wp_assert; [lia|]. apply wp_ret, HQ.
  - apply append_wf; [done|lia..].
  - rewrite append_abs, Heq by (done || lia). by rewrite ztake_all by lia.
Qed.

(** [fill_up_to] enqueues the filler as often as it fits. *)
Lemma wp_fill_up_to v k Q b :
  wf_buf b -> 0 <= k ->
  (forall b', wf_buf b' ->
     abs b' = fifo_push (abs b) (zreplicate (Z.min (fifo_room (abs b)) k) v) -> Q tt b') ->
  wp (fill_up_to v k) Q b.
Proof.
  intros Hb Hk HQ. destruct (make_room_run k b Hb) as (b' & Hrun & Hb' & Heq & _ & Hn).
  pose proof (fifo_room_nonneg b Hb). pose proof Hb' as [? ?].
  unfold fill_up_to. wp_steps. rewrite available_write_eq by done. cbn [owp]. wp_steps.
  unfold wp at 1. rewrite Hrun. wp_steps. rewrite available_write_eq by done. cbn [owp].
  rewrite Hn. set (n := Z.min (fifo_room (abs b)) k) in *. wp_steps. cbn.
  replace (len (zslice (wpos b') (wpos b' + n) (inner b'))) with n by len_lia.
  assert (len (zreplicate n v) = n) by len_lia.
  apply wp_assert; [lia|]. apply HQ.
  - apply append_wf; [done|lia..].
  - rewrite append_abs, Heq by (done || lia). by rewrite ztake_all by lia.
Qed.

Lemma when_on_buf_run {W} c (m : M Buffer unit) (b b' : Buffer) (w : W) :
  when c m b = Returns (tt, b') -> when c (on_buf m) (b, w) = Returns (tt, (b', w)).
Proof.
  destruct c; cbn [when]; [|by intros [= ->]]. intros Hrun. unfold on_buf, zoom. cbn [fst snd]. by rewrite Hrun.
Qed.
Lemma wp_run_buf {W A} (m : M (Buffer * W) A) a w (P : Buffer -> Prop) s :
  wp m (fun a' '(b', w') => a' = a /\ w' = w /\ P b') s -> exists b', m s = Returns (a, (b', w)) /\ P b'.
Proof. intros (? & [b' ?] & -> & -> & -> & HP)%wp_run. by exists b'. Qed.

(** The bytes that a closure leaves in a slice, and those behind the slice. *)
Lemma splice_behind dst b :
  wf_buf b -> len dst <= len (behind b) ->
  splice (inner b) (wpos b) (dst ++ zdrop (len dst) (behind b)) = splice (inner b) (wpos b) dst.
Proof.
  intros Hb. rewrite (len_behind b Hb). intros Hl. unfold behind. destruct Hb. apply splice_prefix; lia.
Qed.

(** [write_all] where the queue has no room for [max_count] bytes: the overflow error, and
    the closure is not called. *)
Lemma write_all_overflows {W E} max_count (e : E) (f : closure W E) b w :
  wf_buf b -> fifo_room (abs b) < max_count ->
  exists b', write_all max_count e f (b, w) = Returns (Err e, (b', w)) /\ wf_buf b' /\ b ≃ b'.
Proof.
  intros Hb Hroom. destruct (make_room_run max_count b Hb) as (b' & Hrun & Hb' & Heq & _ & Hn).
  exists b'. split; [|done]. unfold write_all. erewrite bind_returns by (by apply available_write_run).
  erewrite bind_returns by (by apply when_on_buf_run).
  erewrite bind_returns by (by apply available_write_run). by replace (_ <? max_count) with true by lia.
Qed.

(** Where it has: the closure gets a slice [dst] of that length. Its count may be more than
    that: the bytes behind the slice, [stale], join the queue as well, up to the end of
    the array. *)
Lemma write_all_fits {W E} max_count (e : E) (f : closure W E) b w :
  wf_buf b -> 0 <= max_count <= fifo_room (abs b) ->
  let room := spare max_count b in
  exists dst stale, len dst = max_count /\ len (dst ++ stale) = room /\
    match f dst w with
    | Returns ((dst', Ok n), w') => len dst' = max_count -> 0 <= n ->
        exists b', write_all max_count e f (b, w) = Returns (Ok (Z.min n room), (b', w')) /\
          wf_buf b' /\ abs b' = fifo_push (abs b) (ztake (Z.min n room) (dst' ++ stale))
    | Returns ((dst', Err e'), w') => len dst' = max_count ->
        exists b', write_all max_count e f (b, w) = Returns (Err e', (b', w')) /\ wf_buf b' /\ b ≃ b'
    | Panics => write_all max_count e f (b, w) = Panics
    | OutOfFuel => write_all max_count e f (b, w) = OutOfFuel
    end.
Proof.
  intros Hb Hm room. destruct (make_room_run max_count b Hb) as (b1 & Hrun & Hb1 & Heq & Hroom & Hn).
  fold room in Hroom. pose proof Hb1 as [? ?]. pose proof (len_behind b1 Hb1) as Hbehind.
  exists (ztake max_count (behind b1)), (zdrop max_count (behind b1)).
  split; [len_lia|]. split; [rewrite ztake_zdrop; lia|].
  eassert (write_all max_count e f (b, w) = _) as ->.
  { unfold write_all. erewrite bind_returns by (by apply available_write_run).
    erewrite bind_returns by (by apply when_on_buf_run).
    erewrite bind_returns by (by apply available_write_run). replace (_ <? max_count) with false by lia.
    erewrite bind_returns by done. cbn [fst].
    erewrite bind_returns by (unfold lift, gets_o; by rewrite slice_run by lia).
    replace (zslice (wpos b1) (wpos b1 + max_count) (inner b1)) with (ztake max_count (behind b1))
      by (unfold behind, zslice; rewrite ztake_ztake; f_equal; lia).
    unfold bind at 1, on_world at 1, zoom at 1. cbn [fst snd]. reflexivity. }
  destruct (f _ w) as [[[dst' [n|e']] w']| |]; [intros Hl Hn0|intros Hl|done..]; apply wp_run_buf; unfold on_buf; wp_steps; cbn.
  - apply wp_assert; [lia|]. apply wp_ret. rewrite Hroom.
    set (new := dst' ++ zdrop max_count (behind b1)). assert (len new = room) by (unfold new; len_lia).
    replace (splice (inner b1) (wpos b1) dst') with (splice (inner b1) (wpos b1) new)
      by (unfold new; rewrite <- Hl; apply splice_behind; [done|lia]).
    split; [done|]. split; [done|].
    split; [apply append_wf|rewrite append_abs, Heq]; (done || lia).
  - split; [done|]. split; [done|]. split; [apply scribble_wf; [done|lia]|].
    etransitivity; [exact Heq|]. apply scribble_equiv; [done|lia].
Qed.

(** So for a closure that reports at most [max_count] bytes: these are enqueued. *)
Lemma wp_write_all {W E} max_count (e : E) (f : closure W E) Q b w :
  wf_buf b -> 0 <= max_count ->
  (fifo_room (abs b) < max_count -> forall b', wf_buf b' -> b ≃ b' -> Q (Err e) (b', w)) ->
  (max_count <= fifo_room (abs b) -> forall dst, len dst = max_count ->
     wp (f dst) (fun '(dst', r) w' => len dst' = max_count /\
       match r with
       | Ok n => 0 <= n <= max_count /\ forall b', wf_buf b' ->
           abs b' = fifo_push (abs b) (ztake n dst') -> Q (Ok n) (b', w')
       | Err e' => forall b', wf_buf b' -> b ≃ b' -> Q (Err e') (b', w')
       end) w) ->
  wp (write_all max_count e f) Q (b, w).
Proof.
  intros Hb Hm Hover Hfits. destruct (Z.lt_ge_cases (fifo_room (abs b)) max_count) as [Hlt|Hge].
  { destruct (write_all_overflows max_count e f b w Hb Hlt) as (b' & Hrun & ? & ?). apply wp_run. eauto. }
  destruct (write_all_fits max_count e f b w Hb ltac:(lia)) as (dst & stale & Hdst & Hroom & Hrun).
  pose proof (Hfits Hge dst Hdst) as ([dst' r] & w' & Hf & Hl & Hr)%wp_run. rewrite Hf in Hrun.
  rewrite len_app in Hroom. pose proof (len_nonneg stale). apply wp_run. destruct r as [n|e'].
  - destruct Hr as [Hn HQ]. destruct (Hrun Hl ltac:(lia)) as (b' & Hrun' & Hb' & Habs).
    rewrite Z.min_l, ztake_app_le in * by lia. eauto 6.
  - destruct (Hrun Hl) as (b' & Hrun' & Hb' & Heq). eauto 6.
Qed.

(** [read]: the closure sees what the queue holds and may change it; the bytes it reports,
    at most those there are, are dequeued. *)
Lemma read_run {W E} (g : closure W E) b w :
  wf_buf b ->
  match g (contents b) w with
  | Returns ((src, Ok n), w') => len src = len (contents b) -> 0 <= n ->
      exists b', read g (b, w) = Returns (Ok (Z.min n (len src)), (b', w')) /\ wf_buf b' /\
        abs b' = mkFifo (capacity b) (zdrop (Z.min n (len src)) src)
  | Returns ((src, Err e), w') => len src = len (contents b) ->
      exists b', read g (b, w) = Returns (Err e, (b', w')) /\ wf_buf b' /\ abs b' = mkFifo (capacity b) src
  | Panics => read g (b, w) = Panics
  | OutOfFuel => read g (b, w) = OutOfFuel
  end.
Proof.
  intros Hb. pose proof Hb as [? ?]. pose proof (len_contents b Hb) as Hlen.
  eassert (read g (b, w) = _) as ->.
  { unfold read. erewrite bind_returns by (by apply available_read_run). erewrite bind_returns by done. cbn [fst].
    rewrite Hlen. replace (rpos b + (wpos b - rpos b)) with (wpos b) by lia.
    erewrite bind_returns by (unfold lift, gets_o; by rewrite slice_run by lia). fold (contents b).
    unfold bind at 1, on_world at 1, zoom at 1. cbn [fst snd]. reflexivity. }
  assert (forall src, len src = len (contents b) ->
    wf_buf (set_inner (splice (inner b) (rpos b) src) b) /\
    contents (set_inner (splice (inner b) (rpos b) src) b) = src) as Hsplice.
  { intros src Hl. rewrite Hlen in Hl. split; [unfold wf_buf; cbn; rewrite len_splice by lia; lia|].
    unfold contents. cbn. replace (wpos b) with (rpos b + len src) by lia.
    by rewrite zslice_splice_app, zslice_empty, ztake_all by lia. }
  destruct (g _ w) as [[[src [n|e]] w']| |]; [intros Hl Hn|intros Hl|done..];
    destruct (Hsplice src Hl) as [Hb1 Hsrc]; apply wp_run_buf; unfold on_buf; wp_steps; cbn.
  - set (b1 := set_inner _ b) in *. rewrite (available_read_eq b1) by done. cbn [owp].
    pose proof (len_contents b1 Hb1) as Hlen1. rewrite Hsrc in *. cbn in Hlen1.
    wp_steps. cbn. apply wp_assert; [lia|]. apply wp_ret. split; [done|]. split; [done|].
    split; [apply (advance_wf _ b1); [done|rewrite Hsrc; lia]|].
    etransitivity; [apply (advance_abs _ b1); [done|lia]|]. unfold fifo_pop. cbn. rewrite Hsrc. f_equal.
    unfold capacity. cbn. by rewrite len_splice by lia.
  - split; [done|]. split; [done|]. split; [done|]. unfold abs. rewrite Hsrc. f_equal.
    unfold capacity. cbn. by rewrite len_splice by lia.
Qed.

(** So for a closure that does not write to the slice, as those of the transport. *)
Lemma wp_read {W E} (f : closure W E) Q b w :
  wf_buf b ->
  wp (f (contents b)) (fun '(src', r) w' => src' = contents b /\
    match r with
    | Ok n => 0 <= n /\ forall b', wf_buf b' ->
        abs b' = fifo_pop (Z.min n (len (contents b))) (abs b) ->
        Q (Ok (Z.min n (len (contents b)))) (b', w')
    | Err e => forall b', wf_buf b' -> b ≃ b' -> Q (Err e) (b', w')
    end) w ->
  wp (read f) Q (b, w).
Proof.
  intros Hb ([src' r] & w' & Hf & -> & Hr)%wp_run. pose proof (read_run f b w Hb) as Hrun. rewrite Hf in Hrun.
  apply wp_run. destruct r as [n|e].
  - destruct Hr as [Hn HQ]. destruct (Hrun eq_refl Hn) as (b' & Hrun' & Hb' & Habs). eauto 6.
  - destruct (Hrun eq_refl) as (b' & Hrun' & Hb' & [= Hc Hq]). eauto 6 using Build_buf_equiv.
Qed.
