(* ===== verification/Transport.v ===== *)
(** * Transports ([usbd-storage/src/transport.rs])

    The [Transport] trait as a class, its error type, and the status of a
    command. BulkOnly (file Bbb) is the instance; the subclasses (files Scsi and
    Ufi) are written against the class, as in the source. *)
From S2P Require Import Prelude.
From S2P Require Import Usb.

Local Open Scope Z_scope.

(** Interface protocol for specific transports *)
Definition TRANSPORT_VENDOR_SPECIFIC : Z := 0xFF.

Inductive TransportError (U E : Type) : Type :=
| Usb (e : U)
| Error (e : E).
Arguments Usb {U E} e.
Arguments Error {U E} e.

Inductive CommandStatus := Passed | Failed | PhaseError.

(** [status as u8]. *)
Definition status_code (s : CommandStatus) : Z :=
  match s with Passed => 0x00 | Failed => 0x01 | PhaseError => 0x02 end.

(** The trait. A transport holds a reference to the bus, so the bus is a part of
    the state [T] that its methods work on. *)
Class Transport `{!UsbStack} (T TError : Type) := {
  PROTO : Z;
  get_endpoint_descriptors : T -> M DescriptorWriter (result unit UsbError);
  reset : M T unit;
  control_in : Request -> M T unit;
  poll : M T (result unit (TransportError UsbError TError))
}.
