(* ===== verification/Bbb.v ===== *)
(** * Bulk Only Transport ([usbd-storage/src/transport/bbb.rs])

    The transport's data, its state machine and its methods, one definition per
    function of the source and composed as there. The handlers call each other
    in a cycle (status transfer, command transfer, data transfer, status await,
    status transfer): they are written with that call open and the cycle is
    closed with fuel by [handle_status_transfer]. File BbbSafe shows that the
    cycle is entered at most once, so that the fuel given in [poll] suffices. *)
From S2P Require Import Prelude.
From S2P Require Import Usb.
From S2P Require Import Buffer.
From S2P Require Import Transport.

Local Open Scope Z_scope.
Local Open Scope rust_scope.

(** Bulk Only Transport interface protocol *)
Definition TRANSPORT_BBB : Z := 0x50.

Definition CLASS_SPECIFIC_BULK_ONLY_MASS_STORAGE_RESET : Z := 0xFF.
Definition CLASS_SPECIFIC_GET_MAX_LUN : Z := 0xFE.

Definition CBW_SIGNATURE_LE : list byte := to_le_bytes 4 0x43425355.
Definition CSW_SIGNATURE_LE : list byte := to_le_bytes 4 0x53425355.

Definition CBW_LEN : Z := 31.
Definition CSW_LEN : Z := 13.

Definition FILL_BYTE : byte := byte_of 0xFF.

Inductive InvalidCbwError := invalid_cbw_error.

Inductive BulkOnlyError :=
| IoBufferOverflow
| InvalidMaxLun
| InvalidState
| FullPacketExpected
| BufferTooSmall
| TransferLengthExceeded.

(** Raw Command Block bytes *)
Record CommandBlock := mkCommandBlock { cb_bytes : list byte; cb_lun : Z }.

Inductive State :=
| CommandTransfer
| CommandTransferInvalid
| DataTransferNoData
| StatusTransfer
| DataTransferToHost
| DataTransferToHostEnding
| DataTransferFromHost
| DataTransferFromHostStatusAwait
| DataTransferFromHostEnding
| DataTransferStatusAwait.
#[export] Instance State_eq_dec : EqDecision State.
Proof. solve_decision. Defined.

(** [matches!(state, a | b | ...)] *)
Definition is_one_of (s : State) (l : list State) : bool := bool_decide (s ∈ l).

Inductive DataDirection := DataOut | DataIn | NotExpected.

Record StatusAndResidue := mkStatusAndResidue {
  status : CommandStatus;
  data_residue : Z      (* u32 *)
}.

(** ** The command block wrapper *)

Record CommandBlockWrapper := mkCommandBlockWrapper {
  tag : Z;               (* u32 *)
  data_transfer_len : Z; (* u32 *)
  direction : DataDirection;
  lun : Z;               (* u8 *)
  block_len : Z;         (* usize *)
  block : list byte      (* 16 bytes *)
}.

Definition default_cbw : CommandBlockWrapper :=
  mkCommandBlockWrapper 0 0 NotExpected 0 0 (zreplicate 16 x00).

(** [slice.try_into()] to an array of [n] bytes, with the error mapped. *)
Definition try_into (n : Z) (l : list byte) : result (list byte) InvalidCbwError :=
  if len l =? n then Ok l else Err invalid_cbw_error.

Definition from_le_bytes (value : list byte)
    : outcome (result CommandBlockWrapper InvalidCbwError) :=
  let MIN_CB_LEN := 1 in
  let MAX_CB_LEN := 16 in
  let* block_len := index value 10 in
  let block_len := u8 block_len in
  if negb ((MIN_CB_LEN <=? block_len) && (block_len <=? MAX_CB_LEN))
  then Returns (Err invalid_cbw_error)
  else
    let* tag := slice value 0 4 in
    match try_into 4 tag with
    | Err e => Returns (Err e)
    | Ok tag =>
      let* dtl := slice value 4 8 in
      match try_into 4 dtl with
      | Err e => Returns (Err e)
      | Ok dtl =>
        let tag := Prelude.from_le_bytes tag in
        let data_transfer_len := Prelude.from_le_bytes dtl in
        let* flags := index value 8 in
        let direction :=
          if negb (data_transfer_len =? 0) then
            if 0 <? Z.land (u8 flags) (Z.shiftl 1 7) then DataIn else DataOut
          else NotExpected in
        let* block := slice value 11 (len value) in
        match try_into 16 block with
        | Err e => Returns (Err e)
        | Ok block =>
          let* lun := index value 9 in
          Returns (Ok (mkCommandBlockWrapper tag data_transfer_len direction
                         (Z.land (u8 lun) 0xF) block_len block))
        end
      end
    end.

(** ** The transport *)

Section BulkOnly.
  Context `{!UsbStack}.

(** [BulkOnly]. Both endpoints refer to the one [bus]. *)
Record BulkOnly := mkBulkOnly {
  bus : Bus;
  in_ep : Endpoint;
  out_ep : Endpoint;
  buf : Buffer;
  state : State;
  cbw : CommandBlockWrapper;
  cs : option StatusAndResidue;
  max_lun : Z;           (* u8 *)
  left_to_transfer : Z   (* u32 *)
}.

Definition set_bus (x : Bus) (t : BulkOnly) : BulkOnly :=
  mkBulkOnly x (in_ep t) (out_ep t) (buf t) (state t) (cbw t) (cs t) (max_lun t) (left_to_transfer t).
Definition set_buf (x : Buffer) (t : BulkOnly) : BulkOnly :=
  mkBulkOnly (bus t) (in_ep t) (out_ep t) x (state t) (cbw t) (cs t) (max_lun t) (left_to_transfer t).
Definition set_state (x : State) (t : BulkOnly) : BulkOnly :=
  mkBulkOnly (bus t) (in_ep t) (out_ep t) (buf t) x (cbw t) (cs t) (max_lun t) (left_to_transfer t).
Definition set_cbw (x : CommandBlockWrapper) (t : BulkOnly) : BulkOnly :=
  mkBulkOnly (bus t) (in_ep t) (out_ep t) (buf t) (state t) x (cs t) (max_lun t) (left_to_transfer t).
Definition set_cs (x : option StatusAndResidue) (t : BulkOnly) : BulkOnly :=
  mkBulkOnly (bus t) (in_ep t) (out_ep t) (buf t) (state t) (cbw t) x (max_lun t) (left_to_transfer t).
Definition set_left (x : Z) (t : BulkOnly) : BulkOnly :=
  mkBulkOnly (bus t) (in_ep t) (out_ep t) (buf t) (state t) (cbw t) (cs t) (max_lun t) x.

(** [BulkOnlyTransportResult] *)
Definition BResult (A : Type) : Type := result A (TransportError UsbError BulkOnlyError).

(** Calls on the endpoints, on the buffer, and on both at once (a closure that
    works on the bus). *)
Definition on_bus {A} (m : M Bus A) : M BulkOnly A := zoom bus set_bus m.
Definition on_buf {A} (m : M Buffer A) : M BulkOnly A := zoom buf set_buf m.
Definition on_buf_bus {A} (m : M (Buffer * Bus) A) : M BulkOnly A :=
  zoom (fun t => (buf t, bus t)) (fun p t => set_bus (snd p) (set_buf (fst p) t)) m.
(** A buffer method whose closure captures the local variable [w]. *)
Definition with_local {W A} (w : W) (m : M (Buffer * W) A) : M Buffer (A * W) := fun b =>
  match m (b, w) with
  | Returns (a, (b, w)) => Returns ((a, w), b)
  | Panics => Panics
  | OutOfFuel => OutOfFuel
  end.

Definition new (packet_size max_lun : Z) (buf : list byte) (b : Bus)
    : outcome (result BulkOnly BulkOnlyError * Bus) :=
  if 0x0F <? max_lun then Returns (Err InvalidMaxLun, b)
  else
    let buf_len := len buf in
    if (buf_len <? CBW_LEN) || (buf_len <? packet_size) then Returns (Err BufferTooSmall, b)
    else
      let* (in_ep, b) := alloc_bulk UsbDirIn packet_size b in
      let* (out_ep, b) := alloc_bulk UsbDirOut packet_size b in
      Returns (Ok (mkBulkOnly b in_ep out_ep (Buffer.new buf) CommandTransfer default_cbw
                     None max_lun 0), b).

(** ** Methods for the subclass *)

Definition set_status (status : CommandStatus) (data_processed : Z) : M BulkOnly unit :=
  let! t := gets id in
  do! assert (is_one_of (state t)
        [DataTransferToHost; DataTransferFromHost; DataTransferNoData;
         DataTransferStatusAwait; DataTransferFromHostStatusAwait]) in
  let data_residue := saturating_sub (data_transfer_len (cbw t)) data_processed in
  modify (set_cs (Some (mkStatusAndResidue status data_residue))).

Definition get_command (t : BulkOnly) : outcome (option CommandBlock) :=
  if is_one_of (state t) [CommandTransfer; CommandTransferInvalid] then Returns None
  else
    let* bytes := slice (block (cbw t)) 0 (block_len (cbw t)) in
    Returns (Some (mkCommandBlock bytes (lun (cbw t)))).

(** The result comes with what [dst] holds after the call. *)
Definition read_data (dst : list byte) : M BulkOnly (list byte * BResult Z) :=
  let! st := gets state in
  if negb (is_one_of st [DataTransferFromHost; DataTransferFromHostStatusAwait])
  then ret (dst, Err (Error InvalidState))
  else
    let! (r, dst) := on_buf (with_local dst
      (Buffer.read (E := Empty_set) (fun buf =>
         let! dst := gets id in
         let size := Z.min (len dst) (len buf) in
         let! d := lift (slice dst 0 size) in
         let! s := lift (slice buf 0 size) in
         let! d := lift (copy_from_slice d s) in
         do! modify (fun dst => splice dst 0 d) in
         ret (buf, Ok size)))) in
    ret (dst, Ok (match r with Ok n => n | Err _ => 0 end)).

Definition allowed_to_append_to_data_transfer (t : BulkOnly) : outcome Z :=
  let* ar := available_read (buf t) in
  Returns (saturating_sub (left_to_transfer t) (as_u32 ar)).

Definition write_data (src : list byte) : M BulkOnly (BResult Z) :=
  let! st := gets state in
  if negb (is_one_of st [DataTransferToHost]) then ret (Err (Error InvalidState))
  else
    let! allowed_to_write := gets_o allowed_to_append_to_data_transfer in
    let! data := lift (slice src 0 (Z.min (len src) allowed_to_write)) in
    let! n := on_buf (Buffer.write data) in
    ret (Ok n).

Definition try_write_data_all (src : list byte) : M BulkOnly (BResult unit) :=
  let! st := gets state in
  if negb (is_one_of st [DataTransferToHost]) then ret (Err (Error InvalidState))
  else
    let! allowed := gets_o allowed_to_append_to_data_transfer in
    if allowed <? len src then ret (Err (Error TransferLengthExceeded))
    else
      let! (r, _) := on_buf (with_local tt
        (Buffer.write_all (len src) (Error IoBufferOverflow) (fun dst =>
           let! d := lift (slice dst 0 (len src)) in
           let! d := lift (copy_from_slice d src) in
           ret (splice dst 0 d, Ok (len src))))) in
      ret (match r with Ok _ => Ok tt | Err e => Err e end).

Definition has_status (t : BulkOnly) : bool := match cs t with Some _ => true | None => false end.

(** ** Transitions *)

Definition enter_state_command_transfer : M BulkOnly unit :=
  do! modify (set_cs None) in
  do! modify (set_left 0) in
  let! i := gets in_ep in
  do! on_bus (ep_unstall i) in
  let! o := gets out_ep in
  do! on_bus (ep_unstall o) in
  do! on_buf Buffer.clear in
  modify (set_state CommandTransfer).

Definition enter_state_cbw_invalid : M BulkOnly unit :=
  modify (set_state CommandTransferInvalid).
Definition enter_state_data_transfer_no_data : M BulkOnly unit :=
  modify (set_state DataTransferNoData).
Definition enter_state_data_transfer_to_host : M BulkOnly unit :=
  modify (set_state DataTransferToHost).
Definition enter_state_data_transfer_status_await : M BulkOnly unit :=
  modify (set_state DataTransferStatusAwait).
Definition enter_state_data_transfer_from_host_status_await : M BulkOnly unit :=
  modify (set_state DataTransferFromHostStatusAwait).
Definition enter_state_data_transfer_to_host_ending : M BulkOnly unit :=
  modify (set_state DataTransferToHostEnding).
Definition enter_state_data_transfer_from_host_ending : M BulkOnly unit :=
  modify (set_state DataTransferFromHostEnding).
Definition enter_state_data_transfer_from_host : M BulkOnly unit :=
  modify (set_state DataTransferFromHost).

(** [a[at..to].copy_from_slice(src)] for an array [a]. *)
Definition copy_into (a : list byte) (at_ to : Z) (src : list byte) : outcome (list byte) :=
  let* d := slice a at_ to in
  let* d := copy_from_slice d src in
  Returns (splice a at_ d).

Definition build_csw (t : BulkOnly) : outcome (option (list byte)) :=
  match cs t with
  | None => Returns None
  | Some st =>
    let csw := zreplicate CSW_LEN x00 in
    let* csw := copy_into csw 0 4 CSW_SIGNATURE_LE in
    let* csw := copy_into csw 4 8 (to_le_bytes 4 (tag (cbw t))) in
    let* csw := copy_into csw 8 12 (to_le_bytes 4 (data_residue st)) in
    let* csw := copy_into csw 12 CSW_LEN [byte_of (status_code (status st))] in
    Returns (Some csw)
  end.

Definition enter_state_status_transfer : M BulkOnly unit :=
  let! csw := gets_o build_csw in
  match csw with
  | None => panic
  | Some csw_bytes =>
    do! on_buf Buffer.clear in
    do! on_buf (Buffer.write csw_bytes) in
    modify (set_state StatusTransfer)
  end.

(** ** Packets *)

Definition packet_size (t : BulkOnly) : Z := max_packet_size (in_ep t).

Definition mark_as_transferred (by_ : Z) : M BulkOnly unit :=
  modify (fun t => set_left (saturating_sub (left_to_transfer t) by_) t).

Definition assert_buffer_len_not_exceeding : M BulkOnly unit :=
  let! t := gets id in
  let! ar := lift (available_read (buf t)) in
  assert (ar <=? left_to_transfer t).

(** Any error of the endpoint is passed on as a [Usb] error. *)
Definition wrap_usb {A} (r : result A UsbError) : BResult A :=
  match r with Ok a => Ok a | Err e => Err (Usb e) end.

Definition read_packet : M BulkOnly (BResult Z) :=
  let! ps := gets packet_size in
  let! o := gets out_ep in
  on_buf_bus (Buffer.write_all ps (Error IoBufferOverflow) (fun buf =>
    let! (buf, r) := ep_read o buf in
    ret (buf, wrap_usb r))).

Definition write_packet : M BulkOnly (BResult Z) :=
  let! packet_size := gets packet_size in
  let! i := gets in_ep in
  on_buf_bus (Buffer.read (fun buf =>
    if negb (len buf =? 0) then
      let! data := lift (slice buf 0 (Z.min packet_size (len buf))) in
      let! r := ep_write i data in
      ret (buf, wrap_usb r)
    else ret (buf, Ok 0))).

Definition try_write_full_packet : M BulkOnly (BResult Z) :=
  let! t := gets id in
  let! ar := lift (available_read (buf t)) in
  if ar <? packet_size t then ret (Err (Error FullPacketExpected))
  else write_packet.

Definition try_parse_cbw : M BulkOnly (result CommandBlockWrapper InvalidCbwError) :=
  let! t := gets id in
  let! ar := lift (available_read (buf t)) in
  do! assert (CBW_LEN <=? ar) in
  let! (_, raw_cbw) := on_buf (with_local (zreplicate CBW_LEN x00)
    (Buffer.read (E := Empty_set) (fun buf =>
       let! s := lift (slice buf 0 CBW_LEN) in
       let! raw_cbw := gets id in
       let! raw_cbw := lift (copy_from_slice raw_cbw s) in
       do! modify (fun _ => raw_cbw) in
       ret (buf, Ok CBW_LEN)))) in
  if negb (bool_decide (ztake 4 raw_cbw = CBW_SIGNATURE_LE)) then ret (Err invalid_cbw_error)
  else
    let! value := lift (slice raw_cbw 4 (len raw_cbw)) in
    lift (from_le_bytes value).

(** ** Handlers *)

Definition handle_cbw_invalid : M BulkOnly (BResult unit) :=
  let! st := gets state in
  do! assert (is_one_of st [CommandTransferInvalid]) in
  let! i := gets in_ep in
  do! on_bus (ep_stall i) in
  let! o := gets out_ep in
  do! on_bus (ep_stall o) in
  ret (Ok tt).

(** The handlers up to the recursive call of [handle_status_transfer]. *)
Section Handlers.
  Variable handle_status_transfer : M BulkOnly (BResult unit).

Definition handle_data_transfer_status_await : M BulkOnly (BResult unit) :=
  let! t := gets id in
  do! assert (is_one_of (state t) [DataTransferStatusAwait; DataTransferFromHostStatusAwait]) in
  if has_status t then
    do! enter_state_status_transfer in
    let? _ := handle_status_transfer in
    ret (Ok tt)
  else ret (Ok tt).

Definition handle_data_transfer_no_data : M BulkOnly (BResult unit) :=
  let! st := gets state in
  do! assert (is_one_of st [DataTransferNoData]) in
  do! enter_state_data_transfer_status_await in
  handle_data_transfer_status_await.

Definition handle_data_transfer_to_host_ending : M BulkOnly (BResult unit) :=
  let! t := gets id in
  do! assert (is_one_of (state t) [DataTransferToHostEnding]) in
  do! assert_buffer_len_not_exceeding in
  let has_to_send := Z.min (left_to_transfer t) (packet_size t) in
  if has_to_send =? 0 then
    do! enter_state_status_transfer in
    handle_status_transfer
  else
    let! available := lift (available_read (buf t)) in
    do! when (available <? has_to_send)
          (on_buf (Buffer.fill_up_to FILL_BYTE (saturating_sub has_to_send available))) in
    let? bytes_written := write_packet in
    do! mark_as_transferred (as_u32 bytes_written) in
    ret (Ok tt).

Definition handle_data_transfer_to_host : M BulkOnly (BResult unit) :=
  let! t := gets id in
  do! assert (is_one_of (state t) [DataTransferToHost]) in
  do! assert_buffer_len_not_exceeding in
  if left_to_transfer t =? 0 then
    do! enter_state_data_transfer_status_await in
    handle_data_transfer_status_await
  else if has_status t then
    do! enter_state_data_transfer_to_host_ending in
    handle_data_transfer_to_host_ending
  else
    let? bytes_sent :=
      (if left_to_transfer t <? as_u32 (packet_size t) then write_packet
       else try_write_full_packet) in
    do! mark_as_transferred (as_u32 bytes_sent) in
    ret (Ok tt).

Definition handle_data_transfer_from_host_ending : M BulkOnly (BResult unit) :=
  let! t := gets id in
  do! assert (is_one_of (state t) [DataTransferFromHostEnding]) in
  if 0 <? left_to_transfer t then
    do! on_buf Buffer.clear in
    let? bytes_read := read_packet in
    do! mark_as_transferred (as_u32 bytes_read) in
    ret (Ok tt)
  else
    do! enter_state_status_transfer in
    handle_status_transfer.

Definition handle_data_transfer_from_host : M BulkOnly (BResult unit) :=
  let! t := gets id in
  do! assert (is_one_of (state t) [DataTransferFromHost]) in
  if left_to_transfer t =? 0 then
    do! enter_state_data_transfer_from_host_status_await in
    handle_data_transfer_status_await
  else if has_status t then
    do! enter_state_data_transfer_from_host_ending in
    handle_data_transfer_from_host_ending
  else
    let? bytes_read := read_packet in
    do! mark_as_transferred (as_u32 bytes_read) in
    ret (Ok tt).

Definition start_data_transfer (cbw : CommandBlockWrapper) : M BulkOnly (BResult unit) :=
  let! st := gets state in
  do! assert (is_one_of st [CommandTransfer]) in
  do! modify (set_cbw cbw) in
  do! modify (set_left (data_transfer_len cbw)) in
  do! on_buf Buffer.clear in
  match direction cbw with
  | DataOut =>
    do! enter_state_data_transfer_from_host in
    handle_data_transfer_from_host
  | DataIn =>
    do! enter_state_data_transfer_to_host in
    handle_data_transfer_to_host
  | NotExpected =>
    do! enter_state_data_transfer_no_data in
    handle_data_transfer_no_data
  end.

Definition handle_read_cbw : M BulkOnly (BResult unit) :=
  let! st := gets state in
  do! assert (is_one_of st [CommandTransfer]) in
  let? _ := read_packet in
  let! ar := gets_o (available_read ∘ buf) in
  if CBW_LEN <=? ar then
    let! r := try_parse_cbw in
    match r with
    | Ok cbw => start_data_transfer cbw
    | Err _ =>
      do! enter_state_cbw_invalid in
      handle_cbw_invalid
    end
  else ret (Ok tt).
End Handlers.

(** One unit of fuel per entry. *)
Fixpoint handle_status_transfer (fuel : nat) : M BulkOnly (BResult unit) :=
  match fuel with
  | O => out_of_fuel
  | S fuel =>
    let! t := gets id in
    do! assert (is_one_of (state t) [StatusTransfer]) in
    let! ar := lift (available_read (buf t)) in
    if ar =? 0 then
      do! enter_state_command_transfer in
      handle_read_cbw (handle_status_transfer fuel)
    else
      let? _ := write_packet in
      ret (Ok tt)
  end.

(** ** The [Transport] methods *)

Definition poll_with (fuel : nat) : M BulkOnly (BResult unit) :=
  let rec := handle_status_transfer fuel in
  let! st := gets state in
  match st with
  | CommandTransfer => handle_read_cbw rec
  | CommandTransferInvalid => handle_cbw_invalid
  | DataTransferNoData => handle_data_transfer_no_data rec
  | DataTransferToHost => handle_data_transfer_to_host rec
  | DataTransferToHostEnding => handle_data_transfer_to_host_ending rec
  | DataTransferFromHost => handle_data_transfer_from_host rec
  | DataTransferFromHostEnding => handle_data_transfer_from_host_ending rec
  | StatusTransfer => rec
  | DataTransferFromHostStatusAwait | DataTransferStatusAwait =>
    handle_data_transfer_status_await rec
  end.

Definition poll : M BulkOnly (BResult unit) := poll_with 1.

Definition get_endpoint_descriptors (t : BulkOnly) : M DescriptorWriter (result unit UsbError) :=
  let? _ := writer_endpoint (in_ep t) in
  let? _ := writer_endpoint (out_ep t) in
  ret (Ok tt).

Definition reset : M BulkOnly unit := enter_state_command_transfer.

Definition control_in (req : Request) : M BulkOnly unit :=
  if negb (request_is_class req && recipient_is_interface req) then ret tt
  else if request req =? CLASS_SPECIFIC_BULK_ONLY_MASS_STORAGE_RESET then
    enter_state_command_transfer
  else if request req =? CLASS_SPECIFIC_GET_MAX_LUN then
    let! ml := gets max_lun in
    do! on_bus (accept_with [byte_of ml]) in
    ret tt
  else ret tt.

#[export] Instance BulkOnly_Transport : Transport BulkOnly BulkOnlyError := {
  Transport.PROTO := TRANSPORT_BBB;
  Transport.get_endpoint_descriptors := get_endpoint_descriptors;
  Transport.reset := reset;
  Transport.control_in := control_in;
  Transport.poll := poll
}.
End BulkOnly.
Arguments BulkOnly : clear implicits.
Arguments BulkOnly {_}.
