(* ===== verification/BotSpec.v ===== *)
(** * The Bulk-Only protocol, as an abstract machine

    What the transport promises, without buffer positions, slices, casts or
    closures: a state [Bot] is the phase of the protocol, the queue of bytes in
    the device, how much of the data phase is left, the command and its status,
    and the two byte streams seen on the wire. The endpoints' behaviour is the
    nondeterminism of [send] and [recv]; everything else is determined. File
    BbbRefine shows that [Bbb.poll] and the methods for the subclass implement
    this machine; files BotStream and BotLive draw the consequences. *)
From S2P Require Import Prelude.
From S2P Require Import Usb.
From S2P Require Import Transport.
From S2P Require Import Bbb.

Local Open Scope Z_scope.

(** ** Wire formats *)

(** The 13 bytes of a command status wrapper. *)
Definition csw_bytes (c : CommandBlockWrapper) (s : StatusAndResidue) : list byte :=
  CSW_SIGNATURE_LE ++ to_le_bytes 4 (tag c) ++ to_le_bytes 4 (data_residue s) ++
  [byte_of (status_code (status s))].

(** What a host reads off it: tag, residue and status byte. *)
Definition decode_csw (l : list byte) : option (Z * Z * Z) :=
  if bool_decide (len l = CSW_LEN /\ ztake 4 l = CSW_SIGNATURE_LE) then
    Some (Prelude.from_le_bytes (zslice 4 8 l), Prelude.from_le_bytes (zslice 8 12 l),
          Prelude.from_le_bytes (zslice 12 13 l))
  else None.

(** The value of byte [i]. *)
Definition byte_at (i : Z) (l : list byte) : Z := Prelude.from_le_bytes (zslice i (i + 1) l).

(** The command that 31 bytes stand for, if they are a valid wrapper. *)
Definition decode_cbw (raw : list byte) : option CommandBlockWrapper :=
  if bool_decide (ztake 4 raw = CBW_SIGNATURE_LE /\ 1 <= byte_at 14 raw <= 16) then
    let dtl := Prelude.from_le_bytes (zslice 8 12 raw) in
    Some (mkCommandBlockWrapper
      (Prelude.from_le_bytes (zslice 4 8 raw)) dtl
      (if dtl =? 0 then NotExpected
       else if Z.testbit (byte_at 12 raw) 7 then DataIn else DataOut)
      (byte_at 13 raw mod 16) (byte_at 14 raw) (zslice 15 31 raw))
  else None.

(** The wrapper a host sends for a command. *)
Definition encode_cbw (c : CommandBlockWrapper) : list byte :=
  CBW_SIGNATURE_LE ++ to_le_bytes 4 (tag c) ++ to_le_bytes 4 (data_transfer_len c) ++
  [byte_of (match direction c with DataIn => 0x80 | _ => 0 end)] ++
  [byte_of (lun c)] ++ [byte_of (block_len c)] ++ block c.

(** What the transport may assume of a command it has parsed. *)
Record cbw_ok (c : CommandBlockWrapper) : Prop := {
  cbw_tag : is_u32 (tag c);
  cbw_dtl : is_u32 (data_transfer_len c);
  cbw_direction : direction c = NotExpected <-> data_transfer_len c = 0;
  cbw_lun : 0 <= lun c < 16;
  cbw_block_len : 1 <= block_len c <= 16;
  cbw_block : len (block c) = 16
}.

(** ** The machine *)

Section Machine.
  Context `{!UsbStack}.
  (** The packet size and the size of the IO buffer. *)
  Context (ps cap : Z).

Record Bot := mkBot {
  phase : State;
  queue : list byte;
  left : Z;
  cmd : CommandBlockWrapper;
  stat : option StatusAndResidue;
  wire_in : list byte;   (* everything sent to the host *)
  wire_out : list byte   (* everything received from the host *)
}.

Definition with_phase (p : State) (b : Bot) : Bot :=
  mkBot p (queue b) (left b) (cmd b) (stat b) (wire_in b) (wire_out b).
Definition with_queue (q : list byte) (b : Bot) : Bot :=
  mkBot (phase b) q (left b) (cmd b) (stat b) (wire_in b) (wire_out b).
Definition with_stat (s : option StatusAndResidue) (b : Bot) : Bot :=
  mkBot (phase b) (queue b) (left b) (cmd b) s (wire_in b) (wire_out b).
(** [n] bytes of the data phase are done. *)
Definition mark (n : Z) (b : Bot) : Bot :=
  mkBot (phase b) (queue b) (saturating_sub (left b) n) (cmd b) (stat b) (wire_in b) (wire_out b).
(** The first [n] bytes of the queue go to the host. *)
Definition emit (n : Z) (b : Bot) : Bot :=
  mkBot (phase b) (zdrop n (queue b)) (left b) (cmd b) (stat b)
    (wire_in b ++ ztake n (queue b)) (wire_out b).
(** A packet [p] from the host joins the queue. *)
Definition absorb (p : list byte) (b : Bot) : Bot :=
  mkBot (phase b) (queue b ++ p) (left b) (cmd b) (stat b) (wire_in b) (wire_out b ++ p).
(** Ready for the next command. *)
Definition idle (b : Bot) : Bot :=
  mkBot CommandTransfer [] 0 (cmd b) None (wire_in b) (wire_out b).
(** The command [c] has arrived. *)
Definition begin (c : CommandBlockWrapper) (b : Bot) : Bot :=
  mkBot (match direction c with
         | DataOut => DataTransferFromHost
         | DataIn => DataTransferToHost
         | NotExpected => DataTransferNoData
         end) [] (data_transfer_len c) c (stat b) (wire_in b) (wire_out b).
(** The data phase is over: the queue holds the status wrapper. *)
Definition enter_csw (s : StatusAndResidue) (b : Bot) : Bot :=
  mkBot StatusTransfer (csw_bytes (cmd b) s) (left b) (cmd b) (stat b) (wire_in b) (wire_out b).
(** The filler that a short transfer needs for its next packet. *)
Definition pad (b : Bot) : Bot :=
  with_queue (queue b ++ zreplicate (Z.min (left b) ps - len (queue b)) FILL_BYTE) b.

(** An attempt to put one packet on the IN endpoint. *)
Inductive send (b : Bot) : BResult Z -> Bot -> Prop :=
| send_nothing : queue b = [] -> send b (Ok 0) b
| send_packet n :
    queue b <> [] -> 0 <= n <= Z.min ps (len (queue b)) -> send b (Ok n) (emit n b)
| send_error e : queue b <> [] -> send b (Err (Usb e)) b.

(** An attempt to take one packet from the OUT endpoint. *)
Inductive recv (b : Bot) : BResult Z -> Bot -> Prop :=
| recv_overflow : cap - len (queue b) < ps -> recv b (Err (Error IoBufferOverflow)) b
| recv_packet p :
    ps <= cap - len (queue b) -> len p <= ps -> recv b (Ok (len p)) (absorb p b)
| recv_error e : ps <= cap - len (queue b) -> recv b (Err (Usb e)) b.

(** A transfer in the data phase: the bytes moved are marked as done. *)
Inductive moving (tr : Bot -> BResult Z -> Bot -> Prop) (b : Bot) : BResult unit -> Bot -> Prop :=
| moving_ok n b' : tr b (Ok n) b' -> moving tr b (Ok tt) (mark n b')
| moving_err e b' : tr b (Err e) b' -> moving tr b (Err e) b'.

(** Part of the status wrapper is sent. *)
Inductive csw_step (b : Bot) : BResult unit -> Bot -> Prop :=
| csw_ok n b' : send b (Ok n) b' -> csw_step b (Ok tt) b'
| csw_err e b' : send b (Err e) b' -> csw_step b (Err e) b'.

Inductive await (b : Bot) : BResult unit -> Bot -> Prop :=
| await_user : stat b = None -> await b (Ok tt) b
| await_done s r b' : stat b = Some s -> csw_step (enter_csw s b) r b' -> await b r b'.

Inductive in_ending (b : Bot) : BResult unit -> Bot -> Prop :=
| in_ending_done s r b' :
    left b = 0 -> stat b = Some s -> csw_step (enter_csw s b) r b' -> in_ending b r b'
| in_ending_send r b' : left b <> 0 -> moving send (pad b) r b' -> in_ending b r b'.

Inductive data_in (b : Bot) : BResult unit -> Bot -> Prop :=
| data_in_done r b' :
    left b = 0 -> await (with_phase DataTransferStatusAwait b) r b' -> data_in b r b'
| data_in_short s r b' :
    left b <> 0 -> stat b = Some s ->
    in_ending (with_phase DataTransferToHostEnding b) r b' -> data_in b r b'
| data_in_send r b' :
    left b <> 0 -> stat b = None -> left b < ps \/ ps <= len (queue b) ->
    moving send b r b' -> data_in b r b'
| data_in_not_enough :
    stat b = None -> ps <= left b -> len (queue b) < ps ->
    data_in b (Err (Error FullPacketExpected)) b.

Inductive out_ending (b : Bot) : BResult unit -> Bot -> Prop :=
| out_ending_done s r b' :
    left b = 0 -> stat b = Some s -> csw_step (enter_csw s b) r b' -> out_ending b r b'
| out_ending_recv r b' :
    left b <> 0 -> moving recv (with_queue [] b) r b' -> out_ending b r b'.

Inductive data_out (b : Bot) : BResult unit -> Bot -> Prop :=
| data_out_done r b' :
    left b = 0 -> await (with_phase DataTransferFromHostStatusAwait b) r b' -> data_out b r b'
| data_out_short s r b' :
    left b <> 0 -> stat b = Some s ->
    out_ending (with_phase DataTransferFromHostEnding b) r b' -> data_out b r b'
| data_out_recv r b' :
    left b <> 0 -> stat b = None -> moving recv b r b' -> data_out b r b'.

(** The first step of a command's data phase. *)
Definition start (b : Bot) (r : BResult unit) (b' : Bot) : Prop :=
  match phase b with
  | DataTransferToHost => data_in b r b'
  | DataTransferFromHost => data_out b r b'
  | _ => await (with_phase DataTransferStatusAwait b) r b'
  end.

Inductive cbw_step (b : Bot) : BResult unit -> Bot -> Prop :=
| cbw_err e b' : recv b (Err e) b' -> cbw_step b (Err e) b'
| cbw_partial n b' : recv b (Ok n) b' -> len (queue b') < CBW_LEN -> cbw_step b (Ok tt) b'
| cbw_invalid n b' :
    recv b (Ok n) b' -> CBW_LEN <= len (queue b') ->
    decode_cbw (ztake CBW_LEN (queue b')) = None ->
    cbw_step b (Ok tt)
      (with_phase CommandTransferInvalid (with_queue (zdrop CBW_LEN (queue b')) b'))
| cbw_valid n b' c r b'' :
    recv b (Ok n) b' -> CBW_LEN <= len (queue b') ->
    decode_cbw (ztake CBW_LEN (queue b')) = Some c ->
    start (begin c b') r b'' -> cbw_step b r b''.

(** One call of [poll]. *)
Inductive bot_poll (b : Bot) : BResult unit -> Bot -> Prop :=
| poll_cbw r b' : phase b = CommandTransfer -> cbw_step b r b' -> bot_poll b r b'
| poll_invalid : phase b = CommandTransferInvalid -> bot_poll b (Ok tt) b
| poll_no_data r b' :
    phase b = DataTransferNoData ->
    await (with_phase DataTransferStatusAwait b) r b' -> bot_poll b r b'
| poll_in r b' : phase b = DataTransferToHost -> data_in b r b' -> bot_poll b r b'
| poll_in_ending r b' : phase b = DataTransferToHostEnding -> in_ending b r b' -> bot_poll b r b'
| poll_out r b' : phase b = DataTransferFromHost -> data_out b r b' -> bot_poll b r b'
| poll_out_ending r b' :
    phase b = DataTransferFromHostEnding -> out_ending b r b' -> bot_poll b r b'
| poll_await r b' :
    phase b = DataTransferStatusAwait \/ phase b = DataTransferFromHostStatusAwait ->
    await b r b' -> bot_poll b r b'
| poll_csw r b' :
    phase b = StatusTransfer -> queue b <> [] -> csw_step b r b' -> bot_poll b r b'
| poll_csw_sent r b' :
    phase b = StatusTransfer -> queue b = [] -> cbw_step (idle b) r b' -> bot_poll b r b'.

(** The subclass's calls: how much of [src] a write accepts, and their effects. *)
Definition bot_write_count (src : list byte) (b : Bot) : Z :=
  Z.min (Z.min (len src) (left b - len (queue b))) (cap - len (queue b)).
Definition bot_write (src : list byte) (b : Bot) : Bot :=
  with_queue (queue b ++ ztake (bot_write_count src b) src) b.
Definition bot_read (n : Z) (b : Bot) : Bot := with_queue (zdrop n (queue b)) b.
Definition bot_set_status (s : CommandStatus) (processed : Z) (b : Bot) : Bot :=
  with_stat (Some (mkStatusAndResidue s
    (saturating_sub (data_transfer_len (cmd b)) processed))) b.

(** The phases in which the subclass owes a status. *)
Definition status_phase (p : State) : bool :=
  is_one_of p [DataTransferToHost; DataTransferFromHost; DataTransferNoData;
               DataTransferStatusAwait; DataTransferFromHostStatusAwait].

(** ** The invariant *)

(** Outside the command phases there is a well-formed command, of which at most
    its length is left. In the phases that only a status leads to there is one;
    while a command is awaited there is none. An IN queue never exceeds what is
    left, so that no more than the host asked for is ever sent. *)
Definition bot_inv (b : Bot) : Prop :=
  len (queue b) <= cap /\
  match phase b with
  | CommandTransfer | CommandTransferInvalid => stat b = None
  | p =>
    cbw_ok (cmd b) /\ 0 <= left b <= data_transfer_len (cmd b) /\
    match p with
    | DataTransferNoData | DataTransferStatusAwait => left b = 0 /\ queue b = []
    | DataTransferFromHostStatusAwait => left b = 0
    | DataTransferToHost => len (queue b) <= left b
    | DataTransferToHostEnding => len (queue b) <= left b /\ stat b <> None
    | DataTransferFromHostEnding => stat b <> None
    | StatusTransfer => stat b <> None /\ len (queue b) <= CSW_LEN
    | _ => True
    end
  end.
End Machine.

Create HintDb bot.
#[export] Hint Constructors send recv moving csw_step await in_ending data_in out_ending
  data_out cbw_step bot_poll : bot.

Arguments csw_bytes : simpl never.
Arguments decode_cbw : simpl never.
Arguments saturating_sub : simpl never.

(** ** Wire formats: sizes and ranges *)

Lemma len_csw_bytes c s : len (csw_bytes c s) = CSW_LEN.
Proof. unfold csw_bytes, CSW_SIGNATURE_LE. by autorewrite with len_db. Qed.
#[export] Hint Rewrite len_csw_bytes : len_db.

Lemma csw_bytes_nonempty c s : csw_bytes c s <> [].
Proof. intros H. pose proof (len_csw_bytes c s) as Hl. by rewrite H in Hl. Qed.

Lemma le32_range l : len l <= 4 -> is_u32 (Prelude.from_le_bytes l).
Proof.
  intros Hl. pose proof (from_le_bytes_range l) as [? Hlt].
  split; [done|]. eapply Z.lt_le_trans; [exact Hlt|].
  pose proof (len_nonneg l). apply (Z.pow_le_mono_r 256 _ 4); lia.
Qed.

Lemma decode_cbw_ok raw c : len raw = CBW_LEN -> decode_cbw raw = Some c -> cbw_ok c.
Proof.
  unfold decode_cbw, CBW_LEN. intros Hraw. case_bool_decide as Hv; [|done].
  intros <-%(inj Some). assert (is_u32 (Prelude.from_le_bytes (zslice 8 12 raw))).
  { apply le32_range. len_lia. }
  split; cbn [tag data_transfer_len direction lun block_len block].
  - apply le32_range. len_lia.
  - done.
  - destruct (Z.eqb_spec (Prelude.from_le_bytes (zslice 8 12 raw)) 0); [done|].
    destruct (Z.testbit (byte_at 12 raw) 7); split; congruence.
  - apply Z.mod_pos_bound. lia.
  - apply Hv.
  - len_lia.
Qed.

Lemma data_bit b : (0 <? Z.land (u8 b) (Z.shiftl 1 7)) = Z.testbit (u8 b) 7.
Proof. by destruct b. Qed.

(** [from_le_bytes], given the bytes behind the signature, computes [decode_cbw]. *)
Lemma parse_run raw :
  len raw = CBW_LEN -> ztake 4 raw = CBW_SIGNATURE_LE ->
  from_le_bytes (zslice 4 CBW_LEN raw) =
  Returns (match decode_cbw raw with Some c => Ok c | None => Err invalid_cbw_error end).
Proof.
  intros Hraw Hsig. unfold CBW_LEN in *. set (value := zslice 4 31 raw).
  assert (len value = 27) as Hv by (unfold value; len_lia).
  assert (forall i, 0 <= i < 27 -> exists b, index value i = Returns b /\ byte_at (4 + i) raw = u8 b)
    as Hindex.
  { intros i Hi. destruct (index_run value i) as (b & Hb & Hsl); [lia|]. exists b. split; [done|].
    unfold byte_at. replace (4 + i + 1) with (4 + (i + 1)) by lia.
    rewrite <- zslice_zslice with (b := 31) by lia. fold value. rewrite Hsl.
    unfold Prelude.from_le_bytes. lia. }
  destruct (Hindex 10 ltac:(lia)) as (b10 & H10 & E10). change (4 + 10) with 14 in E10.
  destruct (Hindex 8 ltac:(lia)) as (b8 & H8 & E8). change (4 + 8) with 12 in E8.
  destruct (Hindex 9 ltac:(lia)) as (b9 & H9 & E9). change (4 + 9) with 13 in E9.
  unfold from_le_bytes, decode_cbw. rewrite H10. cbn [obind]. rewrite <- E10.
  destruct (decide (1 <= byte_at 14 raw <= 16)) as [Hok|Hbad].
  - rewrite bool_decide_eq_true_2 by done.
    replace ((1 <=? byte_at 14 raw) && (byte_at 14 raw <=? 16)) with true by lia. cbn [negb].
    rewrite !slice_run by lia. rewrite H8, H9, Hv. cbn [obind]. unfold try_into, value.
    rewrite !zslice_zslice by lia.
    change (4 + 0) with 4. change (4 + 4) with 8. change (4 + 8) with 12.
    change (4 + 11) with 15. change (4 + 27) with 31.
    replace (len (zslice 4 8 raw) =? 4) with true by len_lia.
    replace (len (zslice 8 12 raw) =? 4) with true by len_lia.
    replace (len (zslice 15 31 raw) =? 16) with true by len_lia.
    cbn [obind]. rewrite <- E8, <- E9. do 3 f_equal.
    + destruct (_ =? 0); [done|]. cbn [negb]. rewrite E8, data_bit. done.
    + by rewrite (Z.land_ones _ 4) by lia.
  - rewrite bool_decide_eq_false_2 by tauto.
    replace ((1 <=? byte_at 14 raw) && (byte_at 14 raw <=? 16)) with false by lia. done.
Qed.

(** What a packet in either direction leaves alone. *)
Lemma send_frame `{!UsbStack} ps b r b' :
  send ps b r b' ->
  phase b' = phase b /\ left b' = left b /\ cmd b' = cmd b /\ stat b' = stat b /\
  wire_out b' = wire_out b.
Proof. by intros []. Qed.
Lemma recv_frame `{!UsbStack} ps cap b r b' :
  recv ps cap b r b' ->
  phase b' = phase b /\ left b' = left b /\ cmd b' = cmd b /\ stat b' = stat b /\
  wire_in b' = wire_in b.
Proof. by intros []. Qed.

(** A command keeps its wrapper and its status until it is over. *)
Lemma csw_step_frame `{!UsbStack} ps b r b' :
  csw_step ps b r b' -> cmd b' = cmd b /\ stat b' = stat b.
Proof. by intros [n b1 (_ & _ & ? & ? & _)%send_frame|e b1 (_ & _ & ? & ? & _)%send_frame]. Qed.
Lemma await_frame `{!UsbStack} ps b r b' : await ps b r b' -> cmd b' = cmd b /\ stat b' = stat b.
Proof. by intros [|s r' b1 _ Hs%csw_step_frame]. Qed.
Lemma moving_frame `{!UsbStack} (R : Bot -> BResult Z -> Bot -> Prop) b r b' :
  (forall r b', R b r b' -> cmd b' = cmd b /\ stat b' = stat b) ->
  moving R b r b' -> cmd b' = cmd b /\ stat b' = stat b.
Proof. by intros HR [n b1 []%HR|e b1 []%HR]. Qed.
Lemma in_ending_frame `{!UsbStack} ps b r b' :
  in_ending ps b r b' -> cmd b' = cmd b /\ stat b' = stat b.
Proof.
  intros [s r' b1 _ _ Hs%csw_step_frame|r' b1 _ Hm]; [done|].
  eapply moving_frame in Hm; [exact Hm|]. by intros ?? (_ & _ & ? & ? & _)%send_frame.
Qed.
Lemma out_ending_frame `{!UsbStack} ps cap b r b' :
  out_ending ps cap b r b' -> cmd b' = cmd b /\ stat b' = stat b.
Proof.
  intros [s r' b1 _ _ Hs%csw_step_frame|r' b1 _ Hm]; [done|].
  eapply moving_frame in Hm; [exact Hm|]. by intros ?? (_ & _ & ? & ? & _)%recv_frame.
Qed.
Lemma bot_poll_frame `{!UsbStack} ps cap b r b' :
  is_one_of (phase b) [CommandTransfer; CommandTransferInvalid] = false ->
  ~ (phase b = StatusTransfer /\ queue b = []) ->
  bot_poll ps cap b r b' -> cmd b' = cmd b /\ stat b' = stat b.
Proof.
  intros Hp Hnot [r' b1 Hc Hs|Hc|r' b1 Hc Hs|r' b1 Hc Hs|r' b1 Hc Hs|r' b1 Hc Hs|r' b1 Hc Hs
    |r' b1 Hc Hs|r' b1 Hc Hq Hs|r' b1 Hc Hq Hs].
  - by rewrite Hc in Hp.
  - done.
  - by apply await_frame in Hs.
  - destruct Hs as [? ? _ Ha%await_frame|? ? ? _ _ He%in_ending_frame|? ? _ _ _ Hm|]; [done|done| |done].
    eapply moving_frame in Hm; [exact Hm|]. by intros ?? (_ & _ & ? & ? & _)%send_frame.
  - by apply in_ending_frame in Hs.
  - destruct Hs as [? ? _ Ha%await_frame|? ? ? _ _ He%out_ending_frame|? ? _ _ Hm]; [done|done|].
    eapply moving_frame in Hm; [exact Hm|]. by intros ?? (_ & _ & ? & ? & _)%recv_frame.
  - by apply out_ending_frame in Hs.
  - by apply await_frame in Hs.
  - by apply csw_step_frame in Hs.
  - by destruct Hnot.
Qed.

(** What a step takes from the host: nothing, or one packet in the OUT data phase while
    bytes of it are missing. *)
Definition takes `{!UsbStack} (ps : Z) (b b' : Bot) : Prop :=
  wire_out b' = wire_out b \/
  left b <> 0 /\ (phase b = DataTransferFromHost \/ phase b = DataTransferFromHostEnding) /\
    exists p, len p <= ps /\ wire_out b' = wire_out b ++ p.

Lemma csw_step_wire_out `{!UsbStack} ps b r b' : csw_step ps b r b' -> wire_out b' = wire_out b.
Proof. by intros [n b1 (_ & _ & _ & _ & ?)%send_frame|e b1 (_ & _ & _ & _ & ?)%send_frame]. Qed.
Lemma await_wire_out `{!UsbStack} ps b r b' : await ps b r b' -> wire_out b' = wire_out b.
Proof. by intros [|s r' b1 _ Hs%csw_step_wire_out]. Qed.
Lemma send_wire_out `{!UsbStack} ps b r b' : moving (send ps) b r b' -> wire_out b' = wire_out b.
Proof. by intros [n b1 (_ & _ & _ & _ & ?)%send_frame|e b1 (_ & _ & _ & _ & ?)%send_frame]. Qed.
Lemma in_ending_wire_out `{!UsbStack} ps b r b' : in_ending ps b r b' -> wire_out b' = wire_out b.
Proof. by intros [s r' b1 _ _ Hs%csw_step_wire_out|r' b1 _ Hm%send_wire_out]. Qed.
Lemma recv_wire_out `{!UsbStack} ps cap b r b' :
  moving (recv ps cap) b r b' ->
  wire_out b' = wire_out b \/ exists p, len p <= ps /\ wire_out b' = wire_out b ++ p.
Proof. intros [n b1 []|e b1 []]; cbn; eauto. Qed.
Lemma out_ending_wire_out `{!UsbStack} ps cap b r b' :
  out_ending ps cap b r b' ->
  wire_out b' = wire_out b \/
  left b <> 0 /\ exists p, len p <= ps /\ wire_out b' = wire_out b ++ p.
Proof.
  intros [s r' b1 _ _ Hs%csw_step_wire_out|r' b1 Hl Hm%recv_wire_out]; [by left|].
  cbn in Hm. destruct Hm; auto.
Qed.
Lemma bot_poll_takes `{!UsbStack} ps cap b r b' :
  is_one_of (phase b) [CommandTransfer; CommandTransferInvalid] = false ->
  ~ (phase b = StatusTransfer /\ queue b = []) ->
  bot_poll ps cap b r b' -> takes ps b b'.
Proof.
  intros Hp Hnot [r' b1 Hc Hs|Hc|r' b1 Hc Hs|r' b1 Hc Hs|r' b1 Hc Hs|r' b1 Hc Hs|r' b1 Hc Hs
    |r' b1 Hc Hs|r' b1 Hc Hq Hs|r' b1 Hc Hq Hs]; unfold takes.
  - by rewrite Hc in Hp.
  - by left.
  - apply await_wire_out in Hs. by left.
  - left. destruct Hs as [? ? _ Ha%await_wire_out|? ? ? _ _ He%in_ending_wire_out
      |? ? _ _ _ Hm%send_wire_out|]; done.
  - apply in_ending_wire_out in Hs. by left.
  - destruct Hs as [? ? _ Ha%await_wire_out|? ? ? _ _ He%out_ending_wire_out
      |? ? ? _ Hm%recv_wire_out]; [by left|destruct He as [?|[? ?]]|destruct Hm as [?|?]]; auto.
  - apply out_ending_wire_out in Hs as [?|[? ?]]; auto.
  - apply await_wire_out in Hs. by left.
  - apply csw_step_wire_out in Hs. by left.
  - by destruct Hnot.
Qed.

(** Until its status is set a command stays the user's. *)
Lemma await_phase `{!UsbStack} ps b r b' : stat b = None -> await ps b r b' -> b' = b.
Proof. by intros Hs [|s r' b1 Hs']; [|congruence]. Qed.
Lemma moving_phase `{!UsbStack} (R : Bot -> BResult Z -> Bot -> Prop) b r b' :
  (forall r b', R b r b' -> phase b' = phase b) -> moving R b r b' -> phase b' = phase b.
Proof. by intros HR [n b1 ?%HR|e b1 ?%HR]. Qed.
Lemma bot_poll_awaits `{!UsbStack} ps cap b r b' :
  bot_inv cap b -> is_one_of (phase b) [CommandTransfer; CommandTransferInvalid] = false ->
  stat b = None -> bot_poll ps cap b r b' ->
  is_one_of (phase b') [CommandTransfer; CommandTransferInvalid] = false.
Proof.
  intros Hinv Hp Hs [r' b1 Hc Hx|Hc|r' b1 Hc Hx|r' b1 Hc Hx|r' b1 Hc Hx|r' b1 Hc Hx|r' b1 Hc Hx
    |r' b1 Hc Hx|r' b1 Hc Hq Hx|r' b1 Hc Hq Hx]; unfold bot_inv in Hinv; rewrite ?Hc in *; try done.
  - by apply await_phase in Hx as ->.
  - destruct Hx as [? ? _ ->%await_phase|? ? ? _ ? _|? ? _ _ _ Hm|]; [done|done|congruence| |by rewrite Hc].
    apply moving_phase in Hm as ->; [by rewrite Hc|]. by intros ?? (? & _)%send_frame.
  - by destruct Hinv as (_ & _ & _ & _ & ?).
  - destruct Hx as [? ? _ ->%await_phase|? ? ? _ ? _|? ? ? _ Hm]; [done|done|congruence|].
    apply moving_phase in Hm as ->; [by rewrite Hc|]. by intros ?? (? & _)%recv_frame.
  - by destruct Hinv as (_ & _ & _ & ?).
  - apply await_phase in Hx as ->; [|done]. by destruct Hc as [Hc|Hc]; rewrite Hc.
  - by destruct Hinv as (_ & _ & _ & ? & _).
  - by destruct Hinv as (_ & _ & _ & ? & _).
Qed.

(** ** The invariant is preserved *)

Section Invariant.
Context `{!UsbStack} (ps cap : Z).
Hypothesis Hps : 0 < ps.
Hypothesis Hps_cap : ps <= cap.
Hypothesis Hcap : CBW_LEN <= cap.

(** A command is in progress: what [bot_inv] says of every such phase. *)
Definition cmd_inv (b : Bot) : Prop :=
  len (queue b) <= cap /\ cbw_ok (cmd b) /\ 0 <= left b <= data_transfer_len (cmd b).

(** Close the conjuncts of an invariant about a concrete successor state. *)
Ltac solve_inv :=
  unfold bot_inv, cmd_inv, saturating_sub in *; cbn in *; destruct_and?; split_and?;
  try first [assumption | congruence | len_lia].

Lemma enter_csw_inv s b : cmd_inv b -> stat b = Some s -> bot_inv cap (enter_csw s b).
Proof.
  intros Hb Hs. solve_inv; rewrite ?len_csw_bytes; unfold CSW_LEN, CBW_LEN in *; lia.
Qed.

Lemma csw_step_inv b r b' :
  phase b = StatusTransfer -> bot_inv cap b -> csw_step ps b r b' -> bot_inv cap b'.
Proof.
  unfold bot_inv. intros Hp. rewrite Hp.
  intros Hb [n b1 Hs|e b1 Hs]; inversion Hs; subst; cbn in *; rewrite ?Hp. all: solve_inv.
Qed.

Lemma await_inv b r b' :
  cmd_inv b -> bot_inv cap b -> await ps b r b' -> bot_inv cap b'.
Proof.
  intros Hc Hb [|s r' b1 Hs Hstep]; [done|].
  refine (csw_step_inv _ _ _ _ _ Hstep); [done|]. by apply enter_csw_inv.
Qed.

Lemma in_ending_inv b r b' :
  phase b = DataTransferToHostEnding -> bot_inv cap b -> in_ending ps b r b' -> bot_inv cap b'.
Proof.
  intros Hp Hb [s r' b1 ? Hs Hstep|r' b1 Hl Hm].
  - refine (csw_step_inv _ _ _ _ _ Hstep); [done|]. apply enter_csw_inv; [|done].
    unfold bot_inv in Hb. rewrite Hp in Hb. solve_inv.
  - unfold bot_inv in *. rewrite Hp in Hb.
    destruct Hm as [n b2 Hs|e b2 Hs]; inversion Hs; subst; cbn in *; rewrite ?Hp; solve_inv.
Qed.

Lemma data_in_inv b r b' :
  phase b = DataTransferToHost -> bot_inv cap b -> data_in ps b r b' -> bot_inv cap b'.
Proof.
  unfold bot_inv at 1. intros Hp. rewrite Hp.
  intros Hb [r' b1 Hl Ha|s r' b1 Hl Hs He|r' b1 Hl Hs Hor Hm|Hs Hl Hq].
  - refine (await_inv _ _ _ _ _ Ha); solve_inv. apply len_zero_inv. len_lia.
  - refine (in_ending_inv _ _ _ _ _ He); solve_inv.
  - unfold bot_inv.
    destruct Hm as [n b2 Ht|e b2 Ht]; inversion Ht; subst; cbn in *; rewrite ?Hp; solve_inv.
  - unfold bot_inv. rewrite Hp. solve_inv.
Qed.

Lemma out_ending_inv b r b' :
  phase b = DataTransferFromHostEnding -> bot_inv cap b -> out_ending ps cap b r b' ->
  bot_inv cap b'.
Proof.
  unfold bot_inv at 1. intros Hp. rewrite Hp. intros Hb [s r' b1 ? Hs Hstep|r' b1 Hl Hm].
  - refine (csw_step_inv _ _ _ _ _ Hstep); [done|]. apply enter_csw_inv; solve_inv.
  - unfold bot_inv.
    destruct Hm as [n b2 Ht|e b2 Ht]; inversion Ht; subst; cbn in *; rewrite ?Hp; solve_inv.
Qed.

Lemma data_out_inv b r b' :
  phase b = DataTransferFromHost -> bot_inv cap b -> data_out ps cap b r b' -> bot_inv cap b'.
Proof.
  unfold bot_inv at 1. intros Hp. rewrite Hp.
  intros Hb [r' b1 Hl Ha|s r' b1 Hl Hs He|r' b1 Hl Hs Hm].
  - refine (await_inv _ _ _ _ _ Ha); solve_inv.
  - refine (out_ending_inv _ _ _ _ _ He); solve_inv.
  - unfold bot_inv.
    destruct Hm as [n b2 Ht|e b2 Ht]; inversion Ht; subst; cbn in *; rewrite ?Hp; solve_inv.
Qed.

(** A command that begins satisfies the invariant of its first phase. *)
Lemma begin_inv c b : cbw_ok c -> 0 <= cap -> cmd_inv (begin c b) /\ bot_inv cap (begin c b).
Proof.
  intros Hc ?. pose proof Hc as [? [? ?] Hd ? ? ?]. unfold bot_inv, cmd_inv. cbn.
  destruct (direction c); cbn; split_and?; try (done || len_lia). by apply Hd.
Qed.

Lemma start_inv b r b' :
  (exists c b0, b = begin c b0) -> cmd_inv b -> bot_inv cap b -> start ps cap b r b' ->
  bot_inv cap b'.
Proof.
  intros (c & b0 & ->) Hc Hb. unfold start. cbn. destruct (direction c) eqn:Hd.
  - apply data_out_inv; [cbn; by rewrite Hd|done].
  - apply data_in_inv; [cbn; by rewrite Hd|done].
  - apply await_inv; [done|]. unfold bot_inv in *. cbn in *. rewrite Hd in Hb. done.
Qed.

Lemma cbw_step_inv b r b' :
  phase b = CommandTransfer -> bot_inv cap b -> cbw_step ps cap b r b' -> bot_inv cap b'.
Proof.
  unfold bot_inv at 1. intros Hp. rewrite Hp.
  assert (forall n b1, bot_inv cap b -> recv ps cap b (Ok n) b1 -> len (queue b1) <= cap) as Hlen.
  { intros n b1 [] Hr. inversion Hr; subst. cbn. len_lia. }
  intros Hb [e b1 Hr|n b1 Hr Hl|n b1 Hr Hl Hn|n b1 c r' b2 Hr Hl Hd Hs].
  - inversion Hr; subst; unfold bot_inv; rewrite Hp; solve_inv.
  - inversion Hr; subst; unfold bot_inv; cbn; rewrite Hp; solve_inv.
  - inversion Hr; subst; unfold bot_inv; cbn; solve_inv.
  - apply decode_cbw_ok in Hd; [|unfold CBW_LEN in *; len_lia].
    unfold CBW_LEN in *. refine (start_inv _ _ _ _ _ _ Hs); [eauto|apply begin_inv; [done|lia]..].
Qed.

(** The invariant is preserved by every [poll], whatever the endpoints do. *)
Lemma bot_poll_inv b r b' : bot_inv cap b -> bot_poll ps cap b r b' -> bot_inv cap b'.
Proof.
  intros Hb [r' b1 Hp Hs|Hp|r' b1 Hp Hs|r' b1 Hp Hs|r' b1 Hp Hs|r' b1 Hp Hs|r' b1 Hp Hs
            |r' b1 Hp Hs|r' b1 Hp Hq Hs|r' b1 Hp Hq Hs].
  - exact (cbw_step_inv _ _ _ Hp Hb Hs).
  - done.
  - unfold bot_inv in Hb. rewrite Hp in Hb. refine (await_inv _ _ _ _ _ Hs); solve_inv.
  - exact (data_in_inv _ _ _ Hp Hb Hs).
  - exact (in_ending_inv _ _ _ Hp Hb Hs).
  - exact (data_out_inv _ _ _ Hp Hb Hs).
  - exact (out_ending_inv _ _ _ Hp Hb Hs).
  - refine (await_inv _ _ _ _ Hb Hs).
    unfold bot_inv in Hb. destruct Hp as [Hp|Hp]; rewrite Hp in Hb; solve_inv.
  - exact (csw_step_inv _ _ _ Hp Hb Hs).
  - refine (cbw_step_inv _ _ _ _ _ Hs); [done|].
    unfold bot_inv, CBW_LEN in *. cbn. split; [len_lia|done].
Qed.
End Invariant.
