(* ===== verification/BbbRefine.v ===== *)
(** * The transport implements the protocol machine

    [view] forgets the buffer's positions and the device's hardware; [live] says
    that a transport works on the given device (its endpoints, its buffer size)
    with a well-formed buffer. Each handler of file Bbb, run from a live state
    in which the protocol's invariant holds, returns (no assertion fails, no
    slice is out of range, no fuel is missing) and makes the step that file
    BotSpec prescribes. *)
From S2P Require Import Prelude.
From S2P Require Import Usb.
From S2P Require Import Buffer.
From S2P Require Import Transport.
From S2P Require Import Bbb.
From S2P Require Import BotSpec.

Local Open Scope Z_scope.
Local Open Scope rust_scope.

(** ** Rules for the calls on parts of the transport *)

Section Rules.
Context `{!UsbStack}.

Lemma wp_with_local {W A} (w : W) (m : M (Buffer * W) A) Q b :
  wp m (fun a p => Q (a, snd p) (fst p)) (b, w) -> wp (with_local w m) Q b.
Proof. unfold wp, with_local. by destruct (m (b, w)) as [[a [b' w']]| |]. Qed.

Lemma wp_on_bus {A} (m : M Bus A) Q t :
  wp m (fun a x => Q a (set_bus x t)) (bus t) -> wp (on_bus m) Q t.
Proof. apply wp_zoom. Qed.
Lemma wp_on_buf {A} (m : M Buffer A) Q t :
  wp m (fun a x => Q a (set_buf x t)) (buf t) -> wp (on_buf m) Q t.
Proof. apply wp_zoom. Qed.
Lemma wp_on_buf_bus {A} (m : M (Buffer * Bus) A) Q t :
  wp m (fun a p => Q a (set_bus (snd p) (set_buf (fst p) t))) (buf t, bus t) ->
  wp (on_buf_bus m) Q t.
Proof. unfold wp, on_buf_bus, zoom. by destruct (m (buf t, bus t)) as [[a p]| |]. Qed.

Lemma wp_assert_state (l : list State) Q (t : BulkOnly) :
  is_one_of (state t) l = true -> Q tt t -> wp (assert (is_one_of (state t) l)) Q t.
Proof. apply wp_assert. Qed.
End Rules.

(** The hardware a transport works on. *)
Record device `{!UsbStack} := mkDevice {
  d_in : Endpoint;
  d_out : Endpoint;
  d_max_lun : Z;
  d_capacity : Z
}.

Section Refinement.
  Context `{!UsbStack, !UsbStackLaws}.

Definition d_ps (d : device) : Z := max_packet_size (d_in d).

(** Endpoints of one size, and a buffer that holds a packet and a command. *)
Record device_ok (d : device) : Prop := {
  d_ps_range : 0 < d_ps d < 2 ^ 16;
  d_same_ps : max_packet_size (d_out d) = d_ps d;
  d_ps_fits : d_ps d <= d_capacity d;
  d_cbw_fits : CBW_LEN <= d_capacity d;
  d_max_lun_range : 0 <= d_max_lun d <= 0x0F
}.

Record live (d : device) (t : BulkOnly) : Prop := {
  live_in : in_ep t = d_in d;
  live_out : out_ep t = d_out d;
  live_max_lun : max_lun t = d_max_lun d;
  live_bus : bus_ok (d_in d) (d_out d) (bus t);
  live_buf : wf_buf (buf t);
  live_capacity : capacity (buf t) = d_capacity d
}.

Definition view (t : BulkOnly) : Bot :=
  mkBot (state t) (contents (buf t)) (left_to_transfer t) (cbw t) (cs t)
    (in_log (bus t)) (out_log (bus t)).

(** The run ends live and makes a step of [R]. *)
Definition steps {A} (d : device) (R : Bot -> A -> Bot -> Prop) (t : BulkOnly)
    : A -> BulkOnly -> Prop :=
  fun r t' => live d t' /\ R (view t) r (view t').
End Refinement.

Section Handlers.
Context `{!UsbStack, !UsbStackLaws} (d : device).
Hypothesis Hd : device_ok d.

Local Abbreviation ps := (d_ps d).
Local Abbreviation cap := (d_capacity d).

Lemma live_packet_size t : live d t -> packet_size t = ps.
Proof. intros Ht. unfold packet_size. by rewrite (live_in d t Ht). Qed.
Lemma live_available_read t :
  live d t -> available_read (buf t) = Returns (len (queue (view t))).
Proof. intros Ht. by apply available_read_eq, (live_buf d). Qed.
Lemma live_set_state p t : live d t -> live d (set_state p t).
Proof. by intros []. Qed.
Lemma live_set_buf b t :
  live d t -> wf_buf b -> capacity b = cap -> live d (set_buf b t).
Proof. by intros [] ??. Qed.

Lemma live_update b w t :
  live d t -> wf_buf b -> capacity b = cap -> bus_ok (d_in d) (d_out d) w ->
  live d (set_bus w (set_buf b t)).
Proof. intros [] ???. constructor; cbn; congruence || done. Qed.
Lemma view_same b w t :
  contents b = contents (buf t) -> in_log w = in_log (bus t) -> out_log w = out_log (bus t) ->
  view (set_bus w (set_buf b t)) = view t.
Proof. unfold view. cbn. congruence. Qed.
Lemma view_emit n b w t :
  contents b = zdrop n (contents (buf t)) ->
  in_log w = in_log (bus t) ++ ztake n (contents (buf t)) -> out_log w = out_log (bus t) ->
  view (set_bus w (set_buf b t)) = emit n (view t).
Proof. unfold view, emit. cbn. congruence. Qed.
Lemma view_absorb p b w t :
  contents b = contents (buf t) ++ p ->
  in_log w = in_log (bus t) -> out_log w = out_log (bus t) ++ p ->
  view (set_bus w (set_buf b t)) = absorb p (view t).
Proof. unfold view, absorb. cbn. congruence. Qed.

(** ** Packets *)

Lemma write_packet_step t : live d t -> wp write_packet (steps d (send ps) t) t.
Proof.
  intros Ht. pose proof Ht as [Hi Ho _ Hbus Hbuf Hcap].
  unfold write_packet. wp_steps. rewrite (live_packet_size t Ht), Hi.
  apply wp_on_buf_bus, wp_read; [done|].
  destruct (Z.eqb_spec (len (contents (buf t))) 0) as [Hz|Hz]; cbn [negb].
  - apply wp_ret. split; [done|]. split; [lia|]. intros b' Hb' [= Hc Hq].
    rewrite Z.min_l in * by lia. rewrite zdrop_le0 in Hq by lia.
    split; [apply live_update; cbn; congruence || done|].
    rewrite view_same by done.
    apply send_nothing. by apply len_zero_inv.
  - pose proof (len_nonneg (contents (buf t))). pose proof (d_ps_range d Hd).
    wp_steps. set (data := zslice 0 (ps `min` len (contents (buf t))) (contents (buf t))).
    assert (len data = ps `min` len (contents (buf t))) as Hdata by (unfold data; len_lia).
    eapply wp_mono; [apply (ep_write_law _ _ _ data Hbus); unfold d_ps in *; lia|].
    intros r w (Hbus' & Hout & Hr). wp_steps. split; [done|].
    assert (contents (buf t) <> []) by (intros E; rewrite E in Hz; done).
    destruct r as [n|e]; cbn [wrap_usb].
    + destruct Hr as [Hn Hin]. split; [lia|]. intros b' Hb' [= Hc Hq].
      rewrite Z.min_l in * by lia.
      split; [apply live_update; cbn; congruence || done|].
      rewrite (view_emit n); [by apply send_packet; [|cbn; lia]|done| |done].
      cbn [snd]. rewrite Hin. f_equal. unfold data, zslice.
      rewrite zdrop_le0, ztake_ztake by lia. f_equal. lia.
    + intros b' Hb' [Hc Hq]. split; [apply live_update; cbn; congruence || done|].
      rewrite view_same by done.
      by apply send_error.
Qed.

Lemma read_packet_step t : live d t -> wp read_packet (steps d (recv ps cap) t) t.
Proof.
  intros Ht. pose proof Ht as [Hi Ho _ Hbus Hbuf Hcap]. pose proof (d_ps_range d Hd).
  unfold read_packet. wp_steps. rewrite (live_packet_size t Ht), Ho.
  apply wp_on_buf_bus, wp_write_all; [done|lia|unfold fifo_room, abs; cbn..]; rewrite Hcap.
  - intros Hroom b' Hb' [Hc Hq]. split; [apply live_update; cbn; congruence || done|].
    rewrite view_same by done.
    by apply recv_overflow.
  - intros Hroom dst Hdst. wp_steps.
    eapply wp_mono; [apply (ep_read_law _ _ _ dst Hbus); rewrite (d_same_ps d Hd); lia|].
    intros [dst' r] w (Hbus' & Hin & Hlen & Hr). wp_steps. split; [lia|].
    destruct r as [n|e]; cbn [wrap_usb].
    + destruct Hr as [Hn Hout]. split; [lia|]. intros b' Hb' [= Hc Hq].
      split; [apply live_update; cbn; congruence || done|].
      assert (n = len (ztake n dst')) as Hn' by len_lia. rewrite Hn' at 1.
      rewrite (view_absorb (ztake n dst')) by done. apply recv_packet; [done|lia].
    + intros b' Hb' [Hc Hq]. split; [apply live_update; cbn; congruence || done|].
      rewrite view_same by done.
      by apply recv_error.
Qed.

(** ** State changes *)

Lemma wp_clear_step Q t :
  live d t ->
  (forall t', live d t' -> view t' = with_queue [] (view t) -> Q tt t') ->
  wp (on_buf Buffer.clear) Q t.
Proof.
  intros Ht HQ. pose proof Ht as [_ _ _ _ _ Hcap].
  apply wp_on_buf, wp_clear; [apply len_nonneg|]. intros b Hb [= Hc Hq].
  apply HQ; [apply live_set_buf; congruence || done|].
  unfold view, with_queue. cbn. by rewrite Hq.
Qed.

Lemma wp_enter_command_transfer Q t :
  live d t ->
  (forall t', live d t' -> view t' = idle (view t) -> Q tt t') ->
  wp enter_state_command_transfer Q t.
Proof.
  intros Ht HQ. pose proof Ht as [Hi Ho Hml Hbus Hbuf Hcap].
  unfold enter_state_command_transfer. wp_steps. apply wp_on_bus. cbn. rewrite Hi.
  eapply wp_mono; [by apply (ep_unstall_law _ _ _ (d_in d) Hbus); left|].
  intros _ w (Hw & Hin & Hout). wp_steps. apply wp_on_bus. cbn. rewrite Ho.
  eapply wp_mono; [by apply (ep_unstall_law _ _ _ (d_out d) Hw); right|].
  intros _ w' (Hw' & Hin' & Hout'). wp_steps.
  apply wp_clear_step; [by constructor|]. intros t' Ht' Hv. wp_steps.
  apply HQ; [by apply live_set_state|].
  destruct t'. unfold view, idle, with_queue in *. cbn in *. congruence.
Qed.

Lemma copy_into_run (a src mid tl_ : list byte) at_ to :
  0 <= at_ -> len a = at_ -> to = at_ + len src -> len mid = len src ->
  copy_into (a ++ mid ++ tl_) at_ to src = Returns (a ++ src ++ tl_).
Proof.
  intros ? Ha -> Hm. unfold copy_into, slice. pose proof (len_nonneg src).
  pose proof (len_nonneg tl_).
  replace ((0 <=? at_) && (at_ <=? at_ + len src) && (at_ + len src <=? len (a ++ mid ++ tl_)))
    with true by (rewrite !len_app; lia).
  cbn [obind]. unfold copy_from_slice.
  replace (len (zslice at_ (at_ + len src) (a ++ mid ++ tl_)) =? len src) with true by len_lia.
  cbn [obind]. unfold splice. do 2 f_equal.
  - by rewrite ztake_app_le, ztake_all by lia.
  - f_equal. rewrite zdrop_app_ge, zdrop_app_ge, zdrop_le0 by len_lia. done.
Qed.

Lemma build_csw_run t s : cs t = Some s -> build_csw t = Returns (Some (csw_bytes (cbw t) s)).
Proof.
  intros Hs. unfold build_csw. rewrite Hs.
  change (zreplicate CSW_LEN x00) with
    ([] ++ zreplicate 4 x00 ++ (zreplicate 4 x00 ++ zreplicate 4 x00 ++ [x00])).
  rewrite copy_into_run by done. cbn [obind app].
  rewrite copy_into_run by (autorewrite with len_db; done). cbn [obind].
  rewrite (app_assoc CSW_SIGNATURE_LE), copy_into_run by (autorewrite with len_db; done).
  cbn [obind]. rewrite (app_assoc (CSW_SIGNATURE_LE ++ _)), <- (app_nil_r [x00]).
  rewrite copy_into_run by (autorewrite with len_db; done). cbn [obind].
  unfold csw_bytes. rewrite app_nil_r, <- !app_assoc. done.
Qed.

Lemma wp_enter_status_transfer s Q t :
  live d t -> cs t = Some s ->
  (forall t', live d t' -> view t' = enter_csw s (view t) -> Q tt t') ->
  wp enter_state_status_transfer Q t.
Proof.
  intros Ht Hs HQ. pose proof (d_cbw_fits d Hd) as Hfits.
  unfold enter_state_status_transfer. wp_steps. rewrite (build_csw_run t s Hs). cbn [owp].
  wp_steps. apply wp_clear_step; [done|]. intros t1 Ht1 Hv1. wp_steps.
  apply wp_on_buf, wp_write; [apply Ht1|]. intros b Hb Habs.
  pose proof (live_capacity d t1 Ht1) as Hcap. wp_steps. unfold CBW_LEN in *.
  injection Hv1 as Hst Hq Hleft Hcbw Hcs Hin Hout.
  unfold fifo_write, fifo_room, fifo_push in Habs. cbn in Habs. rewrite Hq, Hcap in Habs.
  rewrite len_csw_bytes, ztake_all in Habs by (rewrite len_csw_bytes, len_nil; unfold CSW_LEN; lia).
  injection Habs as Hcap' Hq'.
  apply HQ; [by apply live_set_state, live_set_buf|].
  unfold view, enter_csw. cbn. congruence.
Qed.

Lemma send_count b n b' : send ps b (Ok n) b' -> 0 <= n < u32_modulus.
Proof.
  pose proof (d_ps_range d Hd). unfold u32_modulus. intros Hs. inversion Hs; lia.
Qed.
Lemma recv_count b n b' : recv ps cap b (Ok n) b' -> 0 <= n < u32_modulus.
Proof.
  pose proof (d_ps_range d Hd). unfold u32_modulus. intros Hs. inversion Hs; len_lia.
Qed.

(** A transfer, and what it moved marked as done. *)
Lemma wp_moving (tr : M BulkOnly (BResult Z)) R Q t :
  (forall b n b', R b (Ok n) b' -> 0 <= n < u32_modulus) ->
  wp tr (steps d R t) t ->
  (forall r t', live d t' -> moving R (view t) r (view t') -> Q r t') ->
  wp (let? n := tr in do! mark_as_transferred (as_u32 n) in ret (Ok tt)) Q t.
Proof.
  intros Hcount Htr HQ. wp_steps. eapply wp_mono; [exact Htr|].
  intros [n|e] t' [Ht' HR]; [|apply HQ; [done|by apply moving_err]].
  unfold mark_as_transferred. wp_steps. apply HQ; [by destruct Ht'|].
  apply (moving_ok _ _ n _) in HR as HR'. pose proof (Hcount _ _ _ HR).
  unfold as_u32. rewrite Z.mod_small by done. exact HR'.
Qed.

(** The write buffer part of the status phase. *)
Lemma wp_csw Q t :
  live d t ->
  (forall r t', live d t' -> csw_step ps (view t) r (view t') -> Q r t') ->
  wp (let? _ := write_packet in ret (Ok tt)) Q t.
Proof.
  intros Ht HQ. wp_steps. eapply wp_mono; [by apply write_packet_step|].
  intros [n|e] t' [Ht' Hs]; [wp_steps|]; eauto with bot.
Qed.

Lemma wp_assert_buffer_len Q t :
  live d t -> len (queue (view t)) <= left (view t) -> Q tt t ->
  wp assert_buffer_len_not_exceeding Q t.
Proof.
  intros Ht Hle HQ. unfold assert_buffer_len_not_exceeding. wp_steps.
  rewrite (live_available_read t Ht). cbn [owp]. apply wp_assert; [|done]. cbn in *. lia.
Qed.

(** ** Handlers *)

Lemma handle_cbw_invalid_step t :
  live d t -> state t = CommandTransferInvalid ->
  wp handle_cbw_invalid (fun r t' => live d t' /\ r = Ok tt /\ view t' = view t /\
    stalled (d_in d) (bus t') /\ stalled (d_out d) (bus t')) t.
Proof.
  intros Ht Hp. pose proof Ht as [Hi Ho Hml Hbus Hbuf Hcap].
  unfold handle_cbw_invalid. wp_steps. apply wp_assert_state; [by rewrite Hp|].
  wp_steps. rewrite Hi. apply wp_on_bus.
  eapply wp_mono; [by apply (ep_stall_law _ _ _ (d_in d) Hbus); left|].
  intros _ w (Hw & Hin & Hout & Hst & _). wp_steps. cbn [out_ep set_bus]. rewrite Ho.
  apply wp_on_bus.
  eapply wp_mono; [by apply (ep_stall_law _ _ _ (d_out d) Hw); right|].
  intros _ w' (Hw' & Hin' & Hout' & Hst' & Hmono). wp_steps.
  split; [by constructor|]. split; [done|]. split; [unfold view; cbn; congruence|].
  split; [by apply Hmono|done].
Qed.

(** What a handler needs of the call that closes the cycle. *)
Definition csw_rec (rec : M BulkOnly (BResult unit)) : Prop :=
  forall t, live d t -> state t = StatusTransfer -> queue (view t) <> [] ->
    wp rec (steps d (csw_step ps) t) t.

Section Cycle.
Context (rec : M BulkOnly (BResult unit)).

(** The status is set: build the wrapper and begin to send it. *)
Lemma wp_finish s Q t :
  csw_rec rec -> live d t -> cs t = Some s ->
  (forall r t', live d t' -> csw_step ps (enter_csw s (view t)) r (view t') -> Q r t') ->
  wp (do! enter_state_status_transfer in rec) Q t.
Proof.
  intros Hrec Ht Hs HQ. wp_steps. eapply wp_enter_status_transfer; [done..|].
  intros t1 Ht1 Hv. eapply wp_mono.
  - apply Hrec; [done| |rewrite Hv; apply csw_bytes_nonempty].
    by change (phase (view t1) = StatusTransfer); rewrite Hv.
  - intros r t' [Ht' HR]. rewrite Hv in HR. auto.
Qed.

Lemma handle_data_transfer_status_await_step t :
  (cs t <> None -> csw_rec rec) -> live d t ->
  state t = DataTransferStatusAwait \/ state t = DataTransferFromHostStatusAwait ->
  wp (handle_data_transfer_status_await rec) (steps d (await ps) t) t.
Proof.
  intros Hrec Ht Hp. unfold handle_data_transfer_status_await. wp_steps.
  apply wp_assert_state; [by destruct Hp as [-> | ->]|]. unfold has_status.
  destruct (cs t) as [s|] eqn:Hs.
  - assert (forall m : M BulkOnly (BResult unit), forall Q t, wp m Q t ->
      wp (let? _ := m in ret (Ok tt)) Q t) as Htail.
    { intros m Q t0 Hm. wp_steps. eapply wp_mono; [exact Hm|]. by intros [[]|e]. }
    wp_steps. eapply wp_enter_status_transfer; [done..|]. intros t1 Ht1 Hv.
    apply Htail. eapply wp_mono.
    + apply Hrec; [done..| |rewrite Hv; apply csw_bytes_nonempty].
      by change (phase (view t1) = StatusTransfer); rewrite Hv.
    + intros r t' [Ht' HR]. split; [done|]. rewrite Hv in HR. by eapply await_done.
  - wp_steps. split; [done|]. by apply await_user.
Qed.

Lemma wp_pad Q t :
  live d t -> left (view t) <> 0 -> 0 <= left (view t) ->
  len (queue (view t)) <= left (view t) ->
  (forall t', live d t' -> view t' = pad ps (view t) -> Q tt t') ->
  let n := Z.min (left_to_transfer t) ps in
  wp (when (len (queue (view t)) <? n)
       (on_buf (fill_up_to FILL_BYTE (saturating_sub n (len (queue (view t))))))) Q t.
Proof.
  intros Ht Hl Hl0 Hq HQ n. pose proof Ht as [_ _ _ _ Hbuf Hcap].
  pose proof (d_ps_fits d Hd). pose proof (d_ps_range d Hd).
  cbn [left queue view] in *. set (q := contents (buf t)) in *.
  apply wp_when; intros Hn; apply Z.ltb_lt in Hn || apply Z.ltb_ge in Hn.
  - apply wp_on_buf, wp_fill_up_to; [done|unfold saturating_sub; lia|].
    intros b Hb [= Hc Hq']. fold q in Hq'.
    rewrite Z.min_r in Hq' by (unfold fifo_room, abs, saturating_sub; cbn; fold q; lia).
    apply HQ; [apply live_set_buf; congruence || done|].
    unfold view, pad, with_queue. cbn. rewrite Hq'. fold q n. do 3 f_equal.
    unfold saturating_sub. lia.
  - apply HQ; [done|]. unfold view, pad, with_queue. cbn. fold q n. f_equal.
    unfold zreplicate. replace (Z.to_nat (n - len q)) with 0%nat by lia.
    by rewrite app_nil_r.
Qed.

Lemma handle_data_transfer_to_host_ending_step t :
  csw_rec rec -> live d t -> state t = DataTransferToHostEnding -> bot_inv cap (view t) ->
  wp (handle_data_transfer_to_host_ending rec) (steps d (in_ending ps) t) t.
Proof.
  intros Hrec Ht Hp Hb. unfold bot_inv in Hb. cbn in Hb. rewrite Hp in Hb.
  destruct Hb as (Hcap & Hcmd & Hleft & Hq & Hs). pose proof (d_ps_range d Hd).
  unfold handle_data_transfer_to_host_ending. wp_steps.
  apply wp_assert_state; [by rewrite Hp|]. wp_steps.
  apply wp_assert_buffer_len; [done..|].
  rewrite (live_packet_size t Ht).
  destruct (Z.eqb_spec (Z.min (left_to_transfer t) ps) 0) as [Hz|Hz].
  - destruct (cs t) as [s|] eqn:Hst; [|done].
    eapply wp_finish; [done..|]. intros r t' Ht' HR. split; [done|].
    eapply in_ending_done; [cbn; lia|exact Hst|done].
  - wp_steps. rewrite (live_available_read t Ht). cbn [owp].
    wp_steps. apply wp_pad; [done|cbn; lia|cbn; lia|done|]. intros t1 Ht1 Hv.
    eapply (wp_moving _ (send ps)); [apply send_count|by apply write_packet_step|].
    intros r t' Ht' HR. split; [done|]. rewrite Hv in HR.
    apply in_ending_send; [cbn; lia|done].
Qed.

Lemma try_write_full_packet_step t :
  live d t ->
  wp try_write_full_packet
    (fun r t' => live d t' /\
       if bool_decide (len (queue (view t)) < ps)
       then r = Err (Error FullPacketExpected) /\ t' = t
       else send ps (view t) r (view t')) t.
Proof.
  intros Ht. unfold try_write_full_packet. wp_steps. rewrite (live_available_read t Ht).
  cbn [owp]. rewrite (live_packet_size t Ht).
  destruct (Z.ltb_spec (len (queue (view t))) ps).
  - rewrite bool_decide_eq_true_2 by done. by apply wp_ret.
  - rewrite bool_decide_eq_false_2 by lia. by apply write_packet_step.
Qed.

Lemma handle_data_transfer_to_host_step t :
  (cs t <> None -> csw_rec rec) -> live d t -> state t = DataTransferToHost ->
  bot_inv cap (view t) ->
  wp (handle_data_transfer_to_host rec) (steps d (data_in ps) t) t.
Proof.
  intros Hrec Ht Hp Hb. pose proof Hb as Hb'. unfold bot_inv in Hb'. cbn in Hb'.
  rewrite Hp in Hb'. destruct Hb' as (Hcap & Hcmd & Hleft & Hq). pose proof (d_ps_range d Hd).
  unfold handle_data_transfer_to_host. wp_steps.
  apply wp_assert_state; [by rewrite Hp|]. wp_steps.
  apply wp_assert_buffer_len; [done..|].
  destruct (Z.eqb_spec (left_to_transfer t) 0) as [Hz|Hz].
  { unfold enter_state_data_transfer_status_await. wp_steps.
    eapply wp_mono; [apply handle_data_transfer_status_await_step; cbn; auto; by destruct Ht|].
    intros r t' [Ht' HR]. split; [done|]. by apply data_in_done. }
  unfold has_status. destruct (cs t) as [s|] eqn:Hs.
  { unfold enter_state_data_transfer_to_host_ending. wp_steps.
    eapply wp_mono; [apply handle_data_transfer_to_host_ending_step; cbn; auto|].
    - by destruct Ht.
    - unfold bot_inv. cbn. rewrite Hs. done.
    - intros r t' [Ht' HR]. split; [done|]. by eapply data_in_short. }
  rewrite (live_packet_size t Ht). unfold as_u32 at 1.
  rewrite Z.mod_small by (unfold u32_modulus; lia).
  destruct (Z.ltb_spec (left_to_transfer t) ps).
  - eapply (wp_moving _ (send ps)); [apply send_count|by apply write_packet_step|].
    intros r t' Ht' HR. split; [done|]. apply data_in_send; auto.
  - destruct (decide (len (queue (view t)) < ps)) as [Hlt|Hge].
    + wp_steps. eapply wp_mono; [by apply try_write_full_packet_step|].
      rewrite bool_decide_eq_true_2 by done. intros r t' [Ht' [-> ->]].
      split; [done|]. by apply data_in_not_enough.
    + eapply (wp_moving _ (send ps)); [apply send_count| |].
      * eapply wp_mono; [by apply try_write_full_packet_step|].
        rewrite bool_decide_eq_false_2 by done. done.
      * intros r t' Ht' HR. split; [done|]. apply data_in_send; auto. right. lia.
Qed.

Lemma handle_data_transfer_from_host_ending_step t :
  csw_rec rec -> live d t -> state t = DataTransferFromHostEnding -> bot_inv cap (view t) ->
  wp (handle_data_transfer_from_host_ending rec) (steps d (out_ending ps cap) t) t.
Proof.
  intros Hrec Ht Hp Hb. unfold bot_inv in Hb. cbn in Hb. rewrite Hp in Hb.
  destruct Hb as (Hcap & Hcmd & Hleft & Hs).
  unfold handle_data_transfer_from_host_ending. wp_steps.
  apply wp_assert_state; [by rewrite Hp|].
  destruct (Z.ltb_spec 0 (left_to_transfer t)) as [Hz|Hz].
  - wp_steps. apply wp_clear_step; [done|]. intros t1 Ht1 Hv.
    eapply (wp_moving _ (recv ps cap)); [apply recv_count|by apply read_packet_step|].
    intros r t' Ht' HR. split; [done|]. rewrite Hv in HR.
    apply out_ending_recv; [cbn; lia|done].
  - destruct (cs t) as [s|] eqn:Hst; [|done].
    eapply wp_finish; [done..|]. intros r t' Ht' HR. split; [done|].
    eapply out_ending_done; [cbn; lia|exact Hst|done].
Qed.

Lemma handle_data_transfer_from_host_step t :
  (cs t <> None -> csw_rec rec) -> live d t -> state t = DataTransferFromHost ->
  bot_inv cap (view t) ->
  wp (handle_data_transfer_from_host rec) (steps d (data_out ps cap) t) t.
Proof.
  intros Hrec Ht Hp Hb. pose proof Hb as Hb'. unfold bot_inv in Hb'. cbn in Hb'.
  rewrite Hp in Hb'. destruct Hb' as (Hcap & Hcmd & Hleft & _).
  unfold handle_data_transfer_from_host. wp_steps.
  apply wp_assert_state; [by rewrite Hp|].
  destruct (Z.eqb_spec (left_to_transfer t) 0) as [Hz|Hz].
  { unfold enter_state_data_transfer_from_host_status_await. wp_steps.
    eapply wp_mono; [apply handle_data_transfer_status_await_step; cbn; auto; by destruct Ht|].
    intros r t' [Ht' HR]. split; [done|]. by apply data_out_done. }
  unfold has_status. destruct (cs t) as [s|] eqn:Hs.
  { unfold enter_state_data_transfer_from_host_ending. wp_steps.
    eapply wp_mono; [apply handle_data_transfer_from_host_ending_step; cbn; auto|].
    - by destruct Ht.
    - unfold bot_inv. cbn. rewrite Hs. done.
    - intros r t' [Ht' HR]. split; [done|]. by eapply data_out_short. }
  eapply (wp_moving _ (recv ps cap)); [apply recv_count|by apply read_packet_step|].
  intros r t' Ht' HR. split; [done|]. by apply data_out_recv.
Qed.

Lemma handle_data_transfer_no_data_step t :
  (cs t <> None -> csw_rec rec) -> live d t -> state t = DataTransferNoData ->
  wp (handle_data_transfer_no_data rec)
    (steps d (fun b => await ps (with_phase DataTransferStatusAwait b)) t) t.
Proof.
  intros Hrec Ht Hp. unfold handle_data_transfer_no_data. wp_steps.
  apply wp_assert_state; [by rewrite Hp|].
  unfold enter_state_data_transfer_status_await. wp_steps.
  apply handle_data_transfer_status_await_step; cbn; auto. by destruct Ht.
Qed.

Lemma start_data_transfer_step c t :
  (cs t <> None -> csw_rec rec) -> live d t -> state t = CommandTransfer -> cbw_ok c ->
  wp (start_data_transfer rec c) (steps d (fun b => start ps cap (begin c b)) t) t.
Proof.
  intros Hrec Ht Hp Hc. pose proof (d_ps_range d Hd). pose proof (d_ps_fits d Hd).
  destruct (begin_inv cap c (view t) Hc ltac:(lia)) as [_ Hinv].
  unfold start_data_transfer. wp_steps. apply wp_assert_state; [by rewrite Hp|]. wp_steps.
  apply wp_clear_step; [by destruct Ht|]. intros t1 Ht1 Hv.
  assert (cs t1 = cs t) as Hcs.
  { change (stat (view t1) = cs t). by rewrite Hv. }
  destruct (direction c) eqn:Hdir.
  all: assert (view (set_state (phase (begin c (view t))) t1) = begin c (view t)) as Hb
    by (unfold begin, view, with_queue in *; destruct t1; cbn in *; congruence).
  all: unfold begin in Hb at 1; cbn [phase] in Hb; rewrite Hdir in Hb.
  - unfold enter_state_data_transfer_from_host. wp_steps. eapply wp_mono.
    + apply handle_data_transfer_from_host_step; [|by apply live_set_state|done|by rewrite Hb].
      cbn. by rewrite Hcs.
    + intros r t' [Ht' HR]. split; [done|]. unfold start. rewrite Hb in HR.
      unfold begin at 1. cbn [phase]. by rewrite Hdir.
  - unfold enter_state_data_transfer_to_host. wp_steps. eapply wp_mono.
    + apply handle_data_transfer_to_host_step; [|by apply live_set_state|done|by rewrite Hb].
      cbn. by rewrite Hcs.
    + intros r t' [Ht' HR]. split; [done|]. unfold start. rewrite Hb in HR.
      unfold begin at 1. cbn [phase]. by rewrite Hdir.
  - unfold enter_state_data_transfer_no_data. wp_steps. eapply wp_mono.
    + apply handle_data_transfer_no_data_step; [|by apply live_set_state|done].
      cbn. by rewrite Hcs.
    + intros r t' [Ht' HR]. split; [done|]. unfold start. rewrite Hb in HR.
      unfold begin at 1. cbn [phase]. by rewrite Hdir.
Qed.

Lemma try_parse_cbw_step t :
  live d t -> CBW_LEN <= len (queue (view t)) ->
  wp try_parse_cbw (fun r t' => live d t' /\
    view t' = with_queue (zdrop CBW_LEN (queue (view t))) (view t) /\
    r = match decode_cbw (ztake CBW_LEN (queue (view t))) with
        | Some c => Ok c
        | None => Err invalid_cbw_error
        end) t.
Proof.
  intros Ht Hlen. cbn [queue view] in *.
  unfold try_parse_cbw. wp_steps. rewrite (live_available_read t Ht). cbn [owp].
  wp_steps. apply wp_assert; [cbn; lia|]. wp_steps.
  set (raw := ztake CBW_LEN (contents (buf t))).
  assert (len raw = CBW_LEN) as Hraw by (unfold raw, CBW_LEN in *; len_lia).
  assert (zslice 0 CBW_LEN (contents (buf t)) = raw) as Hsl by (by rewrite <- ztake_zslice).
  apply wp_on_buf, wp_with_local, wp_read; [apply Ht|].
  unfold CBW_LEN in *. wp_steps. rewrite Hsl.
  split; [done|]. split; [lia|]. intros b Hb [= Hc Hq].
  rewrite Z.min_l in Hq by lia. cbn [fst snd].
  assert (live d (set_buf b t)) by (apply live_set_buf; [done..|rewrite Hc; apply Ht]).
  assert (view (set_buf b t) = with_queue (zdrop 31 (contents (buf t))) (view t))
    by (unfold view, with_queue; cbn; by rewrite Hq).
  destruct (decide (ztake 4 raw = CBW_SIGNATURE_LE)) as [Hsig|Hsig].
  - rewrite bool_decide_eq_true_2 by done.
    pose proof (parse_run raw Hraw Hsig) as Hparse. unfold CBW_LEN in Hparse.
    rewrite Hraw. cbn [negb]. wp_steps. rewrite Hparse. cbn [owp]. done.
  - rewrite bool_decide_eq_false_2 by done. cbn [negb]. wp_steps.
    split; [done|]. split; [done|]. unfold decode_cbw.
    by rewrite bool_decide_eq_false_2 by tauto.
Qed.

Lemma handle_read_cbw_step t :
  (cs t <> None -> csw_rec rec) -> live d t -> state t = CommandTransfer ->
  wp (handle_read_cbw rec) (steps d (cbw_step ps cap) t) t.
Proof.
  intros Hrec Ht Hp.
  unfold handle_read_cbw. wp_steps. apply wp_assert_state; [by rewrite Hp|]. wp_steps.
  eapply wp_mono; [by apply read_packet_step|].
  intros [n|e] t1 [Ht1 HR]; [|split; [done|by apply cbw_err]].
  destruct (recv_frame ps cap _ _ _ HR) as (Hph & _ & _ & Hst & _).
  cbn [phase stat view] in Hph, Hst.
  wp_steps. cbn [compose]. rewrite (live_available_read t1 Ht1). cbn [owp].
  destruct (Z.leb_spec CBW_LEN (len (queue (view t1)))) as [Hlen|Hlen].
  - wp_steps. eapply wp_mono; [by apply try_parse_cbw_step|].
    intros r t2 (Ht2 & Hv2 & ->).
    assert (cs t2 = cs t1 /\ state t2 = state t1) as [Hcs2 Hst2].
    { change (stat (view t2) = stat (view t1) /\ phase (view t2) = phase (view t1)).
      by rewrite Hv2. }
    destruct (decode_cbw (ztake CBW_LEN (queue (view t1)))) as [c|] eqn:Hdec.
    + assert (cbw_ok c).
      { eapply decode_cbw_ok; [|exact Hdec]. unfold CBW_LEN in *. len_lia. }
      eapply wp_mono; [apply start_data_transfer_step; [|done|congruence|done]|].
      { by rewrite Hcs2, Hst. }
      intros r t3 [Ht3 HR3]. split; [done|]. eapply cbw_valid; [exact HR|done|exact Hdec|].
      by rewrite Hv2 in HR3.
    + unfold enter_state_cbw_invalid. wp_steps.
      eapply wp_mono; [apply handle_cbw_invalid_step; [by apply live_set_state|done]|].
      intros r t3 (Ht3 & -> & Hv3 & _). split; [done|]. rewrite Hv3.
      replace (view (set_state CommandTransferInvalid t2)) with
        (with_phase CommandTransferInvalid (view t2)) by done.
      rewrite Hv2. by eapply cbw_invalid.
  - wp_steps. split; [done|]. by eapply cbw_partial.
Qed.
End Cycle.

(** Whatever fuel is left, a status transfer with bytes to send sends them. *)
Lemma handle_status_transfer_csw n : csw_rec (handle_status_transfer (S n)).
Proof.
  intros t Ht Hp Hq. cbn [handle_status_transfer]. wp_steps.
  apply wp_assert_state; [by rewrite Hp|]. wp_steps. rewrite (live_available_read t Ht).
  cbn [owp]. destruct (Z.eqb_spec (len (queue (view t))) 0) as [Hz|Hz].
  - by apply len_zero_inv in Hz.
  - apply wp_csw; [done|]. by intros r t' Ht' HR.
Qed.

(** The whole wrapper is sent: the next command is awaited at once. No status is
    set then, so the cycle is not entered again. *)
Lemma handle_status_transfer_sent n t :
  live d t -> state t = StatusTransfer -> queue (view t) = [] ->
  wp (handle_status_transfer (S n)) (steps d (fun b => cbw_step ps cap (idle b)) t) t.
Proof.
  intros Ht Hp Hq. cbn [handle_status_transfer]. wp_steps.
  apply wp_assert_state; [by rewrite Hp|]. wp_steps. rewrite (live_available_read t Ht), Hq.
  cbn [owp]. rewrite len_nil. cbn [Z.eqb]. wp_steps.
  apply wp_enter_command_transfer; [done|]. intros t1 Ht1 Hv.
  eapply wp_mono; [apply handle_read_cbw_step; [|done|]|].
  - change (stat (view t1) <> None -> csw_rec (handle_status_transfer n)). by rewrite Hv.
  - by change (phase (view t1) = CommandTransfer); rewrite Hv.
  - intros r t' [Ht' HR]. split; [done|]. by rewrite Hv in HR.
Qed.

(** One unit of fuel is enough for any [poll]. *)
Lemma poll_with_step n t :
  live d t -> bot_inv cap (view t) ->
  wp (poll_with (S n)) (steps d (bot_poll ps cap) t) t.
Proof.
  intros Ht Hb. pose proof (handle_status_transfer_csw n) as Hrec.
  unfold poll_with. wp_steps. destruct (state t) eqn:Hp.
  - eapply wp_mono; [by apply handle_read_cbw_step|].
    intros r t' [Ht' HR]. split; [done|]. by apply poll_cbw.
  - eapply wp_mono; [by apply handle_cbw_invalid_step|].
    intros r t' (Ht' & -> & Hv & _). split; [done|]. rewrite Hv. by apply poll_invalid.
  - eapply wp_mono; [by apply handle_data_transfer_no_data_step|].
    intros r t' [Ht' HR]. split; [done|]. by apply poll_no_data.
  - destruct (decide (queue (view t) = [])) as [Hq|Hq].
    + eapply wp_mono; [by apply handle_status_transfer_sent|].
      intros r t' [Ht' HR]. split; [done|]. by apply poll_csw_sent.
    + eapply wp_mono; [by apply Hrec|].
      intros r t' [Ht' HR]. split; [done|]. by apply poll_csw.
  - eapply wp_mono; [by apply handle_data_transfer_to_host_step|].
    intros r t' [Ht' HR]. split; [done|]. by apply poll_in.
  - eapply wp_mono; [by apply handle_data_transfer_to_host_ending_step|].
    intros r t' [Ht' HR]. split; [done|]. by apply poll_in_ending.
  - eapply wp_mono; [by apply handle_data_transfer_from_host_step|].
    intros r t' [Ht' HR]. split; [done|]. by apply poll_out.
  - eapply wp_mono; [apply handle_data_transfer_status_await_step; auto|].
    intros r t' [Ht' HR]. split; [done|]. apply poll_await; auto.
  - eapply wp_mono; [by apply handle_data_transfer_from_host_ending_step|].
    intros r t' [Ht' HR]. split; [done|]. by apply poll_out_ending.
  - eapply wp_mono; [apply handle_data_transfer_status_await_step; auto|].
    intros r t' [Ht' HR]. split; [done|]. apply poll_await; auto.
Qed.
End Handlers.
