(* ===== verification/BbbMethods.v ===== *)
(** * The transport's constructor and its methods for the subclass

    What [new], [reset], [control_in], [get_command], [set_status],
    [write_data], [try_write_data_all] and [read_data] do on every branch, in
    terms of the protocol machine's state ([view]): none of them but
    [set_status] can panic on a live transport, and an error leaves the transfer
    as it was. *)
From S2P Require Import Prelude.
From S2P Require Import Usb.
From S2P Require Import Buffer.
From S2P Require Import Transport.
From S2P Require Import Bbb.
From S2P Require Import BotSpec.
From S2P Require Import BbbRefine.

Local Open Scope Z_scope.
Local Open Scope rust_scope.

(** ** The phases the methods are for *)

Lemma is_one_of_true s l : is_one_of s l = true <-> s ∈ l.
Proof. apply bool_decide_eq_true. Qed.
Lemma is_one_of_false s l : is_one_of s l = false <-> s ∉ l.
Proof. apply bool_decide_eq_false. Qed.

(** The phases in which no command is known. *)
Definition command_phase (p : State) : bool :=
  is_one_of p [CommandTransfer; CommandTransferInvalid].
(** The phases in which data from the host can be read. *)
Definition out_phase (p : State) : bool :=
  is_one_of p [DataTransferFromHost; DataTransferFromHostStatusAwait].

Section Methods.
Context `{!UsbStack, !UsbStackLaws} (d : device).
Hypothesis Hd : device_ok d.

Local Abbreviation ps := (d_ps d).
Local Abbreviation cap := (d_capacity d).

(** A live transport whose protocol state satisfies the invariant: what every
    history of calls leads to (file BbbSafe). *)
Record good (t : BulkOnly) : Prop := {
  good_live : live d t;
  good_inv : bot_inv cap (view t)
}.

(** What the invariant says of an IN data phase. *)
Lemma good_to_host t :
  good t -> state t = DataTransferToHost ->
  len (queue (view t)) <= left (view t) < u32_modulus /\ len (queue (view t)) <= cap.
Proof.
  intros [_ Hb] Hp. unfold bot_inv in Hb. cbn in *. rewrite Hp in Hb.
  destruct Hb as (Hc & [_ [? ?] _ _ _ _] & ? & Hq). lia.
Qed.

Lemma allowed_run t :
  good t -> state t = DataTransferToHost ->
  allowed_to_append_to_data_transfer t = Returns (left (view t) - len (queue (view t))).
Proof.
  intros Ht Hp. destruct (good_to_host t Ht Hp) as [? ?].
  pose proof (len_nonneg (queue (view t))).
  unfold allowed_to_append_to_data_transfer.
  rewrite (live_available_read d) by apply Ht. cbn [obind]. f_equal.
  unfold as_u32, saturating_sub. rewrite Z.mod_small by lia. cbn in *. lia.
Qed.

Lemma view_push n q b t :
  contents b = contents (buf t) ++ ztake n q -> view (set_buf b t) =
  with_queue (queue (view t) ++ ztake n q) (view t).
Proof. intros Hq. unfold view, with_queue. cbn. by rewrite Hq. Qed.

(** ** [write_data] *)

Lemma write_data_step src t :
  good t -> state t = DataTransferToHost ->
  wp (write_data src) (fun r t' => live d t' /\ r = Ok (bot_write_count cap src (view t)) /\
    view t' = bot_write cap src (view t)) t.
Proof.
  intros Ht Hp. destruct (good_to_host t Ht Hp) as [? ?]. pose proof Ht as [Hl _].
  pose proof (len_nonneg src). pose proof (len_nonneg (queue (view t))).
  unfold write_data. wp_steps. rewrite Hp. cbn [negb is_one_of]. 
  change (is_one_of DataTransferToHost [DataTransferToHost]) with true. cbn [negb].
  wp_steps. rewrite (allowed_run t Ht Hp). cbn [owp]. wp_steps.
  rewrite <- ztake_zslice.
  set (n := Z.min (len src) _).
  apply wp_on_buf, wp_write; [apply Hl|]. intros b Hb Habs. wp_steps.
  assert (fst (fifo_write (ztake n src) (abs (buf t))) = bot_write_count cap src (view t)) as Hn.
  { unfold fifo_write, fifo_room, bot_write_count. cbn. rewrite (live_capacity d t Hl).
    subst n. cbn in *. len_lia. }
  rewrite Hn. unfold fifo_write in Habs, Hn. cbn [fst snd] in Hn, Habs. rewrite Hn in Habs.
  unfold fifo_push, abs in Habs. cbn in Habs.
  injection Habs as Hc Hq. rewrite ztake_ztake in Hq.
  split; [|split; [done|]].
  - apply live_set_buf; [done..|]. rewrite Hc. apply Hl.
  - rewrite (view_push _ _ _ _ Hq). unfold bot_write. do 3 f_equal.
    unfold bot_write_count. subst n. cbn in *. lia.
Qed.

Lemma write_data_invalid src t :
  state t <> DataTransferToHost -> write_data src t = Returns (Err (Error InvalidState), t).
Proof. intros Hp. unfold write_data, bind, gets. by destruct (state t). Qed.

(** ** [try_write_data_all] *)

Lemma try_write_data_all_step src t :
  good t -> state t = DataTransferToHost ->
  wp (try_write_data_all src) (fun r t' => live d t' /\
    if left (view t) - len (queue (view t)) <? len src
    then r = Err (Error TransferLengthExceeded) /\ view t' = view t
    else if cap - len (queue (view t)) <? len src
    then r = Err (Error IoBufferOverflow) /\ view t' = view t
    else r = Ok tt /\ view t' = with_queue (queue (view t) ++ src) (view t)) t.
Proof.
  intros Ht Hp. destruct (good_to_host t Ht Hp) as [? ?]. pose proof Ht as [Hl _].
  pose proof (len_nonneg src). pose proof (live_capacity d t Hl) as Hcap.
  unfold try_write_data_all. wp_steps. rewrite Hp.
  change (is_one_of DataTransferToHost [DataTransferToHost]) with true. cbn [negb].
  wp_steps. rewrite (allowed_run t Ht Hp). cbn [owp].
  destruct (_ <? len src) eqn:Hlong; [by apply wp_ret|]. wp_steps.
  apply wp_on_buf, wp_with_local, wp_write_all; [apply Hl|done|unfold fifo_room; cbn in *..].
  - rewrite Hcap. intros Hroom b Hb [Hc Hq]. wp_steps.
    replace (_ <? len src) with true by (cbn in *; lia). split; [apply live_set_buf; [done..|congruence]|].
    split; [done|]. unfold view. cbn. by rewrite <- Hq.
  - rewrite Hcap. intros Hroom dst Hdst. wp_steps.
    rewrite splice_all by lia.
    split; [done|]. split; [lia|]. intros b Hb [= Hc Hq]. wp_steps.
    replace (_ <? len src) with false by (cbn in *; lia). split; [apply live_set_buf; [done..|congruence]|].
    split; [done|]. rewrite ztake_all in Hq by lia. unfold view, with_queue. cbn. by rewrite Hq.
Qed.

Lemma try_write_data_all_invalid src t :
  state t <> DataTransferToHost ->
  try_write_data_all src t = Returns (Err (Error InvalidState), t).
Proof. intros Hp. unfold try_write_data_all, bind, gets. by destruct (state t). Qed.

(** ** [read_data] *)

Lemma read_data_step dst t :
  live d t -> out_phase (state t) = true ->
  let n := Z.min (len dst) (len (queue (view t))) in
  wp (read_data dst) (fun '(dst', r) t' => live d t' /\ r = Ok n /\
    dst' = ztake n (queue (view t)) ++ zdrop n dst /\ view t' = bot_read n (view t)) t.
Proof.
  intros Ht Hp n. pose proof (len_nonneg dst). pose proof (len_nonneg (queue (view t))).
  unfold read_data. wp_steps. unfold out_phase in Hp. rewrite Hp. cbn [negb]. wp_steps.
  apply wp_on_buf, wp_with_local, wp_read; [apply Ht|]. cbn [queue view] in *. wp_steps.
  cbn [id]. fold n. wp_steps.
  split; [done|]. split; [lia|]. intros b Hb [= Hc Hq]. cbn [fst snd].
  rewrite (Z.min_l n) in * by lia. wp_steps. split; [|split; [done|split]].
  - apply live_set_buf; [done..|]. rewrite Hc. apply Ht.
  - unfold splice. rewrite (ztake_le0 0), <- ztake_zslice by lia. cbn [app]. f_equal. f_equal. len_lia.
  - unfold view, bot_read, with_queue. cbn. by rewrite Hq.
Qed.

Lemma read_data_invalid dst t :
  out_phase (state t) = false ->
  read_data dst t = Returns ((dst, Err (Error InvalidState)), t).
Proof.
  intros Hp. unfold read_data, bind, gets. unfold out_phase in Hp. by rewrite Hp.
Qed.

(** ** [set_status] *)

(** The assertion fails in the phases that are not for the subclass. *)
Lemma set_status_panics s n t : status_phase (state t) = false -> set_status s n t = Panics.
Proof. intros Hp. unfold set_status, bind, gets, id. unfold status_phase in Hp. by rewrite Hp. Qed.

Lemma set_status_run s n t :
  status_phase (state t) = true ->
  set_status s n t = Returns (tt,
    set_cs (Some (mkStatusAndResidue s (saturating_sub (data_transfer_len (cbw t)) n))) t).
Proof. intros Hp. unfold set_status, bind, gets, id. unfold status_phase in Hp. by rewrite Hp. Qed.

Lemma view_set_status s n t :
  view (set_cs (Some (mkStatusAndResidue s (saturating_sub (data_transfer_len (cbw t)) n))) t) =
  bot_set_status s n (view t).
Proof. done. Qed.

(** A status may be set whenever there is a command without one. *)
Lemma awaiting_status t :
  good t -> command_phase (state t) = false -> cs t = None -> status_phase (state t) = true.
Proof.
  intros [_ Hb] Hp Hs. unfold bot_inv in Hb. cbn in Hb. rewrite Hs in Hb.
  destruct (state t); try done; by destruct Hb as (_ & _ & _ & Hb); try destruct Hb.
Qed.

(** ** [get_command] *)

Lemma good_cbw t : good t -> command_phase (state t) = false -> cbw_ok (cbw t).
Proof.
  intros [_ Hb] Hp. unfold bot_inv in Hb. cbn in Hb. destruct (state t); try done; by destruct Hb as (_ & ? & _).
Qed.

Lemma get_command_run t :
  good t ->
  get_command t = Returns (
    if command_phase (state t) then None
    else Some (mkCommandBlock (ztake (block_len (cbw t)) (block (cbw t))) (lun (cbw t)))).
Proof.
  intros Ht. unfold get_command.
  destruct (is_one_of (state t) _) eqn:Hp; unfold command_phase; rewrite Hp; [done|].
  destruct (good_cbw t Ht Hp) as [_ _ _ _ ? ?].
  rewrite slice_run by lia. cbn [obind]. by rewrite <- ztake_zslice.
Qed.

(** ** [reset] and [control_in] *)

Lemma reset_step t :
  live d t -> wp reset (fun _ t' => live d t' /\ view t' = idle (view t)) t.
Proof. intros Ht. by apply (wp_enter_command_transfer d). Qed.

Definition is_bot_reset (req : Request) : bool :=
  request_is_class req && recipient_is_interface req &&
  (request req =? CLASS_SPECIFIC_BULK_ONLY_MASS_STORAGE_RESET).
Definition is_get_max_lun (req : Request) : bool :=
  request_is_class req && recipient_is_interface req &&
  (request req =? CLASS_SPECIFIC_GET_MAX_LUN).

(** Bulk-Only Mass Storage Reset acts as [reset]. *)
Lemma control_in_reset req t : is_bot_reset req = true -> control_in req t = reset t.
Proof.
  unfold is_bot_reset, control_in. intros [-> ->]%andb_prop. done.
Qed.
(** Get Max LUN is answered with the one byte the transport was made with. *)
Lemma control_in_max_lun req t :
  is_get_max_lun req = true ->
  control_in req t = on_bus (let! _ := accept_with [byte_of (max_lun t)] in ret tt) t.
Proof.
  unfold is_get_max_lun, control_in. intros [-> Hr%Z.eqb_eq]%andb_prop. cbn [negb]. rewrite Hr.
  change (CLASS_SPECIFIC_GET_MAX_LUN =? CLASS_SPECIFIC_BULK_ONLY_MASS_STORAGE_RESET) with false.
  rewrite Z.eqb_refl. unfold bind, gets, on_bus, zoom, ret. by destruct (accept_with _ (bus t)) as [[]| |].
Qed.
(** Any other request is none of the transport's business. *)
Lemma control_in_other req t :
  is_bot_reset req = false -> is_get_max_lun req = false -> control_in req t = Returns (tt, t).
Proof.
  unfold is_bot_reset, is_get_max_lun, control_in.
  destruct (request_is_class req && recipient_is_interface req); cbn [negb andb]; [|done].
  by intros -> ->.
Qed.

Lemma control_in_step req t :
  live d t ->
  wp (control_in req) (fun _ t' => live d t' /\
    view t' = (if is_bot_reset req then idle (view t) else view t)) t.
Proof.
  intros Ht. destruct (is_bot_reset req) eqn:Hr.
  { unfold wp. rewrite control_in_reset by done. by apply reset_step. }
  destruct (is_get_max_lun req) eqn:Hm.
  - unfold wp. rewrite control_in_max_lun by done. apply wp_on_bus. wp_steps.
    eapply wp_mono; [apply (accept_with_law _ _ _ _ (live_bus d t Ht))|].
    intros _ w (Hw & Hin & Hout). wp_steps. split; [by destruct Ht; constructor|].
    unfold view. cbn. congruence.
  - unfold wp. by rewrite control_in_other.
Qed.

Lemma idle_inv b : bot_inv cap (idle b).
Proof. pose proof (d_cbw_fits d Hd). unfold bot_inv, CBW_LEN in *. cbn. split; [len_lia|done]. Qed.
End Methods.

(** ** [new] *)

Section New.
Context `{!UsbStack, !UsbStackLaws}.

(** The parameters [new] accepts. *)
Definition new_accepts (packet_size max_lun : Z) (buf : list byte) : Prop :=
  max_lun <= 0x0F /\ CBW_LEN <= len buf /\ packet_size <= len buf.

Lemma new_max_lun packet_size max_lun buf b :
  0x0F < max_lun -> new packet_size max_lun buf b = Returns (Err InvalidMaxLun, b).
Proof. intros. unfold new. by replace (0x0F <? max_lun) with true by lia. Qed.

Lemma new_too_small packet_size max_lun buf b :
  max_lun <= 0x0F -> len buf < CBW_LEN \/ len buf < packet_size ->
  new packet_size max_lun buf b = Returns (Err BufferTooSmall, b).
Proof.
  intros. unfold new. replace (0x0F <? max_lun) with false by lia.
  by replace ((len buf <? CBW_LEN) || (len buf <? packet_size)) with true by lia.
Qed.

(** A transport on two fresh endpoints, idle and with an empty buffer. *)
Definition fresh_on (packet_size max_lun : Z) (buf : list byte) (b : Bus) (t : BulkOnly) : Prop :=
  exists i o, let d := mkDevice _ i o max_lun (len buf) in
    device_ok d /\ d_ps d = packet_size /\ live d t /\
    view t = mkBot CommandTransfer [] 0 default_cbw None (in_log b) (out_log b).

Lemma new_accepted packet_size max_lun buf b :
  bus_fresh b -> 0 < packet_size < 2 ^ 16 -> 0 <= max_lun ->
  new_accepts packet_size max_lun buf ->
  owp (new packet_size max_lun buf b)
    (fun '(r, b') => exists t, r = Ok t /\ b' = bus t /\ fresh_on packet_size max_lun buf b t).
Proof.
  intros Hb Hps Hml0 (Hml & Hbuf & Hfit). unfold new.
  replace (0x0F <? max_lun) with false by lia.
  replace ((len buf <? CBW_LEN) || (len buf <? packet_size)) with false by lia.
  pose proof (alloc_law b packet_size Hb Hps) as Halloc. unfold wp, bind in Halloc.
  destruct (alloc_bulk UsbDirIn packet_size b) as [[i b1]| |]; [|done..]. cbn [obind].
  destruct (alloc_bulk UsbDirOut packet_size b1) as [[o b2]| |]; [|done..]. cbn [obind owp].
  unfold ret in Halloc. destruct Halloc as (Hok & Hi & Ho & Hin & Hout).
  eexists. split; [done|]. split; [done|]. exists i, o. cbn zeta.
  split; [|split; [exact Hi|split]].
  - constructor; unfold d_ps; cbn; congruence || lia.
  - constructor; cbn; try done. unfold wf_buf. cbn. len_lia.
  - unfold view. cbn. rewrite Hin, Hout. unfold contents. cbn. by rewrite zslice_empty.
Qed.
End New.
