(* ===== verification/BbbReach.v ===== *)
(** * Histories of a transport

    What can happen to a transport between its construction and now: calls of its
    methods, by the device's stack or by the subclass, in any order, and steps of
    the host. [reachable_good] is the invariant: every history leads to a state
    in which files BbbRefine and BbbMethods apply. *)
From S2P Require Import Prelude.
From S2P Require Import Usb.
From S2P Require Import Buffer.
From S2P Require Import Transport.
From S2P Require Import Bbb.
From S2P Require Import BotSpec.
From S2P Require Import BbbRefine.
From S2P Require Import BbbMethods.
From stdpp Require Import relations.

Local Open Scope Z_scope.
Local Open Scope rust_scope.

(** The methods that change the state. *)
Inductive call :=
| CPoll
| CReset
| CControlIn (req : Request)
| CWriteData (src : list byte)
| CTryWriteDataAll (src : list byte)
| CReadData (dst : list byte)
| CSetStatus (status : CommandStatus) (processed : Z).

Section Reach.
Context `{!UsbStack, !UsbStackLaws}.

Definition do_call (c : call) : M BulkOnly unit :=
  match c with
  | CPoll => do! poll in ret tt
  | CReset => reset
  | CControlIn req => control_in req
  | CWriteData src => do! write_data src in ret tt
  | CTryWriteDataAll src => do! try_write_data_all src in ret tt
  | CReadData dst => do! read_data dst in ret tt
  | CSetStatus s n => set_status s n
  end.

Fixpoint do_calls (l : list call) : M BulkOnly unit :=
  match l with
  | [] => ret tt
  | c :: l => do! do_call c in do_calls l
  end.

(** A call that returns, a step of the host, or the allocation of an interface on the bus
    (by the subclass, when the firmware starts). *)
Inductive step (t : BulkOnly) : BulkOnly -> Prop :=
| step_call c t' : do_call c t = Returns (tt, t') -> step t t'
| step_host b : host_step (bus t) b -> step t (set_bus b t)
| step_interface n b : alloc_interface (bus t) = Returns (n, b) -> step t (set_bus b t).

(** A transport that [new] made with arguments of the declared types. *)
Definition initial (t : BulkOnly) : Prop :=
  exists packet_size max_lun buf b b',
    bus_fresh b /\ 0 < packet_size < 2 ^ 16 /\ 0 <= max_lun /\
    new packet_size max_lun buf b = Returns (Ok t, b').

Definition reachable (t : BulkOnly) : Prop := exists t0, initial t0 /\ rtc step t0 t.

Lemma reachable_step t t' : reachable t -> step t t' -> reachable t'.
Proof. intros (t0 & Hi & Hr) Hs. exists t0. split; [done|]. by eapply rtc_r. Qed.

Lemma reachable_calls l t t' : reachable t -> do_calls l t = Returns (tt, t') -> reachable t'.
Proof.
  revert t. induction l as [|c l IH]; intros t Ht; cbn [do_calls].
  - by intros [= <-].
  - unfold bind. destruct (do_call c t) as [[[] t1]| |] eqn:Hc; [|done..].
    apply IH. eapply reachable_step; [done|]. by eapply step_call.
Qed.

(** ** Every step keeps a transport good *)

Lemma initial_good t : initial t -> exists d, device_ok d /\ good d t.
Proof.
  intros (ps & ml & bf & b & b' & Hb & Hps & Hml & Hnew).
  destruct (decide (ml <= 0x0F)) as [Hm|Hm]; [|by rewrite new_max_lun in Hnew by lia].
  destruct (decide (CBW_LEN <= len bf /\ ps <= len bf)) as [[]|Hs];
    [|by rewrite new_too_small in Hnew by lia].
  pose proof (new_accepted ps ml bf b Hb Hps Hml ltac:(done)) as Hok. rewrite Hnew in Hok.
  destruct Hok as (t' & Ht & _ & i & o & Hd & _ & Hl & Hv). injection Ht as <-.
  eexists. split; [exact Hd|]. split; [exact Hl|]. rewrite Hv. unfold bot_inv. cbn.
  split; [len_lia|done].
Qed.

Context (d : device).
Hypothesis Hd : device_ok d.

Lemma poll_good t :
  good d t -> wp poll (fun r t' => good d t' /\ bot_poll (d_ps d) (d_capacity d) (view t) r (view t')) t.
Proof.
  intros [Hl Hb]. eapply wp_mono; [by apply (poll_with_step d Hd 0)|].
  intros r t' [Hl' HR]. split; [|done]. split; [done|].
  pose proof (d_ps_range d Hd). pose proof (d_ps_fits d Hd). pose proof (d_cbw_fits d Hd).
  eapply bot_poll_inv; [..|exact HR]; done || lia.
Qed.

Lemma reset_good t : good d t -> wp reset (fun _ t' => good d t') t.
Proof.
  intros [Hl _]. eapply wp_mono; [by apply (reset_step d)|]. intros _ t' [Hl' Hv].
  split; [done|]. rewrite Hv. by apply idle_inv.
Qed.
Lemma control_in_good req t : good d t -> wp (control_in req) (fun _ t' => good d t') t.
Proof.
  intros [Hl Hb]. eapply wp_mono; [by apply (control_in_step d)|]. intros _ t' [Hl' Hv].
  split; [done|]. rewrite Hv. destruct (is_bot_reset req); [by apply idle_inv|done].
Qed.

(** A longer IN queue within the bounds, and a shorter OUT queue. *)
Lemma with_queue_inv q b :
  bot_inv (d_capacity d) b -> phase b = DataTransferToHost ->
  len q <= d_capacity d -> len q <= left b ->
  bot_inv (d_capacity d) (with_queue q b).
Proof. unfold bot_inv. cbn. intros (_ & Hb) Hp ??. rewrite Hp in *. split; [done|]. tauto. Qed.
Lemma bot_read_inv n b :
  bot_inv (d_capacity d) b -> out_phase (phase b) = true -> bot_inv (d_capacity d) (bot_read n b).
Proof.
  unfold bot_inv, bot_read. cbn. intros [Hc Hb] Hp.
  assert (len (zdrop n (queue b)) <= len (queue b)) by len_lia.
  split; [lia|]. by destruct (phase b).
Qed.
Lemma bot_write_inv src b :
  bot_inv (d_capacity d) b -> phase b = DataTransferToHost ->
  bot_inv (d_capacity d) (bot_write (d_capacity d) src b).
Proof.
  intros Hb Hp. pose proof Hb as Hb'. unfold bot_inv in Hb'. rewrite Hp in Hb'.
  apply with_queue_inv; [done|done|unfold bot_write_count; len_lia..].
Qed.

Lemma write_data_good src t : good d t -> wp (write_data src) (fun _ t' => good d t') t.
Proof.
  intros Ht. destruct (decide (state t = DataTransferToHost)) as [Hp|Hp].
  - eapply wp_mono; [by apply (write_data_step d)|]. intros _ t' (Hl & _ & Hv). split; [done|].
    rewrite Hv. apply bot_write_inv; [apply Ht|done].
  - unfold wp. by rewrite write_data_invalid.
Qed.
Lemma try_write_data_all_good src t :
  good d t -> wp (try_write_data_all src) (fun _ t' => good d t') t.
Proof.
  intros Ht. destruct (decide (state t = DataTransferToHost)) as [Hp|Hp].
  - eapply wp_mono; [by apply (try_write_data_all_step d)|]. intros r t' (Hl & Hr).
    split; [done|]. destruct (_ <? len src) eqn:H1; [destruct Hr as [_ ->]; apply Ht|].
    destruct (d_capacity d - _ <? len src) eqn:H2; [destruct Hr as [_ ->]; apply Ht|].
    destruct Hr as [_ ->]. apply with_queue_inv; [apply Ht|done|len_lia..].
  - unfold wp. by rewrite try_write_data_all_invalid.
Qed.
Lemma read_data_good dst t : good d t -> wp (read_data dst) (fun _ t' => good d t') t.
Proof.
  intros Ht. destruct (out_phase (state t)) eqn:Hp.
  - eapply wp_mono; [apply (read_data_step d); [apply Ht|done]|].
    intros [dst' r] t' (Hl & _ & _ & Hv). split; [done|]. rewrite Hv.
    apply bot_read_inv; [apply Ht|done].
  - unfold wp. by rewrite read_data_invalid.
Qed.
Lemma set_status_good s n t t' : good d t -> set_status s n t = Returns (tt, t') -> good d t'.
Proof.
  intros [Hl Hb] Hrun. destruct (status_phase (state t)) eqn:Hp.
  - rewrite set_status_run in Hrun by done. injection Hrun as <-.
    split; [by destruct Hl|]. rewrite view_set_status. unfold bot_inv in *. cbn in *.
    by destruct (state t).
  - by rewrite set_status_panics in Hrun.
Qed.

Lemma step_good t t' : good d t -> step t t' -> good d t'.
Proof.
  intros Ht [c t1 Hc|b Hb|n b Hb].
  - assert (forall A (m : M BulkOnly A) t1, wp m (fun _ t' => good d t') t ->
      (do! m in ret tt) t = Returns (tt, t1) -> good d t1) as Hdo.
    { intros A m t2 Hm Hrun. eapply (wp_returns (do! m in ret tt) (fun _ t' => good d t')); [|exact Hrun].
      by apply wp_bind. }
    destruct c; cbn in Hc.
    + eapply Hdo, Hc. eapply wp_mono; [by apply poll_good|]. by intros ?? [].
    + exact (wp_returns _ _ _ _ _ (reset_good t Ht) Hc).
    + exact (wp_returns _ _ _ _ _ (control_in_good req t Ht) Hc).
    + eapply Hdo, Hc. by apply write_data_good.
    + eapply Hdo, Hc. by apply try_write_data_all_good.
    + eapply Hdo, Hc. by apply read_data_good.
    + by eapply set_status_good.
  - destruct Ht as [Hl Hi]. pose proof Hl as [? ? ? Hbus ? ?].
    destruct (host_step_law _ _ _ _ Hb Hbus) as (Hbus' & Hin & Hout).
    split; [by constructor|]. unfold view. cbn. by rewrite Hin, Hout.
  - destruct Ht as [Hl Hi]. pose proof Hl as [? ? ? Hbus ? ?].
    destruct (wp_returns _ _ _ _ _ (alloc_interface_law _ _ _ Hbus) Hb) as (Hbus' & Hin & Hout).
    split; [by constructor|]. unfold view. cbn. by rewrite Hin, Hout.
Qed.
Lemma steps_good t t' : good d t -> rtc step t t' -> good d t'.
Proof. intros Ht Hs. induction Hs; [done|]. eauto using step_good. Qed.
End Reach.

Lemma reachable_good `{!UsbStack, !UsbStackLaws} t :
  reachable t -> exists d, device_ok d /\ good d t.
Proof.
  intros (t0 & Hi & Hs). destruct (initial_good t0 Hi) as (d & Hd & Ht).
  exists d. eauto using steps_good.
Qed.

(** What the constructors of the subclasses do: a transport on a fresh bus, and then an
    interface. *)
Lemma new_reachable `{!UsbStack, !UsbStackLaws} {A} (make : InterfaceNumber -> BulkOnly -> A)
    packet_size max_lun bf b :
  bus_fresh b -> 0 < packet_size < 2 ^ 16 -> 0 <= max_lun -> new_accepts packet_size max_lun bf ->
  owp (let* (r, b) := new packet_size max_lun bf b in
       match r with
       | Ok t => let* (n, b) := alloc_interface b in Returns (Ok (make n (set_bus b t)), b)
       | Err e => Returns (Err e, b)
       end)
    (fun '(r, _) => exists n t, r = Ok (make n t) /\ reachable t).
Proof.
  intros Hb Hps Hml Hacc. pose proof (new_accepted packet_size max_lun bf b Hb Hps Hml Hacc) as Hok.
  destruct (new packet_size max_lun bf b) as [[r b']| |] eqn:Hnew; [|done..].
  destruct Hok as (t & -> & -> & i & o & Hd & _ & Hl & _). cbn [obind].
  pose proof Hl as [_ _ _ Hbus _ _].
  pose proof (alloc_interface_law _ _ _ Hbus) as (n & b2 & Hrun & _)%wp_run. rewrite Hrun. cbn [obind owp].
  exists n, (set_bus b2 t). split; [done|]. apply (reachable_step t); [|by eapply step_interface].
  exists t. split; [|constructor]. by exists packet_size, max_lun, bf, b, (bus t).
Qed.
