(* ===== verification/MockBus.v ===== *)
(** * The test bus of bbb.rs, as an instance of the stack's interface

    [MockBus] is the bus that the unit tests of
    [usbd-storage/src/transport/bbb.rs] run the transport on: a queue of packets
    from the host and a list of packets to the host. It satisfies [UsbStackLaws],
    so the theorems about the transport apply to it; the tests' harness
    ([new_bbb], [cbw], [enqueue], [run]) is executable. The bus of the tests
    ignores halts and forgets what was read: the fields [taken] and [halted]
    only record them. *)
From S2P Require Import Prelude.
From S2P Require Import Usb.
From S2P Require Import Buffer.
From S2P Require Import Transport.
From S2P Require Import Bbb.
From S2P Require Import BotSpec.
From S2P Require Import BbbRefine.
From S2P Require Import BbbMethods.
From S2P Require Import BbbReach.

Local Open Scope Z_scope.
Local Open Scope rust_scope.

#[export] Instance UsbDirection_eq_dec : EqDecision UsbDirection.
Proof. solve_decision. Defined.

(** The one error of the bus. *)
Inductive MockError := WouldBlock.

Record MockEndpoint := mkMockEndpoint { ep_dir : UsbDirection; ep_mps : Z }.

Record MockBus := mkMockBus {
  out : list (list byte);      (* host -> device packets *)
  input : list (list byte);    (* device -> host packets *)
  mps : Z;                     (* packet size of the OUT endpoint *)
  taken : list byte;           (* what was read so far *)
  halted : list UsbDirection;  (* what was stalled so far *)
  replies : list (list byte)   (* answers to control requests *)
}.

Definition fresh_bus : MockBus := mkMockBus [] [] 0 [] [] [].

(** [alloc_ep], as the allocator's [bulk] calls it. *)
Definition alloc_ep (dir : UsbDirection) (max_packet_size : Z) : M MockBus MockEndpoint :=
  do! modify (fun b => mkMockBus (out b) (input b) max_packet_size (taken b) (halted b) (replies b)) in
  ret (mkMockEndpoint dir max_packet_size).

Definition write (_ep : MockEndpoint) (buf : list byte) : M MockBus (result Z MockError) :=
  do! modify (fun b => mkMockBus (out b) (input b ++ [buf]) (mps b) (taken b) (halted b) (replies b)) in
  ret (Ok (len buf)).

Definition read (_ep : MockEndpoint) (buf : list byte) : M MockBus (list byte * result Z MockError) :=
  let! b := gets id in
  match out b with
  | pkt :: rest =>
    do! modify (fun b => mkMockBus rest (input b) (mps b) (taken b ++ pkt) (halted b) (replies b)) in
    let! d := lift (slice buf 0 (len pkt)) in
    let! d := lift (copy_from_slice d pkt) in
    ret (splice buf 0 d, Ok (len pkt))
  | [] => ret (buf, Err WouldBlock)
  end.

Definition set_stalled (ep : MockEndpoint) (stalled : bool) : M MockBus unit :=
  if stalled then
    modify (fun b => mkMockBus (out b) (input b) (mps b) (taken b) (ep_dir ep :: halted b) (replies b))
  else
    modify (fun b => mkMockBus (out b) (input b) (mps b) (taken b)
                       (base.filter (fun d => d <> ep_dir ep) (halted b)) (replies b)).

Definition accept (data : list byte) : M MockBus (result unit MockError) :=
  do! modify (fun b => mkMockBus (out b) (input b) (mps b) (taken b) (halted b) (replies b ++ [data])) in
  ret (Ok tt).

(** What a descriptor writer was told, in order. *)
Inductive descriptor :=
| DEndpoint (e : MockEndpoint)
| DIad (first : Z) (count class_ subclass protocol : Z)
| DInterface (n : Z) (class_ subclass protocol : Z).

Definition emit_descriptor (x : descriptor) : M (list descriptor) (result unit MockError) :=
  do! modify (fun l => l ++ [x]) in ret (Ok tt).

#[export] Instance MockStack : UsbStack := {
  Bus := MockBus;
  Endpoint := MockEndpoint;
  UsbError := MockError;
  InterfaceNumber := Z;
  DescriptorWriter := list descriptor;
  max_packet_size := ep_mps;
  alloc_bulk := alloc_ep;
  alloc_interface := ret 0;
  Usb.ep_write := write;
  Usb.ep_read := read;
  ep_stall e := set_stalled e true;
  ep_unstall e := set_stalled e false;
  accept_with := accept;
  writer_endpoint e := emit_descriptor (DEndpoint e);
  writer_iad f n c s p := emit_descriptor (DIad f n c s p);
  writer_interface n c s p := emit_descriptor (DInterface n c s p)
}.

(** The host queues packets that the endpoint can take. *)
Definition host_sends (b b' : MockBus) : Prop :=
  exists pkts, Forall (fun p => len p <= mps b) pkts /\
    b' = mkMockBus (out b ++ pkts) (input b) (mps b) (taken b) (halted b) (replies b).

Definition mock_ok (i o : MockEndpoint) (b : MockBus) : Prop :=
  ep_dir i = UsbDirIn /\ ep_dir o = UsbDirOut /\ mps b = ep_mps o /\
  Forall (fun p => len p <= mps b) (out b).

(** ** The bus behaves as documented *)

Lemma mock_read_law i o b sl :
  mock_ok i o b -> ep_mps o <= len sl ->
  wp (read o sl) (fun '(sl', r) b' => mock_ok i o b' /\ concat (input b') = concat (input b) /\
    len sl' = len sl /\
    match r with
    | Ok n => 0 <= n <= len sl /\ taken b' = taken b ++ ztake n sl'
    | Err _ => taken b' = taken b
    end) b.
Proof.
  intros (Hi & Ho & Hm & Hout) Hsl. unfold read. wp_steps. cbn [id].
  destruct (out b) as [|pkt rest] eqn:Hq.
  { wp_steps. split; [by unfold mock_ok; rewrite Hq|done]. }
  apply Forall_cons in Hout as [Hpkt Hrest]. pose proof (len_nonneg pkt). wp_steps. cbn.
  split; [done|]. split; [done|]. split; [apply len_splice; lia|]. split; [lia|].
  f_equal. unfold splice. rewrite (ztake_le0 0) by lia. cbn [app].
  by rewrite ztake_app_le, ztake_all by lia.
Qed.

#[refine, export] Instance MockLaws : UsbStackLaws := {
  bus_fresh b := b = fresh_bus;
  bus_ok := mock_ok;
  in_log b := concat (input b);
  out_log := taken;
  stalled e b := ep_dir e ∈ halted b;
  host_step := host_sends
}.
Proof.
  - intros b ps -> Hps. cbn. unfold alloc_ep. wp_steps. done.
  - intros i o b Hok. cbn. by wp_steps.
  - intros i o b data Hok _. cbn. unfold write. wp_steps. cbn.
    split; [done|]. split; [done|]. pose proof (len_nonneg data). split; [lia|].
    rewrite concat_app, ztake_all by lia. cbn. by rewrite app_nil_r.
  - intros i o b sl. apply mock_read_law.
  - intros i o b ep Hok _. cbn. unfold set_stalled. wp_steps. cbn.
    split; [done|]. do 2 (split; [done|]). split; [by left|]. intros ep' ?. by right.
  - intros i o b ep Hok _. cbn. unfold set_stalled. by wp_steps.
  - intros i o b data Hok. cbn. unfold accept. by wp_steps.
  - intros i o b b' (pkts & Hp & ->) (Hi & Ho & Hm & Hout). cbn.
    split; [|done]. unfold mock_ok. cbn. split_and!; [done..|]. by apply Forall_app.
Defined.

(** ** The harness of the tests *)

Definition PACKET_SIZES : list Z := [8; 16; 32; 64].

(** What the host expects: Spec. 6.7's Hn / Hi / Ho. *)
Inductive Host := NoData | HostIn | HostOut.

Definition MockBbb : Type := @BulkOnly MockStack.

(** [new_bbb]: a transport of packet size [ps] with a 512-byte buffer. *)
Definition new_bbb (packet_size : Z) : outcome MockBbb :=
  let* (r, _) := new packet_size 0 (zreplicate 512 x00) fresh_bus in
  match r with Ok t => Returns t | Err _ => Panics end.

(** Builds a CBW. [data_len] of 0 yields a no-data command. *)
Definition cbw (data_len : Z) (host : Host) : list byte :=
  let c := zreplicate CBW_LEN x00 in
  let c := splice c 0 (to_le_bytes 4 0x43425355) in
  let c := splice c 4 (to_le_bytes 4 1) in
  let c := splice c 8 (to_le_bytes 4 data_len) in
  let c := splice c 12 [byte_of (match host with HostIn => 0x80 | _ => 0x00 end)] in
  let c := splice c 14 [byte_of 6] in
  splice c 15 [byte_of 0x12].

(** [bytes.chunks(n)]. *)
Fixpoint chunks_fuel (fuel : nat) (n : Z) (bytes : list byte) : list (list byte) :=
  match fuel, bytes with
  | S fuel, _ :: _ => ztake n bytes :: chunks_fuel fuel n (zdrop n bytes)
  | _, _ => []
  end.
Definition chunks (n : Z) (bytes : list byte) : list (list byte) :=
  chunks_fuel (length bytes) n bytes.

(** Splits [bytes] into [packet_size] OUT packets the device will read. *)
Definition enqueue_bus (bytes : list byte) (packet_size : Z) (b : MockBus) : MockBus :=
  mkMockBus (out b ++ chunks packet_size bytes) (input b) (mps b) (taken b) (halted b) (replies b).
Definition enqueue (bytes : list byte) (packet_size : Z) : M MockBbb unit :=
  on_bus (modify (enqueue_bus bytes packet_size)).

(** [for _ in 0..n { let _ = bbb.poll(); if stop { break; } }] *)
Fixpoint poll_until (n : nat) (stop : MockBbb -> outcome bool) : M MockBbb unit :=
  match n with
  | O => ret tt
  | S n =>
    do! poll in
    let! s := gets_o stop in
    if s then ret tt else poll_until n stop
  end.

(** [Csw] and the data bytes. *)
Record Csw := mkCsw { csw_status : Z; csw_residue : Z; csw_data : list byte }.

(** Drives a whole transaction and returns the CSW and the data bytes seen on the wire. *)
Definition run (packet_size data_len : Z) (host : Host) (device : M MockBbb unit) : outcome Csw :=
  let* bbb := new_bbb packet_size in
  let* (_, bbb) :=
    (do! enqueue (cbw data_len host) packet_size in
     do! when (match host with HostOut => true | _ => false end)
           (enqueue (zreplicate data_len (byte_of 0xAA)) packet_size) in
     do! poll_until 64 (fun bbb =>
           let out_drained := match host with HostOut => left_to_transfer bbb =? 0 | _ => true end in
           let* c := get_command bbb in
           Returns (match c with Some _ => out_drained | None => false end)) in
     do! device in
     poll_until 64 (fun bbb => Returns (is_one_of (state bbb) [CommandTransfer]))) bbb in
  let stream := concat (input (bus bbb)) in
  if len stream <? CSW_LEN then Panics
  else
    let data := ztake (len stream - CSW_LEN) stream in
    let raw := zdrop (len stream - CSW_LEN) stream in
    if negb (bool_decide (ztake 4 raw = CSW_SIGNATURE_LE)) then Panics
    else Returns (mkCsw (byte_at 12 raw) (Prelude.from_le_bytes (zslice 8 12 raw)) data).

(** ** Histories on the test bus *)

Lemma chunks_fuel_le fuel n l :
  0 <= n -> Forall (fun p => len p <= n) (chunks_fuel fuel n l).
Proof.
  intros Hn. revert l. induction fuel as [|fuel IH]; intros [|x l]; cbn [chunks_fuel]; try done.
  constructor; [len_lia|apply IH].
Qed.

(** The transport on the buffer [bf] after the host has queued [bytes] and the calls
    [cs] were made. *)
Definition history_on (bf : list byte) (ps : Z) (bytes : list byte) (cs : list call)
    : outcome MockBbb :=
  let* (r, _) := new ps 0 bf fresh_bus in
  match r with
  | Ok t => let* (_, t) := (do! enqueue bytes ps in do_calls cs) t in Returns t
  | Err _ => Panics
  end.

Lemma history_reachable bf ps bytes cs t :
  0 < ps < 2 ^ 16 -> history_on bf ps bytes cs = Returns t -> reachable t.
Proof.
  intros Hps. unfold history_on.
  destruct (@new MockStack ps 0 bf fresh_bus) as [[[t0|e] b']| |] eqn:Hnew; [|done..].
  cbn [obind]. unfold bind, enqueue, on_bus, zoom, modify.
  destruct (do_calls cs _) as [[[] t1]| |] eqn:Hc; [|done..]. intros [= <-].
  eapply reachable_calls, Hc.
  assert (initial t0) as Hi by (exists ps, 0, bf, (fresh_bus : @Bus MockStack), b'; done).
  eapply reachable_step; [exists t0; split; [done|constructor]|].
  apply step_host. exists (chunks ps bytes). split; [|done].
  replace (mps (bus t0)) with ps; [apply chunks_fuel_le; lia|].
  unfold new in Hnew. cbn in Hnew.
  destruct (_ || _); [done|]. by injection Hnew as <- _.
Qed.

(** The same on the tests' buffer of 512 bytes. *)
Definition history (ps : Z) (bytes : list byte) (cs : list call) : outcome MockBbb :=
  history_on (zreplicate 512 x00) ps bytes cs.

(** A history that is known to return, as a state. *)
Definition stuck : MockBbb :=
  mkBulkOnly fresh_bus (mkMockEndpoint UsbDirIn 0) (mkMockEndpoint UsbDirOut 0) (Buffer.new [])
    CommandTransfer default_cbw None 0 0.
Definition at_ (h : outcome MockBbb) : MockBbb :=
  match h with Returns t => t | _ => stuck end.

Lemma at_reachable bf ps bytes cs :
  0 < ps < 2 ^ 16 ->
  (match history_on bf ps bytes cs with Returns _ => true | _ => false end) = true ->
  reachable (at_ (history_on bf ps bytes cs)).
Proof.
  intros Hps. destruct (history_on bf ps bytes cs) as [t| |] eqn:Hh; [|done..]. intros _.
  by eapply history_reachable.
Qed.
