(* ===== verification/BbbSafe.v ===== *)
(** * Safety of the transport: no panics, the protocol, the fuel

    The theorems that hold in every reachable state: no method panics unless
    [set_status] is called without a command, every [poll] is a step of the
    protocol machine, an invalid wrapper halts the transport until a reset; and
    the one that holds in every state: the handlers' cycle is entered at most
    once per [poll]. *)
From S2P Require Import Prelude.
From S2P Require Import Usb.
From S2P Require Import Buffer.
From S2P Require Import Transport.
From S2P Require Import Bbb.
From S2P Require Import BotSpec.
From S2P Require Import BbbRefine.
From S2P Require Import BbbMethods.
From S2P Require Import BbbReach.
From S2P Require Import MockBus.
From Stdlib Require Import FunctionalExtensionality.

Local Open Scope Z_scope.
Local Open Scope rust_scope.

(** ** The handlers' cycle needs one unit of fuel *)

Section Fuel.
Context `{!UsbStack}.
Implicit Types (t : BulkOnly) (rec : M BulkOnly (BResult unit)).

(** A run of [m] leaves the status alone. *)
Definition keeps_cs {A} (m : M BulkOnly A) : Prop :=
  forall t a t', m t = Returns (a, t') -> cs t' = cs t.

Lemma keeps_zoom {T A} (get : BulkOnly -> T) put (m : M T A) :
  (forall x t, cs (put x t) = cs t) -> keeps_cs (zoom get put m).
Proof.
  intros Hput t a t'. unfold zoom. destruct (m (get t)) as [[]| |]; intros Hrun; [|done..].
  injection Hrun as <- <-. apply Hput.
Qed.
Lemma keeps_modify f : (forall t, cs (f t) = cs t) -> keeps_cs (modify f).
Proof. intros Hf t a t'. unfold modify. intros Hrun. injection Hrun as _ <-. apply Hf. Qed.
Lemma keeps_bind {A B} (m : M BulkOnly A) (k : A -> M BulkOnly B) :
  keeps_cs m -> (forall a, keeps_cs (k a)) -> keeps_cs (bind m k).
Proof.
  intros Hm Hk t b t'. unfold bind. destruct (m t) as [[a t1]| |] eqn:Hr; [|done..].
  intros Hrun. by rewrite (Hk _ _ _ _ Hrun), (Hm _ _ _ Hr).
Qed.
Lemma keeps_gets {A} (f : BulkOnly -> A) : keeps_cs (gets f).
Proof. intros t a t'. unfold gets. intros Hrun. by injection Hrun as _ <-. Qed.
Lemma keeps_gets_o {A} (f : BulkOnly -> outcome A) : keeps_cs (gets_o f).
Proof.
  intros t a t'. unfold gets_o. destruct (f t); intros Hrun; [|done..]. by injection Hrun as _ <-.
Qed.
Lemma keeps_ret {A} (a : A) : keeps_cs (ret a).
Proof. intros t b t'. unfold ret. intros Hrun. by injection Hrun as _ <-. Qed.
Lemma keeps_assert b : keeps_cs (assert b).
Proof. destruct b; [apply keeps_ret|done]. Qed.

(** A computation built from these keeps the status. *)
Local Ltac keeps :=
  repeat first
    [ apply keeps_bind; [|intros] | apply keeps_gets | apply keeps_gets_o | apply keeps_ret
    | apply keeps_assert | by apply keeps_modify | by apply keeps_zoom | case_match ].

Lemma keeps_read_packet : keeps_cs read_packet.
Proof. unfold read_packet, on_buf_bus. keeps. Qed.
Lemma keeps_try_parse_cbw : keeps_cs try_parse_cbw.
Proof. unfold try_parse_cbw, on_buf, lift. keeps. Qed.
Lemma keeps_enter_command_transfer t u t' :
  enter_state_command_transfer t = Returns (u, t') -> cs t' = None.
Proof.
  unfold enter_state_command_transfer. intros Hrun.
  enough (keeps_cs (do! modify (set_left 0) in let! i := gets in_ep in do! on_bus (ep_unstall i) in
    let! o := gets out_ep in do! on_bus (ep_unstall o) in
    do! on_buf Buffer.clear in modify (set_state CommandTransfer))) as Hk.
  { by rewrite (Hk (set_cs None t) u t'). }
  unfold on_bus, on_buf. keeps.
Qed.

(** Without a status the handlers do not use the call that closes the cycle. *)
Lemma status_await_rec rec1 rec2 t :
  cs t = None ->
  handle_data_transfer_status_await rec1 t = handle_data_transfer_status_await rec2 t.
Proof.
  intros Hs. unfold handle_data_transfer_status_await. apply bind_ext. intros t0 t1 Hg.
  injection Hg as <- <-. unfold id, has_status. by rewrite Hs.
Qed.
Lemma no_data_rec rec1 rec2 t :
  cs t = None -> handle_data_transfer_no_data rec1 t = handle_data_transfer_no_data rec2 t.
Proof.
  intros Hs. unfold handle_data_transfer_no_data, bind, gets, assert.
  destruct (is_one_of _ _); [|done]. by apply status_await_rec.
Qed.
Lemma to_host_rec rec1 rec2 t :
  cs t = None -> handle_data_transfer_to_host rec1 t = handle_data_transfer_to_host rec2 t.
Proof.
  intros Hs. unfold handle_data_transfer_to_host. apply bind_ext. intros t0 t1 Hg.
  injection Hg as <- <-. unfold id, has_status. rewrite Hs.
  apply bind_ext. intros [] t1 Ha. destruct (is_one_of _ _); [injection Ha as <-|done].
  apply bind_ext. intros [] t1 Hb. destruct (_ =? 0); [|done].
  unfold enter_state_data_transfer_status_await, bind, modify. apply status_await_rec.
  enough (keeps_cs assert_buffer_len_not_exceeding) as Hk by (cbn; by rewrite (Hk _ _ _ Hb)).
  unfold assert_buffer_len_not_exceeding, lift. keeps.
Qed.
Lemma from_host_rec rec1 rec2 t :
  cs t = None -> handle_data_transfer_from_host rec1 t = handle_data_transfer_from_host rec2 t.
Proof.
  intros Hs. unfold handle_data_transfer_from_host. apply bind_ext. intros t0 t1 Hg.
  injection Hg as <- <-. unfold id, has_status. rewrite Hs.
  apply bind_ext. intros [] t1 Ha. destruct (is_one_of _ _); [injection Ha as <-|done].
  destruct (_ =? 0); [|done].
  unfold enter_state_data_transfer_from_host_status_await, bind, modify. by apply status_await_rec.
Qed.
Lemma start_rec rec1 rec2 c t :
  cs t = None -> start_data_transfer rec1 c t = start_data_transfer rec2 c t.
Proof.
  intros Hs. unfold start_data_transfer, bind, gets, modify, assert.
  destruct (is_one_of _ _); [|done]. unfold ret.
  destruct (on_buf Buffer.clear _) as [[[] t1]| |] eqn:Hc; [|done..].
  assert (cs t1 = None) as Hs1.
  { enough (keeps_cs (on_buf Buffer.clear)) as Hk by by rewrite (Hk _ _ _ Hc).
    unfold on_buf. keeps. }
  destruct (direction c).
  - by apply from_host_rec.
  - by apply to_host_rec.
  - by apply no_data_rec.
Qed.
Lemma read_cbw_rec rec1 rec2 t :
  cs t = None -> handle_read_cbw rec1 t = handle_read_cbw rec2 t.
Proof.
  intros Hs. unfold handle_read_cbw. apply bind_ext. intros st t0 Hg. injection Hg as <- <-.
  apply bind_ext. intros [] t1 Ha. destruct (is_one_of _ _); [injection Ha as <-|done].
  apply bind_try_ext. intros n t1 Hr. apply keeps_read_packet in Hr.
  apply bind_ext. intros ar t2 Hg. apply keeps_gets_o in Hg.
  destruct (_ <=? ar); [|done].
  apply bind_ext. intros r t3 Hp. apply keeps_try_parse_cbw in Hp.
  destruct r; [|done]. apply start_rec. congruence.
Qed.

Lemma handle_status_transfer_fuel n t :
  handle_status_transfer (S n) t = handle_status_transfer 1 t.
Proof.
  cbn [handle_status_transfer]. apply bind_ext. intros t0 t1 Hg. injection Hg as <- <-.
  apply bind_ext. intros [] t1 Ha. destruct (is_one_of _ _); [injection Ha as <-|done].
  apply bind_ext. intros ar t1 Hr. destruct (ar =? 0); [|done].
  apply bind_ext. intros [] t2 He. apply keeps_enter_command_transfer in He.
  by apply read_cbw_rec.
Qed.
End Fuel.

(** ** Theorems *)

(** C3: In every reachable state every method returns: no assertion, slice,
    subtraction or array copy fails, in [poll] and all that it calls, in [reset],
    [control_in], [get_command], [write_data], [try_write_data_all] and
    [read_data]; nor does [set_status] while a command is present and has no
    status yet, which is when the subclasses run the user's callback. *)
Theorem transport_never_panics `{!UsbStack, !UsbStackLaws} (t : BulkOnly) :
  reachable t ->
  (exists r t', poll t = Returns (r, t')) /\
  (exists t', reset t = Returns (tt, t')) /\
  (forall req, exists t', control_in req t = Returns (tt, t')) /\
  (forall src, exists r t', write_data src t = Returns (r, t')) /\
  (forall src, exists r t', try_write_data_all src t = Returns (r, t')) /\
  (forall dst, exists r t', read_data dst t = Returns (r, t')) /\
  exists c, get_command t = Returns c /\
    (c <> None -> has_status t = false ->
     forall s n, exists t', set_status s n t = Returns (tt, t')).
Proof.
  intros (d & Hd & Ht)%reachable_good.
  assert (forall A (m : M BulkOnly A) Q, wp m Q t -> exists a t', m t = Returns (a, t')) as Hret.
  { intros A m Q (a & t' & ? & _)%wp_run. eauto. }
  assert (forall (m : M BulkOnly unit) Q, wp m Q t -> exists t', m t = Returns (tt, t')) as Hret'.
  { intros m Q ([] & t' & ?)%Hret. eauto. }
  split_and!.
  - by eapply Hret, (poll_good d).
  - by eapply Hret', (reset_good d).
  - intros req. by eapply Hret', (control_in_good d).
  - intros src. by eapply Hret, (write_data_good d).
  - intros src. by eapply Hret, (try_write_data_all_good d).
  - intros dst. by eapply Hret, (read_data_good d).
  - eexists. split; [by apply (get_command_run d)|]. unfold has_status.
    destruct (command_phase (state t)) eqn:Hp; [done|]. destruct (cs t) eqn:Hs; [done|].
    intros _ _ s n. eexists. apply set_status_run. by apply (awaiting_status d).
Qed.

(** A transport in the middle of an IN command, halfway through its data. *)
Definition in_transfer : MockBbb :=
  at_ (history 8 (cbw 32 HostIn)
    [CPoll; CPoll; CPoll; CPoll; CWriteData (zreplicate 16 (byte_of 0xAA)); CPoll]).
Lemma in_transfer_reachable : reachable in_transfer.
Proof. apply at_reachable; [lia|by vm_compute]. Qed.

Lemma transport_never_panics_witness :
  exists r t', poll in_transfer = Returns (r, t').
Proof. exact (proj1 (transport_never_panics in_transfer in_transfer_reachable)). Defined.

(** C4: [poll] implements the protocol: from any reachable state it makes exactly
    one step of the abstract machine [bot_poll] and stays on the same endpoints,
    packet size and buffer. *)
Theorem poll_refines `{!UsbStack, !UsbStackLaws} (t : BulkOnly) :
  reachable t ->
  wp poll (fun r t' =>
    bot_poll (packet_size t) (capacity (buf t)) (view t) r (view t') /\
    reachable t' /\ packet_size t' = packet_size t /\ capacity (buf t') = capacity (buf t)) t.
Proof.
  intros Hr. pose proof Hr as (d & Hd & Ht)%reachable_good.
  pose proof (poll_good d Hd t Ht) as (r & t' & Hrun & Ht' & Hstep)%wp_run.
  apply wp_run. exists r, t'. split; [done|].
  rewrite !(live_packet_size d), !(live_capacity d) by (apply Ht || apply Ht').
  split; [done|]. split; [|done]. eapply reachable_step, (step_call _ CPoll); [done|].
  cbn. unfold bind. by rewrite Hrun.
Qed.

Lemma poll_refines_witness :
  wp poll (fun r t' => bot_poll 8 512 (view in_transfer) r (view t')) in_transfer.
Proof.
  eapply wp_mono; [apply (poll_refines in_transfer in_transfer_reachable)|].
  intros r t' [Hs _]. exact Hs.
Defined.

(** The cycle of handlers terminates: one entry of [handle_status_transfer]
    per [poll] is enough in every state, reachable or not, and more fuel changes
    nothing. *)
Lemma poll_fuel_enough `{!UsbStack} (n : nat) (t : BulkOnly) :
  poll_with (S n) t = poll t.
Proof.
  unfold poll, poll_with.
  assert (handle_status_transfer (S n) = handle_status_transfer 1) as ->; [|done].
  apply functional_extensionality, handle_status_transfer_fuel.
Qed.

(** C5: The invariant of the type, in every reachable state: the positions of the
    buffer are in range; outside the command phases there is a parsed command
    (valid lengths, direction and LUN), at most its transfer length is left to
    transfer and the queue never holds more than the host still expects; a status
    is present in the phases that end a command and absent while one is awaited. *)
Theorem transport_invariant `{!UsbStack, !UsbStackLaws} (t : BulkOnly) :
  reachable t ->
  wf_buf (buf t) /\ CBW_LEN <= capacity (buf t) /\
  0 < packet_size t <= capacity (buf t) /\ 0 <= max_lun t <= 15 /\
  bot_inv (capacity (buf t)) (view t).
Proof.
  intros (d & Hd & [Hl Hb])%reachable_good.
  pose proof Hd as [Hd1 Hd2 Hd3 Hd4 Hd5]. pose proof Hl as [_ _ Hml _ Hbuf Hcap].
  rewrite (live_packet_size d), Hcap, Hml by done. split_and!; done || lia.
Qed.

Lemma transport_invariant_witness :
  state in_transfer = DataTransferToHost /\ len (queue (view in_transfer)) = 8 /\
  wf_buf (buf in_transfer) /\ bot_inv (capacity (buf in_transfer)) (view in_transfer).
Proof.
  split; [by vm_compute|]. split; [by vm_compute|].
  destruct (transport_invariant in_transfer in_transfer_reachable) as (Hw & _ & _ & _ & Hb).
  exact (conj Hw Hb).
Defined.

(** A call that resets the transport. *)
Definition is_reset (c : call) : bool :=
  match c with
  | CReset => true
  | CControlIn req => is_bot_reset req
  | _ => false
  end.

Lemma invalid_step `{!UsbStack, !UsbStackLaws} (d : device) c t t' :
  device_ok d -> good d t -> state t = CommandTransferInvalid -> is_reset c = false ->
  do_call c t = Returns (tt, t') -> view t' = view t.
Proof.
  intros Hd [Hl Hi] Hp Hc Hrun.
  assert (forall A (m : M BulkOnly A) t1, wp m (fun _ t' => view t' = view t) t ->
    (do! m in ret tt) t = Returns (tt, t1) -> view t1 = view t) as Hdo.
  { intros A m t2 Hm Hr. eapply (wp_returns (do! m in ret tt) (fun _ t' => view t' = view t)); [|exact Hr].
    by apply wp_bind. }
  destruct c; cbn in Hc, Hrun; try done.
  - eapply Hdo, Hrun. unfold poll, poll_with. wp_steps. rewrite Hp.
    eapply wp_mono; [by apply (handle_cbw_invalid_step d)|]. by intros r t1 (_ & _ & Hv & _).
  - eapply (wp_returns (control_in req) (fun _ t' => view t' = view t)); [|exact Hrun].
    eapply wp_mono; [by apply (control_in_step d)|]. intros _ t1 [_ Hv]. by rewrite Hc in Hv.
  - eapply Hdo, Hrun. unfold wp. rewrite write_data_invalid; congruence.
  - eapply Hdo, Hrun. unfold wp. rewrite try_write_data_all_invalid; congruence.
  - eapply Hdo, Hrun. unfold wp. rewrite read_data_invalid; [done|]. by rewrite Hp.
  - rewrite set_status_panics in Hrun; [done|]. by rewrite Hp.
Qed.

(** C30: An invalid wrapper halts the transport (Bulk-Only 6.6.1): from then on
    every [poll] stalls both endpoints, no command is ever presented, nothing is
    sent or received, and no call but [reset] or a Bulk-Only Mass Storage Reset
    request leaves the state; either of them leads back to awaiting a command. *)
Theorem invalid_cbw_is_terminal `{!UsbStack, !UsbStackLaws} (t : BulkOnly) :
  reachable t -> state t = CommandTransferInvalid ->
  get_command t = Returns None /\
  wp poll (fun r t' => r = Ok tt /\ view t' = view t /\
    stalled (in_ep t) (bus t') /\ stalled (out_ep t) (bus t')) t /\
  (forall c t', do_call c t = Returns (tt, t') ->
     if is_reset c then view t' = idle (view t) else view t' = view t).
Proof.
  intros (d & Hd & Ht)%reachable_good Hp. pose proof Ht as [Hl _]. split_and!.
  - rewrite (get_command_run d) by done. by rewrite Hp.
  - unfold poll, poll_with. wp_steps. rewrite Hp.
    eapply wp_mono; [by apply (handle_cbw_invalid_step d)|].
    rewrite (live_in d t Hl), (live_out d t Hl). by intros r t' (_ & ? & ?).
  - intros c t' Hrun. destruct (is_reset c) eqn:Hc; [|by apply (invalid_step d c)].
    destruct c; cbn in Hc, Hrun; try done.
    + pose proof (reset_step d t Hl) as Hs.
      by destruct (wp_returns _ _ _ _ _ Hs Hrun).
    + pose proof (control_in_step d req t Hl) as Hs. rewrite Hc in Hs.
      by destruct (wp_returns _ _ _ _ _ Hs Hrun).
Qed.

(** A wrapper with a corrupt signature. *)
Definition invalid_transfer : MockBbb :=
  at_ (history 64 (splice (cbw 0 NoData) 0 [x00]) [CPoll]).
Lemma invalid_transfer_reachable : reachable invalid_transfer.
Proof. apply at_reachable; [lia|by vm_compute]. Qed.

Lemma invalid_cbw_is_terminal_witness :
  state invalid_transfer = CommandTransferInvalid /\ get_command invalid_transfer = Returns None.
Proof.
  assert (state invalid_transfer = CommandTransferInvalid) as Hp by (by vm_compute).
  split; [exact Hp|].
  exact (proj1 (invalid_cbw_is_terminal invalid_transfer invalid_transfer_reachable Hp)).
Defined.
