(* ===== verification/BotStream.v ===== *)
(** * What is on the wire during one command

    [serves b0 base acc del b] relates the state [b] in the course of a command to
    the state [b0] before it: [acc] are the bytes that the subclass has written,
    [del] those that were delivered to it, [base] what the host had sent up to the
    end of the wrapper. It is kept by every step of the machine until the status
    wrapper is out. What it says at the end is the theorem about the streams. *)
From S2P Require Import Prelude.
From S2P Require Import Usb.
From S2P Require Import Transport.
From S2P Require Import Bbb.
From S2P Require Import BotSpec.

Local Open Scope Z_scope.

(** What the host receives as the data of command [c]: what the subclass wrote, and
    filler up to the length the host asked for. *)
Definition payload (c : CommandBlockWrapper) (acc : list byte) : list byte :=
  match direction c with
  | DataIn => acc ++ zreplicate (data_transfer_len c - len acc) FILL_BYTE
  | _ => []
  end.

(** How many bytes the host asks for: of a command that is not an IN command, none. *)
Definition wanted (c : CommandBlockWrapper) : Z :=
  match direction c with DataIn => data_transfer_len c | _ => 0 end.
Lemma wanted_in c : direction c = DataIn -> wanted c = data_transfer_len c.
Proof. unfold wanted. by intros ->. Qed.
Lemma wanted_not_in c : direction c <> DataIn -> wanted c = 0.
Proof. unfold wanted. by destruct (direction c). Qed.

(** The subclass has not written more than the host asked for. *)
Definition within (c : CommandBlockWrapper) (acc : list byte) : Prop := len acc <= wanted c.

(** It has written all that the host asked for. *)
Definition complete (c : CommandBlockWrapper) (acc : list byte) : Prop := len acc = wanted c.
Lemma complete_within c acc : complete c acc -> within c acc.
Proof. unfold complete, within. lia. Qed.
Lemma complete_in c acc : direction c = DataIn -> complete c acc -> len acc = data_transfer_len c.
Proof. intros Hd Hc. by rewrite <- (wanted_in c Hd). Qed.

(** What came after the wrapper, [data] and [rest]: of an OUT command all that was announced,
    of any other command nothing. *)
Definition announced (c : CommandBlockWrapper) (data rest : list byte) : Prop :=
  (direction c = DataOut -> data_transfer_len c <= len (data ++ rest)) /\
  (direction c <> DataOut -> data = [] /\ rest = []).

Section Stream.
Context `{!UsbStack} (ps cap : Z).
Hypothesis Hps : 0 < ps.
Hypothesis Hps_cap : ps <= cap.
Hypothesis Hcap : CBW_LEN <= cap.
(** The state before the command, and what the host had sent with its wrapper. *)
Context (b0 : Bot) (base : list byte).

(** How the bytes [acc] are divided between the wire and the queue. *)
Definition in_part (acc : list byte) (b : Bot) : Prop :=
  match phase b with
  | DataTransferToHost =>
    direction (cmd b) = DataIn /\ exists sent, wire_in b = wire_in b0 ++ sent /\
      acc = sent ++ queue b /\ len sent + left b = data_transfer_len (cmd b)
  | DataTransferToHostEnding =>
    direction (cmd b) = DataIn /\ exists sent k, wire_in b = wire_in b0 ++ sent /\ 0 <= k /\
      acc ++ zreplicate k FILL_BYTE = sent ++ queue b /\
      len sent + left b = data_transfer_len (cmd b)
  | StatusTransfer =>
    exists s part, stat b = Some s /\ wire_in b = wire_in b0 ++ payload (cmd b) acc ++ part /\
      part ++ queue b = csw_bytes (cmd b) s /\ within (cmd b) acc
  | DataTransferNoData | DataTransferStatusAwait =>
    direction (cmd b) <> DataOut /\ wire_in b = wire_in b0 ++ payload (cmd b) acc /\
    complete (cmd b) acc
  | DataTransferFromHost | DataTransferFromHostStatusAwait | DataTransferFromHostEnding =>
    direction (cmd b) = DataOut /\ wire_in b = wire_in b0 /\ acc = []
  | CommandTransfer | CommandTransferInvalid => False
  end.

(** How the bytes received are divided between [del] and the queue. *)
Definition out_part (del : list byte) (b : Bot) : Prop :=
  match phase b with
  | DataTransferFromHost | DataTransferFromHostStatusAwait =>
    wire_out b = base ++ del ++ queue b /\
    left b = saturating_sub (data_transfer_len (cmd b)) (len (del ++ queue b))
  | DataTransferFromHostEnding =>
    exists rest, wire_out b = base ++ del ++ rest /\
      left b = saturating_sub (data_transfer_len (cmd b)) (len (del ++ rest))
  | StatusTransfer =>
    exists rest, wire_out b = base ++ del ++ rest /\
      (direction (cmd b) = DataOut -> data_transfer_len (cmd b) <= len (del ++ rest)) /\
      (direction (cmd b) <> DataOut -> del = [] /\ rest = [])
  | _ => wire_out b = base /\ del = []
  end.

(** An OUT command takes less than a packet beyond what was announced. *)
Definition taken (b : Bot) : Prop :=
  direction (cmd b) = DataOut -> len (wire_out b) < len base + data_transfer_len (cmd b) + ps.

Record serves (acc del : list byte) (b : Bot) : Prop := {
  serves_inv : bot_inv cap b;
  serves_in : in_part acc b;
  serves_out : out_part del b;
  serves_taken : taken b
}.

(** The data phase is over, all its bytes are on the wire. *)
Record served (acc del : list byte) (b : Bot) : Prop := {
  served_in : wire_in b = wire_in b0 ++ payload (cmd b) acc;
  served_within : within (cmd b) acc;
  served_out : exists rest, wire_out b = base ++ del ++ rest /\
    (direction (cmd b) = DataOut -> data_transfer_len (cmd b) <= len (del ++ rest)) /\
    (direction (cmd b) <> DataOut -> del = [] /\ rest = [])
}.

Lemma csw_step_serves acc del b r b' :
  phase b = StatusTransfer -> in_part acc b -> out_part del b -> csw_step ps b r b' ->
  in_part acc b' /\ out_part del b'.
Proof.
  intros Hp Hin Hout Hstep. unfold in_part, out_part in *. rewrite Hp in *.
  destruct Hin as (s & part & Hs & Hw & Hq & Hok).
  assert (forall n, ztake n (queue b) ++ zdrop n (queue b) = queue b) as Hsplit
    by (intros; apply ztake_zdrop).
  destruct Hstep as [n b1 Hsend|e b1 Hsend]; inversion Hsend; subst; cbn; rewrite ?Hp.
  - split; [by exists s, part|done].
  - split; [|done]. exists s, (part ++ ztake n (queue b)). split; [done|].
    split; [by rewrite Hw, <- !app_assoc|]. by rewrite <- app_assoc, Hsplit.
  - split; [by exists s, part|done].
Qed.

Lemma enter_csw_serves acc del s b r b' :
  served acc del b -> stat b = Some s -> csw_step ps (enter_csw s b) r b' ->
  in_part acc b' /\ out_part del b'.
Proof.
  intros [Hin Hok Hout] Hs. apply csw_step_serves; [done| |done].
  exists s, []. cbn. by rewrite app_nil_r.
Qed.

Lemma await_serves acc del b r b' :
  served acc del b -> in_part acc b -> out_part del b -> await ps b r b' ->
  in_part acc b' /\ out_part del b'.
Proof. intros Hd Hin Hout [|s r' b1 Hs Hstep]; [done|]. by eapply enter_csw_serves. Qed.

(** All that [len acc + k] bytes can be, when as many were asked for. *)
Lemma payload_full c acc k :
  direction c = DataIn -> 0 <= k -> len acc + k = data_transfer_len c ->
  payload c acc = acc ++ zreplicate k FILL_BYTE.
Proof. intros Hd ? Hl. unfold payload. rewrite Hd. do 2 f_equal. lia. Qed.

Lemma in_ending_serves acc del b r b' :
  phase b = DataTransferToHostEnding -> serves acc del b -> in_ending ps b r b' ->
  in_part acc b' /\ out_part del b'.
Proof.
  intros Hp [Hinv Hin Hout Htk] Hstep. unfold bot_inv, in_part, out_part in Hinv, Hin, Hout.
  rewrite Hp in Hinv, Hin, Hout.
  destruct Hinv as (_ & _ & Hl & Hq & _), Hin as (Hd & sent & k & Hw & Hk & Hacc & Hlen),
    Hout as [Hout ->].
  destruct Hstep as [s r' b1 Hz Hs Hstep|r' b1 Hz Hmv].
  - eapply enter_csw_serves; [|done..]. rewrite Hz in Hq.
    assert (queue b = []) as Hnil by (apply len_zero_inv; len_lia).
    rewrite Hnil, app_nil_r in Hacc. split.
    + rewrite (payload_full _ _ k); [congruence|done..|]. rewrite <- Hlen, <- Hacc. len_lia.
    + unfold within. rewrite wanted_in by done. apply (f_equal len) in Hacc. len_lia.
    + exists []. rewrite !app_nil_r. split; [done|]. split; [congruence|done].
  - set (m := Z.min (left b) ps - len (queue b)) in Hmv.
    assert (acc ++ zreplicate (k + Z.max 0 m) FILL_BYTE =
      sent ++ queue b ++ zreplicate m FILL_BYTE) as Hacc'.
    { rewrite zreplicate_add, !app_assoc, Hacc, <- !app_assoc by lia. do 2 f_equal.
      unfold zreplicate. f_equal. lia. }
    destruct Hmv as [n b2 Hsend|e b2 Hsend]; inversion Hsend as [Hq0|n' Hq0 Hn|e' Hq0]; subst;
      unfold in_part, out_part; cbn; rewrite ?Hp.
    + split; [|done]. split; [done|]. exists sent, (k + Z.max 0 m).
      fold m. rewrite Hacc'. unfold saturating_sub.
      split; [done|]. split; [lia|]. split; [done|lia].
    + split; [|done]. split; [done|]. fold m in Hn |- *. cbn in Hn. fold m in Hn.
      exists (sent ++ ztake n (queue b ++ zreplicate m FILL_BYTE)), (k + Z.max 0 m).
      rewrite Hw, <- !app_assoc, ztake_zdrop, Hacc'. unfold saturating_sub.
      split; [done|]. split; [lia|]. split; [done|]. len_lia.
    + split; [|done]. split; [done|]. exists sent, (k + Z.max 0 m). fold m. rewrite Hacc'.
      split; [done|]. split; [lia|]. done.
Qed.

(** Sending from an IN queue that holds only what the subclass wrote. *)
Lemma sending_serves acc del b r b' :
  phase b = DataTransferToHost -> serves acc del b -> moving (send ps) b r b' ->
  in_part acc b' /\ out_part del b'.
Proof.
  intros Hp [Hinv Hin Hout Htk] Hmv. unfold bot_inv, in_part, out_part in Hinv, Hin, Hout.
  rewrite Hp in Hinv, Hin, Hout.
  destruct Hinv as (_ & _ & Hl & Hq), Hin as (Hd & sent & Hw & Hacc & Hlen).
  destruct Hmv as [n b2 Hsend|e b2 Hsend]; inversion Hsend as [Hq0|n' Hq0 Hn|e' Hq0]; subst;
    unfold in_part, out_part; cbn; rewrite ?Hp; (split; [|done]); (split; [done|]).
  - exists sent. split; [done|]. split; [done|]. unfold saturating_sub. lia.
  - exists (sent ++ ztake n (queue b)). rewrite Hw, <- !app_assoc, ztake_zdrop.
    split; [done|]. split; [done|]. unfold saturating_sub. len_lia.
  - by exists sent.
Qed.

(** The IN data phase with nothing left to send. *)
Lemma to_host_served acc del b :
  phase b = DataTransferToHost -> serves acc del b -> left b = 0 ->
  served acc del (with_phase DataTransferStatusAwait b) /\
  in_part acc (with_phase DataTransferStatusAwait b) /\
  out_part del (with_phase DataTransferStatusAwait b).
Proof.
  intros Hp [Hinv Hin Hout Htk] Hz. unfold bot_inv, in_part, out_part in Hinv, Hin, Hout.
  rewrite Hp in Hinv, Hin, Hout. rewrite Hz in Hinv.
  destruct Hinv as (_ & _ & Hl & Hq), Hin as (Hd & sent & Hw & Hacc & Hlen), Hout as [Hout ->].
  assert (queue b = []) as Hnil by (apply len_zero_inv; len_lia).
  rewrite Hnil, app_nil_r in Hacc. subst acc.
  assert (wire_in b = wire_in b0 ++ payload (cmd b) sent) as Hpay.
  { rewrite (payload_full _ _ 0) by (done || lia). by rewrite app_nil_r. }
  assert (complete (cmd b) sent) as Hcomp by (unfold complete; rewrite wanted_in by done; lia).
  pose proof (complete_within _ _ Hcomp).
  unfold in_part, out_part. cbn. rewrite Hd. split; [|done].
  split; [done..|]. exists []. cbn. rewrite !app_nil_r, Hd. done.
Qed.

Lemma data_in_serves acc del b r b' :
  phase b = DataTransferToHost -> serves acc del b -> data_in ps b r b' ->
  in_part acc b' /\ out_part del b'.
Proof.
  intros Hp Hs Hstep. destruct Hstep as [r' b1 Hz Ha|s r' b1 Hz Hst He|r' b1 Hz Hst Hor Hm|Hst Hl Hq].
  - destruct (to_host_served acc del b Hp Hs Hz) as (? & ? & ?). by eapply await_serves.
  - eapply in_ending_serves; [| |exact He]; [done|]. destruct Hs as [Hinv Hin Hout Htk].
    unfold bot_inv, in_part, out_part in Hinv, Hin, Hout. rewrite Hp in Hinv, Hin, Hout.
    split; unfold bot_inv, in_part, out_part; cbn; [intuition congruence| |done|exact Htk].
    destruct Hin as (Hd & sent & Hw & Hacc & Hlen). split; [done|]. exists sent, 0.
    by rewrite app_nil_r.
  - by eapply sending_serves.
  - by destruct Hs.
Qed.

(** The OUT data phase with nothing left to receive. *)
Lemma from_host_served acc del rest b :
  direction (cmd b) = DataOut -> wire_in b = wire_in b0 -> acc = [] ->
  wire_out b = base ++ del ++ rest ->
  left b = saturating_sub (data_transfer_len (cmd b)) (len (del ++ rest)) -> left b = 0 ->
  served acc del b.
Proof.
  intros Hd Hw -> Hout Hl Hz. split.
  - unfold payload. rewrite Hd, Hw. by rewrite app_nil_r.
  - unfold within. by rewrite wanted_not_in by congruence.
  - exists rest. split; [done|]. split; [|congruence]. unfold saturating_sub in Hl. lia.
Qed.

Lemma out_ending_serves acc del b r b' :
  phase b = DataTransferFromHostEnding -> in_part acc b -> out_part del b ->
  out_ending ps cap b r b' -> in_part acc b' /\ out_part del b'.
Proof.
  unfold in_part, out_part. intros Hp. rewrite Hp.
  intros (Hd & Hw & Hacc) (rest & Hout & Hl) [s r' b1 Hz Hs Hstep|r' b1 Hz Hmv].
  - eapply enter_csw_serves; [|done..]. by eapply from_host_served.
  - destruct Hmv as [n b2 Hr|e b2 Hr]; inversion Hr; subst; cbn; rewrite ?Hp;
      (split; [done|]); [|by exists rest..].
    exists (rest ++ p). rewrite Hout, <- !app_assoc. split; [done|].
    rewrite Hl. unfold saturating_sub. len_lia.
Qed.

Lemma data_out_serves acc del b r b' :
  phase b = DataTransferFromHost -> in_part acc b -> out_part del b ->
  data_out ps cap b r b' -> in_part acc b' /\ out_part del b'.
Proof.
  intros Hp Hin Hout Hstep. pose proof Hin as Hin'. pose proof Hout as Hout'.
  unfold in_part, out_part in Hin', Hout'. rewrite Hp in Hin', Hout'.
  destruct Hin' as (Hd & Hw & Hacc), Hout' as (Ho & Hl).
  destruct Hstep as [r' b1 Hz Ha|s r' b1 Hz Hst He|r' b1 Hz Hst Hm].
  - refine (await_serves _ _ _ _ _ _ _ _ Ha); [by eapply from_host_served|done|done].
  - refine (out_ending_serves _ _ _ _ _ _ _ _ He); [done|done|]. by exists (queue b).
  - unfold in_part, out_part.
    destruct Hm as [n b2 Hr|e b2 Hr]; inversion Hr; subst; cbn; rewrite ?Hp;
      (split; [done|]); [|done..].
    rewrite Ho, <- !app_assoc. split; [done|].
    rewrite Hl. unfold saturating_sub. len_lia.
Qed.

(** ** Every step of the command *)

(** A packet is only taken by an OUT command, and while bytes are missing. *)
Lemma poll_takes acc del b r b' :
  serves acc del b -> ~ (phase b = StatusTransfer /\ queue b = []) -> bot_poll ps cap b r b' ->
  cmd b' = cmd b /\ (wire_out b' = wire_out b \/
    direction (cmd b) = DataOut /\ len (wire_out b) < len base + data_transfer_len (cmd b) /\
    exists p, len p <= ps /\ wire_out b' = wire_out b ++ p).
Proof.
  intros [Hinv Hin Hout Htk] Hnot Hstep.
  assert (is_one_of (phase b) [CommandTransfer; CommandTransferInvalid] = false) as Hcp
    by (unfold in_part in Hin; by destruct (phase b)).
  destruct (bot_poll_frame _ _ _ _ _ Hcp Hnot Hstep) as [Hc _]. split; [done|].
  destruct (bot_poll_takes _ _ _ _ _ Hcp Hnot Hstep) as [->|(Hl & Hp & p & Hlen & ->)]; [by left|right].
  unfold in_part in Hin. unfold out_part, saturating_sub in Hout.
  destruct Hp as [Hp|Hp]; rewrite Hp in Hin, Hout.
  - destruct Hin as (Hd & _), Hout as [-> Hleft]. split; [done|]. split; [len_lia|eauto].
  - destruct Hin as (Hd & _), Hout as (rest & -> & Hleft). split; [done|]. split; [len_lia|eauto].
Qed.

Lemma poll_taken acc del b r b' :
  serves acc del b -> ~ (phase b = StatusTransfer /\ queue b = []) -> bot_poll ps cap b r b' ->
  taken b'.
Proof.
  intros Hs Hnot Hstep. pose proof (serves_taken _ _ _ Hs) as Htk.
  destruct (poll_takes _ _ _ _ _ Hs Hnot Hstep) as [Hc Hw]. unfold taken in *. rewrite Hc.
  destruct Hw as [->|(_ & Hlt & p & Hlen & ->)]; [done|]. rewrite len_app. lia.
Qed.

Lemma poll_serves acc del b r b' :
  serves acc del b -> ~ (phase b = StatusTransfer /\ queue b = []) -> bot_poll ps cap b r b' ->
  serves acc del b'.
Proof.
  intros Hs Hnot Hstep. pose proof Hs as [Hinv Hin Hout Htk].
  enough (in_part acc b' /\ out_part del b') as [].
  { split; [|done..|by eapply poll_taken]. eapply bot_poll_inv; [..|exact Hstep]; done. }
  destruct Hstep as [r' b1 Hp Hc|Hp|r' b1 Hp Hc|r' b1 Hp Hc|r' b1 Hp Hc|r' b1 Hp Hc|r' b1 Hp Hc
    |r' b1 Hp Hc|r' b1 Hp Hq Hc|r' b1 Hp Hq Hc].
  - unfold in_part in Hin. by rewrite Hp in Hin.
  - done.
  - unfold in_part, out_part in Hin, Hout. rewrite Hp in Hin, Hout.
    destruct Hin as (Hd & Hw & Hok), Hout as [Ho ->]. pose proof (complete_within _ _ Hok).
    refine (await_serves _ _ _ _ _ _ _ _ Hc); [|done|done]. split; [done..|].
    exists []. rewrite !app_nil_r. by split.
  - by eapply data_in_serves.
  - by eapply in_ending_serves.
  - by eapply data_out_serves.
  - by eapply out_ending_serves.
  - refine (await_serves _ _ _ _ _ _ Hin Hout Hc). unfold in_part, out_part, bot_inv in *.
    destruct Hp as [Hp|Hp]; rewrite Hp in *.
    + destruct Hin as (Hd & Hw & Hok), Hout as [Ho ->]. pose proof (complete_within _ _ Hok). split; [done..|].
      exists []. rewrite !app_nil_r. by split.
    + destruct Hin as (Hd & Hw & Hacc), Hout as (Ho & Hl).
      eapply from_host_served; try done. by destruct Hinv as (_ & _ & _ & ?).
  - by eapply csw_step_serves.
  - by destruct Hnot.
Qed.

(** A command begins. *)
Lemma begin_serves c b :
  cbw_ok c -> wire_in b = wire_in b0 -> wire_out b = base -> serves [] [] (begin c b).
Proof.
  intros Hc Hw Ho. destruct (begin_inv cap c b Hc ltac:(lia)) as [_ Hinv].
  pose proof Hc as [_ [? ?] Hd _ _ _].
  split; [done|..|intros _; cbn; rewrite Ho; lia];
    unfold in_part, out_part, begin; cbn; destruct (direction c) eqn:Hdir; cbn.
  - done.
  - split; [done|]. exists []. rewrite app_nil_r. unfold len at 1. cbn. split; [done|]. split; [done|lia].
  - split; [congruence|]. unfold payload, complete, wanted. rewrite Hdir. by rewrite app_nil_r.
  - rewrite app_nil_r. split; [done|]. unfold saturating_sub, len. cbn. lia.
  - done.
  - done.
Qed.

(** The subclass's calls. *)
Lemma write_serves acc del q b :
  serves acc del b -> phase b = DataTransferToHost -> 
  len (queue b ++ q) <= cap -> len (queue b ++ q) <= left b ->
  serves (acc ++ q) del (with_queue (queue b ++ q) b).
Proof.
  intros [Hinv Hin Hout Htk] Hp ??. unfold bot_inv, in_part, out_part in *.
  rewrite Hp in *. destruct Hinv as (_ & ? & ? & _), Hin as (Hd & sent & Hw & Hacc & Hlen).
  split; unfold bot_inv, in_part, out_part; cbn; rewrite ?Hp; [done| |done|exact Htk].
  split; [done|]. exists sent. by rewrite Hacc, app_assoc.
Qed.
Lemma read_serves acc del n b :
  serves acc del b ->
  phase b = DataTransferFromHost \/ phase b = DataTransferFromHostStatusAwait ->
  serves acc (del ++ ztake n (queue b)) (bot_read n b).
Proof.
  intros [Hinv Hin Hout Htk] Hp. unfold bot_inv, in_part, out_part in *.
  assert (len (zdrop n (queue b)) <= len (queue b)) by len_lia.
  split; [..|exact Htk]; unfold bot_inv, in_part, out_part; cbn; destruct Hp as [Hp|Hp]; rewrite Hp in *.
  all: rewrite <- ?app_assoc, ?ztake_zdrop; try done.
  all: destruct Hinv; split; [lia|done].
Qed.
Lemma set_status_serves acc del s n b :
  serves acc del b -> status_phase (phase b) = true -> serves acc del (bot_set_status s n b).
Proof.
  intros [Hinv Hin Hout Htk] Hp. unfold bot_inv, in_part, out_part in *.
  split; [..|exact Htk]; unfold bot_inv, in_part, out_part; cbn; by destruct (phase b).
Qed.
End Stream.
