(* ===== verification/Transfer.v ===== *)
(** * One command, from its wrapper to its status

    [transfer t0 acc del t]: [t] is a moment in the course of the command whose
    wrapper completes in the first [poll] after [t0]; [acc] is the concatenation of
    the bytes that [write_data] and [try_write_data_all] have accepted since, [del]
    of those that [read_data] has delivered. Polls, calls of the subclass and steps
    of the host are interleaved in any order. The theorems say what the two byte
    streams of the wire then are. *)
From S2P Require Import Prelude.
From S2P Require Import Usb.
From S2P Require Import Buffer.
From S2P Require Import Transport.
From S2P Require Import Bbb.
From S2P Require Import BotSpec.
From S2P Require Import BbbRefine.
From S2P Require Import BbbMethods.
From S2P Require Import BbbReach.
From S2P Require Import BotStream.
From S2P Require Import MockBus.

Local Open Scope Z_scope.
Local Open Scope rust_scope.

Section Transfer.
Context `{!UsbStack, !UsbStackLaws}.

(** Between two commands: a wrapper is awaited, or the last status is out. *)
Definition between (t : BulkOnly) : Prop :=
  state t = CommandTransfer \/ (state t = StatusTransfer /\ contents (buf t) = []).

Definition accepted (src : list byte) (r : BResult Z) : list byte :=
  match r with Ok n => ztake n src | Err _ => [] end.

Inductive transfer (t0 : BulkOnly) : list byte -> list byte -> BulkOnly -> Prop :=
| tr_begin r t :
    poll t0 = Returns (r, t) -> command_phase (state t) = false -> transfer t0 [] [] t
| tr_poll acc del t r t' :
    transfer t0 acc del t -> ~ between t -> poll t = Returns (r, t') -> transfer t0 acc del t'
| tr_write acc del t src r t' :
    transfer t0 acc del t -> write_data src t = Returns (r, t') ->
    transfer t0 (acc ++ accepted src r) del t'
| tr_write_all acc del t src r t' :
    transfer t0 acc del t -> try_write_data_all src t = Returns (r, t') ->
    transfer t0 (acc ++ match r with Ok _ => src | Err _ => [] end) del t'
| tr_read acc del t dst dst' r t' :
    transfer t0 acc del t -> read_data dst t = Returns ((dst', r), t') ->
    transfer t0 acc (del ++ accepted dst' r) t'
| tr_set_status acc del t s n t' :
    transfer t0 acc del t -> is_u32 n -> set_status s n t = Returns (tt, t') ->
    transfer t0 acc del t'
| tr_control_in acc del t req t' :
    transfer t0 acc del t -> is_bot_reset req = false -> control_in req t = Returns (tt, t') ->
    transfer t0 acc del t'
| tr_host acc del t b :
    transfer t0 acc del t -> host_step (bus t) b -> transfer t0 acc del (set_bus b t).

Lemma start_poll (ps cap : Z) c b r b' :
  start ps cap (begin c b) r b' -> bot_poll ps cap (begin c b) r b'.
Proof.
  unfold start. cbn. destruct (direction c) eqn:Hd; intros Hs.
  - apply poll_out; [cbn; by rewrite Hd|done].
  - apply poll_in; [cbn; by rewrite Hd|done].
  - apply poll_no_data; [cbn; by rewrite Hd|done].
Qed.

(** The bytes of a wrapper that have arrived before [t]. *)
Definition pending (t : BulkOnly) : list byte :=
  match state t with CommandTransfer => contents (buf t) | _ => [] end.

(** Between two commands a [poll] waits for the rest of a wrapper. *)
Lemma between_cbw_step (ps cap : Z) (t0 : BulkOnly) r b :
  between t0 -> bot_inv cap (view t0) -> bot_poll ps cap (view t0) r b ->
  exists b0, queue b0 = pending t0 /\ wire_in b0 = in_log (bus t0) /\
    wire_out b0 = out_log (bus t0) /\ stat b0 = None /\ phase b0 = CommandTransfer /\
    cbw_step ps cap b0 r b.
Proof.
  intros Hbt Hinv Hstep. unfold pending, bot_inv in *. cbn in Hinv.
  destruct Hbt as [Hp|[Hp Hq]]; rewrite Hp in *; inversion Hstep as
    [? ? Hp' Hc|Hp'|? ? Hp' Hc|? ? Hp' Hc|? ? Hp' Hc|? ? Hp' Hc|? ? Hp' Hc
    |? ? Hp' Hc|? ? Hp' Hq' Hc|? ? Hp' Hq' Hc]; cbn in Hp'; subst;
    try (destruct Hp' as [Hp'|Hp']); try congruence; try done.
  - exists (view t0). cbn. rewrite Hp. split_and!; try done. by destruct Hinv as [_ ?].
  - by exists (idle (view t0)).
Qed.

(** The [poll] in which a command begins: a packet [p] completes the wrapper. *)
Lemma command_begins_bot (ps cap : Z) (t0 : BulkOnly) r b :
  between t0 -> bot_inv cap (view t0) -> bot_poll ps cap (view t0) r b ->
  command_phase (phase b) = false ->
  exists p c b1, CBW_LEN <= len (pending t0 ++ p) /\
    decode_cbw (ztake CBW_LEN (pending t0 ++ p)) = Some c /\
    wire_in b1 = in_log (bus t0) /\ wire_out b1 = out_log (bus t0) ++ p /\ stat b1 = None /\
    start ps cap (begin c b1) r b.
Proof.
  intros Hbt Hinv Hstep Hph.
  destruct (between_cbw_step ps cap t0 r b Hbt Hinv Hstep) as (b0 & Hq & Hw & Ho & Hs & Hp0 & Hcbw).
  destruct Hcbw as [e b1 Hr|n b1 Hr Hl|n b1 Hr Hl Hn|n b1 c r' b2 Hr Hl Hd Hst].
  - apply recv_frame in Hr as (Hp & _). unfold command_phase in *. by rewrite Hp, Hp0 in Hph.
  - apply recv_frame in Hr as (Hp & _). unfold command_phase in *. by rewrite Hp, Hp0 in Hph.
  - done.
  - inversion Hr as [| p Hroom Hlen|]; subst. cbn in *. rewrite Hq in *.
    exists p, c, (absorb p b0). cbn. by rewrite Hw, Ho.
Qed.

(** A [poll] that leaves the wrapper incomplete: a packet [x] joins it, or nothing does. *)
Lemma command_awaited_bot (ps cap : Z) (t0 : BulkOnly) r b :
  CBW_LEN <= cap ->
  between t0 -> bot_inv cap (view t0) -> bot_poll ps cap (view t0) r b ->
  phase b = CommandTransfer ->
  exists x, queue b = pending t0 ++ x /\ wire_in b = in_log (bus t0) /\
    wire_out b = out_log (bus t0) ++ x.
Proof.
  intros Hcap Hbt Hinv Hstep Hph.
  destruct (between_cbw_step ps cap t0 r b Hbt Hinv Hstep) as (b0 & <- & <- & <- & Hs & Hp0 & Hcbw).
  destruct Hcbw as [e b1 Hr|n b1 Hr Hl|n b1 Hr Hl Hn|n b1 c r' b2 Hr Hl Hd Hst]; [| |done|exfalso].
  - exists []. rewrite !app_nil_r. by inversion Hr.
  - inversion Hr as [| p Hroom Hlen|]; subst. by exists p.
  - assert (cbw_ok c) as Hc by (eapply decode_cbw_ok; [|exact Hd]; unfold CBW_LEN in *; len_lia).
    destruct (begin_inv cap c b1 Hc ltac:(unfold CBW_LEN in *; lia)) as [_ Hi].
    assert (stat b1 = None) as Hs1 by (inversion Hr; subst; exact Hs).
    assert (is_one_of (phase (begin c b1)) [CommandTransfer; CommandTransferInvalid] = false) as Hp1
      by (cbn; by destruct (direction c)).
    pose proof (bot_poll_awaits _ _ _ _ _ Hi Hp1 Hs1 (start_poll _ _ _ _ _ _ Hst)) as Hno.
    by rewrite Hph in Hno.
Qed.

(** The bytes of an IN command on the wire. *)
Lemma len_payload c acc : within c acc -> len (payload c acc) = wanted c.
Proof. unfold within, payload, wanted. destruct (direction c); intros; len_lia. Qed.

(** The residue is at most what the host asked for. *)
Definition stat_ok (b : Bot) : Prop :=
  forall s, stat b = Some s -> 0 <= data_residue s <= data_transfer_len (cmd b).

(** What the abstract machine remembers of a transfer. *)
Record tracked (d : device) (t0 : BulkOnly) (acc del : list byte) (t : BulkOnly) : Prop := {
  tracked_good : good d t;
  tracked_stat : stat_ok (view t);
  tracked_serves : exists p, CBW_LEN <= len (pending t0 ++ p) /\
    decode_cbw (ztake CBW_LEN (pending t0 ++ p)) = Some (Bbb.cbw t) /\
    serves (d_ps d) (d_capacity d) (view t0) (out_log (bus t0) ++ p) acc del (view t)
}.

Context (d : device).
Hypothesis Hd : device_ok d.

(** A call that leaves the protocol's state alone changes nothing. *)
Lemma tracked_same t0 acc del t t' :
  tracked d t0 acc del t -> good d t' -> view t' = view t -> tracked d t0 acc del t'.
Proof.
  intros [Hg Hs (p & Hl & Hdec & Hserv)] Hg' Hv. split; [done|by rewrite Hv|].
  exists p. rewrite Hv. split; [done|]. split; [|done].
  change (decode_cbw (ztake CBW_LEN (pending t0 ++ p)) = Some (cmd (view t'))). by rewrite Hv.
Qed.

(** A call whose effect on that state is known. *)
Lemma tracked_update t0 acc del acc' del' t t' :
  tracked d t0 acc del t -> good d t' ->
  cmd (view t') = cmd (view t) -> stat_ok (view t') ->
  (forall base, serves (d_ps d) (d_capacity d) (view t0) base acc del (view t) ->
     serves (d_ps d) (d_capacity d) (view t0) base acc' del' (view t')) ->
  tracked d t0 acc' del' t'.
Proof.
  intros [_ _ (p & Hl & Hdec & Hserv)] Hg' Hc Hs' Hstep. split; [done..|].
  exists p. split; [done|]. split; [|by apply Hstep].
  change (Bbb.cbw t') with (cmd (view t')). by rewrite Hc.
Qed.

Lemma wp_run_good {A} (m : M BulkOnly A) Q t a t' :
  wp m Q t -> m t = Returns (a, t') -> Q a t'.
Proof. apply wp_returns. Qed.

Lemma tracked_begin t0 r t :
  good d t0 -> between t0 -> poll t0 = Returns (r, t) -> command_phase (state t) = false ->
  tracked d t0 [] [] t.
Proof.
  intros Hg Hbt Hrun Hph.
  destruct (wp_run_good _ _ _ _ _ (poll_good d Hd t0 Hg) Hrun) as [Hg' Hstep].
  pose proof Hg as [_ Hinv].
  destruct (command_begins_bot _ _ t0 r (view t) Hbt Hinv Hstep Hph)
    as (p & c & b1 & Hl & Hdec & Hw & Ho & Hs & Hstart%start_poll).
  assert (cbw_ok c) as Hc by (eapply decode_cbw_ok; [|exact Hdec]; unfold CBW_LEN in *; len_lia).
  pose proof (d_ps_range d Hd). pose proof (d_ps_fits d Hd). pose proof (d_cbw_fits d Hd).
  assert (phase (begin c b1) <> StatusTransfer) as Hnst by (cbn; by destruct (direction c)).
  assert (command_phase (phase (begin c b1)) = false) as Hcp by (cbn; by destruct (direction c)).
  assert (~ (phase (begin c b1) = StatusTransfer /\ queue (begin c b1) = [])) as Hnot
    by (by intros [? _]).
  destruct (bot_poll_frame _ _ _ _ _ Hcp Hnot Hstart) as [Hcmd Hstat].
  split; [done|..].
  - intros s Hst. rewrite Hstat in Hst. cbn in Hst. congruence.
  - exists p. split; [done|]. split; [by change (Bbb.cbw t) with (cmd (view t)); rewrite Hcmd|].
    eapply (poll_serves (d_ps d)); [lia|lia|done| |exact Hnot|exact Hstart].
    eapply (begin_serves (d_ps d)); done || lia.
Qed.

Lemma tracked_poll t0 acc del r t t' :
  tracked d t0 acc del t -> ~ between t -> poll t = Returns (r, t') -> tracked d t0 acc del t'.
Proof.
  intros Ht Hnb Hrun. pose proof Ht as [Hg Hs (p & _ & _ & Hserv)].
  destruct (wp_run_good _ _ _ _ _ (poll_good d Hd t Hg) Hrun) as [Hg' Hstep].
  pose proof (d_ps_range d Hd). pose proof (d_ps_fits d Hd). pose proof (d_cbw_fits d Hd).
  assert (~ (phase (view t) = StatusTransfer /\ queue (view t) = [])) as Hnot.
  { intros [? ?]. apply Hnb. by right. }
  assert (command_phase (phase (view t)) = false) as Hcp.
  { destruct Hserv as [_ Hin _ _]. unfold in_part in Hin. by destruct (phase (view t)). }
  destruct (bot_poll_frame _ _ _ _ _ Hcp Hnot Hstep) as [Hcmd Hstat].
  eapply tracked_update; [exact Ht|done|done|..].
  - unfold stat_ok in *. by rewrite Hcmd, Hstat.
  - intros base Hb. eapply (poll_serves (d_ps d)); [lia|lia|done|done|exact Hnot|exact Hstep].
Qed.

Lemma tracked_write t0 acc del src r t t' :
  tracked d t0 acc del t -> write_data src t = Returns (r, t') ->
  tracked d t0 (acc ++ accepted src r) del t'.
Proof.
  intros Ht Hrun. pose proof Ht as [Hg Hs _].
  pose proof (wp_run_good _ _ _ _ _ (write_data_good d src t Hg) Hrun) as Hg'.
  destruct (decide (state t = DataTransferToHost)) as [Hp|Hp].
  - destruct (wp_run_good _ _ _ _ _ (write_data_step d src t Hg Hp) Hrun) as (_ & -> & Hv).
    eapply tracked_update; [exact Ht|done|by rewrite Hv| |].
    + unfold stat_ok. rewrite Hv. exact Hs.
    + intros base Hb. rewrite Hv. unfold accepted. pose proof Hb as [Hinv _ _ _].
      unfold bot_inv in Hinv. change (phase (view t)) with (state t) in Hinv. rewrite Hp in Hinv.
      apply write_serves; [done|done|unfold bot_write_count; len_lia..].
  - rewrite write_data_invalid in Hrun by done. injection Hrun as <- <-.
    cbn. by rewrite app_nil_r.
Qed.

Lemma tracked_write_all t0 acc del src r t t' :
  tracked d t0 acc del t -> try_write_data_all src t = Returns (r, t') ->
  tracked d t0 (acc ++ match r with Ok _ => src | Err _ => [] end) del t'.
Proof.
  intros Ht Hrun. pose proof Ht as [Hg Hs _].
  pose proof (wp_run_good _ _ _ _ _ (try_write_data_all_good d src t Hg) Hrun) as Hg'.
  destruct (decide (state t = DataTransferToHost)) as [Hp|Hp].
  - destruct (wp_run_good _ _ _ _ _ (try_write_data_all_step d src t Hg Hp) Hrun) as (_ & Hr).
    destruct (_ <? len src) eqn:H1; [|destruct (d_capacity d - _ <? len src) eqn:H2].
    + destruct Hr as [-> Hv]. rewrite app_nil_r. by eapply tracked_same.
    + destruct Hr as [-> Hv]. rewrite app_nil_r. by eapply tracked_same.
    + destruct Hr as [-> Hv]. eapply tracked_update; [exact Ht|done|by rewrite Hv| |].
      * unfold stat_ok. rewrite Hv. exact Hs.
      * intros base Hb. rewrite Hv. apply write_serves; [done|done|len_lia..].
  - rewrite try_write_data_all_invalid in Hrun by done. injection Hrun as <- <-.
    by rewrite app_nil_r.
Qed.

Lemma tracked_read t0 acc del dst dst' r t t' :
  tracked d t0 acc del t -> read_data dst t = Returns ((dst', r), t') ->
  tracked d t0 acc (del ++ accepted dst' r) t'.
Proof.
  intros Ht Hrun. pose proof Ht as [Hg Hs _].
  pose proof (wp_run_good _ _ _ _ _ (read_data_good d dst t Hg) Hrun) as Hg'.
  destruct (out_phase (state t)) eqn:Hp.
  - destruct (wp_run_good _ _ _ _ _ (read_data_step d dst t (good_live d t Hg) Hp) Hrun)
      as (_ & -> & -> & Hv).
    eapply tracked_update; [exact Ht|done|by rewrite Hv| |].
    + unfold stat_ok. rewrite Hv. exact Hs.
    + intros base Hb. rewrite Hv. unfold accepted. pose proof (len_nonneg dst).
      pose proof (len_nonneg (queue (view t))).
      rewrite ztake_app_le, ztake_ztake, Z.min_id by len_lia.
      apply read_serves; [done|]. cbn. unfold out_phase in Hp.
      destruct (state t); auto; done.
  - rewrite read_data_invalid in Hrun by done. injection Hrun as <- <- <-.
    cbn. by rewrite app_nil_r.
Qed.

Lemma tracked_set_status t0 acc del s n t t' :
  tracked d t0 acc del t -> is_u32 n -> set_status s n t = Returns (tt, t') ->
  tracked d t0 acc del t'.
Proof.
  intros Ht Hn Hrun. pose proof Ht as [Hg Hs _].
  pose proof (set_status_good d s n t t' Hg Hrun) as Hg'.
  destruct (status_phase (state t)) eqn:Hp; [|by rewrite set_status_panics in Hrun].
  rewrite set_status_run in Hrun by done. injection Hrun as <-.
  eapply tracked_update; [exact Ht|done|done|..].
  - intros s' Hs'. injection Hs' as <-. cbn.
    assert (command_phase (state t) = false) as Hcp by (by destruct (state t)).
    destruct (good_cbw d t Hg Hcp) as [_ [? ?] _ _ _ _]. destruct Hn. unfold saturating_sub. lia.
  - intros base Hb. rewrite view_set_status. by apply set_status_serves.
Qed.

Lemma transfer_tracked t0 acc del t :
  good d t0 -> between t0 -> transfer t0 acc del t -> tracked d t0 acc del t.
Proof.
  intros Hg Hbt Htr. induction Htr as
    [r t Hr Hp|acc del t r t' Htr IH Hnb Hr|acc del t src r t' Htr IH Hr
    |acc del t src r t' Htr IH Hr|acc del t dst dst' r t' Htr IH Hr
    |acc del t s n t' Htr IH Hn Hr|acc del t req t' Htr IH Hreq Hr|acc del t b Htr IH Hb].
  - by eapply tracked_begin.
  - by eapply tracked_poll.
  - by eapply tracked_write.
  - by eapply tracked_write_all.
  - by eapply tracked_read.
  - by eapply tracked_set_status.
  - pose proof IH as [Hg' _ _].
    destruct (wp_run_good _ _ _ _ _ (control_in_step d req t (good_live d t Hg')) Hr) as [_ Hv].
    rewrite Hreq in Hv. eapply tracked_same; [done| |done].
    exact (wp_run_good _ _ _ _ _ (control_in_good d Hd req t Hg') Hr).
  - pose proof IH as [Hg' _ _]. pose proof Hg' as [[_ _ _ Hbus _ _] _].
    destruct (host_step_law _ _ _ _ Hb Hbus) as (_ & Hin & Hout).
    eapply tracked_same; [done|by eapply step_good; [| |apply step_host]|].
    unfold view. cbn. by rewrite Hin, Hout.
Qed.
End Transfer.

(** ** Transfers by computation *)

Section Replay.
Context `{!UsbStack, !UsbStackLaws}.

Definition between_b (t : BulkOnly) : bool :=
  match state t with
  | CommandTransfer => true
  | StatusTransfer => match contents (buf t) with [] => true | _ => false end
  | _ => false
  end.

Lemma between_b_spec t : between_b t = true <-> between t.
Proof.
  unfold between_b, between. destruct (state t); try (split; [done|]; intuition congruence).
  - split; [auto|done].
  - destruct (contents (buf t)); (split; [|intuition congruence]); intros; [by right|done].
Qed.

(** One call in the course of a command: the accepted and delivered bytes. *)
Definition replay_call (c : call) (p : list byte * list byte * BulkOnly)
    : option (list byte * list byte * BulkOnly) :=
  let '(acc, del, t) := p in
  match c with
  | CPoll =>
    if between_b t then None
    else match poll t with Returns (_, t') => Some (acc, del, t') | _ => None end
  | CWriteData src =>
    match write_data src t with Returns (r, t') => Some (acc ++ accepted src r, del, t') | _ => None end
  | CTryWriteDataAll src =>
    match try_write_data_all src t with
    | Returns (r, t') => Some (acc ++ match r with Ok _ => src | Err _ => [] end, del, t')
    | _ => None
    end
  | CReadData dst =>
    match read_data dst t with
    | Returns ((dst', r), t') => Some (acc, del ++ accepted dst' r, t')
    | _ => None
    end
  | CSetStatus s n =>
    if bool_decide (is_u32 n) then
      match set_status s n t with Returns (_, t') => Some (acc, del, t') | _ => None end
    else None
  | CReset | CControlIn _ => None
  end.

Fixpoint replay (l : list call) (p : list byte * list byte * BulkOnly)
    : option (list byte * list byte * BulkOnly) :=
  match l with
  | [] => Some p
  | c :: l => match replay_call c p with Some p => replay l p | None => None end
  end.

Lemma replay_call_transfer t0 c acc del t acc' del' t' :
  transfer t0 acc del t -> replay_call c (acc, del, t) = Some (acc', del', t') ->
  transfer t0 acc' del' t'.
Proof.
  intros Ht. destruct c as [| | |src|src|dst|s n]; cbn [replay_call]; try done.
  - destruct (between_b t) eqn:Hb; [done|]. destruct (poll t) as [[r t1]| |] eqn:Hr; [|done..].
    intros Heq. injection Heq as <- <- <-. eapply tr_poll; [done| |done].
    rewrite <- between_b_spec. congruence.
  - destruct (write_data src t) as [[r t1]| |] eqn:Hr; [|done..].
    intros Heq. injection Heq as <- <- <-. by eapply tr_write.
  - destruct (try_write_data_all src t) as [[r t1]| |] eqn:Hr; [|done..].
    intros Heq. injection Heq as <- <- <-. by eapply tr_write_all.
  - destruct (read_data dst t) as [[[dst' r] t1]| |] eqn:Hr; [|done..].
    intros Heq. injection Heq as <- <- <-. by eapply tr_read.
  - case_bool_decide as Hn; [|done]. destruct (set_status s n t) as [[[] t1]| |] eqn:Hr; [|done..].
    intros Heq. injection Heq as <- <- <-. by eapply tr_set_status.
Qed.

Lemma replay_transfer t0 l acc del t acc' del' t' :
  transfer t0 acc del t -> replay l (acc, del, t) = Some (acc', del', t') ->
  transfer t0 acc' del' t'.
Proof.
  revert acc del t. induction l as [|c l IH]; intros acc del t Ht; cbn [replay].
  - intros Heq. by injection Heq as <- <- <-.
  - destruct (replay_call c (acc, del, t)) as [[[acc1 del1] t1]|] eqn:Hc; [|done].
    apply IH. by eapply replay_call_transfer.
Qed.

(** The command that begins in the first [poll] after [t0], driven by [l]. *)
Definition serve (t0 : BulkOnly) (l : list call) : option (list byte * list byte * BulkOnly) :=
  match poll t0 with
  | Returns (_, t) => if command_phase (state t) then None else replay l ([], [], t)
  | _ => None
  end.
Lemma serve_transfer t0 l acc del t : serve t0 l = Some (acc, del, t) -> transfer t0 acc del t.
Proof.
  unfold serve. destruct (poll t0) as [[r t1]| |] eqn:Hr; [|done..].
  destruct (command_phase (state t1)) eqn:Hp; [done|].
  apply replay_transfer. by eapply tr_begin.
Qed.
End Replay.

(** ** Theorems *)

(** C6: Once all of its status wrapper is out, a command has put on the wire
    exactly: the bytes that the subclass wrote, in order, for an IN command filled up
    with 0xFF to the length the host asked for and not exceeding it, no data
    otherwise; then the 13 bytes of the status wrapper with the command's tag, the
    status that was set and a residue of at most the transfer length. An OUT command
    has taken at least the announced number of bytes, of which the subclass was
    given a prefix; other commands have taken none. *)
Theorem command_streams `{!UsbStack, !UsbStackLaws} (t0 t : BulkOnly) (acc del : list byte) :
  reachable t0 -> between t0 -> transfer t0 acc del t ->
  state t = StatusTransfer -> contents (buf t) = [] ->
  let c := Bbb.cbw t in
  exists s p rest, cs t = Some s /\ 0 <= data_residue s <= data_transfer_len c /\
    in_log (bus t) = in_log (bus t0) ++ payload c acc ++ csw_bytes c s /\
    len acc <= wanted c /\ len (payload c acc) = wanted c /\
    out_log (bus t) = out_log (bus t0) ++ p ++ del ++ rest /\
    (direction c = DataOut -> data_transfer_len c <= len (del ++ rest)) /\
    (direction c <> DataOut -> del = [] /\ rest = []).
Proof.
  intros (d & Hd & Hg)%reachable_good Hbt Htr Hp Hq c.
  destruct (transfer_tracked d Hd t0 acc del t Hg Hbt Htr) as [_ Hst (p & _ & _ & [_ Hin Hout _])].
  unfold in_part, out_part in Hin, Hout. cbn in Hin, Hout. rewrite Hp in Hin, Hout.
  destruct Hin as (s & part & Hs & Hw & Hpart & Hok), Hout as (rest & Ho & Hge & Hno).
  rewrite Hq, app_nil_r in Hpart. subst part.
  exists s, p, rest. split; [done|]. split; [by apply Hst|]. split; [done|].
  split; [exact Hok|]. split; [exact (len_payload c acc Hok)|]. by rewrite Ho, <- app_assoc.
Qed.

(** The wrapper of a 32-byte IN command but for its last packet, then the whole
    command: 24 bytes written, the status, and polls until the wrapper is out. *)
Definition in_before : MockBbb := at_ (history 8 (cbw 32 HostIn) [CPoll; CPoll; CPoll]).
Local Abbreviation in_served := (serve in_before
  ([CWriteData (zreplicate 16 (byte_of 0xAA)); CPoll; CPoll; CPoll;
    CWriteData (zreplicate 8 (byte_of 0xBB)); CSetStatus Passed 24] ++ replicate 4 CPoll)).
Lemma in_before_reachable : reachable in_before.
Proof. apply at_reachable; [lia|by vm_compute]. Qed.

Lemma command_streams_witness :
  match in_served with
  | Some (acc, _, t) => exists s, cs t = Some s /\
      in_log (bus t) = in_log (bus in_before) ++ payload (Bbb.cbw t) acc ++ csw_bytes (Bbb.cbw t) s
  | None => False
  end.
Proof.
  assert (match in_served with
    | Some (_, _, t) => bool_decide (state t = StatusTransfer) && bool_decide (contents (buf t) = [])
    | None => false end = true) as Hend by (by vm_compute).
  destruct in_served as [[[acc del] t]|] eqn:Hserve; [|done]. apply andb_prop in Hend as [Hp%bool_decide_eq_true Hq%bool_decide_eq_true].
  assert (between in_before) as Hbt by (left; by vm_compute).
  destruct (command_streams in_before t acc del in_before_reachable Hbt
    (serve_transfer _ _ _ _ _ Hserve) Hp Hq) as (s & p & rest & Hs & _ & Hin & _).
  exists s. split; [exact Hs|exact Hin].
Defined.

(** C7: While the data of an IN command is on its way, the wire has a prefix of what
    the subclass wrote (followed by filler once the status is set), the rest is
    queued in order, nothing is lost or repeated, and the count of what is left is
    the transfer length less what was sent. *)
Theorem in_data_in_order `{!UsbStack, !UsbStackLaws} (t0 t : BulkOnly) (acc del : list byte) :
  reachable t0 -> between t0 -> transfer t0 acc del t ->
  state t = DataTransferToHost \/ state t = DataTransferToHostEnding ->
  exists sent k, 0 <= k /\ (state t = DataTransferToHost -> k = 0) /\
    in_log (bus t) = in_log (bus t0) ++ sent /\
    sent ++ contents (buf t) = acc ++ zreplicate k FILL_BYTE /\
    left_to_transfer t = data_transfer_len (Bbb.cbw t) - len sent /\
    len (sent ++ contents (buf t)) <= data_transfer_len (Bbb.cbw t).
Proof.
  intros (d & Hd & Hg)%reachable_good Hbt Htr Hp.
  destruct (transfer_tracked d Hd t0 acc del t Hg Hbt Htr) as [_ _ (p & _ & _ & [Hinv Hin _ _])].
  unfold bot_inv, in_part in Hinv, Hin. cbn in Hinv, Hin. destruct Hp as [Hp|Hp]; rewrite Hp in *.
  - destruct Hin as (_ & sent & Hw & -> & Hlen), Hinv as (_ & _ & _ & Hq).
    exists sent, 0. unfold zreplicate at 1. cbn. rewrite app_nil_r.
    do 4 (split; [done|]). split; [lia|len_lia].
  - destruct Hin as (_ & sent & k & Hw & Hk & Hacc & Hlen), Hinv as (_ & _ & _ & Hq & _).
    exists sent, k. do 4 (split; [done|]). split; [lia|len_lia].
Qed.

Local Abbreviation in_midway := (serve in_before
  [CWriteData (zreplicate 16 (byte_of 0xAA)); CPoll]).

Lemma in_data_in_order_witness :
  match in_midway with
  | Some (acc, _, t) => exists sent k, in_log (bus t) = in_log (bus in_before) ++ sent /\
      sent ++ contents (buf t) = acc ++ zreplicate k FILL_BYTE
  | None => False
  end.
Proof.
  assert (match in_midway with
    | Some (_, _, t) => bool_decide (state t = DataTransferToHost) | None => false end = true)
    as Hend by (by vm_compute).
  destruct in_midway as [[[acc del] t]|] eqn:Hserve; [|done]. apply bool_decide_eq_true in Hend.
  assert (between in_before) as Hbt by (left; by vm_compute).
  destruct (in_data_in_order in_before t acc del in_before_reachable Hbt
    (serve_transfer _ _ _ _ _ Hserve) (or_introl Hend)) as (sent & k & _ & _ & Hw & Hacc & _).
  exists sent, k. split; [exact Hw|exact Hacc].
Defined.

(** C8: While the data of an OUT command arrives, what the subclass was given and
    what is queued for it are together, in order, all that the host has sent since
    the wrapper; the count of what is left is the announced length less that. *)
Theorem out_data_in_order `{!UsbStack, !UsbStackLaws} (t0 t : BulkOnly) (acc del : list byte) :
  reachable t0 -> between t0 -> transfer t0 acc del t -> out_phase (state t) = true ->
  exists p, CBW_LEN <= len (pending t0 ++ p) /\
    out_log (bus t) = out_log (bus t0) ++ p ++ del ++ contents (buf t) /\
    left_to_transfer t =
      saturating_sub (data_transfer_len (Bbb.cbw t)) (len (del ++ contents (buf t))) /\
    in_log (bus t) = in_log (bus t0).
Proof.
  intros (d & Hd & Hg)%reachable_good Hbt Htr Hp.
  destruct (transfer_tracked d Hd t0 acc del t Hg Hbt Htr) as [_ _ (p & Hl & _ & [_ Hin Hout _])].
  unfold in_part, out_part in Hin, Hout. cbn in Hin, Hout.
  exists p. destruct (state t); try done; destruct Hin as (_ & Hw & _), Hout as (Ho & Hleft);
    by rewrite Ho, <- app_assoc.
Qed.

(** A 20-byte OUT command in packets of 16, of which 10 bytes are read at first. *)
Definition out_before : MockBbb :=
  at_ (history 16 (cbw 20 HostOut ++ [x00] ++ zreplicate 20 (byte_of 0xAA)) [CPoll]).
Local Abbreviation out_midway :=
  (serve out_before [CPoll; CReadData (zreplicate 10 x00); CPoll]).
Lemma out_before_reachable : reachable out_before.
Proof. apply at_reachable; [lia|by vm_compute]. Qed.

Lemma out_data_in_order_witness :
  match out_midway with
  | Some (_, del, t) => exists p,
      out_log (bus t) = out_log (bus out_before) ++ p ++ del ++ contents (buf t)
  | None => False
  end.
Proof.
  assert (match out_midway with
    | Some (_, _, t) => out_phase (state t) | None => false end = true) as Hend by (by vm_compute).
  destruct out_midway as [[[acc del] t]|] eqn:Hserve; [|done]. assert (between out_before) as Hbt by (left; by vm_compute).
  destruct (out_data_in_order out_before t acc del out_before_reachable Hbt
    (serve_transfer _ _ _ _ _ Hserve) Hend) as (p & _ & Hw & _).
  exists p. exact Hw.
Defined.

(** C10: The command that the subclass is shown is the one the host sent: the first
    31 bytes after the previous command decode to it, and [get_command] returns its
    LUN and the declared number of bytes of its block, between 1 and 16. *)
Theorem command_is_from_wire `{!UsbStack, !UsbStackLaws} (t0 t : BulkOnly) (acc del : list byte) :
  reachable t0 -> between t0 -> transfer t0 acc del t ->
  exists p c rest, out_log (bus t) = out_log (bus t0) ++ p ++ rest /\
    decode_cbw (ztake CBW_LEN (pending t0 ++ p)) = Some c /\ 1 <= block_len c <= 16 /\
    get_command t = Returns (Some (mkCommandBlock (ztake (block_len c) (block c)) (lun c))).
Proof.
  intros (d & Hd & Hg)%reachable_good Hbt Htr.
  destruct (transfer_tracked d Hd t0 acc del t Hg Hbt Htr) as [Hg' _ (p & Hl & Hdec & [Hinv Hin Hout _])].
  assert (exists rest, out_log (bus t) = out_log (bus t0) ++ p ++ rest) as (rest & Hrest).
  { unfold out_part in Hout. cbn in Hout.
    destruct (state t); repeat match goal with
      | Hex : exists _, _ |- _ => destruct Hex as (? & Hex)
      | Hand : _ /\ _ |- _ => destruct Hand as [? Hand]
      end; (eexists; rewrite app_assoc; first [eassumption | rewrite app_nil_r; eassumption]). }
  exists p, (Bbb.cbw t), rest. split; [done|]. split; [done|].
  assert (command_phase (state t) = false) as Hp.
  { unfold in_part in Hin. cbn in Hin. by destruct (state t). }
  split; [by apply (good_cbw d)|]. rewrite (get_command_run d) by done. by rewrite Hp.
Qed.

Lemma command_is_from_wire_witness :
  match in_midway with
  | Some (_, _, t) => exists c, get_command t =
      Returns (Some (mkCommandBlock (ztake (block_len c) (block c)) (lun c)))
  | None => False
  end.
Proof.
  assert (match in_midway with Some _ => true | None => false end = true) as Hend by (by vm_compute).
  destruct in_midway as [[[acc del] t]|] eqn:Hserve; [|done].
  assert (between in_before) as Hbt by (left; by vm_compute).
  destruct (command_is_from_wire in_before t acc del in_before_reachable Hbt
    (serve_transfer _ _ _ _ _ Hserve)) as (p & c & rest & _ & _ & _ & Hget).
  exists c. exact Hget.
Defined.

Lemma serves_in_log `{!UsbStack} ps cap b0 base acc del b :
  serves ps cap b0 base acc del b ->
  len (wire_in b) <= len (wire_in b0) + wanted (cmd b) + CSW_LEN /\
  within (cmd b) acc.
Proof.
  intros [Hinv Hin _ _]. assert (0 <= CSW_LEN) by (by vm_compute).
  unfold bot_inv, in_part in *.
  destruct (phase b); try done;
    try (destruct Hin as (_ & -> & Hw%complete_within); split; [rewrite len_app, len_payload by done; lia|done]);
    try (destruct Hin as (Hd & -> & ->); unfold within; rewrite wanted_not_in by congruence; split; [lia|done]).
  - destruct Hin as (s & part & _ & -> & Hq & Hw). split; [|done]. apply (f_equal len) in Hq.
    rewrite !len_app, len_payload by done. rewrite len_app, len_csw_bytes in Hq. len_lia.
  - destruct Hin as [Hd (sent & -> & -> & Hl)], Hinv as (_ & _ & ? & ?). unfold within.
    rewrite wanted_in by done. len_lia.
  - destruct Hin as [Hd (sent & k & -> & ? & Hacc & Hl)], Hinv as (_ & _ & ? & Hq & _).
    apply (f_equal len) in Hacc. unfold within. rewrite wanted_in by done. len_lia.
Qed.

(** Those of an OUT command. *)
Lemma serves_out_log `{!UsbStack} ps cap b0 base acc del b :
  serves ps cap b0 base acc del b ->
  exists rest, wire_out b = base ++ rest /\
    (direction (cmd b) = DataOut -> len rest < data_transfer_len (cmd b) + ps) /\
    (direction (cmd b) <> DataOut -> rest = []).
Proof.
  intros [_ Hin Hout Htk].
  assert (exists rest, wire_out b = base ++ rest /\ (direction (cmd b) <> DataOut -> rest = []))
    as (rest & Hw & Hno).
  { unfold in_part, out_part in *. destruct (phase b); try done;
      repeat match goal with
      | Hex : exists _, _ |- _ => destruct Hex as (? & Hex)
      | Hand : _ /\ _ |- _ => destruct Hand as [? Hand]
      end; subst; try (eexists; split; [eassumption|done]);
      try (exists []; rewrite app_nil_r; done).
    eexists. split; [eassumption|]. intros Hd.
    match goal with Hno : direction _ <> DataOut -> _ |- _ => by destruct (Hno Hd) as [-> ->] end. }
  exists rest. split; [done|]. split; [|done]. intros Hd. specialize (Htk Hd). rewrite Hw in Htk. len_lia.
Qed.

(** The bytes given to the subclass are among them. *)
Lemma serves_del_log `{!UsbStack} ps cap b0 base acc del b :
  serves ps cap b0 base acc del b -> del = [] \/ exists rest, wire_out b = base ++ del ++ rest.
Proof.
  intros [_ Hin Hout _]. unfold in_part, out_part in *. destruct (phase b); try done; try (by left; destruct Hout);
    right; destruct_and?; eauto; destruct Hout as (rest & ? & _); eauto.
Qed.
Lemma serves_delivered `{!UsbStack} ps cap b0 base acc del b :
  0 < ps -> serves ps cap b0 base acc del b -> direction (cmd b) = DataOut ->
  len del < data_transfer_len (cmd b) + ps.
Proof.
  intros Hps Hs Hd. pose proof (serves_del_log _ _ _ _ _ _ _ Hs) as Hlog.
  destruct Hs as [Hinv Hin _ Htk]. specialize (Htk Hd). destruct Hlog as [->|(rest & Hw)].
  - unfold bot_inv, in_part in *. rewrite len_nil.
    destruct (phase b); try done; destruct Hinv as (_ & [_ [? ?] _ _ _ _] & _); lia.
  - rewrite Hw in Htk. len_lia.
Qed.

(** What was delivered is at the front of what came after the wrapper. *)
Lemma serves_del_front `{!UsbStack} ps cap b0 base acc del b rest :
  serves ps cap b0 base acc del b -> wire_out b = base ++ rest -> exists rest', rest = del ++ rest'.
Proof.
  intros [->|(rest' & Hw)]%serves_del_log Hr; [by exists rest|]. exists rest'.
  rewrite Hr in Hw. by apply app_inv_head in Hw.
Qed.

(** C9: How much a command can move, at every moment of it. To the host, not more than was
    announced: the wire has at most what the host [wanted] (the transfer length of an IN
    command, nothing for another one) and the 13 bytes of the status wrapper more than before
    the command, and the subclass has written at most what was [wanted]. From the host, not
    more than was announced but for the rest of the last packet: a poll takes a packet
    only in an OUT command of which less than the transfer length has come, so what has come
    after the packet [p] that completes the wrapper, [rest], is less than a packet longer
    than the transfer length; of a command that is not an OUT command it is nothing. The
    bytes that the subclass was given, [del], are the first ones of it. *)
Theorem transfer_bounded `{!UsbStack, !UsbStackLaws} (t0 t : BulkOnly) (acc del : list byte) :
  reachable t0 -> between t0 -> transfer t0 acc del t ->
  let c := Bbb.cbw t in
  let packet := max_packet_size (out_ep t) in
  len (in_log (bus t)) <= len (in_log (bus t0)) + wanted c + CSW_LEN /\ len acc <= wanted c /\
  exists p rest, out_log (bus t) = out_log (bus t0) ++ p ++ rest /\
    decode_cbw (ztake CBW_LEN (pending t0 ++ p)) = Some c /\
    (direction c = DataOut -> len rest < data_transfer_len c + packet) /\
    (direction c <> DataOut -> rest = []) /\
    (exists rest', rest = del ++ rest') /\
    (forall r t', ~ between t -> Bbb.poll t = Returns (r, t') ->
       out_log (bus t') = out_log (bus t) \/
       direction c = DataOut /\ len rest < data_transfer_len c /\
       exists x, len x <= packet /\ out_log (bus t') = out_log (bus t) ++ x).
Proof.
  intros (d & Hd & Hg)%reachable_good Hbt Htr c packet.
  destruct (transfer_tracked d Hd t0 acc del t Hg Hbt Htr) as [Hg' _ (p & _ & Hdec & Hserv)].
  destruct (serves_in_log _ _ _ _ _ _ _ Hserv) as [Hin Hw].
  destruct (serves_out_log _ _ _ _ _ _ _ Hserv) as (rest & Ho & Hlt & Hno).
  assert (packet = d_ps d) as -> by (unfold packet; by rewrite (live_out d t (good_live d t Hg')), (d_same_ps d Hd)).
  split; [exact Hin|]. split; [exact Hw|]. exists p, rest.
  split; [by rewrite app_assoc|]. split; [done|]. split; [exact Hlt|]. split; [exact Hno|].
  split; [by eapply serves_del_front|]. intros r t' Hnb Hrun.
  destruct (wp_returns _ _ _ _ _ (poll_good d Hd t Hg') Hrun) as [_ Hstep].
  assert (~ (phase (view t) = StatusTransfer /\ queue (view t) = [])) as Hnot.
  { intros [? ?]. apply Hnb. by right. }
  destruct (poll_takes _ _ _ _ _ _ _ _ _ Hserv Hnot Hstep) as [_ [Hsame|(Hdir & Hl & Hx)]]; [by left|right].
  split; [done|]. split; [|done]. rewrite Ho, len_app in Hl. unfold c.
  change (cmd (view t)) with (Bbb.cbw t) in Hl. lia.
Qed.

(** The OUT command after its first two packets. *)
Lemma transfer_bounded_witness :
  match out_midway with
  | Some (_, _, t) => exists p rest, out_log (bus t) = out_log (bus out_before) ++ p ++ rest /\
      len rest < 20 + 16
  | None => False
  end.
Proof.
  assert (match out_midway with
    | Some (_, del, t) => (match direction (Bbb.cbw t) with DataOut => true | _ => false end) &&
        (data_transfer_len (Bbb.cbw t) =? 20) && (max_packet_size (out_ep t) =? 16)
    | None => false end = true) as Hend by (by vm_compute).
  destruct out_midway as [[[acc del] t]|] eqn:Hserve; [|done].
  apply andb_prop in Hend as [[Hdir Hlen%Z.eqb_eq]%andb_prop Hps%Z.eqb_eq].
  assert (between out_before) as Hbt by (left; by vm_compute).
  destruct (transfer_bounded out_before t acc del out_before_reachable Hbt
    (serve_transfer _ _ _ _ _ Hserve)) as (_ & _ & p & rest & Ho & _ & Hlt & _).
  cbv zeta in Hlt. rewrite Hlen, Hps in Hlt. exists p, rest. split; [exact Ho|]. apply Hlt.
  by destruct (direction (Bbb.cbw t)).
Defined.

(** The rest of the last packet is given to the subclass as well: 32 bytes of a 20-byte
    OUT command, whose host fills its second packet of 16. *)
Lemma transfer_takes_surplus :
  match serve (at_ (history 16 (cbw 20 HostOut ++ [x00] ++ zreplicate 32 (byte_of 0xAA)) [CPoll]))
    [CPoll; CPoll; CReadData (zreplicate 40 x00)] with
  | Some (_, del, t) => (data_transfer_len (Bbb.cbw t) =? 20) && bool_decide (del = zreplicate 32 (byte_of 0xAA))
  | None => false
  end = true.
Proof. by vm_compute. Qed.
