(* ===== verification/BotLive.v ===== *)
(** * Progress of a command whose status is set

    [todo b] is what is left to move before the status wrapper is out. Once a
    status is set, no [poll] fails but for an error of the bus, none makes [todo]
    larger, and each that moves a byte makes it smaller: the device never waits for
    the subclass again, and a host that keeps moving data gets the wrapper after at
    most [todo] packets.
    [offers b]: a [poll] can move a byte. While no status is set, a byte that moves makes
    [left] smaller. *)
From S2P Require Import Prelude.
From S2P Require Import Usb.
From S2P Require Import Transport.
From S2P Require Import Bbb.
From S2P Require Import BotSpec.

Local Open Scope Z_scope.

Section Live.
Context `{!UsbStack} (ps cap : Z).
Hypothesis Hps : 0 < ps.
Hypothesis Hps_cap : ps <= cap.

Definition todo (b : Bot) : Z :=
  match phase b with
  | StatusTransfer => len (queue b)
  | _ => left b + CSW_LEN
  end.

(** Nothing went over the wire. *)
Definition still (b b' : Bot) : Prop := wire_in b' = wire_in b /\ wire_out b' = wire_out b.

(** What a step makes of [todo], and how it can fail. *)
Definition progress (b : Bot) (r : BResult unit) (b' : Bot) : Prop :=
  todo b' <= todo b /\ (~ still b b' -> todo b' < todo b) /\
  (r = Ok tt \/ exists e, r = Err (Usb e)).

(** What a packet in either direction does, by its result. *)
Lemma send_ok_inv b n b' : send ps b (Ok n) b' -> 0 <= n <= len (queue b) /\ b' = emit n b.
Proof.
  intros Hs. inversion Hs as [Hq Hn Hb|n' Hq Hn|]; subst; [|split; [lia|done]].
  rename b' into b. split; [len_lia|]. destruct b. cbn in Hq. subst. unfold emit. cbn.
  by rewrite ztake_le0, app_nil_r.
Qed.
Lemma send_err_inv b e b' : send ps b (Err e) b' -> b' = b /\ exists u, e = Usb u.
Proof. intros Hs. inversion Hs; subst. eauto. Qed.
Lemma recv_ok_inv b n b' : recv ps cap b (Ok n) b' -> exists p, n = len p /\ b' = absorb p b.
Proof. intros Hs. inversion Hs; subst. eauto. Qed.
Lemma recv_err_inv b e b' :
  len (queue b) + ps <= cap -> recv ps cap b (Err e) b' -> b' = b /\ exists u, e = Usb u.
Proof. intros ? Hs. inversion Hs; subst; [lia|eauto]. Qed.

Lemma csw_step_progress b r b' :
  phase b = StatusTransfer -> csw_step ps b r b' -> progress b r b'.
Proof.
  unfold progress, todo, still. intros Hp Hs. rewrite Hp.
  destruct Hs as [n b1 [Hn ->]%send_ok_inv|e b1 [-> [u ->]]%send_err_inv]; cbn; rewrite Hp.
  - split; [len_lia|]. split; [|by left]. intros Hmv.
    destruct (decide (n = 0)) as [->|]; [|len_lia].
    destruct Hmv. by rewrite ztake_le0, app_nil_r by lia.
  - split; [done|]. split; [by intros []|by right; eexists].
Qed.

Lemma enter_csw_progress b s r b' :
  phase b <> StatusTransfer -> left b = 0 -> csw_step ps (enter_csw s b) r b' -> progress b r b'.
Proof.
  intros Hp Hl Hs. apply csw_step_progress in Hs as (Hle & Hlt & Hr); [|done].
  unfold progress, todo in *. cbn in Hle, Hlt. rewrite len_csw_bytes in Hle, Hlt.
  replace (match phase b with StatusTransfer => len (queue b) | _ => left b + CSW_LEN end)
    with CSW_LEN by (destruct (phase b); done || lia).
  done.
Qed.

Lemma await_progress b s r b' :
  phase b <> StatusTransfer -> left b = 0 -> stat b = Some s -> await ps b r b' -> progress b r b'.
Proof.
  intros Hp Hl Hs [Hn|s' r' b1 Hs' Hstep]; [congruence|]. by eapply enter_csw_progress.
Qed.

(** A transfer of the data phase that moves at most one packet. *)
Lemma moving_send_progress b r b' :
  phase b <> StatusTransfer -> 0 < left b -> moving (send ps) b r b' -> progress b r b'.
Proof.
  intros Hp Hl Hm.
  destruct Hm as [n b1 [Hn ->]%send_ok_inv|e b1 [-> [u ->]]%send_err_inv];
    unfold progress, todo, still; cbn; destruct (phase b); try done.
  all: unfold saturating_sub; split; [lia|]; split; [|first [by left | by right; eexists]].
  all: try (by intros []).
  all: intros Hmv; destruct (decide (n = 0)) as [->|]; [|lia].
  all: destruct Hmv; rewrite ztake_le0, app_nil_r by lia; done.
Qed.
Lemma moving_recv_progress b r b' :
  phase b <> StatusTransfer -> 0 < left b -> len (queue b) + ps <= cap ->
  moving (recv ps cap) b r b' -> progress b r b'.
Proof.
  intros Hp Hl Hroom Hm.
  destruct Hm as [n b1 (p & -> & ->)%recv_ok_inv|e b1 [-> [u ->]]%recv_err_inv]; [| |done];
    unfold progress, todo, still; cbn; destruct (phase b); try done.
  all: unfold saturating_sub; split; [len_lia|]; split; [|first [by left | by right; eexists]].
  all: try (by intros []).
  all: intros Hmv; destruct (decide (len p = 0)) as [Hz|]; [|len_lia].
  all: apply len_zero_inv in Hz as ->; destruct Hmv; by rewrite app_nil_r.
Qed.

Lemma in_ending_progress b r b' :
  phase b = DataTransferToHostEnding -> 0 <= left b -> in_ending ps b r b' -> progress b r b'.
Proof.
  intros Hp Hl [s r' b1 Hz Hs Hstep|r' b1 Hz Hm].
  - eapply enter_csw_progress; [congruence|done|exact Hstep].
  - apply moving_send_progress in Hm; [|cbn; congruence|cbn; lia].
    unfold progress, todo, still in *. cbn in Hm. by rewrite Hp in *.
Qed.
Lemma out_ending_progress b r b' :
  phase b = DataTransferFromHostEnding -> 0 <= left b -> out_ending ps cap b r b' ->
  progress b r b'.
Proof.
  intros Hp Hl [s r' b1 Hz Hs Hstep|r' b1 Hz Hm].
  - eapply enter_csw_progress; [congruence|done|exact Hstep].
  - apply moving_recv_progress in Hm; [|cbn; congruence|cbn; lia|cbn; len_lia].
    unfold progress, todo, still in *. cbn in Hm. by rewrite Hp in *.
Qed.

(** Every [poll] of a command with a status. *)
Lemma bot_poll_progress b s r b' :
  bot_inv cap b -> stat b = Some s -> ~ (phase b = StatusTransfer /\ queue b = []) ->
  bot_poll ps cap b r b' -> progress b r b'.
Proof.
  intros Hinv Hs Hnot Hstep. unfold bot_inv in Hinv.
  assert (forall p b, phase b <> StatusTransfer -> p <> StatusTransfer ->
    progress (with_phase p b) r b' -> progress b r b') as Hphase.
  { intros p b2 Hp Hp2. unfold progress, todo, still. cbn. by destruct (phase b2), p. }
  destruct Hstep as [r' b1 Hp Hc|Hp|r' b1 Hp Hc|r' b1 Hp Hc|r' b1 Hp Hc|r' b1 Hp Hc|r' b1 Hp Hc
    |r' b1 Hp Hc|r' b1 Hp Hq Hc|r' b1 Hp Hq Hc]; try rewrite Hp in Hinv.
  - destruct Hinv; congruence.
  - destruct Hinv; congruence.
  - destruct Hinv as (_ & _ & _ & Hl & _).
    eapply (Hphase DataTransferStatusAwait), await_progress, Hc; cbn; congruence || done.
  - destruct Hinv as (_ & _ & Hl & _).
    destruct Hc as [r' b1 Hz Ha|s' r' b1 Hz Hs' He|r' b1 Hz Hs' Hor Hm|Hs' Hl' Hq]; try congruence.
    + eapply (Hphase DataTransferStatusAwait), await_progress, Ha; cbn; congruence || done.
    + eapply (Hphase DataTransferToHostEnding), in_ending_progress, He; cbn; congruence || lia.
  - destruct Hinv as (_ & _ & Hl & _). apply in_ending_progress; [done|lia|done].
  - destruct Hinv as (_ & _ & Hl & _).
    destruct Hc as [r' b1 Hz Ha|s' r' b1 Hz Hs' He|r' b1 Hz Hs' Hm]; try congruence.
    + eapply (Hphase DataTransferFromHostStatusAwait), await_progress, Ha; cbn; congruence || done.
    + eapply (Hphase DataTransferFromHostEnding), out_ending_progress, He; cbn; congruence || lia.
  - destruct Hinv as (_ & _ & Hl & _). apply out_ending_progress; [done|lia|done].
  - eapply await_progress, Hc; [|destruct Hp as [Hp|Hp]; rewrite Hp in Hinv; tauto|done].
    destruct Hp as [Hp|Hp]; congruence.
  - by apply csw_step_progress.
  - by destruct Hnot.
Qed.

(** ** Before the status is set *)

(** Whether the next [poll] can move a byte: it has a packet for the host, or room for one
    from the host. *)
Definition offers (b : Bot) : bool :=
  match phase b, stat b with
  | DataTransferToHost, None =>
    negb (left b =? 0) && ((left b <? ps) || (ps <=? len (queue b))) && (0 <? len (queue b))
  | DataTransferFromHost, None => negb (left b =? 0) && (ps <=? cap - len (queue b))
  | (DataTransferToHost | DataTransferFromHost | DataTransferNoData | DataTransferStatusAwait
    | DataTransferFromHostStatusAwait | DataTransferToHostEnding | DataTransferFromHostEnding), Some _ => true
  | StatusTransfer, _ => negb (len (queue b) =? 0)
  | CommandTransfer, _ => ps <=? cap - len (queue b)
  | _, _ => false
  end.

(** A data phase without a status: what a [poll] leaves of [left]. *)
Definition moves_left (b b' : Bot) : Prop :=
  left b' <= left b /\ (~ still b b' -> left b' < left b).

Lemma moves_left_refl b p : moves_left b (with_phase p b).
Proof. split; [cbn; lia|]. by intros []. Qed.

Lemma moving_send_left b r b' : 0 < left b -> moving (send ps) b r b' -> moves_left b b'.
Proof.
  intros Hl Hm. destruct Hm as [n b1 [Hn ->]%send_ok_inv|e b1 [-> _]%send_err_inv].
  - unfold moves_left, still. cbn. unfold saturating_sub. split; [lia|]. intros Hmv.
    destruct (decide (n = 0)) as [->|]; [|lia]. destruct Hmv. by rewrite ztake_le0, app_nil_r by lia.
  - split; [lia|]. by intros [].
Qed.
Lemma moving_recv_left b r b' : 0 < left b -> moving (recv ps cap) b r b' -> moves_left b b'.
Proof.
  intros Hl Hm. destruct Hm as [n b1 (p & -> & ->)%recv_ok_inv|e b1 Hr].
  - unfold moves_left, still. cbn. unfold saturating_sub. split; [len_lia|]. intros Hmv.
    destruct (decide (len p = 0)) as [Hz%len_zero_inv|]; [|len_lia]. subst. destruct Hmv. by rewrite app_nil_r.
  - assert (b1 = b) as -> by (by inversion Hr). split; [lia|]. by intros [].
Qed.

Lemma await_left b p r b' : stat b = None -> await ps (with_phase p b) r b' -> moves_left b b'.
Proof. intros Hs Ha. destruct Ha as [|s r' b1 Hs' _]; [apply moves_left_refl|]. cbn in Hs'. congruence. Qed.

Lemma bot_poll_left b r b' :
  bot_inv cap b -> stat b = None -> status_phase (phase b) = true -> bot_poll ps cap b r b' ->
  moves_left b b'.
Proof.
  intros Hinv Hs Hph Hstep. unfold bot_inv in Hinv.
  destruct Hstep as [r' b1 Hp Hc|Hp|r' b1 Hp Hc|r' b1 Hp Hc|r' b1 Hp Hc|r' b1 Hp Hc|r' b1 Hp Hc
    |r' b1 Hp Hc|r' b1 Hp Hq Hc|r' b1 Hp Hq Hc]; try (by rewrite Hp in Hph).
  - by eapply await_left.
  - rewrite Hp in Hinv. destruct Hinv as (_ & _ & Hl & _). destruct Hc as [r' b1 Hz Ha|s' r' b1 Hz Hs' He|r' b1 Hz Hs' Hor Hm|Hs' Hl' Hq];
      [by eapply await_left|congruence|apply (moving_send_left _ r'); [lia|done]|].
    split; [lia|]. by intros [].
  - rewrite Hp in Hinv. destruct Hinv as (_ & _ & Hl & _). destruct Hc as [r' b1 Hz Ha|s' r' b1 Hz Hs' He|r' b1 Hz Hs' Hm];
      [by eapply await_left|congruence|]. apply (moving_recv_left _ r'); [lia|done].
  - destruct Hc as [|s r' b1 Hs' _]; [|congruence]. split; [lia|]. by intros [].
Qed.

(** When a [poll] cannot move a byte, neither can the next one. *)
Lemma bot_poll_offers b r b' :
  0 <= left b -> stat b = None -> status_phase (phase b) = true -> offers b = false ->
  bot_poll ps cap b r b' -> offers b' = false.
Proof.
  intros Hl Hs Hph Hno Hstep. unfold offers in Hno. rewrite Hs in Hno.
  assert (forall p r b', p <> StatusTransfer -> p <> CommandTransfer -> p <> DataTransferToHost ->
    p <> DataTransferFromHost -> await ps (with_phase p b) r b' -> offers b' = false) as Hawait.
  { intros p r1 b1 ???? Ha. destruct Ha as [|s r1 b1 Hs' _]; [|cbn in Hs'; congruence].
    unfold offers. cbn. rewrite Hs. by destruct p. }
  destruct Hstep as [r' b1 Hp Hc|Hp|r' b1 Hp Hc|r' b1 Hp Hc|r' b1 Hp Hc|r' b1 Hp Hc|r' b1 Hp Hc
    |r' b1 Hp Hc|r' b1 Hp Hq Hc|r' b1 Hp Hq Hc]; try (by rewrite Hp in Hph); try rewrite Hp in Hno.
  - by eapply (Hawait DataTransferStatusAwait).
  - destruct Hc as [r' b1 Hz Ha|s' r' b1 Hz Hs' He|r' b1 Hz _ Hor Hm|_ Hl' Hq];
      [by eapply (Hawait DataTransferStatusAwait)|congruence| |].
    2:{ unfold offers. by rewrite Hp, Hs. }
    assert (queue b = []) as Hq.
    { apply len_zero_inv. pose proof (len_nonneg (queue b)). lia. }
    destruct Hm as [n b1 [Hn ->]%send_ok_inv|e b1 [-> _]%send_err_inv]; unfold offers; cbn; rewrite Hp, Hs, Hq.
    + rewrite Hq in Hn. replace (zdrop n []) with (@nil byte) by (unfold zdrop; by rewrite drop_nil). cbn. by rewrite andb_false_r.
    + cbn. by rewrite andb_false_r.
  - destruct Hc as [r' b1 Hz Ha|s' r' b1 Hz Hs' He|r' b1 Hz _ Hm];
      [by eapply (Hawait DataTransferFromHostStatusAwait)|congruence|].
    assert (cap - len (queue b) < ps) as Hfull by lia.
    destruct Hm as [n b1 Hr|e b1 Hr]; inversion Hr; subst; try lia. unfold offers. rewrite Hp, Hs. lia.
  - destruct Hc as [|s r' b1 Hs' _]; [|congruence]. unfold offers. rewrite Hs. by destruct Hp as [-> | ->].
Qed.
End Live.
