(* ===== verification/BbbSpec.v ===== *)
(** * Functional specifications of the transport's operations

    What the constructor, the codecs, the methods for the subclass and the control
    requests do on every branch, errors included, and that a command whose status
    is set comes to its end. *)
From S2P Require Import Prelude.
From S2P Require Import Usb.
From S2P Require Import Buffer.
From S2P Require Import Transport.
From S2P Require Import Bbb.
From S2P Require Import BotSpec.
From S2P Require Import BbbRefine.
From S2P Require Import BbbMethods.
From S2P Require Import BbbReach.
From S2P Require Import BotLive.
From S2P Require Import MockBus.
From S2P Require Import BbbSafe.

Local Open Scope Z_scope.
Local Open Scope rust_scope.

(** ** The codecs *)

Lemma zslice_app_mid {A} (a b c : list A) i j :
  len a = i -> j = i + len b -> zslice i j (a ++ b ++ c) = b.
Proof.
  intros <- ->. unfold zslice. pose proof (len_nonneg a).
  rewrite zdrop_app_ge by lia. rewrite (zdrop_le0 (len a - len a)) by lia.
  rewrite ztake_app_le, ztake_all by lia. done.
Qed.

Lemma byte_at_mid (a c : list byte) z i :
  len a = i -> 0 <= z < 256 -> byte_at i (a ++ [byte_of z] ++ c) = z.
Proof.
  intros Ha Hz. unfold byte_at. rewrite zslice_app_mid by done.
  unfold Prelude.from_le_bytes. rewrite u8_byte_of, Z.mod_small by done. lia.
Qed.

Lemma from_to_le_u32 z : is_u32 z -> Prelude.from_le_bytes (to_le_bytes 4 z) = z.
Proof. intros Hz. rewrite from_to_le_bytes. by apply Z.mod_small. Qed.

Lemma encode_cbw_len c : len (block c) = 16 -> len (encode_cbw c) = CBW_LEN.
Proof. intros Hb. unfold encode_cbw, CBW_SIGNATURE_LE, CBW_LEN. len_lia. Qed.

(** The encoding, divided at its fields. *)
Lemma encode_cbw_fields c :
  cbw_ok c ->
  let l := encode_cbw c in
  ztake 4 l = CBW_SIGNATURE_LE /\ zslice 4 8 l = to_le_bytes 4 (tag c) /\
  zslice 8 12 l = to_le_bytes 4 (data_transfer_len c) /\
  byte_at 12 l = (match direction c with DataIn => 0x80 | _ => 0 end) /\
  byte_at 13 l = lun c /\ byte_at 14 l = block_len c /\ zslice 15 31 l = block c.
Proof.
  intros [_ _ _ Hlun Hbl Hb] l.
  assert (len (to_le_bytes 4 (tag c)) = 4) as Ht by apply len_to_le_bytes.
  assert (len (to_le_bytes 4 (data_transfer_len c)) = 4) as Hd by apply len_to_le_bytes.
  assert (len CBW_SIGNATURE_LE = 4) as Hs by done. unfold l, encode_cbw.
  set (s := CBW_SIGNATURE_LE) in *. set (t := to_le_bytes 4 (tag c)) in *.
  set (dtl := to_le_bytes 4 (data_transfer_len c)) in *.
  set (x := match direction c with DataIn => 0x80 | _ => 0 end). split_and!.
  - by rewrite ztake_app_le, ztake_all by lia.
  - by apply zslice_app_mid; lia.
  - rewrite (app_assoc s). apply zslice_app_mid; rewrite ?len_app; lia.
  - rewrite (app_assoc s), (app_assoc (s ++ t)).
    apply byte_at_mid; [rewrite !len_app; lia|]. unfold x. by destruct (direction c).
  - rewrite (app_assoc s), (app_assoc (s ++ t)), (app_assoc ((s ++ t) ++ dtl)).
    apply byte_at_mid; [rewrite !len_app, len_cons, len_nil; lia|lia].
  - rewrite (app_assoc s), (app_assoc (s ++ t)), (app_assoc ((s ++ t) ++ dtl)),
      (app_assoc (((s ++ t) ++ dtl) ++ _)).
    apply byte_at_mid; [rewrite !len_app, !len_cons, len_nil; lia|lia].
  - rewrite !app_assoc, <- (app_nil_r (_ ++ block c)), <- (app_assoc _ (block c)).
    apply zslice_app_mid; rewrite ?len_app, ?len_cons, ?len_nil, ?Hb; lia.
Qed.

Lemma decode_encode_cbw c : cbw_ok c -> decode_cbw (encode_cbw c) = Some c.
Proof.
  intros Hc. destruct (encode_cbw_fields c Hc) as (Hs & Ht & Hl & Hf & Hlun & Hbl & Hb).
  pose proof Hc as [Htag Hdtl Hdir Hlr Hblr _]. unfold decode_cbw.
  rewrite Hbl, bool_decide_eq_true_2 by done. rewrite Ht, Hl, Hf, Hlun, Hb.
  rewrite !from_to_le_u32 by done. rewrite Z.mod_small by lia. f_equal.
  destruct c as [tg dtl dir l bl blk]. cbn in *. f_equal.
  destruct (Z.eqb_spec dtl 0) as [Hz|Hz]; [by symmetry; apply Hdir|].
  destruct dir; [done|done|]. by destruct Hz; apply Hdir.
Qed.

(** C26: Round trip of the command wrapper: what the transport's parser makes of the
    31 bytes that encode a well-formed command is that command; and every 31 bytes
    with the right signature are either parsed to a well-formed command or rejected
    without a panic, by the declared block length alone. *)
Theorem cbw_roundtrip (c : CommandBlockWrapper) (raw : list byte) :
  cbw_ok c -> len raw = CBW_LEN -> ztake 4 raw = CBW_SIGNATURE_LE ->
  from_le_bytes (zslice 4 CBW_LEN (encode_cbw c)) = Returns (Ok c) /\
  ((1 <= byte_at 14 raw <= 16 /\
    exists c', from_le_bytes (zslice 4 CBW_LEN raw) = Returns (Ok c') /\ cbw_ok c') \/
   (~ 1 <= byte_at 14 raw <= 16 /\
    from_le_bytes (zslice 4 CBW_LEN raw) = Returns (Err invalid_cbw_error))).
Proof.
  intros Hc Hraw Hsig. split.
  - destruct (encode_cbw_fields c Hc) as (Hs & _).
    rewrite parse_run by (done || apply encode_cbw_len, Hc). by rewrite decode_encode_cbw.
  - rewrite parse_run by done. destruct (decide (1 <= byte_at 14 raw <= 16)) as [Hb|Hb].
    + left. split; [done|]. destruct (decode_cbw raw) as [c'|] eqn:Hdec.
      * exists c'. split; [done|]. by eapply decode_cbw_ok.
      * unfold decode_cbw in Hdec. by rewrite bool_decide_eq_true_2 in Hdec.
    + right. split; [done|]. unfold decode_cbw. by rewrite bool_decide_eq_false_2 by tauto.
Qed.

(** READ(10) of one block. *)
Definition read_cbw : CommandBlockWrapper :=
  mkCommandBlockWrapper 0xDEADBEEF 512 DataIn 1 10
    (map byte_of [0x28; 0; 0; 0; 0; 7; 0; 0; 1; 0] ++ zreplicate 6 x00).
Lemma read_cbw_ok : cbw_ok read_cbw.
Proof. by split; vm_compute. Qed.

Lemma cbw_roundtrip_witness :
  from_le_bytes (zslice 4 CBW_LEN (encode_cbw read_cbw)) = Returns (Ok read_cbw).
Proof.
  exact (proj1 (cbw_roundtrip read_cbw (encode_cbw read_cbw) read_cbw_ok eq_refl eq_refl)).
Defined.

Lemma decode_csw_bytes c s :
  is_u32 (tag c) -> is_u32 (data_residue s) ->
  decode_csw (csw_bytes c s) = Some (tag c, data_residue s, status_code (status s)).
Proof.
  intros Ht Hr. unfold decode_csw.
  assert (len (to_le_bytes 4 (tag c)) = 4) as Hlt by apply len_to_le_bytes.
  assert (len (to_le_bytes 4 (data_residue s)) = 4) as Hlr by apply len_to_le_bytes.
  assert (len CSW_SIGNATURE_LE = 4) as Hls by done.
  rewrite bool_decide_eq_true_2.
  2: { split; [apply len_csw_bytes|]. unfold csw_bytes. by rewrite ztake_app_le, ztake_all by lia. }
  unfold csw_bytes. f_equal. f_equal; [f_equal|].
  - rewrite zslice_app_mid by lia. by apply from_to_le_u32.
  - rewrite (app_assoc CSW_SIGNATURE_LE), zslice_app_mid by (rewrite ?len_app; lia).
    by apply from_to_le_u32.
  - rewrite (app_assoc CSW_SIGNATURE_LE), (app_assoc (CSW_SIGNATURE_LE ++ _)),
      <- (app_nil_r [byte_of _]).
    apply (byte_at_mid _ [] _ 12); [rewrite ?len_app; lia|by destruct (status s)].
Qed.

(** C27: The status wrapper: [build_csw] gives nothing without a status; with one it
    gives 13 bytes that a host reads as the signature, the command's tag, the residue
    and the status code. *)
Theorem csw_roundtrip `{!UsbStack} (t : BulkOnly) :
  is_u32 (tag (Bbb.cbw t)) -> (forall s, cs t = Some s -> is_u32 (data_residue s)) ->
  match cs t with
  | None => build_csw t = Returns None
  | Some s => exists l, build_csw t = Returns (Some l) /\ len l = 13 /\
      decode_csw l = Some (tag (Bbb.cbw t), data_residue s, status_code (status s))
  end.
Proof.
  intros Ht Hs. destruct (cs t) as [s|] eqn:Hcs.
  - exists (csw_bytes (Bbb.cbw t) s). split; [by apply build_csw_run|].
    split; [apply len_csw_bytes|]. by apply decode_csw_bytes; [|apply Hs].
  - unfold build_csw. by rewrite Hcs.
Qed.

Lemma csw_roundtrip_witness :
  exists l, build_csw (set_cbw read_cbw (set_cs (Some (mkStatusAndResidue Failed 12)) stuck))
    = Returns (Some l) /\ len l = 13 /\ decode_csw l = Some (0xDEADBEEF, 12, 1).
Proof.
  apply (csw_roundtrip (set_cbw read_cbw (set_cs (Some (mkStatusAndResidue Failed 12)) stuck))).
  - by split; vm_compute.
  - intros s Hs. injection Hs as <-. by split; vm_compute.
Defined.

(** ** The methods for the subclass *)

(** C31: [write_data], in every reachable state: an [InvalidState] error and no effect
    outside the IN data phase; inside it, it appends and counts the longest prefix of
    [src] that neither exceeds what the host still expects beyond the bytes already
    queued nor the room of the buffer, and changes nothing else. *)
Theorem write_data_spec `{!UsbStack, !UsbStackLaws} (t : BulkOnly) (src : list byte) :
  reachable t ->
  if bool_decide (state t = DataTransferToHost) then
    let n := Z.min (Z.min (len src) (left_to_transfer t - len (contents (buf t))))
                   (capacity (buf t) - len (contents (buf t))) in
    wp (write_data src) (fun r t' => r = Ok n /\ 0 <= n /\
      view t' = with_queue (contents (buf t) ++ ztake n src) (view t)) t
  else write_data src t = Returns (Err (Error InvalidState), t).
Proof.
  intros (d & Hd & Ht)%reachable_good. case_bool_decide as Hp; [|by apply write_data_invalid].
  rewrite (live_capacity d t) by apply Ht.
  destruct (good_to_host d t Ht Hp) as [? ?]. cbn in *. pose proof (len_nonneg src).
  eapply wp_mono; [by apply (write_data_step d)|]. intros r t' (_ & -> & Hv).
  split; [done|]. split; [lia|exact Hv].
Qed.

Lemma write_data_spec_witness :
  wp (write_data (zreplicate 40 x00)) (fun r t' => r = Ok 16) in_transfer.
Proof.
  assert (bool_decide (state in_transfer = DataTransferToHost) = true) as Hp by (by vm_compute).
  pose proof (write_data_spec in_transfer (zreplicate 40 x00) in_transfer_reachable) as Hw.
  rewrite Hp in Hw. cbv zeta in Hw. refine (wp_mono _ _ _ _ Hw _).
  intros r t' [Hr _]. rewrite Hr. by vm_compute.
Defined.

(** C32: [try_write_data_all], in every reachable state: all of [src] or nothing. Outside
    the IN data phase [InvalidState]; if [src] is longer than what the host still
    expects beyond the queued bytes, [TransferLengthExceeded]; else if the buffer has no
    room for it, [IoBufferOverflow]; else all of it is queued. The errors leave the
    transfer as it was. *)
Theorem try_write_data_all_spec `{!UsbStack, !UsbStackLaws} (t : BulkOnly) (src : list byte) :
  reachable t ->
  if bool_decide (state t = DataTransferToHost) then
    wp (try_write_data_all src) (fun r t' =>
      if left_to_transfer t - len (contents (buf t)) <? len src
      then r = Err (Error TransferLengthExceeded) /\ view t' = view t
      else if capacity (buf t) - len (contents (buf t)) <? len src
      then r = Err (Error IoBufferOverflow) /\ view t' = view t
      else r = Ok tt /\ view t' = with_queue (contents (buf t) ++ src) (view t)) t
  else try_write_data_all src t = Returns (Err (Error InvalidState), t).
Proof.
  intros (d & Hd & Ht)%reachable_good.
  case_bool_decide as Hp; [|by apply try_write_data_all_invalid].
  rewrite (live_capacity d t) by apply Ht.
  eapply wp_mono; [by apply (try_write_data_all_step d)|]. by intros r t' [_ Hr].
Qed.

Lemma try_write_data_all_spec_witness :
  wp (try_write_data_all (zreplicate 40 x00))
    (fun r t' => r = Err (Error TransferLengthExceeded)) in_transfer.
Proof.
  assert (bool_decide (state in_transfer = DataTransferToHost) = true) as Hp by (by vm_compute).
  assert ((left_to_transfer in_transfer - len (contents (buf in_transfer)) <? 40) = true) as Hl
    by (by vm_compute).
  pose proof (try_write_data_all_spec in_transfer (zreplicate 40 x00) in_transfer_reachable) as Hw.
  rewrite Hp in Hw. refine (wp_mono _ _ _ _ Hw _). intros r t'.
  rewrite len_zreplicate. change (Z.max 0 40) with 40. rewrite Hl. intros [Hr _]. exact Hr.
Defined.

(** [read_data], in every reachable state: [InvalidState] and no effect outside the
    OUT data phase; inside it, the first bytes of the queue, as many as there are and
    as [dst] holds, are moved to the front of [dst] and counted; the rest of [dst] and
    of the transfer stays. *)
Lemma read_data_spec `{!UsbStack, !UsbStackLaws} (t : BulkOnly) (dst : list byte) :
  reachable t ->
  let n := Z.min (len dst) (len (contents (buf t))) in
  if out_phase (state t) then
    wp (read_data dst) (fun '(dst', r) t' => r = Ok n /\
      dst' = ztake n (contents (buf t)) ++ zdrop n dst /\
      view t' = with_queue (zdrop n (contents (buf t))) (view t)) t
  else read_data dst t = Returns ((dst, Err (Error InvalidState)), t).
Proof.
  intros (d & Hd & Ht)%reachable_good n. destruct (out_phase (state t)) eqn:Hp.
  - eapply wp_mono; [apply (read_data_step d); [apply Ht|done]|].
    by intros [dst' r] t' (_ & ? & ? & ?).
  - by apply read_data_invalid.
Qed.

(** An OUT command of 20 bytes, all of them received. *)
Definition out_transfer : MockBbb :=
  at_ (history 32 (cbw 20 HostOut ++ [x00] ++ zreplicate 20 (byte_of 0xAA)) [CPoll; CPoll]).
Lemma out_transfer_reachable : reachable out_transfer.
Proof. apply at_reachable; [lia|by vm_compute]. Qed.

Lemma read_data_spec_witness :
  wp (read_data (zreplicate 12 x00)) (fun '(dst', r) t' => r = Ok 12) out_transfer.
Proof.
  assert (out_phase (state out_transfer) = true) as Hp by (by vm_compute).
  pose proof (read_data_spec out_transfer (zreplicate 12 x00) out_transfer_reachable) as Hw.
  cbv zeta in Hw. rewrite Hp in Hw. refine (wp_mono _ _ _ _ Hw _).
  intros [dst' r] t' [Hr _]. rewrite Hr. by vm_compute.
Defined.

(** [set_status] panics exactly in the phases that do not owe a status; otherwise
    it records the status with the residue (the transfer length less what was
    processed, never below zero) and touches neither data nor endpoints. A status can
    be set again until the next [poll] takes it up: the last one counts. *)
Lemma set_status_spec `{!UsbStack} (t : BulkOnly) (s : CommandStatus) (processed : Z) :
  is_u32 processed -> is_u32 (data_transfer_len (Bbb.cbw t)) ->
  if status_phase (state t) then
    exists residue, 0 <= residue <= data_transfer_len (Bbb.cbw t) /\
      (processed <= data_transfer_len (Bbb.cbw t) ->
       residue = data_transfer_len (Bbb.cbw t) - processed) /\
      set_status s processed t = Returns (tt, set_cs (Some (mkStatusAndResidue s residue)) t)
  else set_status s processed t = Panics.
Proof.
  intros [? ?] [? ?]. destruct (status_phase (state t)) eqn:Hp; [|by apply set_status_panics].
  eexists. split; [|split; [|by apply set_status_run]]; unfold saturating_sub; lia.
Qed.

Lemma set_status_spec_witness :
  set_status Passed 0 stuck = Panics /\
  exists residue, set_status Failed 5 (set_state DataTransferNoData stuck) =
    Returns (tt, set_cs (Some (mkStatusAndResidue Failed residue)) (set_state DataTransferNoData stuck)).
Proof.
  assert (is_u32 0) as Hz by (by split; vm_compute).
  assert (is_u32 5) as Hf by (by split; vm_compute).
  split; [exact (set_status_spec stuck Passed 0 Hz Hz)|].
  destruct (set_status_spec (set_state DataTransferNoData stuck) Failed 5 Hf Hz) as (r & _ & _ & Hr).
  exists r. exact Hr.
Defined.

(** ** Construction and control requests *)

(** [new] rejects, without touching the bus, a LUN index above 15 and then a buffer
    smaller than a wrapper or than a packet; it accepts everything else, and the
    transport it makes on a fresh bus is idle: awaiting a command, empty buffer, no
    status, both endpoints of the given packet size. *)
Lemma new_spec `{!UsbStack, !UsbStackLaws} (ps ml : Z) (bf : list byte) (b : Bus) :
  bus_fresh b -> 0 < ps < 2 ^ 16 -> 0 <= ml ->
  if 0x0F <? ml then new ps ml bf b = Returns (Err InvalidMaxLun, b)
  else if (len bf <? CBW_LEN) || (len bf <? ps)
  then new ps ml bf b = Returns (Err BufferTooSmall, b)
  else exists t, new ps ml bf b = Returns (Ok t, bus t) /\ reachable t /\
    packet_size t = ps /\ max_packet_size (out_ep t) = ps /\ max_lun t = ml /\
    capacity (buf t) = len bf /\
    view t = mkBot CommandTransfer [] 0 default_cbw None (in_log b) (out_log b).
Proof.
  intros Hb Hps Hml. destruct (Z.ltb_spec 0x0F ml); [by apply new_max_lun|].
  destruct (_ || _) eqn:Hsmall.
  { apply new_too_small; [lia|]. apply orb_prop in Hsmall. lia. }
  apply orb_false_elim in Hsmall.
  assert (new_accepts ps ml bf) as Hacc by (unfold new_accepts; lia).
  pose proof (new_accepted ps ml bf b Hb Hps Hml Hacc) as Hnew.
  destruct (new ps ml bf b) as [[r b']| |] eqn:Hrun; [|done..].
  destruct Hnew as (t & -> & -> & i & o & Hd & Hdps & Hl & Hv).
  exists t. split; [done|]. split; [exists t; split; [by exists ps, ml, bf, b, (bus t)|constructor]|].
  pose proof Hl as [Hi Ho Hm _ _ Hc]. unfold packet_size. rewrite Hi, Ho, Hm, Hc.
  split; [exact Hdps|]. split; [|done]. by rewrite <- Hdps, <- (d_same_ps _ Hd).
Qed.

Lemma new_spec_witness :
  exists t, new 8 15 (zreplicate 31 x00) (fresh_bus : @Bus MockStack) = Returns (Ok t, bus t) /\
    capacity (buf t) = 31.
Proof.
  assert (bus_fresh (fresh_bus : @Bus MockStack)) as Hb by done.
  destruct (new_spec 8 15 (zreplicate 31 x00) _ Hb ltac:(lia) ltac:(lia)) as (t & Hrun & _ & _ & _ & _ & Hc & _).
  exists t. split; [exact Hrun|exact Hc].
Defined.

(** [reset] and a Bulk-Only Mass Storage Reset abandon the command: the queue, the
    status and the count are cleared and a wrapper is awaited; nothing is put on the
    wire. Get Max LUN answers the control transfer with the one byte [max_lun] and
    changes nothing else, even if the stack refuses the answer. Other requests are
    ignored. *)
Lemma control_requests_spec `{!UsbStack, !UsbStackLaws} (t : BulkOnly) (req : Request) :
  reachable t ->
  wp reset (fun _ t' => view t' = idle (view t)) t /\
  (if is_bot_reset req then control_in req t = reset t
   else if is_get_max_lun req then
     control_in req t = on_bus (let! _ := accept_with [byte_of (max_lun t)] in ret tt) t /\
     u8 (byte_of (max_lun t)) = max_lun t /\
     wp (control_in req) (fun _ t' => view t' = view t) t
   else control_in req t = Returns (tt, t)).
Proof.
  intros (d & Hd & [Hl Hi])%reachable_good. split.
  { eapply wp_mono; [by apply (reset_step d)|]. by intros _ t' [_ Hv]. }
  destruct (is_bot_reset req) eqn:Hr; [by apply control_in_reset|].
  destruct (is_get_max_lun req) eqn:Hm; [|by apply control_in_other].
  split; [by apply control_in_max_lun|]. split.
  - pose proof (d_max_lun_range d Hd). pose proof (live_max_lun d t Hl).
    rewrite u8_byte_of. apply Z.mod_small. lia.
  - eapply wp_mono; [by apply (control_in_step d)|]. intros _ t' [_ Hv]. by rewrite Hr in Hv.
Qed.

Definition get_max_lun_request : Request := mkRequest true true CLASS_SPECIFIC_GET_MAX_LUN.
Lemma control_requests_spec_witness :
  wp (control_in get_max_lun_request) (fun _ t' => view t' = view in_transfer) in_transfer.
Proof.
  destruct (control_requests_spec in_transfer get_max_lun_request in_transfer_reachable)
    as (_ & _ & _ & Hw). exact Hw.
Defined.

(** ** Progress *)

Lemma todo_nonneg `{!UsbStack} (cap : Z) b :
  bot_inv cap b -> is_one_of (phase b) [CommandTransfer; CommandTransferInvalid] = false ->
  0 <= todo b /\ (todo b = 0 -> phase b = StatusTransfer /\ queue b = []).
Proof.
  unfold bot_inv, todo, CSW_LEN. intros Hinv Hp. pose proof (len_nonneg (queue b)).
  destruct (phase b); try done; destruct Hinv as (_ & _ & ? & _); (split; [lia|]); try lia.
  intros Hz. split; [done|]. by apply len_zero_inv.
Qed.

Lemma command_of_status `{!UsbStack, !UsbStackLaws} d t s :
  good d t -> cs t = Some s -> command_phase (state t) = false.
Proof.
  intros [_ Hinv] Hs. unfold bot_inv in Hinv. cbn in Hinv.
  destruct (state t); try done; destruct Hinv; congruence.
Qed.

(** One poll, as far as progress is concerned. *)
Lemma poll_progress `{!UsbStack, !UsbStackLaws} d t s r t' :
  device_ok d -> good d t -> cs t = Some s ->
  ~ (state t = StatusTransfer /\ contents (buf t) = []) -> poll t = Returns (r, t') ->
  good d t' /\ cs t' = Some s /\ Bbb.cbw t' = Bbb.cbw t /\ progress (view t) r (view t').
Proof.
  intros Hd Ht Hs Hnot Hrun.
  destruct (wp_returns _ _ _ _ _ (poll_good d Hd t Ht) Hrun) as [Ht' Hstep].
  pose proof Ht as [_ Hinv]. pose proof (d_ps_range d Hd). pose proof (d_ps_fits d Hd).
  destruct (bot_poll_frame _ _ (view t) _ _ (command_of_status d t s Ht Hs) Hnot Hstep) as [Hcmd Hstat].
  split; [done|]. split; [change (stat (view t') = Some s); by rewrite Hstat|].
  split; [exact Hcmd|].
  eapply bot_poll_progress; [..|exact Hstep]; done || lia.
Qed.

(** Once a status is set, every [poll] keeps it until the wrapper is out, fails only
    with an error of the bus, does not add to what is left to move, and has less of it
    left whenever a byte went over the wire. *)
Lemma ending_makes_progress `{!UsbStack, !UsbStackLaws} (t : BulkOnly) s :
  reachable t -> cs t = Some s -> ~ (state t = StatusTransfer /\ contents (buf t) = []) ->
  wp poll (fun r t' => cs t' = Some s /\ Bbb.cbw t' = Bbb.cbw t /\
    todo (view t') <= todo (view t) /\
    (~ (in_log (bus t') = in_log (bus t) /\ out_log (bus t') = out_log (bus t)) ->
     todo (view t') < todo (view t)) /\
    (r = Ok tt \/ exists e, r = Err (Usb e))) t.
Proof.
  intros (d & Hd & Ht)%reachable_good Hs Hnot.
  pose proof (poll_good d Hd t Ht) as (r & t' & Hrun & _)%wp_run.
  apply wp_run. exists r, t'. split; [done|].
  by destruct (poll_progress d t s r t' Hd Ht Hs Hnot Hrun) as (_ & ? & ? & ? & ? & ?).
Qed.

(** A status of 16 bytes for a 32-byte command, 8 bytes of which are out. *)
Definition ending_transfer : MockBbb :=
  at_ (history 8 (cbw 32 HostIn)
    [CPoll; CPoll; CPoll; CPoll; CWriteData (zreplicate 16 (byte_of 0xAA)); CPoll;
     CSetStatus Passed 16]).
Lemma ending_transfer_reachable : reachable ending_transfer.
Proof. apply at_reachable; [lia|by vm_compute]. Qed.

Lemma ending_makes_progress_witness :
  todo (view ending_transfer) = 37 /\
  wp poll (fun r t' => cs t' = Some (mkStatusAndResidue Passed 16)) ending_transfer.
Proof.
  split; [by vm_compute|].
  assert (cs ending_transfer = Some (mkStatusAndResidue Passed 16)) as Hs by (by vm_compute).
  assert (state ending_transfer = DataTransferToHost) as Hp by (by vm_compute).
  refine (wp_mono _ _ _ _ (ending_makes_progress ending_transfer _ ending_transfer_reachable Hs _) _).
  - intros [Hp' _]. congruence.
  - intros r t' [Hcs _]. exact Hcs.
Defined.

(** [n] polls in a row, each of which moves at least a byte, none after the end. *)
Inductive busy `{!UsbStack, !UsbStackLaws} : nat -> BulkOnly -> BulkOnly -> Prop :=
| busy_none t : busy 0 t t
| busy_poll n t r t1 t2 :
    ~ (state t = StatusTransfer /\ contents (buf t) = []) ->
    poll t = Returns (r, t1) ->
    ~ (in_log (bus t1) = in_log (bus t) /\ out_log (bus t1) = out_log (bus t)) ->
    busy n t1 t2 -> busy (S n) t t2.

Lemma busy_todo `{!UsbStack, !UsbStackLaws} d n t t' s :
  device_ok d -> good d t -> cs t = Some s -> busy n t t' ->
  good d t' /\ cs t' = Some s /\ Z.of_nat n + todo (view t') <= todo (view t).
Proof.
  intros Hd Ht Hs Hbusy. induction Hbusy as [t|n t r t1 t2 Hnot Hrun Hmv Hbusy IH].
  - split; [done|]. split; [done|lia].
  - destruct (poll_progress d t s r t1 Hd Ht Hs Hnot Hrun) as (Ht1 & Hs1 & _ & _ & Hlt & _).
    destruct (IH Ht1 Hs1) as (? & ? & ?). split; [done|]. split; [done|].
    specialize (Hlt Hmv). lia.
Qed.

(** C11: A command terminates: once its status is set, at most [todo] polls that move a
    byte (the data still owed and the 13 bytes of the wrapper) can happen before the
    wrapper is out, and when that many have happened it is. *)
Theorem status_is_delivered `{!UsbStack, !UsbStackLaws} (t t' : BulkOnly) s n :
  reachable t -> cs t = Some s -> busy n t t' ->
  Z.of_nat n <= todo (view t) /\ cs t' = Some s /\
  (Z.of_nat n = todo (view t) -> state t' = StatusTransfer /\ contents (buf t') = []).
Proof.
  intros (d & Hd & Ht)%reachable_good Hs Hbusy.
  destruct (busy_todo d n t t' s Hd Ht Hs Hbusy) as (Ht' & Hs' & Hle).
  destruct (todo_nonneg _ (view t') (good_inv d t' Ht') (command_of_status d t' s Ht' Hs'))
    as [Hnn Hz].
  split; [lia|]. split; [done|]. intros Hn. apply Hz. lia.
Qed.

Lemma status_is_delivered_witness :
  exists t', busy 1 ending_transfer t' /\ cs t' = Some (mkStatusAndResidue Passed 16).
Proof.
  assert (cs ending_transfer = Some (mkStatusAndResidue Passed 16)) as Hs by (by vm_compute).
  assert (state ending_transfer = DataTransferToHost) as Hp by (by vm_compute).
  destruct (poll ending_transfer) as [[r t']| |] eqn:Hrun.
  2-3: assert ((match poll ending_transfer with Returns _ => true | _ => false end) = true) as Hok
    by (by vm_compute); by rewrite Hrun in Hok.
  assert ((match poll ending_transfer with
    | Returns (_, t) => bool_decide (in_log (bus t) = in_log (bus ending_transfer))
    | _ => true end) = false) as Hmv by (by vm_compute).
  rewrite Hrun in Hmv. apply bool_decide_eq_false in Hmv.
  assert (busy 1 ending_transfer t') as Hbusy.
  { refine (busy_poll 0 ending_transfer r t' t' _ Hrun (fun Hb => Hmv (proj1 Hb)) (busy_none t')).
    intros [Hp' _]. rewrite Hp in Hp'. discriminate Hp'. }
  exists t'. split; [exact Hbusy|].
  destruct (status_is_delivered ending_transfer t' _ 1 ending_transfer_reachable Hs Hbusy)
    as (_ & Hs' & _). exact Hs'.
Defined.

(** ** Limits of the code *)

(** C40: A wrapper that does not fit the buffer in whole packets is never read: when
    fewer free bytes than a packet are left while a command is awaited, [poll] fails
    with [IoBufferOverflow] and changes nothing, so it fails for ever, until a reset.
    [new] lets that happen: it accepts a buffer of 31 bytes for packets of 8 or 16. *)
Theorem overflow_while_awaiting_is_permanent `{!UsbStack, !UsbStackLaws} (t : BulkOnly) :
  reachable t -> state t = CommandTransfer ->
  capacity (buf t) - len (contents (buf t)) < packet_size t ->
  get_command t = Returns None /\
  wp poll (fun r t' => r = Err (Error IoBufferOverflow) /\ view t' = view t /\
    capacity (buf t') = capacity (buf t) /\ packet_size t' = packet_size t) t.
Proof.
  intros (d & Hd & Ht)%reachable_good Hp. pose proof Ht as [Hl Hinv].
  rewrite (live_packet_size d t), (live_capacity d t) by done. intros Hroom. split.
  - rewrite (get_command_run d) by done. by rewrite Hp.
  - eapply wp_mono; [by apply (poll_good d)|]. intros r t' [[Hl' _] Hstep].
    rewrite (live_packet_size d t'), (live_capacity d t') by done.
    inversion Hstep as [? ? Hp' Hc|Hp'|? ? Hp' Hc|? ? Hp' Hc|? ? Hp' Hc|? ? Hp' Hc|? ? Hp' Hc
      |? ? Hp' Hc|? ? Hp' Hq' Hc|? ? Hp' Hq' Hc]; subst; cbn in Hp';
      try (destruct Hp' as [Hp'|Hp']); try congruence.
    destruct Hc as [e b' Hr|n b' Hr|n b' Hr|n b' c r' b'' Hr]; inversion Hr; subst; cbn in *; try lia.
    done.
Qed.

(** A wrapper sent to a transport with a 31-byte buffer, in packets of 8. *)
Definition small_transfer : MockBbb :=
  at_ (history_on (zreplicate 31 x00) 8 (cbw 0 NoData) [CPoll; CPoll; CPoll; CPoll]).
Lemma small_transfer_reachable : reachable small_transfer.
Proof. apply at_reachable; [lia|by vm_compute]. Qed.

Lemma overflow_while_awaiting_is_permanent_witness :
  wp poll (fun r t' => r = Err (Error IoBufferOverflow) /\ view t' = view small_transfer)
    small_transfer.
Proof.
  assert (state small_transfer = CommandTransfer) as Hp by (by vm_compute).
  assert (capacity (buf small_transfer) - len (contents (buf small_transfer))
    < packet_size small_transfer) as Hroom by (by vm_compute).
  destruct (overflow_while_awaiting_is_permanent small_transfer small_transfer_reachable Hp Hroom)
    as [_ Hw].
  refine (wp_mono _ _ _ _ Hw _). intros r t' (Hr & Hv & _). exact (conj Hr Hv).
Defined.

(** After [set_status] and before the next [poll] the IN phase still takes data:
    [write_data] succeeds although the status of the command is set. *)
Lemma write_after_status_succeeds `{!UsbStack, !UsbStackLaws} (t t1 : BulkOnly) s n src :
  reachable t -> state t = DataTransferToHost -> set_status s n t = Returns (tt, t1) ->
  has_status t1 = true /\
  wp (write_data src) (fun r t2 => exists k, r = Ok k /\ cs t2 = cs t1 /\
    k = Z.min (Z.min (len src) (left_to_transfer t - len (contents (buf t))))
              (capacity (buf t) - len (contents (buf t)))) t1.
Proof.
  intros (d & Hd & Ht)%reachable_good Hp Hrun.
  pose proof (set_status_good d s n t t1 Ht Hrun) as Ht1.
  rewrite set_status_run in Hrun by (by rewrite Hp). injection Hrun as <-. split; [done|].
  eapply wp_mono; [by apply (write_data_step d)|]. intros r t2 (_ & -> & Hv).
  eexists. split; [done|]. split; [|by rewrite (live_capacity d t) by apply Ht].
  change (stat (view t2) = stat (bot_set_status s n (view t))). by rewrite Hv, view_set_status.
Qed.

Lemma write_after_status_succeeds_witness :
  exists t1, set_status Passed 16 in_transfer = Returns (tt, t1) /\ has_status t1 = true.
Proof.
  assert (state in_transfer = DataTransferToHost) as Hp by (by vm_compute).
  eexists. split; [apply set_status_run; by rewrite Hp|].
  refine (proj1 (write_after_status_succeeds in_transfer _ Passed 16 [] in_transfer_reachable Hp _)).
  apply set_status_run. by rewrite Hp.
Defined.
