(* ===== verification/BufferSpec.v ===== *)
(** * The buffer implements a bounded FIFO queue

    The contract of [usbd-storage/src/buffer.rs]: every method of a well-formed
    buffer returns, leaves it well-formed, and does to the queue ([abs]) what the
    queue's operation does. *)
From S2P Require Import Prelude.
From S2P Require Import Buffer.

Local Open Scope Z_scope.
Local Open Scope rust_scope.

(** C28: [write], [fill_up_to] and [clear] implement the queue's operations: [write]
    appends the longest prefix of [data] that fits and returns its length (all of
    it when there is room, whatever the positions are: the unread bytes are moved),
    [fill_up_to] appends as many copies of the value as fit, [clear] empties. *)
Theorem buffer_writes_refine_fifo (b : Buffer) (data : list byte) (value : byte) (up_to : Z) :
  wf_buf b -> 0 <= up_to ->
  wp (write data) (fun n b' => wf_buf b' /\ (n, abs b') = fifo_write data (abs b)) b /\
  wp (fill_up_to value up_to) (fun _ b' => wf_buf b' /\
    abs b' = snd (fifo_write (zreplicate up_to value) (abs b))) b /\
  wp clear (fun _ b' => wf_buf b' /\ abs b' = mkFifo (fifo_capacity (abs b)) []) b.
Proof.
  intros Hb Hup. split_and!.
  - apply wp_write; [done|]. intros b' Hb' ->. split; [done|]. by destruct (fifo_write _ _).
  - apply wp_fill_up_to; [done..|]. intros b' Hb' ->. split; [done|].
    unfold fifo_write. cbn [snd]. f_equal. pose proof (fifo_room_nonneg b Hb).
    rewrite len_zreplicate. unfold zreplicate, ztake. rewrite take_replicate. f_equal. lia.
  - apply wp_clear; [apply len_nonneg|]. intros b' Hb' ->. done.
Qed.

(** A buffer of 10 bytes of which the last two are unread. *)
Definition nearly_full : Buffer := mkBuffer (map byte_of [0; 1; 2; 3; 4; 5; 6; 7; 8; 9]) 8 10.
Lemma nearly_full_wf : wf_buf nearly_full.
Proof. by unfold wf_buf. Qed.

Lemma buffer_writes_refine_fifo_witness :
  wp (write (zreplicate 9 x00)) (fun n b' => wf_buf b' /\
    (n, abs b') = (8, mkFifo 10 (map byte_of [8; 9] ++ zreplicate 8 x00))) nearly_full.
Proof.
  eapply wp_mono; [apply (buffer_writes_refine_fifo nearly_full _ x00 0 nearly_full_wf); lia|].
  intros n b' [Hb Hn]. split; [exact Hb|]. by rewrite Hn.
Defined.

(** What the type [FnOnce(&mut [u8]) -> Result<usize, E>] says of a closure, and all that is
    asked of it: the slice keeps its length, and a count is not negative. *)
Definition closure_typed {W E} (f : closure W E) : Prop :=
  forall src w dst r w', f src w = Returns ((dst, r), w') ->
    len dst = len src /\ match r with Ok n => 0 <= n | Err _ => True end.

(** C29: [write_all] and [read] with any closure, whatever it writes to its slice, counts,
    returns or panics on. [write_all] gives the overflow error without calling the closure if
    there is no room for [max_count] bytes. If there is (the unread bytes are moved if they
    must be), the closure gets a slice [dst] of exactly that length; as many bytes as it
    counts join the queue, but at most those up to the end of the array, [spare]: what it has
    left in the slice and then, if it counts more than [max_count], the bytes [stale] that
    were behind the slice. Its error leaves the queue as it was. [read] gives its closure all
    the unread bytes, in order; the queue then holds them as the closure left them, less as
    many from the front as it counts, at most all. *)
Theorem buffer_closures_refine_fifo {W E} (b : Buffer) (w : W) (max_count : Z) (e : E)
    (f : closure W E) (g : closure W E) :
  wf_buf b -> 0 <= max_count -> closure_typed f -> closure_typed g ->
  (if fifo_room (abs b) <? max_count then
     exists b', write_all max_count e f (b, w) = Returns (Err e, (b', w)) /\ wf_buf b' /\ abs b' = abs b
   else
     let room := spare max_count b in
     exists dst stale, len dst = max_count /\ len (dst ++ stale) = room /\
     match f dst w with
     | Returns ((dst', Ok n), w') => exists b',
         write_all max_count e f (b, w) = Returns (Ok (Z.min n room), (b', w')) /\ wf_buf b' /\
         abs b' = fifo_push (abs b) (ztake (Z.min n room) (dst' ++ stale))
     | Returns ((_, Err e'), w') => exists b',
         write_all max_count e f (b, w) = Returns (Err e', (b', w')) /\ wf_buf b' /\ abs b' = abs b
     | Panics => write_all max_count e f (b, w) = Panics
     | OutOfFuel => write_all max_count e f (b, w) = OutOfFuel
     end) /\
  match g (fifo_items (abs b)) w with
  | Returns ((src, r), w') =>
      len src = len (fifo_items (abs b)) /\
      let q := mkFifo (fifo_capacity (abs b)) src in
      let n := match r with Ok n => Z.min n (len src) | Err _ => 0 end in
      exists b', read g (b, w) = Returns (match r with Ok _ => Ok n | Err e' => Err e' end, (b', w')) /\
        wf_buf b' /\ abs b' = fifo_pop n q
  | Panics => read g (b, w) = Panics
  | OutOfFuel => read g (b, w) = OutOfFuel
  end.
Proof.
  intros Hb Hm Hf Hg. split.
  - destruct (_ <? _) eqn:Hroom.
    { destruct (write_all_overflows max_count e f b w Hb) as (b' & Hrun & Hb' & Heq); [lia|].
      exists b'. split_and!; [done..|by rewrite Heq]. }
    destruct (write_all_fits max_count e f b w Hb) as (dst & stale & Hdst & Hlen & Hrun); [lia|].
    exists dst, stale. split; [done|]. split; [done|].
    destruct (f dst w) as [[[dst' r] w']| |] eqn:Hcall; [|done..].
    destruct (Hf _ _ _ _ _ Hcall) as [Hl Hn]. destruct r as [n|e']; [apply Hrun; [lia|done]|].
    destruct Hrun as (b' & Hrun & Hb' & Heq); [lia|]. exists b'. split_and!; [done..|by rewrite Heq].
  - pose proof (read_run g b w Hb) as Hrun. cbn [abs fifo_items fifo_capacity].
    destruct (g _ w) as [[[src r] w']| |] eqn:Hcall; [|done..].
    destruct (Hg _ _ _ _ _ Hcall) as [Hl Hn]. split; [done|]. destruct r as [n|e']; [by apply Hrun|].
    destruct Hrun as (b' & Hrun & Hb' & Habs); [done|]. by exists b'.
Qed.

(** A closure that reports [n], as those of the unit tests. *)
Definition report (n : Z) : closure unit unit := fun buf => ret (buf, Ok n).
Lemma report_typed n : 0 <= n -> closure_typed (report n).
Proof. by intros Hn src w dst r w' [= <- <- <-]. Qed.

(** It counts 9 bytes of a slice of 6: there are 8 up to the end of the array. *)
Lemma buffer_closures_refine_fifo_witness :
  exists b', write_all 6 tt (report 9) (nearly_full, tt) = Returns (Ok 8, (b', tt)) /\ wf_buf b'.
Proof.
  destruct (buffer_closures_refine_fifo nearly_full tt 6 tt (report 9) (report 9) nearly_full_wf) as [Hw _];
    [lia|by apply report_typed..|].
  destruct Hw as (dst & stale & _ & _ & b' & Hrun & Hb' & _). exists b'. split; [exact Hrun|exact Hb'].
Defined.
