(* ===== verification/Subclass.v ===== *)
(** * Subclasses ([usbd-storage/src/subclass.rs])

    A subclass owns a transport. [OverBulkOnly] is what a subclass over the
    Bulk-Only Transport promises to [Command]: that it has one, and that a method
    of the transport can be run in place. The methods of [Command] are those of the
    transport; [pass], [fail] and [fail_phase] set the status. A [Command] borrows
    its class mutably for as long as it lives: here the class is the state that the
    methods work on. *)
From stdpp Require Import relations.
From S2P Require Import Prelude.
From S2P Require Import Usb.
From S2P Require Import Buffer.
From S2P Require Import Transport.
From S2P Require Import Bbb.
From S2P Require Import BotSpec.
From S2P Require Import BbbRefine.
From S2P Require Import BbbMethods.
From S2P Require Import BbbReach.

Local Open Scope Z_scope.
Local Open Scope rust_scope.

(** USB Mass Storage Class code ([usbd-storage/src/lib.rs]) *)
Definition CLASS_MASS_STORAGE : Z := 0x08.

(** The subclass' command and a LUN it is addressed to *)
Record Command (Kind : Type) := mkCommand { kind : Kind; lun : Z }.
Arguments mkCommand {Kind} kind lun.
Arguments kind {Kind} c.
Arguments lun {Kind} c.

(** A class over the Bulk-Only Transport: a lens on the transport. *)
Class OverBulkOnly `{!UsbStack} (C : Type) := {
  transport : C -> BulkOnly;
  set_transport : BulkOnly -> C -> C;
  transport_set t c : transport (set_transport t c) = t;
  set_transport_same c : set_transport (transport c) c = c
}.

Section Command.
Context `{!UsbStack} {C : Type} `{!OverBulkOnly C}.

Definition on_transport {A} (m : M BulkOnly A) : M C A := zoom transport set_transport m.

Definition read_data (dst : list byte) : M C (list byte * BResult Z) :=
  on_transport (Bbb.read_data dst).
Definition write_data (src : list byte) : M C (BResult Z) :=
  on_transport (Bbb.write_data src).
Definition try_write_data_all (src : list byte) : M C (BResult unit) :=
  on_transport (Bbb.try_write_data_all src).
Definition pass (num_bytes_processed : Z) : M C unit :=
  on_transport (set_status Passed num_bytes_processed).
Definition fail (num_bytes_processed : Z) : M C unit :=
  on_transport (set_status Failed num_bytes_processed).
Definition fail_phase : M C unit := on_transport (set_status PhaseError 0).

(** The closure of the user, given to [poll_command]. *)
Definition callback (Kind : Type) : Type := Command Kind -> M C (BResult unit).

(** [poll_command] of both subclasses, which differ in the parser only. *)
Definition poll_command_with {Kind} (parse_cb : list byte -> outcome Kind)
    (callback : callback Kind) : M C (BResult unit) :=
  let! raw_cb := gets_o (get_command ∘ transport) in
  match raw_cb with
  | Some raw_cb =>
    let! t := gets transport in
    if negb (has_status t) then
      let lun := cb_lun raw_cb in
      let! kind := lift (parse_cb (cb_bytes raw_cb)) in
      let? _ := callback (mkCommand kind lun) in
      let? _ := on_transport poll in
      ret (Ok tt)
    else ret (Ok tt)
  | None => ret (Ok tt)
  end.

Lemma wp_on_transport {A} (m : M BulkOnly A) Q c :
  wp m (fun a t => Q a (set_transport t c)) (transport c) -> wp (on_transport m) Q c.
Proof. apply wp_zoom. Qed.
End Command.

(** ** Poll a command *)

Section Poll.
Context `{!UsbStack, !UsbStackLaws} {C : Type} `{!OverBulkOnly C}.
Context {Kind : Type} (parse_cb : list byte -> outcome Kind).

(** The user's turn: there is a command and its status is not set. *)
Definition awaits_user (t : BulkOnly) : Prop :=
  command_phase (state t) = false /\ has_status t = false.

#[export] Instance awaits_user_dec t : Decision (awaits_user t).
Proof. unfold awaits_user. apply _. Defined.

Lemma poll_command_idle cb c :
  reachable (transport c) -> ~ awaits_user (transport c) ->
  poll_command_with parse_cb cb c = Returns (Ok tt, c).
Proof.
  intros (d & Hd & Ht)%reachable_good Hno. unfold poll_command_with, bind, gets_o, gets, compose.
  rewrite (get_command_run d) by done. unfold awaits_user in Hno.
  destruct (command_phase _); [done|]. destruct (has_status _); [done|]. by destruct Hno.
Qed.

(** The bytes that the parser is given: between 1 and 16. *)
Definition command_bytes (t : BulkOnly) : list byte := ztake (block_len (cbw t)) (block (cbw t)).

Lemma command_bytes_len t :
  reachable t -> awaits_user t -> 1 <= len (command_bytes t) <= 16.
Proof.
  intros (d & Hd & Ht)%reachable_good [Hp _].
  destruct (good_cbw d t Ht Hp) as [_ _ _ _ ? ?]. unfold command_bytes. len_lia.
Qed.

Lemma poll_command_run cb c :
  reachable (transport c) -> awaits_user (transport c) ->
  poll_command_with parse_cb cb c =
  bind (lift (parse_cb (command_bytes (transport c)))) (fun k =>
    bind_try (cb (mkCommand k (Bbb.lun (cbw (transport c))))) (fun _ =>
      bind_try (on_transport poll) (fun _ => ret (Ok tt)))) c.
Proof.
  intros (d & Hd & Ht)%reachable_good [Hp Hs]. unfold poll_command_with at 1.
  unfold bind at 1, gets_o at 1, compose. rewrite (get_command_run d) by done. rewrite Hp.
  unfold bind at 1, gets at 1. by rewrite Hs.
Qed.

(** What is asked of a callback: run in the user's turn, it returns and leaves the
    transport in a state that calls of its methods lead to. *)
Definition callback_ok (cb : callback Kind) : Prop :=
  forall k c, reachable (transport c) -> awaits_user (transport c) ->
    wp (cb k) (fun _ c' => rtc step (transport c) (transport c')) c.

Lemma reachable_rtc t t' : reachable t -> rtc step t t' -> reachable t'.
Proof. intros Ht Hs. induction Hs; eauto using reachable_step. Qed.

Lemma poll_command_ok cb c :
  reachable (transport c) -> callback_ok cb ->
  (awaits_user (transport c) -> exists k, parse_cb (command_bytes (transport c)) = Returns k) ->
  wp (poll_command_with parse_cb cb) (fun _ c' => reachable (transport c')) c.
Proof.
  intros Hr Hcb Hparse.
  destruct (decide (awaits_user (transport c))) as [Hu|Hu].
  - unfold wp. rewrite poll_command_run by done. destruct (Hparse Hu) as [k Hk]. rewrite Hk.
    change (wp (let? _ := cb (mkCommand k (Bbb.lun (cbw (transport c)))) in
      let? _ := on_transport poll in ret (Ok tt)) (fun _ c' => reachable (transport c')) c).
    wp_steps. eapply wp_mono; [by apply Hcb|]. intros [[]|e] c' Hs; [|by eapply reachable_rtc].
    apply (reachable_rtc _ _ Hr) in Hs as Hr'. pose proof Hr' as (d & Hd & Ht)%reachable_good.
    wp_steps. apply wp_on_transport.
    pose proof (poll_good d Hd _ Ht) as (r & t' & Hrun & _)%wp_run. apply wp_run.
    exists r, t'. split; [done|].
    assert (reachable t') as Ht'.
    { eapply reachable_step; [exact Hr'|]. apply (step_call _ CPoll). cbn. unfold bind. by rewrite Hrun. }
    destruct r; [wp_steps|]; by rewrite transport_set.
  - unfold wp. by rewrite poll_command_idle.
Qed.
End Poll.

(** A callback that passes every command without data. *)
Definition pass_all {C} `{!UsbStack} `{!OverBulkOnly C} {Kind} : callback (C := C) Kind :=
  fun _ => do! pass 0 in ret (Ok tt).
Lemma pass_all_ok {C} `{!UsbStack, !UsbStackLaws} `{!OverBulkOnly C} {Kind} :
  callback_ok (C := C) (Kind := Kind) pass_all.
Proof.
  intros k c (d & Hd & Ht)%reachable_good [Hp Hs]. unfold pass_all, pass. wp_steps.
  assert (status_phase (state (transport c)) = true) as Hph.
  { apply (awaiting_status d); [done|done|]. unfold has_status in Hs. by destruct (cs _). }
  apply wp_on_transport, wp_run. eexists _, _. split; [by apply set_status_run|].
  wp_steps. rewrite transport_set. eapply rtc_l; [|constructor].
  eapply (step_call _ (CSetStatus Passed 0)). by apply set_status_run.
Qed.
