(* ===== verification/Scsi.v ===== *)
(** * The SCSI subclass ([usbd-storage/src/subclass/scsi.rs])

    The command descriptor block parser, the subclass over the Bulk-Only Transport
    with [poll_command], and the [UsbClass] methods over any transport. The feature
    [extended_addressing] is a parameter of the parser. The conversion from a number
    to [PageControl] is generated by the derive macro of [num_enum]: it is an
    operation of a class, with its documented behaviour as the law. *)
From S2P Require Import Prelude.
From S2P Require Import Usb.
From S2P Require Import Buffer.
From S2P Require Import Transport.
From S2P Require Import Bbb.
From S2P Require Import Subclass.

Local Open Scope Z_scope.
Local Open Scope rust_scope.

(** SCSI device subclass code *)
Definition SUBCLASS_SCSI : Z := 0x06.

(* SPC *)
Definition TEST_UNIT_READY : Z := 0x00.
Definition REQUEST_SENSE : Z := 0x03.
Definition INQUIRY : Z := 0x12.
Definition MODE_SENSE_6 : Z := 0x1A.
Definition MODE_SENSE_10 : Z := 0x5A.
(* SBC *)
Definition READ_10 : Z := 0x28.
Definition READ_16 : Z := 0x88.
Definition READ_CAPACITY_10 : Z := 0x25.
Definition READ_CAPACITY_16 : Z := 0x9E.
Definition WRITE_10 : Z := 0x2A.
Definition WRITE_16 : Z := 0x8A.
(* MMC *)
Definition READ_FORMAT_CAPACITIES : Z := 0x23.

Inductive PageControl := CurrentValues | ChangeableValues | DefaultValues | SavedValues.

Definition page_control_code (p : PageControl) : Z :=
  match p with
  | CurrentValues => 0 | ChangeableValues => 1 | DefaultValues => 2 | SavedValues => 3
  end.

(** SCSI command. The integers are [u8], [u16] or [u32] values, or [u64] and [u32] for
    [lba] and [len] with extended addressing. *)
Inductive ScsiCommand :=
| Unknown (cmd : Z)
| Inquiry (evpd : bool) (page_code alloc_len : Z)
| TestUnitReady
| RequestSense (desc : bool) (alloc_len : Z)
| ModeSense6 (dbd : bool) (page_control : PageControl) (page_code subpage_code alloc_len : Z)
| ModeSense10 (dbd : bool) (page_control : PageControl) (page_code subpage_code alloc_len : Z)
| ReadCapacity10
| ReadCapacity16 (alloc_len : Z)
| Read (lba len : Z)
| Write (lba len : Z)
| ReadFormatCapacities (alloc_len : Z).

(** [#[derive(TryFromPrimitive)]] on [PageControl]. *)
Class TryFromPrimitive := try_from_primitive : Z -> option PageControl.

(** [uN::from_be_bytes([cb[i], ...])]. *)
Fixpoint indices (cb : list byte) (l : list Z) : outcome (list byte) :=
  match l with
  | [] => Returns []
  | i :: l => let* b := index cb i in let* bs := indices cb l in Returns (b :: bs)
  end.
Definition be_at (cb : list byte) (l : list Z) : outcome Z :=
  let* bs := indices cb l in Returns (from_be_bytes bs).

Section ParseCb.
Context `{!TryFromPrimitive}.
(** Whether the feature is enabled. *)
Context (extended_addressing : bool).

Definition unwrap_or_current (p : option PageControl) : PageControl :=
  match p with Some p => p | None => CurrentValues end.

Definition parse_cb (cb : list byte) : outcome ScsiCommand :=
  if len cb =? 0 then Panics
  else
    let* cmd := u8_at cb 0 in
    let n := len cb in
    if cmd =? TEST_UNIT_READY then Returns TestUnitReady
    else if (cmd =? INQUIRY) && (5 <=? n) then
      let* b1 := u8_at cb 1 in
      let* page_code := u8_at cb 2 in
      let* alloc_len := be_at cb [3; 4] in
      Returns (Inquiry (negb (Z.land b1 1 =? 0)) page_code alloc_len)
    else if (cmd =? REQUEST_SENSE) && (5 <=? n) then
      let* b1 := u8_at cb 1 in
      let* alloc_len := u8_at cb 4 in
      Returns (RequestSense (negb (Z.land b1 1 =? 0)) alloc_len)
    else if cmd =? READ_CAPACITY_10 then Returns ReadCapacity10
    else if (cmd =? READ_CAPACITY_16) && (14 <=? n) then
      let* alloc_len := be_at cb [10; 11; 12; 13] in
      Returns (ReadCapacity16 alloc_len)
    else if (cmd =? READ_10) && (9 <=? n) then
      let* lba := be_at cb [2; 3; 4; 5] in
      let* l := be_at cb [7; 8] in
      Returns (Read lba l)
    else if extended_addressing && ((cmd =? READ_16) && (14 <=? n)) then
      let* lba := be_at cb [2; 3; 4; 5; 6; 7; 8; 9] in
      let* l := be_at cb [10; 11; 12; 13] in
      Returns (Read lba l)
    else if (cmd =? WRITE_10) && (9 <=? n) then
      let* lba := be_at cb [2; 3; 4; 5] in
      let* l := be_at cb [7; 8] in
      Returns (Write lba l)
    else if extended_addressing && ((cmd =? WRITE_16) && (14 <=? n)) then
      let* lba := be_at cb [2; 3; 4; 5; 6; 7; 8; 9] in
      let* l := be_at cb [10; 11; 12; 13] in
      Returns (Write lba l)
    else if (cmd =? MODE_SENSE_6) && (5 <=? n) then
      let* b1 := u8_at cb 1 in
      let* b2 := u8_at cb 2 in
      let* subpage_code := u8_at cb 3 in
      let* alloc_len := u8_at cb 4 in
      Returns (ModeSense6 (negb (Z.land b1 8 =? 0))
                 (unwrap_or_current (try_from_primitive (Z.shiftr b2 6)))
                 (Z.land b2 63) subpage_code alloc_len)
    else if (cmd =? MODE_SENSE_10) && (9 <=? n) then
      let* b1 := u8_at cb 1 in
      let* b2 := u8_at cb 2 in
      let* subpage_code := u8_at cb 3 in
      let* alloc_len := be_at cb [7; 8] in
      Returns (ModeSense10 (negb (Z.land b1 8 =? 0))
                 (unwrap_or_current (try_from_primitive (Z.shiftr b2 6)))
                 (Z.land b2 63) subpage_code alloc_len)
    else if (cmd =? READ_FORMAT_CAPACITIES) && (9 <=? n) then
      let* alloc_len := be_at cb [7; 8] in
      Returns (ReadFormatCapacities alloc_len)
    else Returns (Unknown cmd).
End ParseCb.

(** ** The subclass *)

Section Scsi.
  Context `{!UsbStack}.

(** [Scsi<T>] *)
Record Scsi (T : Type) := mkScsi { interface : InterfaceNumber; scsi_transport : T }.
Arguments mkScsi {T} interface scsi_transport.
Arguments interface {T} s.
Arguments scsi_transport {T} s.

#[export] Instance Scsi_OverBulkOnly : OverBulkOnly (Scsi BulkOnly) := {
  transport := scsi_transport;
  set_transport t s := mkScsi (interface s) t;
  transport_set t c := eq_refl;
  set_transport_same c := match c with mkScsi i t => eq_refl end
}.

(** The closure given to [map] allocates the interface when there is a transport. *)
Definition new (packet_size max_lun : Z) (buf : list byte) (b : Bus)
    : outcome (result (Scsi BulkOnly) BulkOnlyError * Bus) :=
  let* (r, b) := Bbb.new packet_size max_lun buf b in
  match r with
  | Ok transport =>
    let* (interface, b) := alloc_interface b in
    Returns (Ok (mkScsi interface (set_bus b transport)), b)
  | Err e => Returns (Err e, b)
  end.

Definition poll_command `{!TryFromPrimitive} (extended_addressing : bool)
    (callback : callback (C := Scsi BulkOnly) ScsiCommand) : M (Scsi BulkOnly) (BResult unit) :=
  poll_command_with (parse_cb extended_addressing) callback.

(** ** [UsbClass], over any transport *)

Section UsbClass.
Context {T TError : Type} `{!Transport T TError}.

Definition on_scsi_transport {A} (m : M T A) : M (Scsi T) A :=
  zoom scsi_transport (fun t s => mkScsi (interface s) t) m.

Definition get_configuration_descriptors (s : Scsi T) : M DescriptorWriter (result unit UsbError) :=
  let? _ := writer_iad (interface s) 1 CLASS_MASS_STORAGE SUBCLASS_SCSI PROTO in
  let? _ := writer_interface (interface s) CLASS_MASS_STORAGE SUBCLASS_SCSI PROTO in
  let? _ := Transport.get_endpoint_descriptors (scsi_transport s) in
  ret (Ok tt).

Definition reset : M (Scsi T) unit := on_scsi_transport Transport.reset.

Definition control_in (xfer : Request) : M (Scsi T) unit :=
  on_scsi_transport (Transport.control_in xfer).

(** An error is only logged. *)
Definition poll : M (Scsi T) unit :=
  let! _ := on_scsi_transport Transport.poll in ret tt.
End UsbClass.
End Scsi.
Arguments Scsi {_} T.
Arguments mkScsi {_ T} interface scsi_transport.
Arguments interface {_ T} s.
Arguments scsi_transport {_ T} s.
