(* ===== verification/ScsiSpec.v ===== *)
(** * Specification of the SCSI subclass

    The parser never panics on a command block and decodes what the standards
    encode; [poll_command] runs the user's callback exactly when a command awaits it
    and keeps the transport's invariant; the [UsbClass] methods pass on what they
    are given. *)
From stdpp Require Import relations.
From S2P Require Import Prelude.
From S2P Require Import Usb.
From S2P Require Import Buffer.
From S2P Require Import Transport.
From S2P Require Import Bbb.
From S2P Require Import BotSpec.
From S2P Require Import BbbRefine.
From S2P Require Import BbbMethods.
From S2P Require Import BbbReach.
From S2P Require Import MockBus.
From S2P Require Import BbbSafe.
From S2P Require Import Subclass.
From S2P Require Import Scsi.

Local Open Scope Z_scope.
Local Open Scope rust_scope.

(** The documented behaviour of the derived conversion: the number of a variant is
    converted to that variant, any other is refused. *)
Class TryFromPrimitiveLaw `{!TryFromPrimitive} :=
  try_from_primitive_law z p : try_from_primitive z = Some p <-> page_control_code p = z.

#[export] Instance page_control_try_from : TryFromPrimitive := fun z =>
  match z with
  | 0 => Some CurrentValues | 1 => Some ChangeableValues
  | 2 => Some DefaultValues | 3 => Some SavedValues | _ => None
  end.
#[export] Instance page_control_try_from_law : TryFromPrimitiveLaw.
Proof.
  intros z p. unfold try_from_primitive, page_control_try_from. split.
  - destruct z as [|[[]|[]|]|]; try done; by intros [= <-].
  - intros <-. by destruct p.
Qed.

(** ** Reading fields *)

Lemma be_at_run cb l :
  Forall (fun i => 0 <= i < len cb) l ->
  exists v, be_at cb l = Returns v /\ 0 <= v < 256 ^ len l.
Proof.
  intros Hl. assert (exists bs, indices cb l = Returns bs /\ len bs = len l) as (bs & Hbs & Hlen).
  { induction Hl as [|i l Hi _ (bs & Hbs & Hlen)]; cbn [indices]; [by exists []|].
    destruct (index_run cb i Hi) as (b & -> & _). cbn [obind]. rewrite Hbs. cbn [obind].
    exists (b :: bs). split; [done|]. by rewrite !len_cons, Hlen. }
  exists (from_be_bytes bs). unfold be_at. rewrite Hbs. split; [done|].
  rewrite <- Hlen. apply from_be_bytes_range.
Qed.

(** ** What the parser accepts *)

(** The number of bytes that a command's fields take, for the opcodes it knows. *)
Definition min_len (ext : bool) (cmd : Z) : option Z :=
  if cmd =? TEST_UNIT_READY then Some 1
  else if cmd =? INQUIRY then Some 5
  else if cmd =? REQUEST_SENSE then Some 5
  else if cmd =? READ_CAPACITY_10 then Some 1
  else if cmd =? READ_CAPACITY_16 then Some 14
  else if cmd =? READ_10 then Some 9
  else if ext && (cmd =? READ_16) then Some 14
  else if cmd =? WRITE_10 then Some 9
  else if ext && (cmd =? WRITE_16) then Some 14
  else if cmd =? MODE_SENSE_6 then Some 5
  else if cmd =? MODE_SENSE_10 then Some 9
  else if cmd =? READ_FORMAT_CAPACITIES then Some 9
  else None.

Definition known (ext : bool) (cmd n : Z) : bool :=
  match min_len ext cmd with Some m => m <=? n | None => false end.

(** Every field in the range of its Rust type. *)
Definition in_range (ext : bool) (c : ScsiCommand) : Prop :=
  match c with
  | Unknown cmd => 0 <= cmd < 2 ^ 8
  | Inquiry _ page_code alloc_len => 0 <= page_code < 2 ^ 8 /\ 0 <= alloc_len < 2 ^ 16
  | TestUnitReady | ReadCapacity10 => True
  | RequestSense _ alloc_len => 0 <= alloc_len < 2 ^ 8
  | ModeSense6 _ _ page_code subpage_code alloc_len =>
    0 <= page_code < 2 ^ 6 /\ 0 <= subpage_code < 2 ^ 8 /\ 0 <= alloc_len < 2 ^ 8
  | ModeSense10 _ _ page_code subpage_code alloc_len =>
    0 <= page_code < 2 ^ 6 /\ 0 <= subpage_code < 2 ^ 8 /\ 0 <= alloc_len < 2 ^ 16
  | ReadCapacity16 alloc_len => 0 <= alloc_len < 2 ^ 32
  | Read lba len | Write lba len =>
    if ext then 0 <= lba < 2 ^ 64 /\ 0 <= len < 2 ^ 32 else 0 <= lba < 2 ^ 32 /\ 0 <= len < 2 ^ 16
  | ReadFormatCapacities alloc_len => 0 <= alloc_len < 2 ^ 16
  end.

Definition is_unknown (c : ScsiCommand) : bool :=
  match c with Unknown _ => true | _ => false end.

Lemma land_63_range b : 0 <= b -> 0 <= Z.land b 63 < 2 ^ 6.
Proof. intros. change 63 with (Z.ones 6). rewrite Z.land_ones by lia. apply Z.mod_pos_bound. lia. Qed.

(** Evaluate the accesses to [cb], whose length is bounded in the context. *)
Ltac parse_fields cb :=
  repeat match goal with
  | |- context [u8_at cb ?i] =>
    let v := fresh "v" in let Hv := fresh "Hv" in
    destruct (u8_at_run cb i) as (v & -> & Hv); [lia|]; cbn [obind]
  | |- context [be_at cb ?l] =>
    let v := fresh "v" in let Hv := fresh "Hv" in
    destruct (be_at_run cb l) as (v & -> & Hv); [repeat constructor; lia|]; cbn [obind];
    let n := eval vm_compute in (256 ^ len l) in change (256 ^ len l) with n in Hv
  end.

(** The branch of the opcode [op]: the block is too short, or its fields are read. *)
Ltac opcode cb cmd op :=
  destruct (Z.eqb_spec cmd op) as [->|_];
  [ closed_eqb; rewrite ?andb_false_r; cbn [andb];
    try (destruct (_ <=? len cb) eqn:?; [|try lia]); rewrite ?andb_false_r; closed_eqb;
    (parse_fields cb; eexists; split; [done|];
      split; [lia|]; split; [reflexivity|]; split; [|done]; cbn;
      split_and?; try first [lia | done | apply land_63_range; lia])
  | cbn [andb] ].

Lemma scsi_parse_cb_run `{!TryFromPrimitive} ext cb :
  1 <= len cb ->
  exists cmd c, u8_at cb 0 = Returns cmd /\ 0 <= cmd < 256 /\ parse_cb ext cb = Returns c /\
    in_range ext c /\
    if known ext cmd (len cb) then is_unknown c = false else c = Unknown cmd.
Proof.
  intros Hlen. destruct (u8_at_run cb 0) as (cmd & Hcmd & Hr); [lia|]. exists cmd.
  unfold parse_cb, known, min_len. rewrite Hcmd. replace (len cb =? 0) with false by lia.
  cbn [obind]. unfold obind at 1.
  opcode cb cmd TEST_UNIT_READY.
  opcode cb cmd INQUIRY.
  opcode cb cmd REQUEST_SENSE.
  opcode cb cmd READ_CAPACITY_10.
  opcode cb cmd READ_CAPACITY_16.
  opcode cb cmd READ_10; [destruct ext; lia..|].
  destruct ext; cbn [andb].
  - opcode cb cmd READ_16.
    opcode cb cmd WRITE_10.
    opcode cb cmd WRITE_16.
    opcode cb cmd MODE_SENSE_6.
    opcode cb cmd MODE_SENSE_10.
    opcode cb cmd READ_FORMAT_CAPACITIES.
    eexists. split; [done|]. split; [lia|]. split; [reflexivity|]. split; [cbn; lia|done].
  - opcode cb cmd WRITE_10.
    opcode cb cmd MODE_SENSE_6.
    opcode cb cmd MODE_SENSE_10.
    opcode cb cmd READ_FORMAT_CAPACITIES.
    eexists. split; [done|]. split; [lia|]. split; [reflexivity|]. split; [cbn; lia|done].
Qed.

(** C34: The parser is total on what a command can carry: for any non-empty block it
    returns, without a panic, a command whose every field is in the range of its type;
    it is [Unknown] with the opcode exactly when the opcode is not supported (READ and
    WRITE (16) only with extended addressing) or the block is shorter than the
    command's fields. *)
Theorem scsi_parse_total `{!TryFromPrimitive} (ext : bool) (cb : list byte) :
  1 <= len cb ->
  exists cmd c, u8_at cb 0 = Returns cmd /\ parse_cb ext cb = Returns c /\ in_range ext c /\
    (is_unknown c = true <-> known ext cmd (len cb) = false) /\
    (is_unknown c = true -> c = Unknown cmd).
Proof.
  intros Hlen. destruct (scsi_parse_cb_run ext cb Hlen) as (cmd & c & Hcmd & _ & Hc & Hr & Hk).
  exists cmd, c. split; [done|]. split; [done|]. split; [done|].
  destruct (known ext cmd (len cb)); [|by subst]. rewrite Hk. done.
Qed.

Lemma scsi_parse_total_witness :
  exists c, parse_cb true (map byte_of [READ_16; 0; 0; 0; 0; 0; 0; 0; 0; 0; 0; 0]) = Returns c /\
    in_range true c.
Proof.
  destruct (scsi_parse_total true (map byte_of [READ_16; 0; 0; 0; 0; 0; 0; 0; 0; 0; 0; 0]))
    as (cmd & c & _ & Hc & Hr & _); [by vm_compute|]. exists c. exact (conj Hc Hr).
Defined.

(** ** What the standards encode *)

Definition flag (b : bool) (v : Z) : Z := if b then v else 0.

(** The command descriptor blocks of SPC, SBC and MMC; with extended addressing the
    16-byte forms of READ and WRITE. *)
Definition cdb (ext : bool) (c : ScsiCommand) : list byte :=
  match c with
  | Unknown cmd => [byte_of cmd]
  | Inquiry evpd page_code alloc_len =>
    map byte_of [INQUIRY; flag evpd 1; page_code] ++ to_be_bytes 2 alloc_len
  | TestUnitReady => map byte_of [TEST_UNIT_READY; 0; 0; 0; 0; 0]
  | RequestSense desc alloc_len => map byte_of [REQUEST_SENSE; flag desc 1; 0; 0; alloc_len]
  | ModeSense6 dbd pc page_code subpage_code alloc_len =>
    map byte_of [MODE_SENSE_6; flag dbd 8; page_control_code pc * 64 + page_code; subpage_code;
                 alloc_len]
  | ModeSense10 dbd pc page_code subpage_code alloc_len =>
    map byte_of [MODE_SENSE_10; flag dbd 8; page_control_code pc * 64 + page_code; subpage_code;
                 0; 0; 0] ++ to_be_bytes 2 alloc_len
  | ReadCapacity10 => map byte_of [READ_CAPACITY_10; 0; 0; 0; 0; 0; 0; 0; 0; 0]
  | ReadCapacity16 alloc_len =>
    map byte_of [READ_CAPACITY_16; 0x10; 0; 0; 0; 0; 0; 0; 0; 0] ++ to_be_bytes 4 alloc_len
  | Read lba len =>
    if ext then map byte_of [READ_16; 0] ++ to_be_bytes 8 lba ++ to_be_bytes 4 len
    else map byte_of [READ_10; 0] ++ to_be_bytes 4 lba ++ [byte_of 0] ++ to_be_bytes 2 len
  | Write lba len =>
    if ext then map byte_of [WRITE_16; 0] ++ to_be_bytes 8 lba ++ to_be_bytes 4 len
    else map byte_of [WRITE_10; 0] ++ to_be_bytes 4 lba ++ [byte_of 0] ++ to_be_bytes 2 len
  | ReadFormatCapacities alloc_len =>
    map byte_of [READ_FORMAT_CAPACITIES; 0; 0; 0; 0; 0; 0] ++ to_be_bytes 2 alloc_len
  end.

(** Consecutive bytes of a list whose beginning is known. *)
Lemma indices_mid (l m k : list byte) js :
  js = map (fun j => len l + Z.of_nat j) (seq 0 (length m)) -> indices (l ++ m ++ k) js = Returns m.
Proof.
  intros ->. revert l. induction m as [|b m IH]; intros l; [done|]. cbn [length seq map indices].
  assert (index (l ++ (b :: m) ++ k) (len l + Z.of_nat 0) = Returns b) as ->.
  { apply index_lookup; [|pose proof (len_nonneg l); lia]. unfold len.
    rewrite Z.add_0_r, Nat2Z.id, lookup_app_r by lia. by rewrite Nat.sub_diag. }
  cbn [obind]. specialize (IH (l ++ [b])). rewrite <- app_assoc in IH. cbn [app] in IH |- *.
  rewrite <- seq_shift, map_map.
  replace (map (fun j => len l + Z.of_nat (S j)) (seq 0 (length m))) with
    (map (fun j => len (l ++ [b]) + Z.of_nat j) (seq 0 (length m))).
  - by rewrite IH.
  - apply map_ext. intros j. rewrite len_app, len_cons, len_nil. lia.
Qed.

Lemma be_at_mid (l k : list byte) n z js :
  js = map (fun j => len l + Z.of_nat j) (seq 0 n) -> 0 <= z < 256 ^ Z.of_nat n ->
  be_at (l ++ to_be_bytes n z ++ k) js = Returns z.
Proof.
  intros -> Hz. unfold be_at. rewrite indices_mid.
  - cbn [obind]. by rewrite from_to_be_bytes, Z.mod_small.
  - f_equal. f_equal. unfold to_be_bytes. by rewrite length_rev, length_to_le_bytes.
Qed.

Lemma page_control_parse `{!TryFromPrimitive, !TryFromPrimitiveLaw} pc page :
  0 <= page < 64 ->
  unwrap_or_current (try_from_primitive (Z.shiftr (page_control_code pc * 64 + page) 6)) = pc /\
  Z.land (page_control_code pc * 64 + page) 63 = page.
Proof.
  intros Hp. rewrite Z.shiftr_div_pow2 by lia. change (2 ^ 6) with 64.
  change 63 with (Z.ones 6). rewrite Z.land_ones by lia. change (2 ^ 6) with 64. split; [|dm_lia].
  replace ((page_control_code pc * 64 + page) / 64) with (page_control_code pc) by dm_lia.
  destruct (try_from_primitive (page_control_code pc)) as [p|] eqn:Hpc.
  - apply try_from_primitive_law in Hpc. by destruct p, pc.
  - assert (try_from_primitive (page_control_code pc) = Some pc) by by apply try_from_primitive_law.
    congruence.
Qed.

Lemma be_at_zdrop l i n z k js :
  zdrop i l = to_be_bytes n z ++ k -> 0 <= i <= len l ->
  js = map (fun j => i + Z.of_nat j) (seq 0 n) -> 0 <= z < 256 ^ Z.of_nat n ->
  be_at l js = Returns z.
Proof.
  intros Hl Hi -> Hz. rewrite <- (ztake_zdrop i l), Hl.
  apply be_at_mid; [|done]. by replace (len (ztake i l)) with i by len_lia.
Qed.

(** A block that the standards define for a supported opcode. *)
Definition standard (ext : bool) (c : ScsiCommand) : Prop :=
  in_range ext c /\ (forall cmd, c = Unknown cmd -> min_len ext cmd = None).

(** Evaluate the parser on a block whose fields are known. *)
Ltac be_field :=
  match goal with
  | |- context [be_at ?l (?i :: ?js)] =>
    erewrite (be_at_zdrop l i _ _ _ (i :: js)); [|reflexivity|len_lia|reflexivity|field_range];
    cbn [obind]
  end.
Ltac decode :=
  match goal with
  | |- context [u8_at ?l 0] =>
    erewrite (u8_at_lookup l 0); [|reflexivity|lia|vm_compute; done]; cbn [obind]
  end;
  closed_eqb;
  repeat match goal with
  | |- context [?m <=? len ?l] => assert (m <= len l) by len_lia; replace (m <=? len l) with true by lia
  end; cbn [andb]; repeat first [byte_field | be_field].

(** C33: Round trip with the standards: the parser maps the command descriptor block of
    every command (Inquiry, Request Sense, Mode Sense (6) and (10), Read Capacity (10)
    and (16), Read and Write (10), or (16) with extended addressing, Read Format
    Capacities, Test Unit Ready, and any unsupported opcode) back to that command with
    all its fields, whatever follows it in the 16 bytes. *)
Theorem scsi_parse_roundtrip `{!TryFromPrimitive, !TryFromPrimitiveLaw} (ext : bool)
    (c : ScsiCommand) (rest : list byte) :
  standard ext c -> parse_cb ext (cdb ext c ++ rest) = Returns c.
Proof.
  intros [Hr Hu].
  assert (forall b v, 0 <= v < 256 -> 0 <= flag b v < 256) as Hflag by (intros [] ?; cbn; lia).
  assert (forall pc page, 0 <= page < 64 -> 0 <= page_control_code pc * 64 + page < 256) as Hpc
    by (intros [] ?; cbn; lia).
  assert (forall b, negb (Z.land (flag b 1) 1 =? 0) = b) as Hbit1 by (by intros []).
  assert (forall b, negb (Z.land (flag b 8) 8 =? 0) = b) as Hbit8 by (by intros []).
  destruct c as [cmd|ev pg al| |ds al|db pc pg sp al|db pc pg sp al| |al|lba n|lba n|al]; cbn in Hr.
  { specialize (Hu cmd eq_refl).
    destruct (scsi_parse_cb_run ext (cdb ext (Unknown cmd) ++ rest)) as (op & c & Hop & _ & Hc & _ & Hk).
    { cbn [cdb]. len_lia. }
    cbn [cdb] in *. erewrite (u8_at_lookup _ 0) in Hop; [|reflexivity|lia|lia].
    injection Hop as <-. rewrite Hc. unfold known in Hk. rewrite Hu in Hk. by rewrite Hk. }
  all: unfold parse_cb, cdb; try (destruct ext; cbn [andb]).
  all: match goal with |- context [len ?x =? 0] =>
    assert (0 < len x) by (cbn [map app]; len_lia); replace (len x =? 0) with false by lia end.
  all: rewrite <- ?app_assoc; cbn [map app].
  all: decode.
  all: try done.
  all: try (destruct (page_control_parse pc pg) as [-> ->]; [lia|]).
  all: by rewrite ?Hbit1, ?Hbit8.
Qed.

Lemma scsi_parse_roundtrip_witness :
  parse_cb true (cdb true (ModeSense10 true SavedValues 0x3F 1 0x1234) ++ zreplicate 7 x00) =
    Returns (ModeSense10 true SavedValues 0x3F 1 0x1234) /\
  parse_cb false (cdb false (Read 0x01020304 0x0506)) = Returns (Read 0x01020304 0x0506).
Proof.
  split.
  - apply (scsi_parse_roundtrip true (ModeSense10 true SavedValues 0x3F 1 0x1234)).
    split; [cbn; lia|discriminate].
  - rewrite <- (app_nil_r (cdb _ _)). apply (scsi_parse_roundtrip false (Read 0x01020304 0x0506)).
    split; [cbn; lia|discriminate].
Defined.

(** C39: The feature [extended_addressing] only adds commands: with and without it the
    parser gives the same command for every block whose opcode is not READ (16) or
    WRITE (16); without it those two are [Unknown]. *)
Theorem extended_addressing_conservative `{!TryFromPrimitive} (cb : list byte) (cmd : Z) :
  u8_at cb 0 = Returns cmd ->
  if (cmd =? READ_16) || (cmd =? WRITE_16) then parse_cb false cb = Returns (Unknown cmd)
  else parse_cb true cb = parse_cb false cb.
Proof.
  intros Hcmd. assert (len cb <> 0) as Hlen.
  { intros Hz%len_zero_inv. by subst. }
  unfold parse_cb. replace (len cb =? 0) with false by lia. rewrite Hcmd. cbn [obind andb].
  destruct (Z.eqb_spec cmd READ_16) as [->|_]; [by closed_eqb|].
  destruct (Z.eqb_spec cmd WRITE_16) as [->|_]; [by closed_eqb|]. done.
Qed.

Lemma extended_addressing_conservative_witness :
  parse_cb false (cdb true (Read 5 1)) = Returns (Unknown READ_16).
Proof.
  exact (extended_addressing_conservative (cdb true (Read 5 1)) READ_16 eq_refl).
Defined.

(** ** The subclass *)

Section Scsi.
Context `{!UsbStack, !UsbStackLaws, !TryFromPrimitive}.

Lemma command_parses ext t :
  reachable t -> awaits_user t ->
  exists k, parse_cb ext (command_bytes t) = Returns k /\ in_range ext k.
Proof.
  intros Hr Hu. pose proof (command_bytes_len t Hr Hu) as Hlen.
  destruct (scsi_parse_cb_run ext (command_bytes t)) as (cmd & k & _ & _ & Hk & Hir & _); [lia|].
  by exists k.
Qed.
Lemma command_fuel ext t : reachable t -> awaits_user t -> parse_cb ext (command_bytes t) <> OutOfFuel.
Proof. intros Hr Hu. by destruct (command_parses ext t Hr Hu) as (k & -> & _). Qed.

(** The commands that take several turns. *)
Definition moves_data (c : ScsiCommand) : bool :=
  match c with Read _ _ | Write _ _ => true | _ => false end.

(** The fields of a command in progress are in the range of their types. *)
Lemma scsi_decoded_range ext d (t : BulkOnly) k :
  good d t -> command_phase (state t) = false ->
  parse_cb ext (command_bytes t) = Returns k -> in_range ext k.
Proof.
  intros Hg Hp Hk. destruct (good_cbw d t Hg Hp) as [_ _ _ _ ? ?].
  destruct (scsi_parse_cb_run ext (command_bytes t)) as (cmd & k' & _ & _ & Hk' & Hr & _).
  { unfold command_bytes. len_lia. }
  by replace k with k' by congruence.
Qed.
End Scsi.

(** [Scsi::poll_command] on any reachable transport, with any callback that returns
    when it is given the user's turn: nothing panics (the parser is only ever given
    the 1 to 16 bytes of a valid wrapper) and the transport stays in a state to which
    all the theorems about reachable states apply. *)
Lemma scsi_poll_command_safe `{!UsbStack, !UsbStackLaws, !TryFromPrimitive} (ext : bool)
    (cb : callback (C := Scsi BulkOnly) ScsiCommand) (s : Scsi BulkOnly) :
  reachable (scsi_transport s) -> callback_ok cb ->
  wp (poll_command ext cb) (fun _ s' => reachable (scsi_transport s')) s.
Proof.
  intros Hr Hcb. refine (poll_command_ok (C := Scsi BulkOnly) (parse_cb ext) cb s Hr Hcb _).
  intros Hu. destruct (command_parses ext _ Hr Hu) as (k & Hk & _). by exists k.
Qed.

(** SCSI over the transport in the middle of an IN command. *)
Definition scsi_midway : Scsi (@BulkOnly MockStack) := mkScsi (0 : @InterfaceNumber MockStack) in_transfer.

Lemma scsi_poll_command_safe_witness :
  wp (poll_command false pass_all) (fun _ s' => reachable (scsi_transport s')) scsi_midway.
Proof. exact (scsi_poll_command_safe false pass_all scsi_midway in_transfer_reachable pass_all_ok). Defined.

(** [Scsi::poll_command] runs the callback exactly in the user's turn: without a
    command, or once its status is set, it does nothing; otherwise it calls it once,
    with the decoded command block (fields in range) and the LUN of the wrapper, and
    then polls the transport; an error of either is returned and cuts it short. *)
Lemma scsi_poll_command_spec `{!UsbStack, !UsbStackLaws, !TryFromPrimitive} (ext : bool)
    (cb : callback (C := Scsi BulkOnly) ScsiCommand) (s : Scsi BulkOnly) :
  let t := scsi_transport s in
  reachable t ->
  (~ awaits_user t -> poll_command ext cb s = Returns (Ok tt, s)) /\
  (awaits_user t -> exists k, parse_cb ext (command_bytes t) = Returns k /\ in_range ext k /\
     poll_command ext cb s =
       bind_try (cb (mkCommand k (Bbb.lun (Bbb.cbw t)))) (fun _ =>
         bind_try (on_transport Bbb.poll) (fun _ => ret (Ok tt))) s).
Proof.
  intros t Hr. split.
  - intros Hno. by apply poll_command_idle.
  - intros Hu. destruct (command_parses ext t Hr Hu) as (k & Hk & Hir). exists k.
    split; [done|]. split; [done|]. unfold poll_command. rewrite poll_command_run by done.
    change (transport s) with t. by rewrite Hk.
Qed.

(** The error a callback may return is passed on. *)
Definition refuse : callback (C := Scsi (@BulkOnly MockStack)) ScsiCommand :=
  fun _ => ret (Err (Error InvalidState)).
Lemma scsi_poll_command_spec_witness :
  exists k, poll_command false refuse scsi_midway =
    bind_try (refuse (mkCommand k (Bbb.lun (Bbb.cbw (scsi_transport scsi_midway))))) (fun _ =>
      bind_try (on_transport Bbb.poll) (fun _ => ret (Ok tt))) scsi_midway.
Proof.
  assert (command_phase (state in_transfer) = false) as Hp by (by vm_compute).
  assert (has_status in_transfer = false) as Hs by (by vm_compute).
  destruct (proj2 (scsi_poll_command_spec false refuse scsi_midway in_transfer_reachable)
    (conj Hp Hs)) as (k & _ & _ & Hrun).
  exists k. exact Hrun.
Defined.

(** [Scsi::new] makes the transport first and allocates the interface only for a
    transport that was made: its errors are those of [BulkOnly::new] and touch
    nothing; otherwise the subclass owns a reachable, idle transport. *)
Lemma scsi_new_spec `{!UsbStack, !UsbStackLaws} (ps ml : Z) (bf : list byte) (b : Bus) :
  bus_fresh b -> 0 < ps < 2 ^ 16 -> 0 <= ml ->
  if 0x0F <? ml then Scsi.new ps ml bf b = Returns (Err InvalidMaxLun, b)
  else if (len bf <? CBW_LEN) || (len bf <? ps)
  then Scsi.new ps ml bf b = Returns (Err BufferTooSmall, b)
  else owp (Scsi.new ps ml bf b) (fun '(r, b') => exists s d, r = Ok s /\ device_ok d /\
    d_ps d = ps /\ d_max_lun d = ml /\ d_capacity d = len bf /\ good d (scsi_transport s) /\
    state (scsi_transport s) = CommandTransfer /\ b' = bus (scsi_transport s)).
Proof.
  intros Hb Hps Hml. unfold Scsi.new. destruct (Z.ltb_spec 0x0F ml).
  { by rewrite new_max_lun. }
  destruct (_ || _) eqn:Hsmall.
  { apply orb_prop in Hsmall. rewrite new_too_small by lia. done. }
  apply orb_false_elim in Hsmall.
  assert (new_accepts ps ml bf) as Hacc by (unfold new_accepts; lia).
  pose proof (new_accepted ps ml bf b Hb Hps Hml Hacc) as Hnew.
  destruct (Bbb.new ps ml bf b) as [[r b']| |]; [|done..].
  destruct Hnew as (t & -> & -> & i & o & Hd & Hdps & Hl & Hv). cbn [obind].
  pose proof Hl as [Hi Ho Hm Hbus Hbuf Hc].
  pose proof (alloc_interface_law i o (bus t) Hbus) as (n & b2 & Hrun & Hok & Hin & Hout)%wp_run.
  rewrite Hrun. cbn [obind owp]. eexists _, _. split; [done|]. split; [exact Hd|].
  split; [exact Hdps|]. split; [done|]. split; [done|]. cbn.
  injection Hv as Hst Hq Hleft Hcbw Hcs Hlin Hlout.
  split; [|done]. split; [by constructor|].
  unfold bot_inv, view. cbn. rewrite Hst, Hq, Hcs. split; [len_lia|done].
Qed.

Lemma scsi_new_spec_witness :
  Scsi.new 64 16 (zreplicate 512 x00) (fresh_bus : @Bus MockStack) =
    Returns (Err InvalidMaxLun, fresh_bus).
Proof.
  assert (bus_fresh (fresh_bus : @Bus MockStack)) as Hb by done.
  exact (scsi_new_spec 64 16 (zreplicate 512 x00) _ Hb ltac:(lia) ltac:(lia)).
Defined.

(** The [UsbClass] methods of [Scsi], over any transport: the configuration
    descriptors are, in order, the interface association (one interface), the
    interface, both with class 0x08, subclass 0x06 and the transport's protocol, and
    the transport's endpoints, and the first error of the writer ends them; [reset],
    [control_in] and [poll] act on the transport alone, and [poll] drops its error. *)
Lemma scsi_usb_class_spec `{!UsbStack} {T TError} `{!Transport T TError} (s : Scsi T)
    (req : Request) :
  get_configuration_descriptors s =
    bind_try (writer_iad (interface s) 1 0x08 0x06 PROTO) (fun _ =>
      bind_try (writer_interface (interface s) 0x08 0x06 PROTO) (fun _ =>
        bind_try (Transport.get_endpoint_descriptors (scsi_transport s)) (fun _ => ret (Ok tt)))) /\
  Scsi.reset s = obind (Transport.reset (scsi_transport s))
    (fun '(_, t) => Returns (tt, mkScsi (interface s) t)) /\
  Scsi.control_in req s = obind (Transport.control_in req (scsi_transport s))
    (fun '(_, t) => Returns (tt, mkScsi (interface s) t)) /\
  Scsi.poll s = obind (Transport.poll (scsi_transport s))
    (fun '(_, t) => Returns (tt, mkScsi (interface s) t)).
Proof.
  split; [done|].
  unfold Scsi.reset, Scsi.control_in, Scsi.poll, on_scsi_transport, bind, zoom, obind, ret.
  split; [by destruct (Transport.reset _) as [[[] t]| |]|].
  split; [by destruct (Transport.control_in _ _) as [[[] t]| |]|].
  by destruct (Transport.poll _) as [[r t]| |].
Qed.

(** On the test bus, the descriptors of SCSI over Bulk-Only are those of the class:
    association, interface, IN endpoint, OUT endpoint. *)
Lemma scsi_bbb_descriptors :
  get_configuration_descriptors scsi_midway [] =
    Returns (Ok tt, [DIad 0 1 0x08 0x06 0x50; DInterface 0 0x08 0x06 0x50;
                     DEndpoint (mkMockEndpoint UsbDirIn 8); DEndpoint (mkMockEndpoint UsbDirOut 8)]).
Proof. by vm_compute. Qed.
