(* ===== verification/Ufi.v ===== *)
(** * The UFI subclass ([usbd-storage/src/subclass/ufi.rs])

    The conversions from a block address to the geometry of a floppy, the command
    block parser and the subclass, as in file Scsi. This parser has no guards on the
    length of the block: where the code indexes or slices beyond it, the definition
    panics. *)
From S2P Require Import Prelude.
From S2P Require Import Usb.
From S2P Require Import Buffer.
From S2P Require Import Transport.
From S2P Require Import Bbb.
From S2P Require Import Subclass.

Local Open Scope Z_scope.
Local Open Scope rust_scope.

(** UFI device subclass code *)
Definition SUBCLASS_UFI : Z := 0x04.

(* UFI codes *)
Definition FORMAT_UNIT : Z := 0x04.
Definition INQUIRY : Z := 0x12.
Definition MODE_SELECT : Z := 0x55.
Definition MODE_SENSE : Z := 0x5A.
Definition PREVENT_ALLOW_MEDIUM_REMOVAL : Z := 0x1E.
Definition READ_10 : Z := 0x28.
Definition READ_12 : Z := 0xA8.
Definition READ_CAPACITY : Z := 0x25.
Definition READ_FORMAT_CAPACITIES : Z := 0x23.
Definition REQUEST_SENSE : Z := 0x03.
Definition REZERO_UNIT : Z := 0x01.
Definition SEEK_10 : Z := 0x2B.
Definition SEND_DIAGNOSTIC : Z := 0x1D.
Definition START_STOP : Z := 0x1B.
Definition TEST_UNIT_READY : Z := 0x00.
Definition VERIFY : Z := 0x2F.
Definition WRITE_10 : Z := 0x2A.
Definition WRITE_12 : Z := 0xAA.
Definition WRITE_AND_VERIFY : Z := 0x2E.

(** [a / b] and [a % b] on unsigned integers: a zero divisor panics. *)
Definition div_u (a b : Z) : outcome Z := if b =? 0 then Panics else Returns (a / b).
Definition rem_u (a b : Z) : outcome Z := if b =? 0 then Panics else Returns (a mod b).

Definition lba_to_sector (lba sec_trk : Z) : outcome Z :=
  let* r := rem_u lba sec_trk in Returns (r + 1).
Definition lba_to_head (lba sec_trk head_trk : Z) : outcome Z :=
  let* q := div_u lba sec_trk in rem_u q head_trk.
Definition lba_to_track (lba sec_trk head_trk : Z) : outcome Z :=
  let* q := div_u lba sec_trk in div_u q head_trk.

(** UFI command. The integers are [u8], [u16] or [u32] values. *)
Inductive UfiCommand :=
| Unknown
| FormatUnit (track parameter_list_len : Z)
| Inquiry (alloc_len : Z)
| TestUnitReady
| PreventAllowMediumRemoval (prevent : bool)
| ReadCapacity
| RequestSense (alloc_len : Z)
| ModeSense (page_control page_code param_list_len : Z)
| ModeSelect (parameter_list_len : Z)
| StartStop (start eject : bool)
| Read (lba len : Z)
| Write (lba len : Z) (verify : bool)
| ReadFormatCapacities (alloc_len : Z)
| RezeroUnit
| Seek (lba : Z)
| SendDiagnostic (default : bool)
| Verify (lba len : Z).

(** [uN::from_be_bytes(cb[a..b].try_into().unwrap())] for the [n]-byte type. *)
Definition be_slice (n : Z) (cb : list byte) (a b : Z) : outcome Z :=
  let* l := slice cb a b in
  if len l =? n then Returns (from_be_bytes l) else Panics.

Definition parse_cb (cb : list byte) : outcome UfiCommand :=
  let* cmd := u8_at cb 0 in
  if cmd =? REQUEST_SENSE then let* alloc_len := u8_at cb 4 in Returns (RequestSense alloc_len)
  else if cmd =? INQUIRY then let* alloc_len := u8_at cb 4 in Returns (Inquiry alloc_len)
  else if cmd =? TEST_UNIT_READY then Returns TestUnitReady
  else if cmd =? READ_CAPACITY then Returns ReadCapacity
  else if cmd =? PREVENT_ALLOW_MEDIUM_REMOVAL then
    let* b4 := u8_at cb 4 in Returns (PreventAllowMediumRemoval (negb (b4 =? 0)))
  else if cmd =? MODE_SENSE then
    let* b2 := u8_at cb 2 in
    let* param_list_len := be_slice 2 cb 7 9 in
    Returns (ModeSense (Z.shiftr b2 6) (Z.land b2 63) param_list_len)
  else if cmd =? READ_10 then
    let* lba := be_slice 4 cb 2 6 in
    let* l := be_slice 2 cb 7 9 in
    Returns (Read lba l)
  else if cmd =? READ_12 then
    let* lba := be_slice 4 cb 2 6 in
    let* l := be_slice 4 cb 6 10 in
    Returns (Read lba l)
  else if cmd =? WRITE_10 then
    let* lba := be_slice 4 cb 2 6 in
    let* l := be_slice 2 cb 7 9 in
    Returns (Write lba l false)
  else if cmd =? WRITE_12 then
    let* lba := be_slice 4 cb 2 6 in
    let* l := be_slice 4 cb 6 10 in
    Returns (Write lba l false)
  else if cmd =? WRITE_AND_VERIFY then
    let* lba := be_slice 4 cb 2 6 in
    let* l := be_slice 2 cb 7 9 in
    Returns (Write lba l true)
  else if cmd =? FORMAT_UNIT then
    let* track := u8_at cb 2 in
    let* parameter_list_len := be_slice 2 cb 7 9 in
    Returns (FormatUnit track parameter_list_len)
  else if cmd =? MODE_SELECT then
    let* parameter_list_len := be_slice 2 cb 7 9 in
    Returns (ModeSelect parameter_list_len)
  else if cmd =? READ_FORMAT_CAPACITIES then
    let* alloc_len := be_slice 2 cb 7 9 in
    Returns (ReadFormatCapacities alloc_len)
  else if cmd =? REZERO_UNIT then Returns RezeroUnit
  else if cmd =? SEEK_10 then
    let* lba := be_slice 4 cb 2 6 in Returns (Seek lba)
  else if cmd =? SEND_DIAGNOSTIC then
    let* b1 := u8_at cb 1 in
    Returns (SendDiagnostic (0 <? Z.land b1 (Z.shiftl 1 2)))
  else if cmd =? START_STOP then
    let* b4 := u8_at cb 4 in
    Returns (StartStop (0 <? Z.land b4 1) (b4 =? 2))
  else if cmd =? VERIFY then
    let* lba := be_slice 4 cb 2 6 in
    let* l := be_slice 2 cb 7 9 in
    Returns (Verify lba l)
  else Returns Unknown.

(** ** The subclass *)

Section Ufi.
  Context `{!UsbStack}.

(** [Ufi<T>] *)
Record Ufi (T : Type) := mkUfi { interface : InterfaceNumber; ufi_transport : T }.
Arguments mkUfi {T} interface ufi_transport.
Arguments interface {T} u.
Arguments ufi_transport {T} u.

#[export] Instance Ufi_OverBulkOnly : OverBulkOnly (Ufi BulkOnly) := {
  transport := ufi_transport;
  set_transport t u := mkUfi (interface u) t;
  transport_set t c := eq_refl;
  set_transport_same c := match c with mkUfi i t => eq_refl end
}.

(** UFI has one logical unit. *)
Definition new (packet_size : Z) (buf : list byte) (b : Bus)
    : outcome (result (Ufi BulkOnly) BulkOnlyError * Bus) :=
  let* (r, b) := Bbb.new packet_size 0 buf b in
  match r with
  | Ok transport =>
    let* (interface, b) := alloc_interface b in
    Returns (Ok (mkUfi interface (set_bus b transport)), b)
  | Err e => Returns (Err e, b)
  end.

Definition poll_command (callback : callback (C := Ufi BulkOnly) UfiCommand)
    : M (Ufi BulkOnly) (BResult unit) :=
  poll_command_with parse_cb callback.

(** The methods of [Command] for UFI. *)
Definition read_data : list byte -> M (Ufi BulkOnly) (list byte * BResult Z) := Subclass.read_data.
Definition write_data : list byte -> M (Ufi BulkOnly) (BResult Z) := Subclass.write_data.
Definition try_write_data_all : list byte -> M (Ufi BulkOnly) (BResult unit) :=
  Subclass.try_write_data_all.
Definition pass : Z -> M (Ufi BulkOnly) unit := Subclass.pass.
Definition fail : Z -> M (Ufi BulkOnly) unit := Subclass.fail.
Definition fail_phase : M (Ufi BulkOnly) unit := Subclass.fail_phase.

(** ** [UsbClass], over any transport *)

Section UsbClass.
Context {T TError : Type} `{!Transport T TError}.

Definition on_ufi_transport {A} (m : M T A) : M (Ufi T) A :=
  zoom ufi_transport (fun t u => mkUfi (interface u) t) m.

Definition get_configuration_descriptors (u : Ufi T) : M DescriptorWriter (result unit UsbError) :=
  let? _ := writer_iad (interface u) 1 CLASS_MASS_STORAGE SUBCLASS_UFI PROTO in
  let? _ := writer_interface (interface u) CLASS_MASS_STORAGE SUBCLASS_UFI PROTO in
  let? _ := Transport.get_endpoint_descriptors (ufi_transport u) in
  ret (Ok tt).

Definition reset : M (Ufi T) unit := on_ufi_transport Transport.reset.

Definition control_in (xfer : Request) : M (Ufi T) unit :=
  on_ufi_transport (Transport.control_in xfer).

(** An error is only logged. *)
Definition poll : M (Ufi T) unit :=
  let! _ := on_ufi_transport Transport.poll in ret tt.
End UsbClass.
End Ufi.
Arguments Ufi {_} T.
Arguments mkUfi {_ T} interface ufi_transport.
Arguments interface {_ T} u.
Arguments ufi_transport {_ T} u.
