(* ===== verification/UfiSpec.v ===== *)
(** * Specification of the UFI subclass

    The geometry conversions are a bijection; the parser decodes the 12-byte blocks of
    the UFI specification, and panics exactly on a block that is shorter than the
    fields of its opcode, which a host can cause. *)
From stdpp Require Import relations.
From S2P Require Import Prelude.
From S2P Require Import Usb.
From S2P Require Import Buffer.
From S2P Require Import Transport.
From S2P Require Import Bbb.
From S2P Require Import BotSpec.
From S2P Require Import BbbRefine.
From S2P Require Import BbbMethods.
From S2P Require Import BbbReach.
From S2P Require Import MockBus.
From S2P Require Import BbbSafe.
From S2P Require Import Subclass.
From S2P Require Import Ufi.

Local Open Scope Z_scope.
Local Open Scope rust_scope.

(** ** Geometry *)

(** Cylinder, head and sector of a block: for a geometry with at least one sector
    per track and one head, the conversions return a sector from 1, a head below the
    number of heads and a track that together determine the address; with a zero in the
    geometry they panic, [lba_to_sector] for the sectors and the others for either. *)
Lemma lba_geometry (lba sec_trk head_trk : Z) :
  0 <= lba -> 0 <= sec_trk < 256 -> 0 <= head_trk < 256 ->
  (sec_trk = 0 -> lba_to_sector lba sec_trk = Panics) /\
  (sec_trk = 0 \/ head_trk = 0 ->
   lba_to_head lba sec_trk head_trk = Panics /\ lba_to_track lba sec_trk head_trk = Panics) /\
  (0 < sec_trk -> 0 < head_trk -> exists s h t,
     lba_to_sector lba sec_trk = Returns s /\ lba_to_head lba sec_trk head_trk = Returns h /\
     lba_to_track lba sec_trk head_trk = Returns t /\
     1 <= s <= sec_trk /\ 0 <= h < head_trk /\ 0 <= t <= lba /\
     lba = (t * head_trk + h) * sec_trk + (s - 1)).
Proof.
  intros Hl Hs Hh. unfold lba_to_sector, lba_to_head, lba_to_track, div_u, rem_u. split_and!.
  - by intros ->.
  - intros [-> | ->]; [done|]. by destruct (sec_trk =? 0).
  - intros ??. replace (sec_trk =? 0) with false by lia. cbn [obind].
    replace (head_trk =? 0) with false by lia. do 3 eexists. do 3 (split; [done|]).
    pose proof (Z.div_mod lba sec_trk ltac:(lia)). pose proof (Z.mod_pos_bound lba sec_trk ltac:(lia)).
    pose proof (Z.div_mod (lba / sec_trk) head_trk ltac:(lia)).
    pose proof (Z.mod_pos_bound (lba / sec_trk) head_trk ltac:(lia)).
    assert (0 <= lba / sec_trk <= lba) by (split; [apply Z.div_pos; lia|apply Z.div_le_upper_bound; nia]).
    split; [lia|]. split; [lia|]. split.
    + split; [apply Z.div_pos; lia|]. apply Z.div_le_upper_bound; nia.
    + nia.
Qed.

(** The last block of a 1.44 MB floppy. *)
Lemma lba_geometry_witness :
  exists s h t, lba_to_sector 2879 18 = Returns s /\ lba_to_head 2879 18 2 = Returns h /\
    lba_to_track 2879 18 2 = Returns t /\ 2879 = (t * 2 + h) * 18 + (s - 1).
Proof.
  destruct (lba_geometry 2879 18 2 ltac:(lia) ltac:(lia) ltac:(lia)) as (_ & _ & Hg).
  destruct (Hg ltac:(lia) ltac:(lia)) as (s & h & t & Hs & Hh & Ht & _ & _ & _ & Heq).
  exists s, h, t. exact (conj Hs (conj Hh (conj Ht Heq))).
Defined.

(** ** Reading fields *)

Lemma be_slice_run n cb a b :
  0 <= a -> 0 <= n -> b = a + n -> b <= len cb ->
  exists v, be_slice n cb a b = Returns v /\ 0 <= v < 256 ^ n.
Proof.
  intros ? ? -> ?. exists (from_be_bytes (zslice a (a + n) cb)). unfold be_slice.
  rewrite slice_run by lia. cbn [obind].
  assert (len (zslice a (a + n) cb) = n) as Hn by len_lia. rewrite Hn, Z.eqb_refl.
  split; [done|]. rewrite <- Hn at 3. apply from_be_bytes_range.
Qed.
Lemma be_slice_out n cb a b : len cb < b -> be_slice n cb a b = Panics.
Proof.
  intros Hb. unfold be_slice, slice.
  replace ((0 <=? a) && (a <=? b) && (b <=? len cb)) with false by lia. done.
Qed.

(** ** What the parser accepts *)

(** The number of bytes that the parser reads for an opcode. *)
Definition need (cmd : Z) : Z :=
  if existsb (Z.eqb cmd) [REQUEST_SENSE; INQUIRY; PREVENT_ALLOW_MEDIUM_REMOVAL; START_STOP] then 5
  else if existsb (Z.eqb cmd) [MODE_SENSE; READ_10; WRITE_10; WRITE_AND_VERIFY; FORMAT_UNIT;
    MODE_SELECT; READ_FORMAT_CAPACITIES; VERIFY] then 9
  else if existsb (Z.eqb cmd) [READ_12; WRITE_12] then 10
  else if cmd =? SEEK_10 then 6
  else if cmd =? SEND_DIAGNOSTIC then 2
  else 1.

Definition supported (cmd : Z) : bool :=
  existsb (Z.eqb cmd) [REQUEST_SENSE; INQUIRY; PREVENT_ALLOW_MEDIUM_REMOVAL; START_STOP; MODE_SENSE;
    READ_10; WRITE_10; WRITE_AND_VERIFY; FORMAT_UNIT; MODE_SELECT; READ_FORMAT_CAPACITIES; VERIFY;
    READ_12; WRITE_12; SEEK_10; SEND_DIAGNOSTIC; TEST_UNIT_READY; READ_CAPACITY; REZERO_UNIT].

(** Every field in the range of its Rust type. *)
Definition in_range (c : UfiCommand) : Prop :=
  match c with
  | Unknown | TestUnitReady | PreventAllowMediumRemoval _ | ReadCapacity | RezeroUnit
  | SendDiagnostic _ | StartStop _ _ => True
  | FormatUnit track l => 0 <= track < 2 ^ 8 /\ 0 <= l < 2 ^ 16
  | Inquiry l | RequestSense l => 0 <= l < 2 ^ 8
  | ModeSense pc page l => 0 <= pc < 2 ^ 2 /\ 0 <= page < 2 ^ 6 /\ 0 <= l < 2 ^ 16
  | ModeSelect l | ReadFormatCapacities l => 0 <= l < 2 ^ 16
  | Read lba l | Write lba l _ => 0 <= lba < 2 ^ 32 /\ 0 <= l < 2 ^ 32
  | Seek lba => 0 <= lba < 2 ^ 32
  | Verify lba l => 0 <= lba < 2 ^ 32 /\ 0 <= l < 2 ^ 16
  end.

Definition is_unknown (c : UfiCommand) : bool :=
  match c with Unknown => true | _ => false end.

Lemma page_range b : 0 <= b < 256 -> 0 <= Z.shiftr b 6 < 2 ^ 2 /\ 0 <= Z.land b 63 < 2 ^ 6.
Proof.
  intros. change 63 with (Z.ones 6). rewrite Z.land_ones, Z.shiftr_div_pow2 by lia.
  change (2 ^ 6) with 64. dm_lia.
Qed.

(** Evaluate the accesses to [cb], whose length is bounded in the context. *)
Ltac parse_fields cb :=
  repeat match goal with
  | |- context [u8_at cb ?i] =>
    let v := fresh "v" in let Hv := fresh "Hv" in
    first [ rewrite (u8_at_out cb i) by lia
          | destruct (u8_at_run cb i) as (v & -> & Hv); [lia|] ]; cbn [obind]
  | |- context [be_slice ?n cb ?a ?b] =>
    let v := fresh "v" in let Hv := fresh "Hv" in
    first [ rewrite (be_slice_out n cb a b) by lia
          | destruct (be_slice_run n cb a b) as (v & -> & Hv); [lia..|];
            let m := eval vm_compute in (256 ^ n) in change (256 ^ n) with m in Hv ];
    cbn [obind]
  end.

(** The same when a field is missing: whichever comes first panics. *)
Ltac parse_fields_short cb :=
  lazymatch goal with
  | |- context [u8_at cb ?i] =>
    let v := fresh "v" in
    destruct (Z.le_gt_cases (len cb) i);
    [ rewrite (u8_at_out cb i) by lia; reflexivity
    | destruct (u8_at_run cb i) as (v & -> & _); [lia|]; cbn [obind]; parse_fields_short cb ]
  | |- context [be_slice ?n cb ?a ?b] =>
    let v := fresh "v" in
    destruct (Z.lt_ge_cases (len cb) b);
    [ rewrite (be_slice_out n cb a b) by lia; reflexivity
    | destruct (be_slice_run n cb a b) as (v & -> & _); [lia..|]; cbn [obind]; parse_fields_short cb ]
  | _ => exfalso; lia
  end.

(** The branch of the opcode [op]: its fields are read, or the block is too short. *)
Ltac opcode cb cmd op :=
  destruct (Z.eqb_spec cmd op) as [->|?];
  [ repeat match goal with Hne : op <> _ |- _ => clear Hne end;
    match goal with
    | |- context [need op] =>
      let m := eval vm_compute in (need op) in change (need op) with m;
      let s := eval vm_compute in (supported op) in change (supported op) with s
    end; closed_eqb; cbn iota;
    match goal with |- context [?m <=? len cb] => destruct (Z.leb_spec m (len cb)) end;
    [ parse_fields cb; eexists; split; [reflexivity|]; split; [|done]; cbn;
      split_and?; try first [done | lia | apply page_range; lia]
    | parse_fields_short cb ]
  | ].

Lemma ufi_parse_cb_run cb cmd :
  u8_at cb 0 = Returns cmd ->
  if need cmd <=? len cb
  then exists c, parse_cb cb = Returns c /\ in_range c /\ is_unknown c = negb (supported cmd)
  else parse_cb cb = Panics.
Proof.
  intros Hcmd. assert (1 <= len cb) as Hlen.
  { destruct cb; [done|]. len_lia. }
  unfold parse_cb. rewrite Hcmd. cbn [obind].
  opcode cb cmd REQUEST_SENSE. opcode cb cmd INQUIRY. opcode cb cmd TEST_UNIT_READY.
  opcode cb cmd READ_CAPACITY. opcode cb cmd PREVENT_ALLOW_MEDIUM_REMOVAL.
  opcode cb cmd MODE_SENSE. opcode cb cmd READ_10. opcode cb cmd READ_12. opcode cb cmd WRITE_10.
  opcode cb cmd WRITE_12. opcode cb cmd WRITE_AND_VERIFY. opcode cb cmd FORMAT_UNIT.
  opcode cb cmd MODE_SELECT. opcode cb cmd READ_FORMAT_CAPACITIES. opcode cb cmd REZERO_UNIT.
  opcode cb cmd SEEK_10. opcode cb cmd SEND_DIAGNOSTIC. opcode cb cmd START_STOP.
  opcode cb cmd VERIFY.
  assert (need cmd = 1 /\ supported cmd = false) as [-> ->].
  { unfold need, supported. cbn [existsb].
    repeat match goal with Hne : cmd <> ?op |- _ =>
      rewrite (proj2 (Z.eqb_neq cmd op) Hne); clear Hne end. done. }
  replace (1 <=? len cb) with true by lia. by exists Unknown.
Qed.

(** C35: The parser on a block of any length: it panics exactly if the block is shorter
    than the fields of its opcode (an empty block has not even an opcode); otherwise it
    returns a command whose every field is in the range of its type, which is [Unknown]
    exactly when the opcode is not one of the nineteen supported ones. *)
Theorem ufi_parse_spec (cb : list byte) :
  (cb = [] -> parse_cb cb = Panics) /\
  (forall cmd, u8_at cb 0 = Returns cmd ->
    (len cb < need cmd <-> parse_cb cb = Panics) /\
    (need cmd <= len cb -> exists c, parse_cb cb = Returns c /\ in_range c /\
       (c = Unknown <-> supported cmd = false))).
Proof.
  split; [by intros ->|]. intros cmd Hcmd. pose proof (ufi_parse_cb_run cb cmd Hcmd) as Hrun.
  destruct (Z.leb_spec (need cmd) (len cb)) as [Hle|Hlt].
  - destruct Hrun as (c & Hc & Hr & Hu). split.
    + rewrite Hc. split; [lia|done].
    + intros _. exists c. split; [done|]. split; [done|].
      destruct (supported cmd); cbn in Hu; (split; [intros ->; done|]);
        [done|destruct c; done].
  - split; [done|lia].
Qed.

(** READ (12) cut off before its length field. *)
Lemma ufi_parse_spec_witness : parse_cb (map byte_of [READ_12; 0; 0; 0; 0; 7; 0; 0; 0]) = Panics.
Proof.
  destruct (ufi_parse_spec (map byte_of [READ_12; 0; 0; 0; 0; 7; 0; 0; 0])) as [_ Hp].
  destruct (Hp READ_12 eq_refl) as [[Hpanics _] _]. apply Hpanics. by vm_compute.
Defined.

(** ** What the UFI specification encodes *)

Definition flag (b : bool) (v : Z) : Z := if b then v else 0.

(** The 12-byte command blocks; READ, WRITE in their 12-byte forms if [long]. *)
Definition ufi_block (long : bool) (c : UfiCommand) : list byte :=
  match c with
  | Unknown => map byte_of [0xFF; 0; 0; 0; 0; 0; 0; 0; 0; 0; 0; 0]
  | FormatUnit track l =>
    map byte_of [FORMAT_UNIT; 0x17; track; 0; 0; 0; 0] ++ to_be_bytes 2 l ++ map byte_of [0; 0; 0]
  | Inquiry l => map byte_of [INQUIRY; 0; 0; 0; l; 0; 0; 0; 0; 0; 0; 0]
  | TestUnitReady => map byte_of [TEST_UNIT_READY; 0; 0; 0; 0; 0; 0; 0; 0; 0; 0; 0]
  | PreventAllowMediumRemoval p =>
    map byte_of [PREVENT_ALLOW_MEDIUM_REMOVAL; 0; 0; 0; flag p 1; 0; 0; 0; 0; 0; 0; 0]
  | ReadCapacity => map byte_of [READ_CAPACITY; 0; 0; 0; 0; 0; 0; 0; 0; 0; 0; 0]
  | RequestSense l => map byte_of [REQUEST_SENSE; 0; 0; 0; l; 0; 0; 0; 0; 0; 0; 0]
  | ModeSense pc page l =>
    map byte_of [MODE_SENSE; 0; pc * 64 + page; 0; 0; 0; 0] ++ to_be_bytes 2 l ++ map byte_of [0; 0; 0]
  | ModeSelect l =>
    map byte_of [MODE_SELECT; 0x10; 0; 0; 0; 0; 0] ++ to_be_bytes 2 l ++ map byte_of [0; 0; 0]
  | StartStop start eject =>
    map byte_of [START_STOP; 0; 0; 0; flag start 1 + flag eject 2; 0; 0; 0; 0; 0; 0; 0]
  | Read lba l =>
    if long then map byte_of [READ_12; 0] ++ to_be_bytes 4 lba ++ to_be_bytes 4 l ++ map byte_of [0; 0]
    else map byte_of [READ_10; 0] ++ to_be_bytes 4 lba ++ [byte_of 0] ++ to_be_bytes 2 l ++
      map byte_of [0; 0; 0]
  | Write lba l verify =>
    if verify then map byte_of [WRITE_AND_VERIFY; 0] ++ to_be_bytes 4 lba ++ [byte_of 0] ++
      to_be_bytes 2 l ++ map byte_of [0; 0; 0]
    else if long
    then map byte_of [WRITE_12; 0] ++ to_be_bytes 4 lba ++ to_be_bytes 4 l ++ map byte_of [0; 0]
    else map byte_of [WRITE_10; 0] ++ to_be_bytes 4 lba ++ [byte_of 0] ++ to_be_bytes 2 l ++
      map byte_of [0; 0; 0]
  | ReadFormatCapacities l =>
    map byte_of [READ_FORMAT_CAPACITIES; 0; 0; 0; 0; 0; 0] ++ to_be_bytes 2 l ++ map byte_of [0; 0; 0]
  | RezeroUnit => map byte_of [REZERO_UNIT; 0; 0; 0; 0; 0; 0; 0; 0; 0; 0; 0]
  | Seek lba => map byte_of [SEEK_10; 0] ++ to_be_bytes 4 lba ++ map byte_of [0; 0; 0; 0; 0; 0]
  | SendDiagnostic d => map byte_of [SEND_DIAGNOSTIC; flag d 4; 0; 0; 0; 0; 0; 0; 0; 0; 0; 0]
  | Verify lba l =>
    map byte_of [VERIFY; 0] ++ to_be_bytes 4 lba ++ [byte_of 0] ++ to_be_bytes 2 l ++
      map byte_of [0; 0; 0]
  end.

(** The commands that the specification can encode in the chosen form. *)
Definition encodable (long : bool) (c : UfiCommand) : Prop :=
  in_range c /\
  match c with
  | Read _ l => long = true \/ l < 2 ^ 16
  | Write _ l verify => (long = true /\ verify = false) \/ l < 2 ^ 16
  | StartStop start eject => start && eject = false
  | _ => True
  end.

Lemma be_slice_lookup m n l a z k :
  zdrop a l = to_be_bytes n z ++ k -> 0 <= a <= len l -> m = Z.of_nat n ->
  0 <= z < 256 ^ Z.of_nat n -> be_slice m l a (a + m) = Returns z.
Proof.
  intros Hl Ha -> Hz.
  assert (len l = a + Z.of_nat n + len k) as Hlen.
  { rewrite <- (ztake_zdrop a l), Hl. len_lia. }
  pose proof (len_nonneg k). unfold be_slice. rewrite slice_run by lia. cbn [obind].
  unfold zslice. rewrite Hl. replace (a + Z.of_nat n - a) with (len (to_be_bytes n z)) by len_lia.
  rewrite ztake_app_le, ztake_all by lia. replace (len (to_be_bytes n z) =? Z.of_nat n) with true by len_lia.
  by rewrite from_to_be_bytes, Z.mod_small.
Qed.

Ltac be_field :=
  match goal with
  | |- context [be_slice ?m ?l ?a ?b] =>
    change b with (a + m); erewrite (be_slice_lookup m _ l a);
      [|reflexivity|len_lia|reflexivity|field_range]; cbn [obind]
  end.

(** C36: Round trip with the UFI specification: the parser maps the 12-byte block of every
    command (READ and WRITE in the forms with 16-bit and with 32-bit lengths) back to that
    command with all its fields, whatever follows it. START STOP UNIT with both bits set
    (load) is the one block that no [UfiCommand] stands for and is left out. *)
Theorem ufi_parse_roundtrip (long : bool) (c : UfiCommand) (rest : list byte) :
  encodable long c -> len (ufi_block long c) = 12 /\ parse_cb (ufi_block long c ++ rest) = Returns c.
Proof.
  intros [Hr He].
  assert (forall b v, 0 <= v < 256 -> 0 <= flag b v < 256) as Hflag by (intros [] ?; cbn; lia).
  assert (forall p, negb (flag p 1 =? 0) = p) as Hprevent by (by intros []).
  assert (forall p, (0 <? Z.land (flag p 4) (Z.shiftl 1 2)) = p) as Hdefault by (by intros []).
  assert (forall s e, s && e = false -> (0 <? Z.land (flag s 1 + flag e 2) 1) = s /\
    (flag s 1 + flag e 2 =? 2) = e) as Hstart by (by intros [] []).
  assert (forall s e, 0 <= flag s 1 + flag e 2 < 256) as Hstart' by (intros [] []; cbn; lia).
  assert (forall pc page, 0 <= pc < 4 -> 0 <= page < 64 ->
    Z.shiftr (pc * 64 + page) 6 = pc /\ Z.land (pc * 64 + page) 63 = page) as Hpage.
  { intros. change 63 with (Z.ones 6). rewrite Z.land_ones, Z.shiftr_div_pow2 by lia.
    change (2 ^ 6) with 64. dm_lia. }
  split.
  { destruct c; try destruct verify; destruct long; cbn [ufi_block map app]; len_lia. }
  destruct c; cbn in Hr; unfold parse_cb, ufi_block; try destruct verify; try destruct long.
  all: rewrite <- ?app_assoc; cbn [map app].
  all: match goal with |- context [u8_at ?l 0] =>
    erewrite (u8_at_lookup l 0); [|reflexivity|lia|vm_compute; done]; cbn [obind] end.
  all: closed_eqb; repeat first [byte_field | be_field].
  all: try done.
  all: rewrite ?Hprevent, ?Hdefault; try done.
  all: first [ destruct (Hpage page_control page_code) as [-> ->]; [lia..|done]
             | destruct (Hstart start eject He) as [-> ->]; done ].
Qed.

Lemma ufi_parse_roundtrip_witness :
  parse_cb (ufi_block true (Write 0x01020304 0x00050607 false) ++ zreplicate 4 x00) =
    Returns (Write 0x01020304 0x00050607 false).
Proof.
  refine (proj2 (ufi_parse_roundtrip true (Write 0x01020304 0x00050607 false) (zreplicate 4 x00) _)).
  split; [cbn; lia|left; done].
Defined.

(** ** The subclass *)

(** The commands that take several turns (writes are accepted at once). *)
Definition moves_data (c : UfiCommand) : bool := match c with Read _ _ => true | _ => false end.

(** The fields of a command in progress are in the range of their types. *)
Lemma ufi_decoded_range `{!UsbStack, !UsbStackLaws} d (t : BulkOnly) k :
  good d t -> command_phase (state t) = false ->
  parse_cb (command_bytes t) = Returns k -> in_range k.
Proof.
  intros Hg Hp Hk. destruct (good_cbw d t Hg Hp) as [_ _ _ _ ? ?].
  destruct (u8_at_run (command_bytes t) 0) as (op & Hop & _); [unfold command_bytes; len_lia|].
  pose proof (ufi_parse_cb_run _ _ Hop) as Hrun. destruct (_ <=? _); [|congruence].
  destruct Hrun as (k' & Hk' & Hr & _). by replace k with k' by congruence.
Qed.

(** The parser has no loop. *)
Lemma parse_cb_fuel cb : parse_cb cb <> OutOfFuel.
Proof.
  destruct cb as [|b cb]; [done|]. destruct (u8_at_run (b :: cb) 0) as (op & Hop & _); [len_lia|].
  pose proof (ufi_parse_cb_run _ _ Hop) as Hrun. destruct (_ <=? _); [|congruence].
  destruct Hrun as (k & -> & _). done.
Qed.

(** C37: [Ufi::poll_command] in the user's turn: if the wrapper declares fewer bytes than
    the parser reads for the opcode, it panics, whatever the callback; otherwise it calls
    the callback once, with the decoded block and the LUN of the wrapper, and then polls
    the transport. Out of the user's turn it does nothing. *)
Theorem ufi_poll_command_spec `{!UsbStack, !UsbStackLaws}
    (cb : callback (C := Ufi BulkOnly) UfiCommand) (u : Ufi BulkOnly) :
  let t := ufi_transport u in
  reachable t ->
  (~ awaits_user t -> poll_command cb u = Returns (Ok tt, u)) /\
  (awaits_user t -> exists op, u8_at (command_bytes t) 0 = Returns op /\
     (len (command_bytes t) < need op -> poll_command cb u = Panics) /\
     (need op <= len (command_bytes t) -> exists k, parse_cb (command_bytes t) = Returns k /\
        in_range k /\
        poll_command cb u =
          bind_try (cb (mkCommand k (Bbb.lun (Bbb.cbw t)))) (fun _ =>
            bind_try (on_transport Bbb.poll) (fun _ => ret (Ok tt))) u)).
Proof.
  intros t Hr. split.
  { intros Hno. by apply poll_command_idle. }
  intros Hu. pose proof (command_bytes_len t Hr Hu) as Hlen.
  destruct (u8_at_run (command_bytes t) 0) as (op & Hop & _); [lia|]. exists op. split; [done|].
  pose proof (ufi_parse_cb_run _ _ Hop) as Hparse. split.
  - intros Hlt. replace (need op <=? len (command_bytes t)) with false in Hparse by lia.
    unfold poll_command. rewrite poll_command_run by done. change (transport u) with t.
    by rewrite Hparse.
  - intros Hle. replace (need op <=? len (command_bytes t)) with true in Hparse by lia.
    destruct Hparse as (k & Hk & Hir & _). exists k. split; [done|]. split; [done|].
    unfold poll_command. rewrite poll_command_run by done. change (transport u) with t.
    by rewrite Hk.
Qed.

(** A valid wrapper whose INQUIRY block is declared to be one byte long. *)
Definition short_inquiry : MockBbb :=
  at_ (history 64 (splice (cbw 36 HostIn) 14 [byte_of 1]) [CPoll]).
Lemma short_inquiry_reachable : reachable short_inquiry.
Proof. apply at_reachable; [lia|by vm_compute]. Qed.
Definition ufi_short : Ufi (@BulkOnly MockStack) := mkUfi (0 : @InterfaceNumber MockStack) short_inquiry.

(** The host makes the device panic: no callback prevents it. *)
Lemma ufi_poll_command_spec_witness :
  awaits_user short_inquiry /\ forall cb, poll_command cb ufi_short = Panics.
Proof.
  assert (awaits_user short_inquiry) as Hu by (split; by vm_compute).
  split; [exact Hu|]. intros cb.
  destruct (proj2 (ufi_poll_command_spec cb ufi_short short_inquiry_reachable) Hu)
    as (op & Hop & Hshort & _).
  assert (u8_at (command_bytes (ufi_transport ufi_short)) 0 = Returns INQUIRY) as Hop' by (by vm_compute).
  apply Hshort. rewrite Hop' in Hop. injection Hop as <-. by vm_compute.
Defined.

(** With blocks of ten bytes or more (UFI uses twelve) [Ufi::poll_command] never panics
    and keeps the transport reachable, for any callback that returns in the user's turn. *)
Lemma ufi_poll_command_safe `{!UsbStack, !UsbStackLaws}
    (cb : callback (C := Ufi BulkOnly) UfiCommand) (u : Ufi BulkOnly) :
  reachable (ufi_transport u) -> callback_ok cb ->
  (awaits_user (ufi_transport u) -> 10 <= block_len (Bbb.cbw (ufi_transport u))) ->
  wp (poll_command cb) (fun _ u' => reachable (ufi_transport u')) u.
Proof.
  intros Hr Hcb Hten. refine (poll_command_ok (C := Ufi BulkOnly) parse_cb cb u Hr Hcb _).
  intros Hu. change (transport u) with (ufi_transport u) in *. specialize (Hten Hu).
  pose proof Hr as (d & Hd & Ht)%reachable_good.
  destruct (good_cbw d (ufi_transport u) Ht (proj1 Hu)) as [_ _ _ _ Hb1 Hb2].
  assert (len (command_bytes (ufi_transport u)) = block_len (Bbb.cbw (ufi_transport u))) as Hlen.
  { unfold command_bytes. len_lia. }
  destruct (u8_at_run (command_bytes (ufi_transport u)) 0) as (op & Hop & _); [lia|].
  pose proof (ufi_parse_cb_run _ _ Hop) as Hparse.
  assert (need op <= 10) as Hneed by (unfold need; repeat case_match; lia).
  replace (need op <=? len _) with true in Hparse by lia.
  destruct Hparse as (k & Hk & _). by exists k.
Qed.

(** READ (10) in a block of twelve bytes. *)
Definition ufi_ready : Ufi (@BulkOnly MockStack) :=
  mkUfi (0 : @InterfaceNumber MockStack)
    (at_ (history 64 (splice (cbw 36 HostIn) 14 [byte_of 12; byte_of READ_10]) [CPoll])).
Lemma ufi_ready_reachable : reachable (ufi_transport ufi_ready).
Proof. apply at_reachable; [lia|by vm_compute]. Qed.

Lemma ufi_poll_command_safe_witness :
  wp (poll_command pass_all) (fun _ u' => reachable (ufi_transport u')) ufi_ready.
Proof.
  assert (10 <= block_len (Bbb.cbw (ufi_transport ufi_ready))) as Hten by (by vm_compute).
  exact (ufi_poll_command_safe pass_all ufi_ready ufi_ready_reachable
    pass_all_ok (fun _ => Hten)).
Defined.

(** The [UsbClass] methods of [Ufi], over any transport: as for SCSI, with subclass
    0x04; [reset], [control_in] and [poll] act on the transport alone, and [poll] drops
    its error. *)
Lemma ufi_usb_class_spec `{!UsbStack} {T TError} `{!Transport T TError} (u : Ufi T)
    (req : Request) :
  get_configuration_descriptors u =
    bind_try (writer_iad (interface u) 1 0x08 0x04 PROTO) (fun _ =>
      bind_try (writer_interface (interface u) 0x08 0x04 PROTO) (fun _ =>
        bind_try (Transport.get_endpoint_descriptors (ufi_transport u)) (fun _ => ret (Ok tt)))) /\
  Ufi.reset u = obind (Transport.reset (ufi_transport u))
    (fun '(_, t) => Returns (tt, mkUfi (interface u) t)) /\
  Ufi.control_in req u = obind (Transport.control_in req (ufi_transport u))
    (fun '(_, t) => Returns (tt, mkUfi (interface u) t)) /\
  Ufi.poll u = obind (Transport.poll (ufi_transport u))
    (fun '(_, t) => Returns (tt, mkUfi (interface u) t)).
Proof.
  split; [done|].
  unfold Ufi.reset, Ufi.control_in, Ufi.poll, on_ufi_transport, bind, zoom, obind, ret.
  split; [by destruct (Transport.reset _) as [[[] t]| |]|].
  split; [by destruct (Transport.control_in _ _) as [[[] t]| |]|].
  by destruct (Transport.poll _) as [[r t]| |].
Qed.
