(* ===== verification/Firmware.v ===== *)
(** * What the example firmwares share (src/examples)

    The three examples are one program over different subclasses and memories. A
    [Device] is the class, the global [STATE] and the memory that the commands work on;
    the command handler is the callback of [poll_command], called once per turn of the
    main loop until it sets the status, and keeps its place in [STATE]. Here are
    [State], the steps that all the handlers make, the answers that the two SCSI drives
    share and the main loop.
    The targets have 32-bit words: [u32] and [usize] are the same. Board set-up and the
    critical sections are not modelled: a handler runs on one core with interrupts off
    and no borrow of a [RefCell] overlaps another. *)
From S2P Require Import Prelude.
From S2P Require Import Usb.
From S2P Require Import Buffer.
From S2P Require Import Transport.
From S2P Require Import Bbb.
From S2P Require Import Scsi.
From S2P Require Import Ufi.
From S2P Require Import Subclass.

Local Open Scope Z_scope.
Local Open Scope rust_scope.

Record State := mkState {
  storage_offset : Z;             (* usize *)
  sense_key : option Z;           (* u8 *)
  sense_key_code : option Z;      (* u8 *)
  sense_qualifier : option Z      (* u8 *)
}.

(** What [STATE] holds at first and after [State::reset]. *)
Definition State_reset : State := mkState 0 None None None.

Definition set_storage_offset (n : Z) (s : State) : State :=
  mkState n (sense_key s) (sense_key_code s) (sense_qualifier s).
Definition set_sense (key code qualifier : Z) (s : State) : State :=
  mkState (storage_offset s) (Some key) (Some code) (Some qualifier).

(** [a * b] and [a + b] on [u32], or [usize] of the target: with overflow checks, and
    without them. *)
Definition mul32 (a b : Z) : outcome Z :=
  if a * b <? u32_modulus then Returns (a * b) else Panics.
Definition add32 (a b : Z) : outcome Z :=
  if a + b <? u32_modulus then Returns (a + b) else Panics.
Definition wrapping_mul32 (a b : Z) : Z := (a * b) mod u32_modulus.
Definition wrapping_add32 (a b : Z) : Z := (a + b) mod u32_modulus.

(** What a READ or WRITE of [l] blocks from [lba] still has to move, as a range of the
    memory: from [BLOCK_SIZE * lba + offset] to [BLOCK_SIZE * lba + BLOCK_SIZE * l]. *)
Definition storage_range (BLOCK_SIZE lba l offset : Z) : outcome (Z * Z) :=
  let* base := mul32 BLOCK_SIZE lba in
  let* start := add32 base offset in
  let* size := mul32 BLOCK_SIZE l in
  let* end_ := add32 base size in
  Returns (start, end_).

Definition unwrap_or_0 (x : option Z) : Z := match x with Some x => x | None => 0 end.

(** ** Answers *)

(** The answer to REQUEST SENSE; the floppy and the drives differ in byte 7. *)
Definition sense_data (additional_length : Z) (st : State) : list byte := map byte_of
  [0x70; 0x00; unwrap_or_0 (sense_key st); 0x00; 0x00; 0x00; 0x00; additional_length;
   0x00; 0x00; 0x00; 0x00;
   unwrap_or_0 (sense_key_code st); unwrap_or_0 (sense_qualifier st); 0x00; 0x00; 0x00; 0x00].

(** The answers about the capacity of a drive of [BLOCKS] blocks of [BLOCK_SIZE] bytes. *)
Section Capacity.
Context (BLOCKS BLOCK_SIZE : Z).

Definition capacity10_data : outcome (list byte) :=
  let data := zreplicate 8 x00 in
  let* data := copy_into data 0 4 (to_be_bytes 4 (BLOCKS - 1)) in
  copy_into data 4 8 (to_be_bytes 4 BLOCK_SIZE).

(** Eight bytes are overwritten with the four of a [u32]. *)
Definition capacity16_data : outcome (list byte) :=
  let data := zreplicate 16 x00 in
  let* data := copy_into data 0 8 (to_be_bytes 4 (BLOCKS - 1)) in
  copy_into data 8 12 (to_be_bytes 4 BLOCK_SIZE).

Definition format_capacities_data : outcome (list byte) :=
  let data := zreplicate 12 x00 in
  let* data := copy_into data 0 4 (map byte_of [0x00; 0x00; 0x00; 0x08]) in
  let* data := copy_into data 4 8 (to_be_bytes 4 BLOCKS) in
  let data := splice data 8 [byte_of 0x01] in
  let block_length_be := to_be_bytes 4 BLOCK_SIZE in
  let* b1 := index block_length_be 1 in
  let* b2 := index block_length_be 2 in
  let* b3 := index block_length_be 3 in
  Returns (splice (splice (splice data 9 [b1]) 10 [b2]) 11 [b3]).
End Capacity.

Definition mode_sense6_data : list byte := map byte_of [0x03; 0x00; 0x00; 0x00].
Definition mode_sense10_data : list byte :=
  map byte_of [0x00; 0x06; 0x00; 0x00; 0x00; 0x00; 0x00; 0x00].

(** ** The device *)

(** The class, the global [STATE] and the memory behind the commands. *)
Record Device (T D : Type) := mkDevice { class_ : T; STATE : State; MEMORY : D }.
Arguments mkDevice {T D} class_ STATE MEMORY.
Arguments class_ {T D} d.
Arguments STATE {T D} d.
Arguments MEMORY {T D} d.

Definition set_class {T D} (c : T) (v : Device T D) : Device T D := mkDevice c (STATE v) (MEMORY v).
Definition set_STATE {T D} (s : State) (v : Device T D) : Device T D := mkDevice (class_ v) s (MEMORY v).
Definition set_MEMORY {T D} (m : D) (v : Device T D) : Device T D := mkDevice (class_ v) (STATE v) m.

(** [main] up to its loop: [.unwrap()] of the class, and the globals as they are declared. *)
Definition power_on `{!UsbStack} {T D} (made : outcome (result T BulkOnlyError * Bus)) (memory : D)
    : outcome (Device T D) :=
  let* (r, _) := made in
  match r with Ok c => Returns (mkDevice c State_reset memory) | Err _ => Panics end.

(** The [UsbClass] methods that the stack calls while it is polled, and what they do to
    the transport of the class. *)
Class StackClass `{!UsbStack} (T : Type) `{!OverBulkOnly T} := {
  class_poll : M T unit;
  class_control_in : Request -> M T unit;
  class_reset : M T unit;
  class_poll_law c : class_poll c = (let! _ := on_transport Bbb.poll in ret tt) c;
  class_control_in_law req c : class_control_in req c = on_transport (Bbb.control_in req) c;
  class_reset_law c : class_reset c = on_transport Bbb.reset c
}.

#[export] Instance Scsi_StackClass `{!UsbStack} : StackClass (Scsi BulkOnly) := {
  class_poll := Scsi.poll;
  class_control_in := Scsi.control_in;
  class_reset := Scsi.reset;
  class_poll_law c := eq_refl;
  class_control_in_law req c := eq_refl;
  class_reset_law c := eq_refl
}.
#[export] Instance Ufi_StackClass `{!UsbStack} : StackClass (Ufi BulkOnly) := {
  class_poll := Ufi.poll;
  class_control_in := Ufi.control_in;
  class_reset := Ufi.reset;
  class_poll_law c := eq_refl;
  class_control_in_law req c := eq_refl;
  class_reset_law c := eq_refl
}.

Section Firmware.
Context `{!UsbStack} {T D : Type} `{!OverBulkOnly T}.

#[export] Instance Device_OverBulkOnly : OverBulkOnly (Device T D).
Proof.
  refine {|
    transport v := transport (class_ v);
    set_transport t v := set_class (set_transport t (class_ v)) v
  |}.
  - intros t v. apply transport_set.
  - intros [c st m]. unfold set_class. cbn. by rewrite set_transport_same.
Defined.

(** ** Steps of the handlers *)

(** [command.try_write_data_all(&data)?; command.pass(data.len() as u32);] *)
Definition answer (data : list byte) : M (Device T D) (BResult unit) :=
  let? _ := try_write_data_all data in
  do! pass (as_u32 (len data)) in
  ret (Ok tt).

(** REQUEST SENSE: the last error, which is then forgotten. *)
Definition answer_sense (additional_length : Z) : M (Device T D) (BResult unit) :=
  let! st := gets STATE in
  let data := sense_data additional_length st in
  let? _ := try_write_data_all data in
  do! modify (set_STATE State_reset) in
  do! pass (as_u32 (len data)) in
  ret (Ok tt).

(** A command that the handler does not know: ILLEGAL REQUEST, invalid command
    operation code. *)
Definition refuse : M (Device T D) (BResult unit) :=
  let! st := gets STATE in
  do! modify (set_STATE (set_sense 0x05 0x20 0x00 st)) in
  do! fail 0 in
  ret (Ok tt).

(** [command.pass(state.storage_offset as u32); state.storage_offset = 0;] *)
Definition finish : M (Device T D) (BResult unit) :=
  let! st := gets STATE in
  do! pass (as_u32 (storage_offset st)) in
  do! modify (set_STATE (set_storage_offset 0 st)) in
  ret (Ok tt).

(** [state.storage_offset = offset], where nothing else of [STATE] has changed since
    [st] was read. *)
Definition move_to (offset : Z) (st : State) : M (Device T D) unit :=
  modify (set_STATE (set_storage_offset offset st)).

(** The loops of the handlers: every round but the last queues a byte in the IO buffer or
    takes one from it, so its size bounds their number. *)
Definition buffer_fuel (v : Device T D) : nat := S (length (inner (buf (transport v)))).

(** ** The main loop *)

Section MainLoop.
Context `{!StackClass T} {Kind : Type}.
Context (parse_cb : list byte -> outcome Kind) (process_command : callback (C := Device T D) Kind).

Definition main_poll_command : M (Device T D) (BResult unit) :=
  poll_command_with parse_cb process_command.

Definition usb_poll : M (Device T D) unit := zoom class_ set_class class_poll.
Definition usb_control_in (req : Request) : M (Device T D) unit :=
  zoom class_ set_class (class_control_in req).
Definition usb_reset : M (Device T D) unit := zoom class_ set_class class_reset.

(** What [usb_device.poll] does to the class: the stack calls its methods. Which ones,
    and whether the poll reports an event, is up to the bus. *)
Inductive stack_call := StackPoll | StackControlIn (req : Request) | StackReset.
Definition run_stack_call (c : stack_call) : M (Device T D) unit :=
  match c with
  | StackPoll => usb_poll
  | StackControlIn req => usb_control_in req
  | StackReset => usb_reset
  end.
Fixpoint usb_device_poll (calls : list stack_call) : M (Device T D) unit :=
  match calls with
  | [] => ret tt
  | c :: calls => do! run_stack_call c in usb_device_poll calls
  end.

(** One round of the loop: [event] is what [usb_device.poll] returns, [default] whether
    the stack is in the state [UsbDeviceState::Default] afterwards. An error of
    [poll_command] is only logged. *)
Definition main_loop (calls : list stack_call) (event default : bool) : M (Device T D) unit :=
  do! usb_device_poll calls in
  if negb event then ret tt
  else
    do! when default (modify (set_STATE State_reset)) in
    let! _ := main_poll_command in
    ret tt.
End MainLoop.
End Firmware.
