(* ===== verification/FirmwareSpec.v ===== *)
(** * Specification of the turns of the example firmwares

    The steps of the handlers of file Firmware, for any class and any memory: what a call
    of the transport keeps in a turn; that the turn of a command leaves a transport that
    calls lead to, globals in range, and a place in the transfer only if the command is
    still in progress ([turn]); the same for [poll_command] ([device_inv]). *)
From stdpp Require Import relations.
From S2P Require Import Prelude.
From S2P Require Import Usb.
From S2P Require Import Buffer.
From S2P Require Import Transport.
From S2P Require Import Bbb.
From S2P Require Import BotSpec.
From S2P Require Import BbbRefine.
From S2P Require Import BbbMethods.
From S2P Require Import BbbReach.
From S2P Require Import BbbSafe.
From S2P Require Import BotStream.
From S2P Require Import Transfer.
From S2P Require Import Subclass.
From S2P Require Import Firmware.

Local Open Scope Z_scope.
Local Open Scope rust_scope.

(** ** Ranges of READ and WRITE *)

Section Ranges.
Context (BLOCK_SIZE : Z).
Hypothesis Hsize : 0 < BLOCK_SIZE.

(** The blocks lie in a memory of [n] bytes, and [offset] is not beyond them. *)
Definition in_memory (n lba l offset : Z) : bool :=
  (offset <=? l * BLOCK_SIZE) && (BLOCK_SIZE * (lba + l) <=? n).

Lemma total_run l : l * BLOCK_SIZE < u32_modulus -> mul32 l BLOCK_SIZE = Returns (l * BLOCK_SIZE).
Proof. intros. unfold mul32. by replace (l * BLOCK_SIZE <? u32_modulus) with true by lia. Qed.

Lemma add32_run a b : a + b < u32_modulus -> add32 a b = Returns (a + b).
Proof. intros. unfold add32. by replace (a + b <? u32_modulus) with true by lia. Qed.

Lemma storage_range_run n lba l offset :
  0 <= lba -> 0 <= l -> 0 <= offset -> n < u32_modulus -> in_memory n lba l offset = true ->
  storage_range BLOCK_SIZE lba l offset =
    Returns (BLOCK_SIZE * lba + offset, BLOCK_SIZE * lba + BLOCK_SIZE * l).
Proof.
  intros ???? [Ho Hb]%andb_prop. apply Z.leb_le in Ho, Hb. unfold storage_range, mul32, add32.
  assert (0 <= BLOCK_SIZE * lba) by lia. assert (0 <= BLOCK_SIZE * l) by lia.
  replace (BLOCK_SIZE * lba <? u32_modulus) with true by lia. cbn [obind].
  replace (BLOCK_SIZE * lba + offset <? u32_modulus) with true by lia. cbn [obind].
  replace (BLOCK_SIZE * l <? u32_modulus) with true by lia. cbn [obind].
  by replace (BLOCK_SIZE * lba + BLOCK_SIZE * l <? u32_modulus) with true by lia.
Qed.

Lemma storage_range_panics lba l offset (sto : list byte) :
  in_memory (len sto) lba l offset = false ->
  obind (storage_range BLOCK_SIZE lba l offset) (fun '(a, b) => slice sto a b) = Panics.
Proof.
  unfold in_memory, storage_range, mul32, add32. intros Hno.
  destruct (_ <? _); [|done]. cbn [obind]. destruct (_ <? _); [|done]. cbn [obind].
  destruct (_ <? _); [|done]. cbn [obind]. destruct (_ <? _); [|done]. cbn [obind].
  unfold slice. destruct ((_ <=? _) && _ && _) eqn:Hb; [|done]. apply andb_prop in Hb as [[_ ?]%andb_prop ?].
  apply andb_false_iff in Hno. lia.
Qed.

(** A handler that takes the slice of that range panics when the range is not in the memory. *)
Lemma range_panics {S B} lba l offset (sto : list byte) (k : Z * Z -> M S B) s :
  (forall a b, slice sto a b = Panics -> k (a, b) s = Panics) ->
  in_memory (len sto) lba l offset = false ->
  bind (lift (storage_range BLOCK_SIZE lba l offset)) k s = Panics.
Proof.
  intros Hk Hno. pose proof (storage_range_panics lba l offset sto Hno) as Hp.
  unfold bind, lift, gets_o. destruct (storage_range _ _ _ _) as [[a b]| |]; cbn [obind] in Hp;
    [by apply Hk|done|done].
Qed.
End Ranges.

Section Calls.
Context `{!UsbStack, !UsbStackLaws} (d : device).
Hypothesis Hd : device_ok d.

(** ** What the calls of a turn keep *)

Record kept (t t' : BulkOnly) : Prop := {
  kept_good : good d t';
  kept_steps : rtc step t t';
  kept_state : state t' = state t;
  kept_cs : cs t' = cs t;
  kept_cbw : Bbb.cbw t' = Bbb.cbw t;
  kept_left : left_to_transfer t' = left_to_transfer t;
  kept_log : out_log (bus t') = out_log (bus t)
}.

Lemma kept_refl t : good d t -> kept t t.
Proof. by split. Qed.

Lemma kept_view t t' b :
  good d t' -> step t t' -> view t' = b ->
  phase b = state t -> stat b = cs t -> cmd b = Bbb.cbw t -> left b = left_to_transfer t ->
  wire_out b = out_log (bus t) -> kept t t'.
Proof.
  intros Hg Hs Hv Hp Hst Hc Hl Hw. split; [done|by apply rtc_once|..].
  - change (phase (view t') = state t). congruence.
  - change (stat (view t') = cs t). congruence.
  - change (cmd (view t') = Bbb.cbw t). congruence.
  - change (left (view t') = left_to_transfer t). congruence.
  - change (wire_out (view t') = out_log (bus t)). congruence.
Qed.

Lemma write_kept src t :
  good d t -> wp (Bbb.write_data src) (fun r t' => kept t t') t.
Proof.
  intros Hg. pose proof (write_data_good d src t Hg) as (r & t' & Hrun & Hg')%wp_run.
  apply wp_run. exists r, t'. split; [done|].
  assert (step t t') as Hs by (apply (step_call _ (CWriteData src)); cbn; unfold bind; by rewrite Hrun).
  destruct (decide (state t = DataTransferToHost)) as [Hp|Hp].
  - destruct (wp_returns _ _ _ _ _ (write_data_step d src t Hg Hp) Hrun) as (_ & _ & Hv).
    by eapply kept_view.
  - rewrite write_data_invalid in Hrun by done. injection Hrun as _ <-. by apply kept_refl.
Qed.

Lemma write_count src t n t' :
  good d t -> Bbb.write_data src t = Returns (Ok n, t') -> 0 <= n <= len src.
Proof.
  intros Hg Hrun. destruct (decide (state t = DataTransferToHost)) as [Hp|Hp].
  - destruct (wp_returns _ _ _ _ _ (write_data_step d src t Hg Hp) Hrun) as (_ & [= ->] & _).
    destruct (good_to_host d t Hg Hp). pose proof (len_nonneg src).
    pose proof (len_nonneg (queue (view t))). unfold bot_write_count. lia.
  - by rewrite write_data_invalid in Hrun by done.
Qed.

(** How much the transport takes at most. *)
Definition room (t : BulkOnly) : Z :=
  Z.min (left_to_transfer t - len (contents (buf t))) (capacity (buf t) - len (contents (buf t))).

Lemma room_range t :
  good d t -> state t = DataTransferToHost -> 0 <= room t <= capacity (buf t).
Proof.
  intros Hg Hp. destruct (good_to_host d t Hg Hp). cbn in *.
  pose proof (live_capacity d t (good_live d t Hg)). pose proof (len_nonneg (contents (buf t))).
  unfold room. lia.
Qed.
Lemma write_room src t n t' :
  good d t -> Bbb.write_data src t = Returns (Ok n, t') ->
  state t = DataTransferToHost /\ n = Z.min (len src) (room t) /\ room t' = room t - n.
Proof.
  intros Hg Hrun. destruct (decide (state t = DataTransferToHost)) as [Hp|Hp].
  2:{ by rewrite write_data_invalid in Hrun by done. }
  destruct (wp_returns _ _ _ _ _ (write_data_step d src t Hg Hp) Hrun) as (Hl & [= Hn] & Hv).
  pose proof (live_capacity d t (good_live d t Hg)) as Hc. pose proof (live_capacity d t' Hl) as Hc'.
  assert (left_to_transfer t' = left_to_transfer t /\ contents (buf t') =
    contents (buf t) ++ ztake n src) as [Hleft Hq].
  { change (left (view t') = left_to_transfer t /\ queue (view t') = contents (buf t) ++ ztake n src).
    by rewrite Hv, Hn. }
  pose proof (room_range t Hg Hp) as Hroom. unfold room in *. rewrite Hleft, Hq, Hc' in *. rewrite Hc in *.
  unfold bot_write_count in Hn. cbn in Hn. pose proof (len_nonneg src).
  split; [done|]. split; [lia|len_lia].
Qed.

Lemma write_all_kept src t :
  good d t -> wp (Bbb.try_write_data_all src) (fun r t' => kept t t') t.
Proof.
  intros Hg. pose proof (try_write_data_all_good d src t Hg) as (r & t' & Hrun & Hg')%wp_run.
  apply wp_run. exists r, t'. split; [done|].
  assert (step t t') as Hs
    by (apply (step_call _ (CTryWriteDataAll src)); cbn; unfold bind; by rewrite Hrun).
  destruct (decide (state t = DataTransferToHost)) as [Hp|Hp].
  - destruct (wp_returns _ _ _ _ _ (try_write_data_all_step d src t Hg Hp) Hrun) as (_ & Hr).
    repeat case_match; destruct Hr as [_ Hv]; by eapply kept_view.
  - rewrite try_write_data_all_invalid in Hrun by done. injection Hrun as _ <-. by apply kept_refl.
Qed.

Lemma read_kept dst t :
  good d t -> wp (Bbb.read_data dst) (fun '(dst', r) t' => kept t t' /\ len dst' = len dst /\
    match r with
    | Ok n => exists x, len x = n /\ n <= len dst /\ dst' = x ++ zdrop n dst
    | Err _ => dst' = dst
    end) t.
Proof.
  intros Hg. pose proof (read_data_good d dst t Hg) as ([dst' r] & t' & Hrun & Hg')%wp_run.
  apply wp_run. exists (dst', r), t'. split; [done|].
  assert (step t t') as Hs
    by (apply (step_call _ (CReadData dst)); cbn; unfold bind; by rewrite Hrun).
  pose proof (len_nonneg dst). pose proof (len_nonneg (queue (view t))).
  destruct (out_phase (state t)) eqn:Hp.
  - destruct (wp_returns _ _ _ _ _ (read_data_step d dst t (good_live d t Hg) Hp) Hrun)
      as (_ & -> & -> & Hv).
    split; [by eapply kept_view|]. split; [len_lia|]. eexists. split; [|split; [lia|done]]. len_lia.
  - rewrite read_data_invalid in Hrun by done. injection Hrun as <- <- <-.
    split; [by apply kept_refl|done].
Qed.

Lemma kept_awaits t t' : kept t t' -> awaits_user t -> awaits_user t'.
Proof. intros [_ _ Hp Hs _] [? ?]. unfold awaits_user, has_status. by rewrite Hp, Hs. Qed.

Lemma set_status_step s n t t' : set_status s n t = Returns (tt, t') -> step t t'.
Proof. intros Hrun. by apply (step_call _ (CSetStatus s n)). Qed.

Lemma awaits_status_phase t : good d t -> awaits_user t -> status_phase (state t) = true.
Proof.
  intros Hg [Hp Hs]. apply (awaiting_status d); [done|done|]. unfold has_status in Hs. by destruct (cs t).
Qed.
Lemma awaits_no_status t : awaits_user t -> cs t = None.
Proof. intros [_ Hs]. unfold has_status in Hs. by destruct (cs t). Qed.

Lemma read_queue dst t dst' n t' :
  good d t -> Bbb.read_data dst t = Returns ((dst', Ok n), t') ->
  len (contents (buf t')) = len (contents (buf t)) - n /\ 0 <= n.
Proof.
  intros Hg Hrun. destruct (out_phase (state t)) eqn:Hp.
  2:{ by rewrite read_data_invalid in Hrun by done. }
  destruct (wp_returns _ _ _ _ _ (read_data_step d dst t (good_live d t Hg) Hp) Hrun)
    as (_ & [= Hn] & _ & Hv).
  change (contents (buf t')) with (queue (view t')). change (contents (buf t)) with (queue (view t)).
  rewrite Hv. pose proof (len_nonneg dst). pose proof (len_nonneg (queue (view t))). cbn in *. len_lia.
Qed.

(** How many bytes a call moved, and when a call moves none: an IN transfer has no room left,
    an OUT transfer nothing queued, or it is another phase. *)
Definition gained (r : BResult Z) : Z := match r with Ok n => n | Err _ => 0 end.
Definition write_stuck (t : BulkOnly) : Prop := state t = DataTransferToHost -> room t <= 0.
Definition read_stuck (t : BulkOnly) : Prop := out_phase (state t) = true -> contents (buf t) = [].

Lemma write_gains src t r t' :
  good d t -> Bbb.write_data src t = Returns (r, t') -> 0 < len src ->
  0 < gained r \/ gained r = 0 /\ write_stuck t.
Proof.
  intros Hg Hrun Hsrc. destruct (decide (state t = DataTransferToHost)) as [Hp|Hp].
  - destruct (wp_returns _ _ _ _ _ (write_data_step d src t Hg Hp) Hrun) as (_ & -> & _).
    destruct (write_room _ _ _ _ Hg Hrun) as (_ & Hn & _). cbn [gained]. rewrite Hn.
    pose proof (room_range t Hg Hp). unfold write_stuck. lia.
  - rewrite write_data_invalid in Hrun by done. injection Hrun as <- _. right. split; [done|]. by intros ?.
Qed.
Lemma read_gains dst t dst' r t' :
  good d t -> Bbb.read_data dst t = Returns ((dst', r), t') -> 0 < len dst ->
  0 < gained r \/ gained r = 0 /\ read_stuck t.
Proof.
  intros Hg Hrun Hdst. unfold read_stuck. destruct (out_phase (state t)) eqn:Hp.
  - destruct (wp_returns _ _ _ _ _ (read_data_step d dst t (good_live d t Hg) Hp) Hrun) as (_ & -> & _).
    change (queue (view t)) with (contents (buf t)). pose proof (len_nonneg (contents (buf t))). cbn [gained].
    destruct (decide (len (contents (buf t)) = 0)) as [Hz%len_zero_inv|]; [|left; len_lia].
    right. split; [rewrite Hz; len_lia|done].
  - rewrite read_data_invalid in Hrun by done. injection Hrun as _ <- _. right. by split.
Qed.

(** ** The same calls on a device *)

Section Device.
Context {T D : Type} `{!OverBulkOnly T}.
Implicit Types v : Device T D.

(** Nothing but the transport differs. *)
Record same_globals v v' : Prop := {
  same_STATE : STATE v' = STATE v;
  same_MEMORY : MEMORY v' = MEMORY v
}.

Lemma same_set_transport t v : same_globals v (set_transport t v).
Proof. by split. Qed.
Lemma device_transport_set t v : transport (set_transport t v) = t.
Proof. apply transport_set. Qed.

Lemma wp_call {A} (m : M BulkOnly A) P Q v :
  wp m P (transport v) ->
  (forall a v', m (transport v) = Returns (a, transport v') -> P a (transport v') ->
     same_globals v v' -> Q a v') ->
  wp (on_transport m) Q v.
Proof.
  intros (a & t' & Hrun & HP)%wp_run HQ. apply wp_on_transport, wp_run. exists a, t'.
  split; [done|]. apply HQ; [..|apply same_set_transport]; by rewrite device_transport_set.
Qed.

Lemma wp_write_data src Q v :
  good d (transport v) ->
  (forall r v', Bbb.write_data src (transport v) = Returns (r, transport v') ->
     kept (transport v) (transport v') -> same_globals v v' ->
     match r with Ok n => 0 <= n <= len src | Err _ => True end -> Q r v') ->
  wp (Subclass.write_data src) Q v.
Proof.
  intros Hg HQ. eapply wp_call; [by apply write_kept|]. intros r v' Hrun Hk Hs.
  apply HQ; [done..|]. destruct r; [by eapply write_count|done].
Qed.

Lemma wp_read_data dst Q v :
  good d (transport v) ->
  (forall r dst' v', Bbb.read_data dst (transport v) = Returns ((dst', r), transport v') ->
     kept (transport v) (transport v') -> same_globals v v' -> len dst' = len dst ->
     match r with
     | Ok n => exists x, len x = n /\ n <= len dst /\ dst' = x ++ zdrop n dst
     | Err _ => dst' = dst
     end -> Q (dst', r) v') ->
  wp (Subclass.read_data dst) Q v.
Proof.
  intros Hg HQ. eapply wp_call; [by apply read_kept|]. intros [dst' r] v' Hrun (Hk & Hl & Hr) Hs.
  by apply HQ.
Qed.

(** In the user's turn a status can be set. *)
Lemma wp_set_status s n Q v :
  good d (transport v) -> awaits_user (transport v) ->
  (forall v', set_status s n (transport v) = Returns (tt, transport v') ->
     transport v' = set_cs (Some (mkStatusAndResidue s
       (saturating_sub (data_transfer_len (Bbb.cbw (transport v))) n))) (transport v) ->
     same_globals v v' -> Q tt v') ->
  wp (on_transport (set_status s n)) Q v.
Proof.
  intros Hg Hu HQ.
  pose proof (set_status_run s n (transport v) (awaits_status_phase _ Hg Hu)) as Hrun.
  apply wp_on_transport, wp_run. eexists _, _. split; [exact Hrun|].
  apply HQ; [..|apply same_set_transport]; by rewrite device_transport_set.
Qed.

(** ** Turns *)

(** The globals are in the range of their types, and the memory satisfies [inv]. *)
Context (inv : D -> Prop).
Definition wf_device v : Prop := is_u32 (storage_offset (STATE v)) /\ inv (MEMORY v).

(** Inside a turn that began in [v]. *)
Record in_turn v v' : Prop := {
  in_turn_good : good d (transport v');
  in_turn_user : awaits_user (transport v');
  in_turn_steps : rtc step (transport v) (transport v');
  in_turn_cbw : Bbb.cbw (transport v') = Bbb.cbw (transport v)
}.
Lemma in_turn_refl v : good d (transport v) -> awaits_user (transport v) -> in_turn v v.
Proof. by split. Qed.
Lemma in_turn_kept v v1 v2 : in_turn v v1 -> kept (transport v1) (transport v2) -> in_turn v v2.
Proof.
  intros [Hg Hu Hs Hc] Hk. split; [apply Hk|by eapply kept_awaits|by etrans; [|apply Hk]|].
  by rewrite (kept_cbw _ _ Hk).
Qed.
(** Only [STATE] or the memory differs. *)
Lemma in_turn_same v v1 v2 : transport v2 = transport v1 -> in_turn v v1 -> in_turn v v2.
Proof. intros Heq [Hg Hu Hs Hc]. split; by rewrite Heq. Qed.

(** What every turn leaves: a transport that calls lead to, and a place in the transfer
    only if the command is one that [moves] data and is still in progress. *)
Record turn (moves : bool) v v' : Prop := {
  turn_steps : rtc step (transport v) (transport v');
  turn_wf : wf_device v';
  turn_place : storage_offset (STATE v') = 0 \/
    moves = true /\ awaits_user (transport v') /\ Bbb.cbw (transport v') = Bbb.cbw (transport v)
}.

Lemma turn_within v v' : in_turn v v' -> wf_device v' -> turn true v v'.
Proof. intros [Hg Hu Hs Hc] Hwf. split; [done|done|]. by right. Qed.

Lemma wf_same v v' : same_globals v v' -> wf_device v -> wf_device v'.
Proof. intros [Hs Hm]. unfold wf_device. by rewrite Hs, Hm. Qed.

Lemma turn_over moves v v1 v2 :
  rtc step (transport v) (transport v2) -> same_globals v1 v2 -> wf_device v1 ->
  storage_offset (STATE v1) = 0 -> turn moves v v2.
Proof.
  intros Hs Hsame Hwf Ho. split; [done|by eapply wf_same|]. left. by rewrite (same_STATE _ _ Hsame).
Qed.

Lemma turn_status v v1 s n Q :
  in_turn v v1 ->
  (forall v2, rtc step (transport v) (transport v2) -> same_globals v1 v2 -> Q tt v2) ->
  wp (on_transport (set_status s n)) Q v1.
Proof.
  intros [Hg Hu Hs _] HQ. apply wp_set_status; [done..|]. intros v2 Hrun _ Hsame.
  apply HQ; [|done]. eapply rtc_r; [done|]. by eapply set_status_step.
Qed.

(** The turns of the commands that are over at once. *)
Section Immediate.
Context (moves : bool) (v : Device T D).
Hypothesis Hin : in_turn v v.
Hypothesis Hwf : wf_device v.
Hypothesis Hstart : storage_offset (STATE v) = 0.

Lemma pass_turn n :
  wp (do! pass n in ret (Ok tt)) (fun (_ : BResult unit) v' => turn moves v v') v.
Proof.
  unfold pass. wp_steps. apply (turn_status v); [done|]. intros v' Hs Hsame.
  wp_steps. by eapply turn_over.
Qed.

Lemma write_all_turn data Q :
  (forall v1, in_turn v v1 -> same_globals v v1 -> Q (Ok tt) v1) ->
  (forall e v1, turn moves v v1 -> Q (Err e) v1) ->
  wp (Subclass.try_write_data_all data) Q v.
Proof.
  intros HQ He. unfold Subclass.try_write_data_all.
  eapply wp_call; [by apply write_all_kept, (in_turn_good _ _ Hin)|]. intros r v1 _ Hk Hs1.
  pose proof (in_turn_kept _ _ _ Hin Hk) as Hin1.
  destruct r as [[]|e]; [by apply HQ|]. apply He. eapply turn_over; [apply Hin1|done..].
Qed.

Lemma answer_turn data : wp (answer data) (fun _ v' => turn moves v v') v.
Proof.
  unfold answer, pass. wp_steps. apply write_all_turn; [|done]. intros v1 Hin1 Hs1. wp_steps.
  apply (turn_status v); [done|]. intros v2 Hs2 Hsame. wp_steps.
  eapply turn_over; [done..|by eapply wf_same|]. by rewrite (same_STATE _ _ Hs1).
Qed.

Lemma answer_sense_turn n : wp (answer_sense n) (fun _ v' => turn moves v v') v.
Proof.
  unfold answer_sense, pass. wp_steps. apply write_all_turn; [|done]. intros v1 Hin1 Hs1. wp_steps.
  apply (turn_status v); [by apply (in_turn_same _ v1)|]. intros v2 Hs2 Hsame. wp_steps.
  eapply turn_over; [done..| |done]. split; [by vm_compute|].
  cbn. rewrite (same_MEMORY _ _ Hs1). apply Hwf.
Qed.

Lemma refuse_turn : wp refuse (fun _ v' => turn moves v v') v.
Proof.
  unfold refuse, fail. wp_steps.
  apply (turn_status v); [by apply (in_turn_same _ v)|]. intros v2 Hs2 Hsame. wp_steps.
  by eapply turn_over.
Qed.
End Immediate.

Lemma finish_turn moves v v1 : in_turn v v1 -> inv (MEMORY v1) ->
  wp finish (fun _ v' => turn moves v v') v1.
Proof.
  intros Hin Hl. unfold finish, pass. wp_steps. apply (turn_status v); [done|].
  intros v2 Hs2 [_ Hm]. wp_steps. split; [done| |by left]. split; [by vm_compute|]. cbn. by rewrite Hm.
Qed.

Lemma move_to_turn v v1 n st : in_turn v v1 -> inv (MEMORY v1) -> is_u32 n ->
  wp (do! move_to n st in ret (Ok tt)) (fun (_ : BResult unit) v' => turn true v v') v1.
Proof.
  intros Hin Hl Hn. unfold move_to. wp_steps. apply turn_within; [|by split].
  by apply (in_turn_same _ v1).
Qed.
End Device.
End Calls.

(** ** [poll_command] in the main loop *)

Lemma reachable_poll `{!UsbStack, !UsbStackLaws} t r t' :
  reachable t -> Bbb.poll t = Returns (r, t') -> reachable t'.
Proof.
  intros Hr Hp. eapply reachable_step; [exact Hr|]. apply (step_call _ CPoll).
  change ((do! Bbb.poll in ret tt) t = Returns (tt, t')). unfold bind. by rewrite Hp.
Qed.

(** A [poll] leaves a command whose status is not set to the user. *)
Lemma poll_awaits `{!UsbStack, !UsbStackLaws} d t r t' :
  device_ok d -> good d t -> awaits_user t -> Bbb.poll t = Returns (r, t') ->
  awaits_user t' /\ Bbb.cbw t' = Bbb.cbw t.
Proof.
  intros Hd Hg Hu Hrun. pose proof (awaits_no_status t Hu) as Hs. pose proof Hu as [Hp _].
  pose proof (awaits_status_phase d t Hg Hu) as Hph.
  destruct (wp_returns _ _ _ _ _ (poll_good d Hd t Hg) Hrun) as [_ Hstep].
  assert (~ (phase (view t) = StatusTransfer /\ queue (view t) = [])) as Hnot.
  { intros [Hst _]. change (state t = StatusTransfer) in Hst. by rewrite Hst in Hph. }
  destruct (bot_poll_frame _ _ (view t) _ _ Hp Hnot Hstep) as [Hc Hstat].
  pose proof (bot_poll_awaits _ _ (view t) _ _ (good_inv d t Hg) Hp Hs Hstep) as Hp'.
  split; [|exact Hc]. split; [exact Hp'|]. unfold has_status.
  change (cs t') with (stat (view t')). rewrite Hstat. change (stat (view t)) with (cs t). by rewrite Hs.
Qed.

Section Poll.
Context `{!UsbStack, !UsbStackLaws} {T D : Type} `{!OverBulkOnly T} (inv : D -> Prop).
Context {Kind : Type} (parse_cb : list byte -> outcome Kind) (moves : Kind -> bool).
Context (process_command : callback (C := Device T D) Kind).
Implicit Types v : Device T D.
Local Abbreviation main := (main_poll_command parse_cb process_command).

(** The offset is not zero only in the course of a command that moves data. *)
Definition place v : Prop :=
  storage_offset (STATE v) = 0 \/
  awaits_user (transport v) /\
  exists k, parse_cb (command_bytes (transport v)) = Returns k /\ moves k = true.

(** The invariant of a firmware. *)
Record device_inv v : Prop := {
  device_reachable : reachable (transport v);
  device_wf : wf_device inv v;
  device_place : place v
}.

Lemma place_start v k :
  place v -> parse_cb (command_bytes (transport v)) = Returns k -> moves k = false ->
  storage_offset (STATE v) = 0.
Proof. intros [Ho|(_ & k' & Hk' & Hm)] Hk Hno; [done|]. congruence. Qed.

Lemma place_same v v' :
  STATE v' = STATE v -> (awaits_user (transport v) -> awaits_user (transport v')) ->
  (awaits_user (transport v) -> Bbb.cbw (transport v') = Bbb.cbw (transport v)) ->
  place v -> place v'.
Proof.
  intros Hst Hu Hc [Ho|(Hv & k & Hk & Hm)]; [left; by rewrite Hst|]. right.
  split; [by apply Hu|]. exists k. unfold command_bytes in *. by rewrite Hc.
Qed.

(** A turn of the handler that panics panics, one that ends well is followed by a poll. *)
Lemma main_panics v k :
  reachable (transport v) -> awaits_user (transport v) ->
  parse_cb (command_bytes (transport v)) = Returns k ->
  process_command (mkCommand k (Bbb.lun (Bbb.cbw (transport v)))) v = Panics -> main v = Panics.
Proof.
  intros Hr Hu Hk Hrun. unfold main_poll_command. rewrite poll_command_run, Hk by done.
  unfold bind at 1, bind_try at 1, bind at 1. cbn [lift]. unfold lift, gets_o. by rewrite Hrun.
Qed.

Lemma turn_inv v v' k :
  reachable (transport v) -> parse_cb (command_bytes (transport v)) = Returns k ->
  turn inv (moves k) v v' -> device_inv v'.
Proof.
  intros Hr Hk [Hs Hwf Hp]. split; [by eapply reachable_rtc|done|].
  destruct Hp as [Ho|(Hm & Hu & Hc)]; [by left|]. right. split; [done|].
  exists k. unfold command_bytes in *. by rewrite Hc.
Qed.

Lemma device_inv_poll v v' r :
  device_inv v -> Bbb.poll (transport v) = Returns (r, transport v') -> same_globals v v' ->
  device_inv v'.
Proof.
  intros [Hr Hwf Hpl] Hp Hs. split; [by eapply reachable_poll|by eapply wf_same|].
  pose proof Hr as (d & Hd & Hg)%reachable_good.
  eapply place_same; [apply Hs| | |done]; intros Hu;
    apply (poll_awaits d _ _ _ Hd Hg Hu Hp).
Qed.

Lemma main_turn v k :
  reachable (transport v) -> awaits_user (transport v) ->
  parse_cb (command_bytes (transport v)) = Returns k ->
  wp (process_command (mkCommand k (Bbb.lun (Bbb.cbw (transport v)))))
    (fun _ v' => turn inv (moves k) v v') v ->
  wp main (fun _ v' => device_inv v') v.
Proof.
  intros Hr Hu Hk Hrun. unfold main_poll_command, wp. rewrite poll_command_run, Hk by done.
  change (wp (let? _ := process_command (mkCommand k (Bbb.lun (Bbb.cbw (transport v)))) in
    let? _ := on_transport Bbb.poll in ret (Ok tt)) (fun _ v' => device_inv v') v).
  wp_steps. eapply wp_mono; [exact Hrun|]. intros [[]|e] v1 Hv1%turn_inv; [|done..].
  wp_steps. pose proof (device_reachable _ Hv1) as (d & Hd & Hg1)%reachable_good.
  eapply wp_call; [by apply (poll_good d Hd)|]. intros r v2 Hp _ Hsame.
  pose proof (device_inv_poll _ _ _ Hv1 Hp Hsame). by destruct r; [wp_steps|].
Qed.

Lemma main_idle v :
  reachable (transport v) -> ~ awaits_user (transport v) -> main v = Returns (Ok tt, v).
Proof. intros. by apply poll_command_idle. Qed.
End Poll.
