(* ===== verification/FirmwareSense.v ===== *)
(** * What the handlers keep of [STATE]

    READ and WRITE use [storage_offset] only: the sense data stays as it is ([sense]). A
    small calculus of computations that keep it, in the manner of [wp] but for partial
    correctness: nothing is said of a run that does not return. *)
From S2P Require Import Prelude.
From S2P Require Import Usb.
From S2P Require Import Buffer.
From S2P Require Import Transport.
From S2P Require Import Bbb.
From S2P Require Import Subclass.
From S2P Require Import Firmware.

Local Open Scope Z_scope.
Local Open Scope rust_scope.

(** [STATE] but for the place in the transfer. *)
Definition sense (st : State) : State := set_storage_offset 0 st.

Lemma sense_same st st' :
  sense st = sense st' -> storage_offset st = storage_offset st' -> st = st'.
Proof. destruct st, st'. unfold sense, set_storage_offset. cbn. congruence. Qed.

Section Sense.
Context `{!UsbStack} {T D : Type} `{!OverBulkOnly T}.
Implicit Types v : Device T D.

(** The sense data is [s] in every state that a run from such a state returns in. *)
Definition keeps_sense {A} (s : State) (m : M (Device T D) A) : Prop :=
  forall v a v', sense (STATE v) = s -> m v = Returns (a, v') -> sense (STATE v') = s.

Lemma keeps_sense_bind {A B} s (m : M (Device T D) A) (k : A -> M (Device T D) B) :
  keeps_sense s m -> (forall a, keeps_sense s (k a)) -> keeps_sense s (bind m k).
Proof.
  intros Hm Hk v b v' Hs. unfold bind. destruct (m v) as [[a v1]| |] eqn:Hrun; [|done..].
  apply Hk. by eapply Hm.
Qed.
Lemma keeps_sense_bind_try {A B E} s (m : M (Device T D) (result A E)) (k : A -> M (Device T D) (result B E)) :
  keeps_sense s m -> (forall a, keeps_sense s (k a)) -> keeps_sense s (bind_try m k).
Proof.
  intros Hm Hk. apply keeps_sense_bind; [done|]. intros [a|e]; [apply Hk|]. by intros v b v' Hs [= _ <-].
Qed.
(** What is read from [STATE] has the sense data. *)
Lemma keeps_sense_state {B} s (k : State -> M (Device T D) B) :
  (forall st, sense st = s -> keeps_sense s (k st)) -> keeps_sense s (bind (gets STATE) k).
Proof. intros Hk v b v' Hs. exact (Hk _ Hs v b v' Hs). Qed.
Lemma keeps_sense_gets {A} s (f : Device T D -> A) : keeps_sense s (gets f).
Proof. by intros v a v' Hs [= _ <-]. Qed.
Lemma keeps_sense_lift {A} s (o : outcome A) : keeps_sense s (lift o).
Proof. intros v a v' Hs. unfold lift, gets_o. destruct o; [|done..]. by intros [= _ <-]. Qed.
Lemma keeps_sense_ret {A} s (a : A) : keeps_sense s (ret a).
Proof. by intros v b v' Hs [= _ <-]. Qed.
Lemma keeps_sense_transport {A} s (m : M BulkOnly A) : keeps_sense s (on_transport m).
Proof.
  intros v a v' Hs. unfold on_transport, zoom. destruct (m _) as [[]| |]; [|done..]. by intros [= _ <-].
Qed.
Lemma keeps_sense_memory s m : keeps_sense s (modify (set_MEMORY m)).
Proof. by intros v a v' Hs [= _ <-]. Qed.
Lemma keeps_sense_move_to s offset st : sense st = s -> keeps_sense s (move_to offset st).
Proof. intros Hst v a v' Hs [= _ <-]. exact Hst. Qed.
Lemma keeps_sense_loop {E} s fuel (body : M (Device T D) (result bool E)) :
  keeps_sense s body -> keeps_sense s (loop fuel body).
Proof.
  intros Hb. induction fuel as [|fuel IH]; [done|]. apply keeps_sense_bind_try; [done|].
  intros [|]; [done|]. apply keeps_sense_ret.
Qed.
Lemma keeps_sense_finish s : keeps_sense s finish.
Proof.
  unfold finish, pass. apply keeps_sense_state. intros st Hst.
  apply keeps_sense_bind; [apply keeps_sense_transport|intros _].
  apply keeps_sense_bind; [|intros _; apply keeps_sense_ret]. intros v a v' _ [= _ <-]. exact Hst.
Qed.
End Sense.

(** A computation built from these. *)
Ltac keep_sense :=
  repeat lazymatch goal with
    | |- keeps_sense _ finish => apply keeps_sense_finish
    | |- keeps_sense _ (bind (gets STATE) _) => apply keeps_sense_state; intros
    | |- keeps_sense _ (bind_try _ _) => apply keeps_sense_bind_try; [|intros]
    | |- keeps_sense _ (bind _ _) => apply keeps_sense_bind; [|intros]
    | |- keeps_sense _ (gets _) => apply keeps_sense_gets
    | |- keeps_sense _ (lift _) => apply keeps_sense_lift
    | |- keeps_sense _ (ret _) => apply keeps_sense_ret
    | |- keeps_sense _ (modify (set_MEMORY _)) => apply keeps_sense_memory
    | |- keeps_sense _ (move_to _ _) => apply keeps_sense_move_to; done
    | |- keeps_sense _ (loop _ _) => apply keeps_sense_loop
    | |- keeps_sense _ (on_transport _) => apply keeps_sense_transport
    | |- keeps_sense _ (Subclass.write_data _) => apply keeps_sense_transport
    | |- keeps_sense _ (Subclass.read_data _) => apply keeps_sense_transport
    | |- keeps_sense _ (match ?x with _ => _ end) => destruct x
    end.
