(* ===== verification/FirmwareRun.v ===== *)
(** * The example firmwares in their main loop

    For any class, memory and handler: an induction principle for a command that takes
    several turns ([course]: what holds of the globals, of the moved bytes and of the status
    at the start and is kept by every turn of the handler holds until the status is out,
    whatever the bus, the host and control requests do in between); the case of a command
    that moves data block by block ([command_served]); the invariant of all runs
    from power-on ([run_inv]), bus resets included; that rounds of [main_loop] are such runs
    ([main_loop_run]) and how they end ([round_keeps]); runs on the test bus, for the
    witnesses. *)
From stdpp Require Import relations.
From S2P Require Import Prelude.
From S2P Require Import Usb.
From S2P Require Import Buffer.
From S2P Require Import Transport.
From S2P Require Import Bbb.
From S2P Require Import BotSpec.
From S2P Require Import BbbRefine.
From S2P Require Import BbbMethods.
From S2P Require Import BbbReach.
From S2P Require Import MockBus.
From S2P Require Import BbbSafe.
From S2P Require Import BotStream.
From S2P Require Import Transfer.
From S2P Require Import Subclass.
From S2P Require Import Firmware.
From S2P Require Import FirmwareSense.
From S2P Require Import FirmwareSpec.

Local Open Scope Z_scope.
Local Open Scope rust_scope.

(** ** A command in the main loop *)

Section Loop.
Context `{!UsbStack, !UsbStackLaws} {T D : Type} `{!OverBulkOnly T, !StackClass T}.
Context {Kind : Type} (parse_cb : list byte -> outcome Kind).
Context (process_command : callback (C := Device T D) Kind).
Implicit Types v vt : Device T D.
Local Abbreviation main := (main_poll_command parse_cb process_command).

(** What happens while a command is in progress: the stack polls the class, the loop
    polls the command, a control request comes in, the host acts on the bus. *)
Inductive loop_step v : Device T D -> Prop :=
| loop_usb v' : ~ between (transport v) -> usb_poll v = Returns (tt, v') -> loop_step v v'
| loop_command r v' : main v = Returns (r, v') -> loop_step v v'
| loop_control req v' :
    is_bot_reset req = false -> usb_control_in req v = Returns (tt, v') -> loop_step v v'
| loop_host b :
    host_step (bus (transport v)) b -> loop_step v (set_transport (set_bus b (transport v)) v).

(** [v0]: the command has begun in the last [poll], and the previous one is done with. *)
Definition begins (t0 : BulkOnly) (v0 : Device T D) : Prop :=
  (exists r, Bbb.poll t0 = Returns (r, transport v0)) /\
  command_phase (Bbb.state (transport v0)) = false /\ storage_offset (STATE v0) = 0.

Lemma zoom_class_run {A} (m : M T A) (m' : M BulkOnly A) v a v' :
  m (class_ v) = on_transport m' (class_ v) -> zoom class_ set_class m v = Returns (a, v') ->
  m' (transport v) = Returns (a, transport v') /\ same_globals v v'.
Proof.
  intros Hm. unfold zoom. rewrite Hm. unfold on_transport, zoom.
  change (transport v) with (transport (class_ v)).
  destruct (m' _) as [[a' t']| |]; [|done..]. intros [= <- <-]. cbn.
  rewrite transport_set. by split.
Qed.

Lemma usb_poll_run v v' :
  usb_poll v = Returns (tt, v') ->
  exists r, Bbb.poll (transport v) = Returns (r, transport v') /\ same_globals v v'.
Proof.
  intros Hrun. destruct (zoom_class_run class_poll (let! _ := Bbb.poll in ret tt) v tt v')
    as [Hp Hs]; [|done|].
  { rewrite class_poll_law. unfold on_transport, zoom, bind, ret.
    by destruct (Bbb.poll (transport (class_ v))) as [[]| |]. }
  unfold bind, ret in Hp. destruct (Bbb.poll _) as [[r t']| |]; [|done..]. injection Hp as ->. eauto.
Qed.
Lemma control_in_run req v v' :
  usb_control_in req v = Returns (tt, v') ->
  Bbb.control_in req (transport v) = Returns (tt, transport v') /\ same_globals v v'.
Proof. apply zoom_class_run, class_control_in_law. Qed.

Lemma transfer_reachable t0 acc del t : reachable t0 -> transfer t0 acc del t -> reachable t.
Proof.
  intros Hr Htr. induction Htr as
    [r t Hp _|acc del t r t' _ IH _ Hp|acc del t src r t' _ IH Hp
    |acc del t src r t' _ IH Hp|acc del t dst dst' r t' _ IH Hp
    |acc del t s n t' _ IH _ Hp|acc del t req t' _ IH _ Hp|acc del t b _ IH Hb].
  - by eapply reachable_poll.
  - by eapply reachable_poll.
  - eapply reachable_step; [done|]. apply (step_call _ (CWriteData src)). cbn. unfold bind. by rewrite Hp.
  - eapply reachable_step; [done|]. apply (step_call _ (CTryWriteDataAll src)). cbn. unfold bind. by rewrite Hp.
  - eapply reachable_step; [done|]. apply (step_call _ (CReadData dst)). cbn. unfold bind. by rewrite Hp.
  - eapply reachable_step; [done|]. by apply (step_call _ (CSetStatus s n)).
  - eapply reachable_step; [done|]. by apply (step_call _ (CControlIn req)).
  - eapply reachable_step; [done|]. by apply step_host.
Qed.

Context (d : device) (t0 : BulkOnly).
Hypothesis Hd : device_ok d.
Hypothesis Ht0 : good d t0.
Hypothesis Hbt : between t0.

Lemma transfer_good acc del t : transfer t0 acc del t -> good d t.
Proof. intros Ht. by destruct (transfer_tracked d Hd t0 acc del t Ht0 Hbt Ht). Qed.

Lemma transfer_phase acc del t : transfer t0 acc del t -> command_phase (Bbb.state t) = false.
Proof.
  intros Ht. destruct (transfer_tracked d Hd t0 acc del t Ht0 Hbt Ht) as [_ _ (p & _ & _ & [_ Hin _ _])].
  unfold in_part in Hin. change (phase (view t)) with (Bbb.state t) in Hin. by destruct (Bbb.state t).
Qed.

(** The bytes moved so far: not more than announced. *)
Lemma transfer_within acc del t : transfer t0 acc del t -> within (Bbb.cbw t) acc.
Proof.
  intros Ht. destruct (transfer_tracked d Hd t0 acc del t Ht0 Hbt Ht) as [_ _ (p & _ & _ & Hs)].
  apply (serves_in_log _ _ _ _ _ _ _ Hs).
Qed.

Lemma transfer_delivered acc del t :
  transfer t0 acc del t -> direction (Bbb.cbw t) = DataOut ->
  len del < data_transfer_len (Bbb.cbw t) + d_ps d.
Proof.
  intros Ht. destruct (transfer_tracked d Hd t0 acc del t Ht0 Hbt Ht) as [_ _ (p & _ & _ & Hs)].
  apply (serves_delivered _ _ _ _ _ _ _ (proj1 (d_ps_range d Hd)) Hs).
Qed.

Lemma transfer_cbw_range acc del t : transfer t0 acc del t -> is_u32 (data_transfer_len (Bbb.cbw t)).
Proof.
  intros Ht. by destruct (good_cbw d t (transfer_good _ _ _ Ht) (transfer_phase _ _ _ Ht)).
Qed.

(** A [poll] keeps the wrapper and the status of a command in progress. *)
Lemma transfer_poll acc del t r t' :
  transfer t0 acc del t -> ~ between t -> Bbb.poll t = Returns (r, t') ->
  transfer t0 acc del t' /\ Bbb.cbw t' = Bbb.cbw t /\ cs t' = cs t.
Proof.
  intros Ht Hnb Hrun. split; [by eapply tr_poll|].
  destruct (wp_returns _ _ _ _ _ (poll_good d Hd t (transfer_good _ _ _ Ht)) Hrun) as [_ Hstep].
  assert (~ (phase (view t) = StatusTransfer /\ queue (view t) = [])) as Hnot.
  { intros [? ?]. apply Hnb. by right. }
  exact (bot_poll_frame _ _ (view t) _ _ (transfer_phase _ _ _ Ht) Hnot Hstep).
Qed.

Lemma awaits_not_between acc del t :
  transfer t0 acc del t -> awaits_user t -> ~ between t.
Proof.
  intros Ht Hu [Hst|[Hst _]]; [destruct Hu as [Hp _]; by rewrite Hst in Hp|].
  pose proof (awaits_status_phase d t (transfer_good _ _ _ Ht) Hu) as Hph. by rewrite Hst in Hph.
Qed.

Context (c : CommandBlockWrapper).

(** The command [c] in the user's turn, after [acc] was written and [del] read: [vt] is the
    device at the start of the turn. *)
Record serving vt v (acc del : list byte) : Prop := {
  serving_transfer : transfer t0 acc del (transport v);
  serving_cbw : Bbb.cbw (transport v) = c;
  serving_user : awaits_user (transport v);
  serving_left : left_to_transfer (transport v) = left_to_transfer (transport vt);
  serving_log : out_log (bus (transport v)) = out_log (bus (transport vt))
}.

Lemma serving_good vt v acc del : serving vt v acc del -> good d (transport v).
Proof. intros Hv. by eapply transfer_good, serving_transfer. Qed.

Lemma serving_kept vt v v' acc del acc' del' :
  serving vt v acc del -> transfer t0 acc' del' (transport v') ->
  kept d (transport v) (transport v') -> serving vt v' acc' del'.
Proof.
  intros [_ Hc Hu Hl Hw] Ht' Hk. split; [done|by rewrite (kept_cbw _ _ _ Hk)|by eapply kept_awaits|..].
  - by rewrite (kept_left _ _ _ Hk).
  - by rewrite (kept_log _ _ _ Hk).
Qed.

Lemma serving_write src Q vt v acc del :
  serving vt v acc del ->
  (forall r v', serving vt v' (acc ++ accepted src r) del -> same_globals v v' ->
     Bbb.write_data src (transport v) = Returns (r, transport v') ->
     match r with Ok n => 0 <= n <= len src | Err _ => True end ->
     (0 < len src -> 0 < gained r \/ gained r = 0 /\ write_stuck (transport v)) -> Q r v') ->
  wp (Subclass.write_data src) Q v.
Proof.
  intros Hv HQ. apply (wp_write_data d); [by eapply serving_good|]. intros r v' Hrun Hk Hs Hn.
  apply HQ; [|done..|eapply write_gains; [by eapply serving_good|exact Hrun]]. eapply serving_kept; [done| |done]. eapply tr_write; [apply Hv|done].
Qed.

Lemma serving_read dst Q vt v acc del :
  serving vt v acc del ->
  (forall r dst' v', serving vt v' acc (del ++ accepted dst' r) -> same_globals v v' ->
     len dst' = len dst ->
     match r with
     | Ok n => exists x, len x = n /\ n <= len dst /\ dst' = x ++ zdrop n dst
     | Err _ => dst' = dst
     end ->
     Bbb.read_data dst (transport v) = Returns ((dst', r), transport v') ->
     (0 < len dst -> 0 < gained r \/ gained r = 0 /\ read_stuck (transport v)) -> Q (dst', r) v') ->
  wp (Subclass.read_data dst) Q v.
Proof.
  intros Hv HQ. apply (wp_read_data d); [by eapply serving_good|]. intros r dst' v' Hrun Hk Hs Hl Hr.
  apply HQ; [|done..|eapply read_gains; [by eapply serving_good|exact Hrun]].
  eapply serving_kept; [done| |done]. eapply tr_read; [apply Hv|done].
Qed.

(** Only [STATE] or the memory differs. *)
Lemma serving_same vt v v' acc del :
  transport v' = transport v -> serving vt v acc del -> serving vt v' acc del.
Proof. intros Heq [Ht Hc Hu Hl Hw]. split; by rewrite Heq. Qed.

(** [J st m acc del s]: what holds in the course of the command when the globals are [st] and
    [m], [acc] are written to and [del] read from the transport, and [s] is the status that
    is set. [next vt v]: what a turn from [vt] that leaves the status open has done in [v]. *)
Context (J : State -> D -> list byte -> list byte -> option StatusAndResidue -> Prop).
Context (next : Device T D -> Device T D -> Prop).

Definition course v : Prop :=
  exists acc del, transfer t0 acc del (transport v) /\ Bbb.cbw (transport v) = c /\
    J (STATE v) (MEMORY v) acc del (cs (transport v)).

(** A turn that began in [vt] may end in [v]. *)
Record course_turn vt v : Prop := {
  turn_course : course v;
  turn_not_between : ~ between (transport v);
  turn_left : left_to_transfer (transport v) = left_to_transfer (transport vt);
  turn_log : out_log (bus (transport v)) = out_log (bus (transport vt));
  turn_next : cs (transport v) = None -> next vt v
}.

(** It leaves the status open, or sets it. *)
Lemma serving_course vt v acc del :
  serving vt v acc del -> J (STATE v) (MEMORY v) acc del None -> next vt v -> course_turn vt v.
Proof.
  intros [Ht Hc Hu Hl Hw] HJ Hn. split; [|by eapply awaits_not_between|done..]. exists acc, del.
  split; [done|]. split; [done|]. by rewrite awaits_no_status.
Qed.
Lemma status_course vt v v' acc del s :
  serving vt v acc del -> transfer t0 acc del (transport v') ->
  transport v' = set_cs (Some s) (transport v) -> J (STATE v') (MEMORY v') acc del (Some s) ->
  course_turn vt v'.
Proof.
  intros [Ht Hc Hu Hl Hw] Ht' Heq HJ. pose proof (awaits_not_between acc del _ Ht Hu) as Hnb.
  split; rewrite ?Heq; try done. exists acc, del. split; [done|]. by rewrite Heq.
Qed.

(** What a turn of the handler has to do for the command [k]. *)
Definition turn_courses (k : Kind) : Prop :=
  forall v acc del l, serving v v acc del -> J (STATE v) (MEMORY v) acc del None ->
    wp (process_command (mkCommand k l)) (fun _ v' => course_turn v v') v.
(** What it may do, whatever the bytes are parsed to: it may panic as well, and so may the
    parser. *)
Definition turns_safe : Prop :=
  forall k v acc del l, parse_cb (ztake (block_len c) (block c)) = Returns k ->
    serving v v acc del -> J (STATE v) (MEMORY v) acc del None ->
    process_command (mkCommand k l) v = Panics \/
    wp (process_command (mkCommand k l)) (fun _ v' => course_turn v v') v.
Lemma turn_courses_safe k :
  parse_cb (ztake (block_len c) (block c)) = Returns k -> turn_courses k -> turns_safe.
Proof. intros Hk Hturn k' v acc del l Hk' Hv HJ. right. assert (k' = k) as -> by congruence. by eapply Hturn. Qed.

Hypothesis Hreach : reachable t0.
Hypothesis Hturn : turns_safe.

Lemma course_poll v v' r :
  course v -> ~ between (transport v) -> Bbb.poll (transport v) = Returns (r, transport v') ->
  same_globals v v' -> course v'.
Proof.
  intros (acc & del & Ht & Hc & Hs) Hnb Hrun [Hst Hm].
  destruct (transfer_poll _ _ _ _ _ Ht Hnb Hrun) as (Ht' & Hc' & Hs').
  exists acc, del. split; [done|]. split; [by rewrite Hc'|]. by rewrite Hs', Hst, Hm.
Qed.

(** A round of the command's part of the main loop: nothing out of the user's turn, else a
    turn of the handler and, if it went well, a [poll]. *)
Lemma main_run v r v' :
  course v -> main v = Returns (r, v') ->
  (~ awaits_user (transport v) /\ v' = v) \/
  exists v1, awaits_user (transport v) /\ course_turn v v1 /\
    (v' = v1 \/ exists r2, Bbb.poll (transport v1) = Returns (r2, transport v') /\ same_globals v1 v').
Proof.
  intros (acc & del & Ht & Hc & Hs) Hrun.
  assert (reachable (transport v)) as Hr by by eapply transfer_reachable.
  destruct (decide (awaits_user (transport v))) as [Hu|Hu].
  2:{ rewrite main_idle in Hrun by done. injection Hrun as _ <-. by left. }
  right. unfold main_poll_command in Hrun. rewrite poll_command_run in Hrun by done.
  unfold command_bytes in Hrun. rewrite Hc in Hrun.
  destruct (parse_cb (ztake (block_len c) (block c))) as [k| |] eqn:Hk; [|done..].
  change (bind (lift (Returns k)) ?f v) with (f k v) in Hrun. cbv beta in Hrun.
  rewrite awaits_no_status in Hs by done. unfold bind_try at 1, bind at 1 in Hrun.
  destruct (Hturn k v acc del (Bbb.lun c) Hk (Build_serving _ _ _ _ Ht Hc Hu eq_refl eq_refl) Hs) as [Hp|Hp];
    [by rewrite Hp in Hrun|].
  apply wp_run in Hp as (r1 & v1 & Hrun1 & Hdo1).
  rewrite Hrun1 in Hrun. exists v1. split; [done|]. split; [done|].
  destruct r1 as [[]|e]; [|injection Hrun as _ <-; by left].
  right. unfold bind_try, bind, on_transport, zoom in Hrun.
  destruct (Bbb.poll (transport v1)) as [[r2 t2]| |] eqn:Hp; [|done..].
  assert (v' = set_transport t2 v1) as -> by (by destruct r2; injection Hrun as _ <-).
  exists r2. by rewrite device_transport_set.
Qed.

Lemma course_command v r v' : course v -> main v = Returns (r, v') -> course v'.
Proof.
  intros Hdo Hrun. destruct (main_run v r v' Hdo Hrun) as [[_ ->]|(v1 & _ & Ht & [->|(r2 & Hp & Hs)])];
    [done|apply Ht|]. by apply (course_poll v1 _ r2 (turn_course _ _ Ht) (turn_not_between _ _ Ht)).
Qed.

Lemma course_step v v' : course v -> loop_step v v' -> course v'.
Proof.
  intros Hdo [v1 Hnb Hrun|r v1 Hrun|req v1 Hreq Hrun|b Hb].
  - destruct (usb_poll_run _ _ Hrun) as (r & Hp & Hs). by eapply (course_poll v).
  - by eapply course_command.
  - destruct (control_in_run _ _ _ Hrun) as (Hp & [Hst Hm]).
    destruct Hdo as (acc & del & Ht & Hc & Hs).
    pose proof (wp_returns _ _ _ _ _
      (control_in_step d req _ (good_live d _ (transfer_good _ _ _ Ht))) Hp) as [_ Hv].
    rewrite Hreq in Hv. exists acc, del. split; [by eapply tr_control_in|].
    change (Bbb.cbw (transport v1)) with (cmd (view (transport v1))).
    change (cs (transport v1)) with (stat (view (transport v1))). by rewrite Hv, Hst, Hm.
  - destruct Hdo as (acc & del & Ht & Hc & Hs). exists acc, del. rewrite device_transport_set.
    split; [by apply tr_host|]. done.
Qed.

Lemma course_loop v0 v : course v0 -> rtc loop_step v0 v -> course v.
Proof. intros Hdo Hr. induction Hr; eauto using course_step. Qed.

(** A command that begins. *)
Lemma begins_open v0 : begins t0 v0 -> transfer t0 [] [] (transport v0) /\ cs (transport v0) = None.
Proof.
  intros ((r & Hp) & Hph & Ho). split; [by eapply tr_begin|].
  destruct (wp_returns _ _ _ _ _ (poll_good d Hd t0 Ht0) Hp) as [Hg Hstep].
  destruct (command_begins_bot _ _ t0 r _ Hbt (good_inv d t0 Ht0) Hstep Hph)
    as (p & c1 & b1 & _ & _ & _ & _ & Hs & Hstart%start_poll).
  assert (command_phase (phase (begin c1 b1)) = false) as Hcp by (cbn; by destruct (direction c1)).
  assert (~ (phase (begin c1 b1) = StatusTransfer /\ queue (begin c1 b1) = [])) as Hnot.
  { intros [Hst _]. cbn in Hst. by destruct (direction c1). }
  destruct (bot_poll_frame _ _ _ _ _ Hcp Hnot Hstart) as [_ Hstat].
  change (stat (view (transport v0)) = None). by rewrite Hstat.
Qed.
Lemma course_begins v0 :
  begins t0 v0 -> Bbb.cbw (transport v0) = c -> J (STATE v0) (MEMORY v0) [] [] None -> course v0.
Proof.
  intros Hb Hc HJ. destruct (begins_open v0 Hb) as [Ht Hs]. exists [], []. by rewrite Hs.
Qed.

(** What is known of the streams of a command whose status wrapper is out: [acc] was written,
    [del] was read and [s] is the status. *)
Record command_ended v (acc del : list byte) (s : StatusAndResidue) : Prop := {
  ended_in : in_log (bus (transport v)) = in_log (bus t0) ++ payload c acc ++ csw_bytes c s;
  ended_out : exists p rest, out_log (bus (transport v)) = out_log (bus t0) ++ p ++ del ++ rest /\
    CBW_LEN <= len (pending t0 ++ p) /\ decode_cbw (ztake CBW_LEN (pending t0 ++ p)) = Some c /\
    announced c del rest;
  ended_within : within c acc;
  ended_good : good d (transport v)
}.

Lemma course_done v :
  course v -> Bbb.state (transport v) = StatusTransfer -> contents (buf (transport v)) = [] ->
  exists acc del s, J (STATE v) (MEMORY v) acc del (Some s) /\ command_ended v acc del s.
Proof.
  intros (acc & del & Ht & Hc & Hs) Hp Hq.
  destruct (transfer_tracked d Hd t0 acc del _ Ht0 Hbt Ht) as [Hg _ (p & Hlen & Hdec & [_ Hin Hout _])].
  unfold in_part, out_part in Hin, Hout. change (phase (view (transport v))) with
    (Bbb.state (transport v)) in Hin, Hout. rewrite Hp in Hin, Hout.
  destruct Hin as (s & part & Hst & Hw & Hpart & Hok), Hout as (rest & Ho & Han).
  change (stat (view (transport v))) with (cs (transport v)) in Hst. rewrite Hst in Hs.
  change (cmd (view (transport v))) with (Bbb.cbw (transport v)) in *. rewrite Hc in *.
  change (queue (view (transport v))) with (contents (buf (transport v))) in Hpart.
  rewrite Hq, app_nil_r in Hpart. subst part.
  exists acc, del, s. split; [done|]. split; [exact Hw| |exact Hok|done].
  exists p, rest. rewrite <- app_assoc in Ho. done.
Qed.
End Loop.

(** ** A command that moves data over several turns *)

Section Moving.
Context `{!UsbStack, !UsbStackLaws} {T D : Type} `{!OverBulkOnly T, !StackClass T}.
Context {Kind : Type} (parse_cb : list byte -> outcome Kind).
Context (process_command : callback (C := Device T D) Kind).
Implicit Types v vt : Device T D.
Context (d : device) (t0 : BulkOnly).
Hypothesis Hd : device_ok d.
Hypothesis Ht0 : good d t0.
Hypothesis Hbt : between t0.
Context (c : CommandBlockWrapper).
Local Abbreviation serving := (serving t0 c).

(** [P offset acc del m]: what holds when [offset] bytes are moved, [acc] are written
    to and [del] read from the transport, and the memory holds [m]. [moving_data]: the
    command [c] moves [total] bytes under that invariant, and its status is not set
    before they are moved. [stuck]: the transport can move nothing for the handler. *)
Context (P : Z -> list byte -> list byte -> D -> Prop) (total : Z) (stuck : BulkOnly -> Prop).

Definition moving_data (st : State) (m : D) (acc del : list byte) (s : option StatusAndResidue) : Prop :=
  match s with
  | None => P (storage_offset st) acc del m
  | Some s =>
    s = mkStatusAndResidue Passed (saturating_sub (data_transfer_len c) total) /\
    storage_offset st = 0 /\ P total acc del m
  end.

(** The turn that began in [vt] gets to the offset [o]: it grows, unless nothing could be
    moved. *)
Definition advances vt (o : Z) : Prop :=
  storage_offset (STATE vt) < o \/
  storage_offset (STATE vt) = o /\ o <> total /\ stuck (transport vt).

Lemma gained_advances vt n :
  storage_offset (STATE vt) <> total -> 0 < n \/ n = 0 /\ stuck (transport vt) ->
  advances vt (storage_offset (STATE vt) + n).
Proof. intros Hne [?|[-> ?]]; [left; lia|]. right. by rewrite Z.add_0_r. Qed.

(** In a loop of the turn that began in [vt]: its first round, or something was moved. *)
Definition moved_on vt v : Prop :=
  transport v = transport vt /\ storage_offset (STATE v) = storage_offset (STATE vt) \/
  storage_offset (STATE vt) < storage_offset (STATE v).

Lemma moved_advances vt v n :
  storage_offset (STATE vt) <> total -> moved_on vt v -> 0 < n \/ n = 0 /\ stuck (transport v) ->
  advances vt (storage_offset (STATE v) + n).
Proof.
  intros Hne [[Ht Ho]|Ho] Hn; [|left; lia]. rewrite Ho. apply gained_advances; [done|]. by rewrite Ht in Hn.
Qed.
Lemma moved_more vt v v' n :
  moved_on vt v -> storage_offset (STATE v') = storage_offset (STATE v) + n -> 0 < n -> moved_on vt v'.
Proof. intros [[_ Ho]|Ho] Hn ?; right; lia. Qed.

(** A turn that began in [vt] may end in [v]. *)
Definition doing_turn vt v : Prop :=
  course_turn t0 c moving_data (fun vt v => advances vt (storage_offset (STATE v))) vt v.

Lemma serving_doing vt v acc del :
  serving vt v acc del -> P (storage_offset (STATE v)) acc del (MEMORY v) ->
  advances vt (storage_offset (STATE v)) -> doing_turn vt v.
Proof. intros Hv HP Ha. by eapply (serving_course d). Qed.

Lemma finish_doing vt v acc del :
  serving vt v acc del -> storage_offset (STATE v) = total -> is_u32 total ->
  P total acc del (MEMORY v) -> wp finish (fun _ v' => doing_turn vt v') v.
Proof.
  intros Hv Ho H32 HP. pose proof Hv as [Ht Hc Hu Hl Hw].
  unfold finish, pass. wp_steps. rewrite Ho. unfold as_u32. rewrite Z.mod_small by exact H32.
  apply (wp_set_status d); [by eapply (serving_good d)|done|]. intros v' Hrun Ht' [_ Hm]. wp_steps.
  eapply (status_course d); [done..|by eapply tr_set_status|exact Ht'|].
  cbn [moving_data]. rewrite Hc. split; [done|]. split; [done|]. cbn. by rewrite Hm.
Qed.

(** [state.storage_offset = offset], where the memory may have changed since. *)
Lemma move_to_doing vt v acc del offset st :
  serving vt v acc del -> P offset acc del (MEMORY v) ->
  advances vt offset ->
  wp (do! move_to offset st in ret (Ok tt)) (fun (_ : BResult unit) v' => doing_turn vt v') v.
Proof.
  intros Hv HP Ha. unfold move_to. wp_steps. eapply serving_doing; [by apply (serving_same _ _ vt v)|done|done].
Qed.

Context (k : Kind).
(** What a turn of the handler has to do. *)
Definition turn_keeps : Prop :=
  turn_courses process_command t0 c moving_data (fun vt v => advances vt (storage_offset (STATE v))) k.
Hypothesis Hreach : reachable t0.
Hypothesis Hk : parse_cb (ztake (block_len c) (block c)) = Returns k.
Hypothesis Hturn : turn_keeps.

(** The handler keeps the sense data. *)
Hypothesis Hsense : forall s ln, keeps_sense s (process_command (mkCommand k ln)).

(** All of it: a command that begins, is driven by the main loop and ends. *)
Lemma command_served v0 v :
  begins t0 v0 -> Bbb.cbw (transport v0) = c -> P 0 [] [] (MEMORY v0) -> rtc (loop_step parse_cb process_command) v0 v ->
  Bbb.state (transport v) = StatusTransfer -> contents (buf (transport v)) = [] ->
  exists acc del, P total acc del (MEMORY v) /\ STATE v = STATE v0 /\
    command_ended d t0 c v acc del (mkStatusAndResidue Passed (saturating_sub (data_transfer_len c) total)).
Proof.
  intros Hb Hc HP Hloop Hp Hq. pose proof Hb as (_ & _ & Ho).
  set (J := fun st m acc del s => moving_data st m acc del s /\ sense st = sense (STATE v0)).
  set (next := fun vt v' : Device T D => advances vt (storage_offset (STATE v'))).
  assert (turns_safe parse_cb process_command t0 c J next) as Hsafe.
  { eapply turn_courses_safe; [done|]. intros v1 acc del ln Hv (HJ & Hs).
    apply wp_run. pose proof (Hturn v1 acc del ln Hv HJ) as (r & v2 & Hrun & Hc2)%wp_run.
    exists r, v2. split; [done|]. destruct Hc2 as [(acc2 & del2 & Ht2 & Hc2 & HJ2) ? ? ? ?]. split; [|done..].
    exists acc2, del2. split; [done|]. split; [done|]. split; [done|]. by eapply Hsense. }
  assert (course t0 c J v) as Hdo.
  { apply (course_loop parse_cb process_command d t0 Hd Ht0 Hbt c J next Hreach Hsafe v0); [|done].
    apply (course_begins d t0 Hd Ht0 Hbt); [done..|]. split; [|done]. cbn [moving_data]. by rewrite Ho. }
  destruct (course_done d t0 Hd Ht0 Hbt c J v Hdo Hp Hq) as (acc & del & s & [(-> & Ho' & HP') Hs] & Hend).
  exists acc, del. split; [done|]. split; [|done]. apply sense_same; [done|]. by rewrite Ho.
Qed.
End Moving.

(** ** Runs from power-on *)

Section Run.
Context `{!UsbStack, !UsbStackLaws} {T D : Type} `{!OverBulkOnly T, !StackClass T} (inv : D -> Prop).
Context {Kind : Type} (parse_cb : list byte -> outcome Kind) (moves : Kind -> bool).
Context (process_command : callback (C := Device T D) Kind).
Implicit Types v : Device T D.
Local Abbreviation main := (main_poll_command parse_cb process_command).
Local Abbreviation device_inv := (device_inv inv parse_cb moves).

(** Before the loop sees an event: rounds in which [usb_device.poll] returns [false], with any
    calls of the class, bus resets among them, and the host. *)
Inductive unseen_step v : Device T D -> Prop :=
| unseen_round calls default v' :
    main_loop parse_cb process_command calls false default v = Returns (tt, v') -> unseen_step v v'
| unseen_host b :
    host_step (bus (transport v)) b -> unseen_step v (set_transport (set_bus b (transport v)) v).

(** All that can happen to the firmware: calls of the stack, the loop's turn and the host, one
    by one in any order, and, with whatever came before it unseen, a round of the loop that
    finds the stack in [UsbDeviceState::Default]. A bus reset puts the stack in that state
    until the host has given the device an address again, so it lies before or in such a
    round: [run_default]. The stack gives [control_in] requests with an IN data phase only,
    so never the Bulk-Only reset; in [run_default] it may come as well. *)
Inductive run_step v : Device T D -> Prop :=
| run_usb v' : usb_poll v = Returns (tt, v') -> run_step v v'
| run_command r v' : main v = Returns (r, v') -> run_step v v'
| run_control req v' :
    is_bot_reset req = false -> usb_control_in req v = Returns (tt, v') -> run_step v v'
| run_default calls v1 v' :
    rtc unseen_step v v1 -> main_loop parse_cb process_command calls true true v1 = Returns (tt, v') ->
    run_step v v'
| run_host b :
    host_step (bus (transport v)) b -> run_step v (set_transport (set_bus b (transport v)) v).

(** The firmware when it enters its main loop. *)
Definition powered_on v : Prop :=
  reachable (transport v) /\ wf_device inv v /\ storage_offset (STATE v) = 0.

(** It is, when the class was made on a fresh bus with a buffer that is accepted. *)
Lemma power_on_run (make : InterfaceNumber -> BulkOnly -> T) ps ml bf b m :
  bus_fresh b -> 0 < ps < 2 ^ 16 -> 0 <= ml -> new_accepts ps ml bf -> inv m ->
  (forall n t, transport (make n t) = t) ->
  owp (power_on (let* (r, b) := Bbb.new ps ml bf b in
       match r with
       | Ok t => let* (n, b) := alloc_interface b in Returns (Ok (make n (set_bus b t)), b)
       | Err e => Returns (Err e, b)
       end) m) powered_on.
Proof.
  intros Hb Hps Hml Hacc Hm Hmake. pose proof (new_reachable make ps ml bf b Hb Hps Hml Hacc) as Hnew.
  unfold power_on. destruct (let* _ := _ in _) as [[r b']| |]; [|done..].
  destruct Hnew as (n & t & -> & Ht). cbn [obind owp]. split; [|split; [split; [by vm_compute|done]|done]].
  cbn. by rewrite Hmake.
Qed.

(** What the handler of a firmware promises. *)
Hypothesis Hsafe : forall v k,
  device_inv v -> awaits_user (transport v) -> parse_cb (command_bytes (transport v)) = Returns k ->
  let c := mkCommand k (Bbb.lun (Bbb.cbw (transport v))) in
  process_command c v = Panics \/ wp (process_command c) (fun _ v' => turn inv (moves k) v v') v.

Lemma device_inv_command v r v' : device_inv v -> main v = Returns (r, v') -> device_inv v'.
Proof.
  intros Hv Hrun. pose proof (device_reachable _ _ _ _ Hv) as Hr.
  destruct (decide (awaits_user (transport v))) as [Hu|Hu].
  2:{ rewrite main_idle in Hrun by done. by injection Hrun as _ <-. }
  destruct (parse_cb (command_bytes (transport v))) as [k| |] eqn:Hk;
    [|by unfold main_poll_command in Hrun; rewrite poll_command_run, Hk in Hrun..].
  destruct (Hsafe v k Hv Hu Hk) as [Hp|Hp].
  - by rewrite (main_panics _ _ _ k) in Hrun.
  - exact (wp_returns _ _ _ _ _ (main_turn inv parse_cb moves _ _ k Hr Hu Hk Hp) Hrun).
Qed.

(** Only the transport differs, and a call that keeps the protocol's state. *)
Lemma device_inv_view v v' :
  device_inv v -> reachable (transport v') -> view (transport v') = view (transport v) ->
  same_globals v v' -> device_inv v'.
Proof.
  intros [_ Hwf Hpl] Hr Hv Hs. split; [done|by eapply wf_same|].
  assert (Bbb.cbw (transport v') = Bbb.cbw (transport v)) as Hc
    by (change (cmd (view (transport v')) = cmd (view (transport v))); by rewrite Hv).
  eapply place_same; [apply Hs| |done|done]. unfold awaits_user, has_status.
  change (state (transport v')) with (phase (view (transport v'))).
  change (cs (transport v')) with (stat (view (transport v'))). by rewrite Hv.
Qed.

Lemma host_inv v b :
  device_inv v -> host_step (bus (transport v)) b -> device_inv (set_transport (set_bus b (transport v)) v).
Proof.
  intros Hv Hb. pose proof (device_reachable _ _ _ _ Hv) as Hr. pose proof Hr as (d & Hd & Hg)%reachable_good.
  assert (bus_ok (d_in d) (d_out d) (bus (transport v))) as Hbus by apply Hg.
  destruct (host_step_law _ _ _ _ Hb Hbus) as (_ & Hi & Ho).
  eapply device_inv_view; [done|..|apply same_set_transport]; rewrite device_transport_set.
  - eapply reachable_step; [exact Hr|by apply step_host].
  - unfold view. cbn. by rewrite Hi, Ho.
Qed.

(** What is left of the invariant when the stack may have reset the class: any offset. *)
Definition settling v : Prop := reachable (transport v) /\ wf_device inv v.

Lemma device_inv_settling v : device_inv v -> settling v.
Proof. by intros [? ? _]. Qed.

(** The state is cleared: whatever the transport is doing, the invariant holds again. *)
Lemma settling_cleared v : settling v -> device_inv (set_STATE State_reset v).
Proof. intros [Hr [_ Hm]]. split; [done|split; [by vm_compute|done]|by left]. Qed.

Lemma settling_same v v' : settling v -> step (transport v) (transport v') -> same_globals v v' -> settling v'.
Proof. intros [Hr Hwf] Hs Hsame. split; [by eapply reachable_step|by eapply wf_same]. Qed.

Lemma stack_call_run c v v' :
  run_stack_call c v = Returns (tt, v') -> step (transport v) (transport v') /\ same_globals v v'.
Proof.
  destruct c as [|req|]; cbn [run_stack_call]; intros Hrun.
  - destruct (usb_poll_run _ _ Hrun) as (r & Hp & Hs). split; [|done].
    apply (step_call _ CPoll). change ((do! Bbb.poll in ret tt) (transport v) = Returns (tt, transport v')).
    unfold bind. by rewrite Hp.
  - destruct (control_in_run _ _ _ Hrun) as [Hp Hs]. split; [|done]. by apply (step_call _ (CControlIn req)).
  - destruct (zoom_class_run _ _ _ _ _ (class_reset_law _) Hrun) as [Hp Hs]. split; [|done].
    by apply (step_call _ CReset).
Qed.

Lemma stack_settling calls v v' : settling v -> usb_device_poll calls v = Returns (tt, v') -> settling v'.
Proof.
  revert v. induction calls as [|c calls IH]; intros v Hv; cbn [usb_device_poll]; [by intros [= <-]|].
  unfold bind. destruct (run_stack_call c v) as [[[] v1]| |] eqn:Hrun; [|done..].
  apply IH. destruct (stack_call_run _ _ _ Hrun). by eapply settling_same.
Qed.

Lemma settling_unseen v v' : settling v -> rtc unseen_step v v' -> settling v'.
Proof.
  intros Hv Hrun. induction Hrun as [|v0 v1 v2 Hstep _ IH]; [done|]. apply IH.
  destruct Hstep as [calls default v1 Hrun|b Hb].
  - unfold main_loop, bind in Hrun. destruct (usb_device_poll calls v0) as [[[] v']| |] eqn:Hp; [|done..].
    cbn [negb] in Hrun. injection Hrun as <-. by eapply stack_settling.
  - eapply settling_same; [done| |apply same_set_transport]. rewrite device_transport_set. by apply step_host.
Qed.

(** A round that finds the stack in its default state clears [STATE] before the turn. *)
Lemma default_inv calls v v' :
  settling v -> main_loop parse_cb process_command calls true true v = Returns (tt, v') -> device_inv v'.
Proof.
  intros Hv Hrun. unfold main_loop, bind in Hrun.
  destruct (usb_device_poll calls v) as [[[] v1]| |] eqn:Hp; [|done..].
  cbn [negb when] in Hrun. unfold modify, ret in Hrun.
  destruct (main _) as [[r v2]| |] eqn:Hm; [|done..]. injection Hrun as <-.
  eapply device_inv_command; [|exact Hm]. by eapply settling_cleared, stack_settling.
Qed.

Lemma device_inv_step v v' : device_inv v -> run_step v v' -> device_inv v'.
Proof.
  intros Hv Hstep. pose proof (device_reachable _ _ _ _ Hv) as Hr.
  destruct Hstep as [v1 Hrun|r v1 Hrun|req v1 Hreq Hrun|calls v1 v2 Hun Hrun|b Hb].
  - destruct (usb_poll_run _ _ Hrun) as (r & Hp & Hs). by eapply device_inv_poll.
  - by eapply device_inv_command.
  - destruct (control_in_run _ _ _ Hrun) as (Hp & Hs). pose proof Hr as (d & Hd & Hg)%reachable_good.
    destruct (wp_returns _ _ _ _ _ (control_in_step d req _ (good_live d _ Hg)) Hp) as [_ Hview].
    rewrite Hreq in Hview. eapply device_inv_view; [done| |done|done].
    eapply reachable_step; [done|]. by apply (step_call _ (CControlIn req)).
  - by eapply default_inv, Hrun; eapply settling_unseen, Hun; apply device_inv_settling.
  - by apply host_inv.
Qed.

Lemma powered_on_inv v : powered_on v -> device_inv v.
Proof. intros (Hr & Hwf & Ho). split; [done..|]. by left. Qed.

Lemma run_steps_inv v v' : device_inv v -> rtc run_step v v' -> device_inv v'.
Proof.
  intros Hv Hrun. induction Hrun as [|v0 v1 v2 Hstep _ IH]; [done|]. by apply IH, (device_inv_step v0).
Qed.
Lemma run_inv v0 v : powered_on v0 -> rtc run_step v0 v -> device_inv v.
Proof. intros Hv0%powered_on_inv. by apply run_steps_inv. Qed.

(** Rounds of the main loop are such runs, when the stack calls neither [reset] nor, with the
    Bulk-Only reset, [control_in]. *)
Definition ordinary (c : stack_call) : Prop :=
  match c with StackPoll => True | StackControlIn req => is_bot_reset req = false | StackReset => False end.

Lemma stack_run calls v v' :
  Forall ordinary calls -> usb_device_poll calls v = Returns (tt, v') -> rtc run_step v v'.
Proof.
  intros Hall. revert v. induction Hall as [|c calls Hc _ IH]; intros v Hrun.
  - by injection Hrun as <-.
  - cbn [usb_device_poll] in Hrun. unfold bind in Hrun.
    destruct (run_stack_call c v) as [[[] v1]| |] eqn:Hv; [|done..].
    eapply rtc_l; [|by apply IH]. destruct c; [by apply run_usb|by eapply run_control|done].
Qed.

Lemma main_loop_run calls event default v v' :
  Forall ordinary calls -> main_loop parse_cb process_command calls event default v = Returns (tt, v') ->
  rtc run_step v v'.
Proof.
  intros Hall Hrun. destruct (event && default) eqn:Hed.
  { apply andb_prop in Hed as [-> ->]. by eapply rtc_once, run_default. }
  unfold main_loop, bind in Hrun.
  destruct (usb_device_poll calls v) as [[[] v1]| |] eqn:Hv; [|done..].
  apply (stack_run _ _ _ Hall) in Hv. etrans; [exact Hv|].
  destruct event; cbn [negb andb] in Hrun, Hed; [|by injection Hrun as <-]. subst default.
  cbn [when] in Hrun. unfold ret in Hrun.
  destruct (main _) as [[r v2]| |] eqn:Hm; [|done..]. injection Hrun as <-.
  apply rtc_once. by eapply run_command.
Qed.

(** How a round from [v] ends: in the invariant, or in a panic of its turn. *)
Definition round_keeps calls (event default : bool) v (o : outcome (unit * Device T D)) : Prop :=
  match o with
  | Returns (_, v') => device_inv v'
  | Panics => exists v1, usb_device_poll calls v = Returns (tt, v1) /\ event = true /\
      main (if default then set_STATE State_reset v1 else v1) = Panics
  | OutOfFuel => False
  end.

Lemma stack_call_returns c v : settling v -> exists v', run_stack_call c v = Returns (tt, v').
Proof.
  intros [(d & Hd & Hg)%reachable_good _].
  assert (forall (m : M T unit) (m' : M BulkOnly unit), m (class_ v) = on_transport m' (class_ v) -> wp m' (fun _ _ => True) (transport v) ->
    exists v', zoom class_ set_class m v = Returns (tt, v')) as Hret.
  { intros m m' Hm ([] & t' & Hrun & _)%wp_run. unfold zoom. rewrite Hm. unfold on_transport, zoom.
    change (transport (class_ v)) with (transport v). rewrite Hrun. eauto. }
  destruct c as [|req|]; cbn [run_stack_call].
  - eapply (Hret class_poll (do! Bbb.poll in ret tt));
      [by rewrite class_poll_law; unfold on_transport, zoom, bind, ret; destruct (Bbb.poll _) as [[]| |]|].
    apply wp_bind. eapply wp_mono; [by apply poll_good|]. by intros.
  - eapply Hret; [apply class_control_in_law|]. eapply wp_mono; [by apply control_in_good|]. by intros.
  - eapply Hret; [apply class_reset_law|]. eapply wp_mono; [by apply reset_good|]. by intros.
Qed.
Lemma stack_returns calls v : settling v -> exists v', usb_device_poll calls v = Returns (tt, v').
Proof.
  revert v. induction calls as [|c calls IH]; intros v Hv; cbn [usb_device_poll]; [by eexists|].
  destruct (stack_call_returns c v Hv) as (v1 & Hrun). rewrite (bind_returns _ _ _ _ _ Hrun).
  apply IH. destruct (stack_call_run _ _ _ Hrun). by eapply settling_same.
Qed.

(** The parser does not run out of fuel. *)
Hypothesis Hfuel : forall t,
  reachable t -> awaits_user t -> parse_cb (command_bytes t) <> OutOfFuel.

Lemma main_fuel v : device_inv v -> main v <> OutOfFuel.
Proof.
  intros Hv. pose proof (device_reachable _ _ _ _ Hv) as Hr.
  destruct (decide (awaits_user (transport v))) as [Hu|Hu]; [|by rewrite main_idle].
  destruct (parse_cb (command_bytes (transport v))) as [k| |] eqn:Hk.
  - destruct (Hsafe v k Hv Hu Hk) as [Hp|Hp]; [by rewrite (main_panics _ _ _ k)|].
    by pose proof (main_turn inv parse_cb moves _ _ k Hr Hu Hk Hp) as (r & v' & -> & _)%wp_run.
  - unfold main_poll_command. by rewrite poll_command_run, Hk.
  - by apply Hfuel in Hk.
Qed.

(** The turn of a round that sees an event, in a state with the invariant. *)
Lemma turn_keeps_inv calls (default : bool) v v1 :
  usb_device_poll calls v = Returns (tt, v1) ->
  device_inv (if default then set_STATE State_reset v1 else v1) ->
  round_keeps calls true default v (main_loop parse_cb process_command calls true default v).
Proof.
  intros Hrun Hv1. unfold main_loop. rewrite (bind_returns _ _ _ _ _ Hrun). cbn [negb].
  set (v2 := if default then _ else _) in *.
  assert (when default (modify (set_STATE State_reset)) v1 = Returns (tt, v2)) as Hwhen by (by destruct default).
  rewrite (bind_returns _ _ _ _ _ Hwhen). unfold bind, ret.
  destruct (main v2) as [[r v3]| |] eqn:Hm; cbn [round_keeps].
  - by eapply device_inv_command.
  - by exists v1.
  - by apply main_fuel in Hm.
Qed.

(** Ordinary rounds keep the invariant. *)
Lemma main_loop_inv calls event default v :
  device_inv v -> Forall ordinary calls ->
  round_keeps calls event default v (main_loop parse_cb process_command calls event default v).
Proof.
  intros Hv Hall. destruct (stack_returns calls v (device_inv_settling _ Hv)) as (v1 & Hrun).
  assert (device_inv v1) as Hv1 by (eapply run_steps_inv; [exact Hv|by eapply stack_run]).
  destruct event.
  - eapply turn_keeps_inv; [exact Hrun|]. destruct default; [|done]. by apply settling_cleared, device_inv_settling.
  - unfold main_loop. by rewrite (bind_returns _ _ _ _ _ Hrun).
Qed.

(** While the stack may have reset the class all but the offset is kept, and the round that
    finds it in its default state brings the invariant back. *)
Lemma unseen_inv v vn :
  device_inv v -> rtc unseen_step v vn ->
  reachable (transport vn) /\ wf_device inv vn /\
  forall calls, round_keeps calls true true vn (main_loop parse_cb process_command calls true true vn).
Proof.
  intros Hv%device_inv_settling Hun. pose proof (settling_unseen _ _ Hv Hun) as Hvn.
  split; [apply Hvn|]. split; [apply Hvn|]. intros calls.
  destruct (stack_returns calls vn Hvn) as (v1 & Hrun). eapply turn_keeps_inv; [exact Hrun|].
  by eapply settling_cleared, stack_settling.
Qed.

(** A run from power-on, from [vi] to [vb] between two commands, and the poll in which the
    next one begins. *)
Record command_begins vi vb v0 : Prop := {
  begins_on : powered_on vi;
  begins_run : rtc run_step vi vb;
  begins_between : between (transport vb);
  begins_poll : usb_poll vb = Returns (tt, v0);
  begins_command : command_phase (state (transport v0)) = false
}.

(** It begins with the offset at zero. *)
Lemma command_begins_spec vi vb v0 :
  command_begins vi vb v0 ->
  reachable (transport vb) /\ between (transport vb) /\ begins (transport vb) v0 /\
  wf_device inv v0 /\ same_globals vb v0.
Proof.
  intros [Hvi Hrun Hbt Hpoll Hph]. pose proof (run_inv _ _ Hvi Hrun) as [Hr Hwf Hpl].
  destruct (usb_poll_run _ _ Hpoll) as (r & Hp & Hs).
  split; [done|]. split; [done|]. split; [|split; [by eapply wf_same|done]].
  split; [by exists r|]. split; [done|]. rewrite (same_STATE _ _ Hs).
  destruct Hpl as [Ho|(Hu & _)]; [done|]. exfalso.
  pose proof Hr as (d & Hd & Hg)%reachable_good. pose proof (awaits_status_phase d _ Hg Hu) as Hsp.
  by destruct Hbt as [Hst|[Hst _]]; rewrite Hst in Hsp.
Qed.

(** What the theorems about a command start from. *)
Record command_start (d : device) (vb v0 : Device T D) : Prop := {
  start_reachable : reachable (transport vb);
  start_between : between (transport vb);
  start_begins : begins (transport vb) v0;
  start_device : device_ok d;
  start_good : good d (transport vb);
  start_good0 : good d (transport v0);
  start_inv : inv (MEMORY vb);
  start_memory : MEMORY v0 = MEMORY vb;
  start_state : STATE v0 = STATE vb
}.

Lemma command_begins_start vi vb v0 :
  command_begins vi vb v0 -> exists d, command_start d vb v0.
Proof.
  intros Hbegins. destruct (command_begins_spec _ _ _ Hbegins) as (Hr & Hbt & Hb & [_ Hm] & [Hst Hsame]).
  pose proof Hr as (d & Hd & Hg)%reachable_good. pose proof Hb as ((r & Hpoll) & _).
  destruct (wp_returns _ _ _ _ _ (poll_good d Hd _ Hg) Hpoll) as [Hg0 _].
  exists d. split; [done..|by rewrite <- Hsame|done|done].
Qed.
End Run.

(** ** Runs of the main loop on the test bus *)

Inductive event := EUsb | ECommand | EHost (bytes : list byte).

Section Runs.
Context {T D : Type} `{!@OverBulkOnly MockStack T, !@StackClass MockStack T _}.
Context {Kind : Type} (parse_cb : list byte -> outcome Kind).
Context (process_command : callback (C := Device T D) Kind).

Definition do_event (e : event) (v : Device T D) : option (Device T D) :=
  match e with
  | EUsb =>
    if between_b (transport v) then None
    else match usb_poll v with Returns (_, v') => Some v' | _ => None end
  | ECommand =>
    match main_poll_command parse_cb process_command v with
    | Returns (_, v') => Some v'
    | _ => None
    end
  | EHost bytes =>
    let b := bus (transport v) in
    if 0 <=? mps b
    then Some (set_transport (C := Device T D) (set_bus (enqueue_bus bytes (mps b) b) (transport v)) v) else None
  end.
Fixpoint do_events (l : list event) (v : Device T D) : option (Device T D) :=
  match l with
  | [] => Some v
  | e :: l => match do_event e v with Some v => do_events l v | None => None end
  end.

Lemma do_events_loop l v v' :
  do_events l v = Some v' -> rtc (loop_step parse_cb process_command) v v'.
Proof.
  revert v. induction l as [|e l IH]; intros v; cbn [do_events]; [by intros [= <-]|].
  destruct (do_event e v) as [v1|] eqn:He; [|done]. intros Hl. eapply rtc_l; [|by apply IH].
  destruct e as [| |bytes]; cbn [do_event] in He.
  - destruct (between_b _) eqn:Hb; [done|]. destruct (usb_poll v) as [[[] v2]| |] eqn:Hr; [|done..].
    injection He as <-. apply loop_usb; [|done]. intros Hbt.
    exact (diff_true_false (eq_trans (eq_sym (proj2 (between_b_spec _) Hbt)) Hb)).
  - destruct (main_poll_command _ _ v) as [[r v2]| |] eqn:Hr; [|done..]. injection He as <-.
    by eapply loop_command.
  - destruct (0 <=? _) eqn:Hm; [|done]. injection He as <-. apply loop_host.
    refine (ex_intro _ (chunks _ bytes) (conj _ eq_refl)).
    exact (chunks_fuel_le _ _ _ (proj1 (Z.leb_le _ _) Hm)).
Qed.

(** The same from power-on, whatever the transport is doing. *)
Definition run_event (e : event) (v : Device T D) : option (Device T D) :=
  match e with
  | EUsb => match usb_poll v with Returns (_, v') => Some v' | _ => None end
  | _ => do_event e v
  end.
Fixpoint run_events (l : list event) (v : Device T D) : option (Device T D) :=
  match l with
  | [] => Some v
  | e :: l => match run_event e v with Some v => run_events l v | None => None end
  end.
Definition run_from (boot : outcome (Device T D)) (l : list event) : option (Device T D) :=
  match boot with Returns v => run_events l v | _ => None end.

Lemma run_events_run l v v' :
  run_events l v = Some v' -> rtc (run_step parse_cb process_command) v v'.
Proof.
  revert v. induction l as [|e l IH]; intros v; cbn [run_events]; [by intros [= <-]|].
  destruct (run_event e v) as [v1|] eqn:He; [|done]. intros Hl. eapply rtc_l; [|by apply IH].
  destruct e as [| |bytes]; cbn [run_event do_event] in He.
  - destruct (usb_poll v) as [[[] v2]| |] eqn:Hr; [|done..]. injection He as <-. by apply run_usb.
  - destruct (main_poll_command _ _ v) as [[r v2]| |] eqn:Hr; [|done..]. injection He as <-.
    by eapply run_command.
  - destruct (0 <=? _) eqn:Hm; [|done]. injection He as <-. apply run_host.
    refine (ex_intro _ (chunks _ bytes) (conj _ eq_refl)).
    exact (chunks_fuel_le _ _ _ (proj1 (Z.leb_le _ _) Hm)).
Qed.

(** The user's turn, with the command [k]. *)
Definition is_turn_of (is_k : Kind -> bool) (v : option (Device T D)) : bool :=
  match v with
  | Some v => bool_decide (awaits_user (transport v)) &&
      match parse_cb (command_bytes (transport v)) with Returns k => is_k k | _ => false end
  | None => false
  end.
Lemma run_from_spec boot l is_k vi :
  boot = Returns vi -> is_turn_of is_k (run_from boot l) = true ->
  exists v k, run_from boot l = Some v /\ rtc (run_step parse_cb process_command) vi v /\
    awaits_user (transport v) /\ parse_cb (command_bytes (transport v)) = Returns k /\ is_k k = true.
Proof.
  intros ->. cbn [run_from]. destruct (run_events l vi) as [v|] eqn:Hl; [|done]. cbn [is_turn_of].
  intros [Hu%bool_decide_eq_true Hk]%andb_prop. destruct (parse_cb _) as [k| |] eqn:He; [|done..].
  exists v, k. split; [done|]. split; [by eapply run_events_run|done].
Qed.

(** The device after the [poll] in which its first command begins. *)
Definition first_command (v : Device T D) : Device T D :=
  match usb_poll v with Returns (_, v0) => v0 | _ => v end.

Lemma first_command_begins (inv : D -> Prop) v :
  reachable (transport v) -> inv (MEMORY v) -> storage_offset (STATE v) = 0 ->
  between_b (transport v) &&
    match usb_poll v with Returns (_, v0) => negb (command_phase (Bbb.state (transport v0))) | _ => false end = true ->
  command_begins inv parse_cb process_command v v (first_command v).
Proof.
  intros Hr Hm Ho [Hbt Hp]%andb_prop. unfold first_command.
  destruct (usb_poll v) as [[[] v0]| |] eqn:Hrun; [|done..].
  split; [|done|by apply between_b_spec|done|by apply negb_true_iff].
  split; [done|]. split; [|done]. split; [by rewrite Ho|done].
Qed.

(** The status wrapper is out. *)
Definition ended (v : option (Device T D)) : bool :=
  match v with
  | Some v => bool_decide (Bbb.state (transport v) = StatusTransfer) &&
              bool_decide (contents (buf (transport v)) = [])
  | None => false
  end.
Lemma ended_spec l v0 :
  ended (do_events l v0) = true ->
  exists v, do_events l v0 = Some v /\ rtc (loop_step parse_cb process_command) v0 v /\
    Bbb.state (transport v) = StatusTransfer /\ contents (buf (transport v)) = [].
Proof.
  destruct (do_events l v0) as [v|] eqn:He; [|done]. cbn [ended].
  intros [Hp%bool_decide_eq_true Hq%bool_decide_eq_true]%andb_prop.
  exists v. split; [done|]. split; [by eapply do_events_loop|done].
Qed.

(** All bytes of the command are moved, its status is not set, and the handler is at the
    offset [o]. *)
Definition waits_at (o : Z) (v : option (Device T D)) : bool :=
  match v with
  | Some v => is_one_of (Bbb.state (transport v)) [DataTransferStatusAwait; DataTransferFromHostStatusAwait] &&
      bool_decide (contents (buf (transport v)) = []) && negb (has_status (transport v)) &&
      (storage_offset (STATE v) =? o)
  | None => false
  end.
End Runs.
