(* ===== verification/FirmwareLive.v ===== *)
(** * Commands of the firmwares complete

    For any class, memory and handler: a command that is driven by the main loop, with a
    host that takes or sends a packet whenever the device is ready for one, comes to its
    status, and its wrapper is sent. [work] bounds the rounds that are left: no step of the
    loop adds to it, each [round] takes from it, so [driven_work] bounds their number;
    [course_goes_on]: as long as the wrapper is not out, another round runs. What is asked
    of the handler: a turn that leaves the status open does not add to what is left for it
    ([gap]), and takes from it when no packet can move. For a command that moves data block
    by block ([moving_completes]) each turn moves the offset or finds the transport stuck
    ([advances]), and it is not stuck while bytes are missing and no packet can move
    ([in_unstuck], [out_unstuck]). *)
From stdpp Require Import relations.
From S2P Require Import Prelude.
From S2P Require Import Usb.
From S2P Require Import Buffer.
From S2P Require Import Transport.
From S2P Require Import Bbb.
From S2P Require Import BotSpec.
From S2P Require Import BbbRefine.
From S2P Require Import BbbMethods.
From S2P Require Import BbbReach.
From S2P Require Import MockBus.
From S2P Require Import BbbSafe.
From S2P Require Import BotStream.
From S2P Require Import Transfer.
From S2P Require Import BotLive.
From S2P Require Import BbbSpec.
From S2P Require Import Subclass.
From S2P Require Import Firmware.
From S2P Require Import FirmwareSpec.
From S2P Require Import FirmwareRun.

Local Open Scope Z_scope.
Local Open Scope rust_scope.

Section Transport.
Context `{!UsbStack, !UsbStackLaws}.

(** The next [poll] can move a byte. *)
Definition offered (t : BulkOnly) : bool := offers (packet_size t) (capacity (buf t)) (view t).
(** A byte went over the wire. *)
Definition moved (t t' : BulkOnly) : Prop :=
  ~ (in_log (bus t') = in_log (bus t) /\ out_log (bus t') = out_log (bus t)).
(** The status wrapper is out. *)
Definition out (t : BulkOnly) : Prop := Bbb.state t = StatusTransfer /\ contents (buf t) = [].

Lemma between_out t : command_phase (Bbb.state t) = false -> between t -> out t.
Proof. intros Hp [Hs|Ho]; [by rewrite Hs in Hp|done]. Qed.

Lemma offered_good d t : good d t -> offered t = offers (d_ps d) (d_capacity d) (view t).
Proof.
  intros [Hl _]. unfold offered, packet_size, d_ps. by rewrite (live_in _ _ Hl), (live_capacity _ _ Hl).
Qed.

(** A command with a status can always go on. *)
Lemma offered_status d t s :
  good d t -> cs t = Some s -> ~ out t -> offered t = true.
Proof.
  intros Hg Hs Hout. rewrite (offered_good d) by done. pose proof (command_of_status d t s Hg Hs) as Hp.
  unfold offers, out in *. cbn. rewrite Hs. destruct (Bbb.state t); try done.
  destruct (Z.eqb_spec (len (contents (buf t))) 0) as [Hz%len_zero_inv|]; [|done]. by destruct Hout.
Qed.

(** A handler of a command that asks for no more bytes than the host has announced is not
    stuck before they are moved, when no packet can move: an IN transfer has room in the
    buffer, an OUT transfer something in it. *)
Context (d : device) (t0 : BulkOnly).
Hypothesis Hd : device_ok d.
Hypothesis Ht0 : good d t0.
Hypothesis Hbt : between t0.

Lemma in_unstuck acc del t o :
  transfer t0 acc del t -> awaits_user t -> direction (Bbb.cbw t) = DataIn ->
  len acc = o -> o < data_transfer_len (Bbb.cbw t) -> offered t = false -> ~ write_stuck t.
Proof.
  intros Ht Hu Hdir <- Hlt Hoff Hstuck. pose proof (transfer_good d t0 Hd Ht0 Hbt _ _ _ Ht) as Hg.
  pose proof (d_ps_range d Hd) as [? _]. pose proof (d_ps_fits d Hd).
  pose proof (awaits_status_phase d t Hg Hu) as Hph.
  destruct (transfer_tracked d Hd t0 acc del t Ht0 Hbt Ht) as [_ _ (p & _ & _ & [_ Hin _ _])].
  rewrite (offered_good d) in Hoff by done. pose proof (awaits_no_status t Hu) as Hs.
  unfold in_part in Hin. unfold offers in Hoff. cbn [view phase stat queue left cmd] in Hin, Hoff. rewrite Hs in Hoff.
  destruct (Bbb.state t) eqn:Hp; try done; try (destruct Hin as [Hin _]; congruence).
  - destruct Hin as (_ & _ & Hc). apply (complete_in _ _ Hdir) in Hc. lia.
  - destruct Hin as (_ & sent & _ & -> & Hlen). specialize (Hstuck Hp). unfold room in Hstuck.
    rewrite (live_capacity _ _ (good_live d t Hg)) in Hstuck. pose proof (len_nonneg (contents (buf t))).
    rewrite len_app in Hlt. destruct (good_to_host d t Hg Hp). cbn in *. lia.
  - destruct Hin as (_ & _ & Hc). apply (complete_in _ _ Hdir) in Hc. lia.
Qed.

Lemma out_unstuck acc del t o :
  transfer t0 acc del t -> awaits_user t -> direction (Bbb.cbw t) = DataOut ->
  len del = o -> o < data_transfer_len (Bbb.cbw t) -> offered t = false -> ~ read_stuck t.
Proof.
  intros Ht Hu Hdir <- Hlt Hoff Hstuck. pose proof (transfer_good d t0 Hd Ht0 Hbt _ _ _ Ht) as Hg.
  pose proof (d_ps_range d Hd) as [? _]. pose proof (d_ps_fits d Hd).
  pose proof (awaits_status_phase d t Hg Hu) as Hph.
  destruct (transfer_tracked d Hd t0 acc del t Ht0 Hbt Ht) as [_ _ (p & _ & _ & [_ Hin Hout _])].
  rewrite (offered_good d) in Hoff by done. pose proof (awaits_no_status t Hu) as Hs.
  unfold in_part, out_part in *. unfold offers in Hoff. unfold read_stuck in Hstuck.
  cbn [view phase stat queue left cmd] in Hin, Hout, Hoff. rewrite Hs in Hoff.
  pose proof (good_inv _ _ Hg) as Hinv. unfold bot_inv in Hinv. cbn [view phase left queue cmd] in Hinv.
  destruct (Bbb.state t) eqn:Hp; try done; try (destruct Hin as [Hin _]; congruence).
  all: pose proof (Hstuck eq_refl) as Hq; rewrite Hq, ?app_nil_r in *; change (len []) with 0 in *;
    destruct Hout as [_ Hleft]; unfold saturating_sub in Hleft.
  - lia.
  - destruct Hinv as (_ & _ & _ & Hz). lia.
Qed.

(** A host that sends the wrapper and what it announced, and nothing more. *)
Definition sent_announced (l : list byte) (dtl : Z) : Prop :=
  len (pending t0) + len l <= len (out_log (bus t0)) + CBW_LEN + dtl.

#[export] Instance sent_announced_dec l dtl : Decision (sent_announced l dtl).
Proof. unfold sent_announced. apply _. Defined.
Lemma sent_announced_prefix l x dtl : sent_announced (l ++ x) dtl -> sent_announced l dtl.
Proof. unfold sent_announced. pose proof (len_nonneg x). len_lia. Qed.

Lemma delivered_announced acc del t :
  transfer t0 acc del t -> sent_announced (out_log (bus t)) (data_transfer_len (Bbb.cbw t)) ->
  len del <= data_transfer_len (Bbb.cbw t).
Proof.
  intros Ht Hsent. destruct (transfer_tracked d Hd t0 acc del t Ht0 Hbt Ht) as [_ _ (p & Hp & _ & Hs)].
  destruct (transfer_cbw_range d t0 Hd Ht0 Hbt _ _ _ Ht) as [? _].
  destruct (serves_del_log _ _ _ _ _ _ _ Hs) as [->|(rest & Hw)]; [done|].
  change (wire_out (view t)) with (out_log (bus t)) in Hw. unfold sent_announced in Hsent. rewrite Hw in Hsent.
  pose proof (len_nonneg rest). len_lia.
Qed.
End Transport.

Section Live.
Context `{!UsbStack, !UsbStackLaws} {T D : Type} `{!OverBulkOnly T, !StackClass T}.
Context {Kind : Type} (parse_cb : list byte -> outcome Kind).
Context (process_command : callback (C := Device T D) Kind).
Implicit Types v : Device T D.
Local Abbreviation main := (main_poll_command parse_cb process_command).
Local Abbreviation loop_step := (loop_step parse_cb process_command).

(** A round of the main loop in the course of a command: the stack polls the class, the
    loop polls the command. When the device is ready to move a packet, the host lets it. *)
Inductive round v v' : Prop :=
| round_run v1 r :
    ~ between (transport v) -> usb_poll v = Returns (tt, v1) ->
    (offered (transport v) = true -> moved (transport v) (transport v1)) ->
    main v1 = Returns (r, v') -> round v v'.

(** [n] rounds, and anything that can happen in the main loop between them. *)
Inductive driven : nat -> Device T D -> Device T D -> Prop :=
| driven_none v : driven 0 v v
| driven_step n v v1 v' : loop_step v v1 -> driven n v1 v' -> driven n v v'
| driven_round n v v1 v' : round v v1 -> driven n v1 v' -> driven (S n) v v'.

Lemma round_loop v v' : round v v' -> rtc loop_step v v'.
Proof.
  intros [v1 r Hnb Hp _ Hm]. eapply rtc_l; [by apply loop_usb|]. apply rtc_once. by eapply loop_command.
Qed.
Lemma driven_loop n v v' : driven n v v' -> rtc loop_step v v'.
Proof.
  induction 1 as [v|n v v1 v' Hs _ IH|n v v1 v' Hr%round_loop _ IH]; [done|by eapply rtc_l|by etrans].
Qed.

Context (d : device) (t0 : BulkOnly).
Hypothesis Hd : device_ok d.
Hypothesis Ht0 : good d t0.
Hypothesis Hbt : between t0.
Context (c : CommandBlockWrapper).
Context (J : State -> D -> list byte -> list byte -> option StatusAndResidue -> Prop).
Context (next : Device T D -> Device T D -> Prop) (k : Kind).
Hypothesis Hreach : reachable t0.
Hypothesis Hk : parse_cb (ztake (block_len c) (block c)) = Returns k.
Hypothesis Hturn : turn_courses process_command t0 c J next k.
Let Hsafe := turn_courses_safe parse_cb process_command t0 c J next k Hk Hturn.
Local Abbreviation serving := (serving t0 c).
Local Abbreviation course := (course t0 c J).

(** [fine l]: the host has sent the bytes [l], and not more than it may. *)
Context (fine : list byte -> Prop).
Hypothesis Hprefix : forall l x, fine (l ++ x) -> fine l.
Local Abbreviation host_fine v := (fine (out_log (bus (transport v)))).

(** [gap]: what is left to do for the handler. A turn that leaves the status open does not
    add to it, and takes from it when no packet can move. *)
Context (gap : State -> Z).
Hypothesis Hgap : forall v acc del,
  serving v v acc del -> J (STATE v) (MEMORY v) acc del None -> host_fine v -> 0 <= gap (STATE v).
Hypothesis Hnext : forall v v' acc del,
  serving v v acc del -> J (STATE v) (MEMORY v) acc del None -> host_fine v -> next v v' ->
  gap (STATE v') <= gap (STATE v) /\ (offered (transport v) = false -> gap (STATE v') < gap (STATE v)).

(** What is left to do: for the handler, then for the wire. *)
Definition work v : Z :=
  match cs (transport v) with
  | None => gap (STATE v) + left_to_transfer (transport v) + CSW_LEN + 1
  | Some _ => todo (view (transport v))
  end.

Lemma course_good v : course v -> good d (transport v).
Proof. intros (acc & del & Ht & _). by eapply transfer_good. Qed.
Lemma course_phase v : course v -> command_phase (Bbb.state (transport v)) = false.
Proof. intros (acc & del & Ht & _). by eapply (transfer_phase d). Qed.

(** Without a status it is the user's turn. *)
Lemma course_serving v :
  course v -> cs (transport v) = None ->
  exists acc del, serving v v acc del /\ J (STATE v) (MEMORY v) acc del None.
Proof.
  intros Hdo Hs. pose proof (course_phase v Hdo) as Hp. destruct Hdo as (acc & del & Ht & Hc & HP).
  rewrite Hs in HP. exists acc, del. split; [|done]. split; [done..| |done|done]. split; [done|].
  unfold has_status. by rewrite Hs.
Qed.
Lemma course_awaits v : course v -> cs (transport v) = None -> awaits_user (transport v).
Proof. intros Hdo Hs. destruct (course_serving v Hdo Hs) as (acc & del & Hv & _). apply Hv. Qed.

Lemma course_left v : course v -> 0 <= left_to_transfer (transport v) <= data_transfer_len c.
Proof.
  intros Hdo. pose proof (course_phase v Hdo) as Hp. pose proof (good_inv _ _ (course_good v Hdo)) as Hinv.
  destruct Hdo as (acc & del & _ & <- & _). unfold bot_inv in Hinv. cbn in Hinv.
  destruct (Bbb.state _); try done; apply Hinv.
Qed.

Lemma work_nonneg v : course v -> host_fine v -> 0 <= work v.
Proof.
  intros Hdo Hfine. unfold work. destruct (cs (transport v)) as [s|] eqn:Hs.
  - apply (todo_nonneg _ _ (good_inv _ _ (course_good v Hdo))). by apply course_phase.
  - destruct (course_serving v Hdo Hs) as (acc & del & Hv & HP).
    pose proof (Hgap v acc del Hv HP Hfine). pose proof (course_left v Hdo). unfold CSW_LEN. lia.
Qed.
Lemma work_status v s :
  course v -> cs (transport v) = Some s -> work v <= left_to_transfer (transport v) + CSW_LEN.
Proof.
  intros Hdo Hs. pose proof (course_left v Hdo). unfold work. rewrite Hs.
  unfold todo. cbn [view phase queue left].
  destruct (Bbb.state (transport v)) eqn:Hp; try lia.
  pose proof (good_inv _ _ (course_good v Hdo)) as Hinv. unfold bot_inv in Hinv. cbn [view phase queue] in Hinv.
  rewrite Hp in Hinv. destruct Hinv as (_ & _ & _ & _ & ?). lia.
Qed.

(** Steps that keep the transport's protocol and the globals keep it. *)
Lemma work_same v v' :
  view (transport v') = view (transport v) -> STATE v' = STATE v -> work v' = work v.
Proof.
  intros Hv Hs. unfold work. change (cs (transport v')) with (stat (view (transport v'))).
  change (left_to_transfer (transport v')) with (left (view (transport v'))). by rewrite Hv, Hs.
Qed.

(** A [poll] does not add to it, and takes from it when a byte moves. *)
Lemma work_poll v r v' :
  course v -> ~ between (transport v) -> Bbb.poll (transport v) = Returns (r, transport v') ->
  same_globals v v' ->
  work v' <= work v /\ (moved (transport v) (transport v') -> work v' < work v) /\
  (cs (transport v) = None -> offered (transport v) = false ->
    cs (transport v') = None /\ offered (transport v') = false).
Proof.
  intros Hdo Hnb Hrun Hs. pose proof (course_good v Hdo) as Hg. pose proof (course_left v Hdo) as Hl.
  assert (~ out (transport v)) as Hno by (intros Ho; apply Hnb; by right).
  destruct (wp_returns _ _ _ _ _ (poll_good d Hd _ Hg) Hrun) as [Hg' Hstep].
  destruct (bot_poll_frame _ _ (view (transport v)) _ _ (course_phase v Hdo) Hno Hstep) as [_ Hstat].
  change (stat (view ?t)) with (cs t) in Hstat.
  unfold work. rewrite Hstat, (same_STATE _ _ Hs). destruct (cs (transport v)) as [s|] eqn:Hcs.
  - destruct (poll_progress d _ s r _ Hd Hg Hcs Hno Hrun) as (_ & _ & _ & Hle' & Hlt & _).
    split; [done|]. split; [exact Hlt|done].
  - pose proof (awaits_status_phase d _ Hg (course_awaits v Hdo Hcs)) as Hph.
    destruct (bot_poll_left _ _ _ _ _ (good_inv _ _ Hg) Hcs Hph Hstep) as [Hle' Hlt].
    change (left (view ?t)) with (left_to_transfer t) in Hle', Hlt. split; [lia|]. split; [intros Hm; specialize (Hlt Hm); lia|].
    intros _. rewrite (offered_good d _ Hg), (offered_good d _ Hg'). intros Hoff. split; [done|].
    eapply bot_poll_offers; [..|exact Hstep]; try done. apply Hl.
Qed.

(** Neither does the command's part of the loop, and it takes from it in the user's turn,
    when no packet can move. *)
Lemma work_command v r v' :
  course v -> host_fine v -> main v = Returns (r, v') ->
  work v' <= work v /\
  (cs (transport v) = None -> offered (transport v) = false -> work v' < work v).
Proof.
  intros Hdo Hfine Hrun.
  destruct (main_run _ _ t0 _ _ _ Hreach Hsafe v r v' Hdo Hrun)
    as [[Hu ->]|(v1 & Hu & [Hdo1 Hnb1 Hl1 _ Ha1] & Hv1)].
  { split; [done|]. intros Hs _. by destruct Hu; apply course_awaits. }
  assert (work v' <= work v1) as Hpoll
    by (destruct Hv1 as [->|(r2 & Hp & Hs)]; [done|by eapply work_poll]).
  pose proof (awaits_no_status _ Hu) as Hs. clear Hv1 Hrun.
  destruct (course_serving v Hdo Hs) as (acc & del & Hv & HP).
  pose proof (Hgap v acc del Hv HP Hfine).
  assert (work v = gap (STATE v) + left_to_transfer (transport v) + CSW_LEN + 1) as Hw
    by (unfold work; by rewrite Hs).
  destruct (cs (transport v1)) as [s|] eqn:Hs1; [pose proof (work_status v1 s Hdo1 Hs1); lia|].
  assert (work v1 = gap (STATE v1) + left_to_transfer (transport v) + CSW_LEN + 1) as Hw1
    by (unfold work; rewrite Hs1; lia).
  destruct (Hnext v v1 acc del Hv HP Hfine (Ha1 eq_refl)) as [Hg Hlt]. split; [lia|].
  intros _ Hoff. specialize (Hlt Hoff). lia.
Qed.

(** What the host has sent only grows. *)
Lemma poll_log v r v' :
  course v -> ~ between (transport v) -> Bbb.poll (transport v) = Returns (r, transport v') ->
  exists x, out_log (bus (transport v')) = out_log (bus (transport v)) ++ x.
Proof.
  intros Hdo Hnb Hrun.
  assert (~ out (transport v)) as Hno by (intros Ho; apply Hnb; by right).
  destruct (wp_returns _ _ _ _ _ (poll_good d Hd _ (course_good v Hdo)) Hrun) as [_ Hstep].
  destruct (bot_poll_takes _ _ (view (transport v)) _ _ (course_phase v Hdo) Hno Hstep) as [Hw|(_ & _ & x & _ & Hw)];
    [exists []; by rewrite app_nil_r|by exists x].
Qed.
Lemma step_log v v' :
  course v -> loop_step v v' ->
  exists x, out_log (bus (transport v')) = out_log (bus (transport v)) ++ x.
Proof.
  intros Hdo [v1 Hnb Hrun|r v1 Hrun|req v1 Hreq Hrun|b Hb].
  - destruct (usb_poll_run _ _ Hrun) as (r & Hp & _). by eapply poll_log.
  - destruct (main_run _ _ t0 _ _ _ Hreach Hsafe v r v1 Hdo Hrun)
      as [[_ ->]|(v2 & _ & [Hdo2 Hnb2 _ Hw _] & [->|(r2 & Hp & _)])].
    + exists []. by rewrite app_nil_r.
    + exists []. by rewrite app_nil_r.
    + rewrite <- Hw. by eapply poll_log.
  - destruct (control_in_run _ _ _ Hrun) as (Hp & _).
    destruct (wp_returns _ _ _ _ _ (control_in_step d req _ (good_live d _ (course_good v Hdo))) Hp) as [_ Hv].
    rewrite Hreq in Hv. exists []. rewrite app_nil_r. exact (f_equal wire_out Hv).
  - assert (bus_ok (d_in d) (d_out d) (bus (transport v))) as Hbus by apply (course_good v Hdo).
    destruct (host_step_law _ _ _ _ Hb Hbus) as (_ & _ & Ho). exists [].
    by rewrite device_transport_set, app_nil_r.
Qed.
Lemma step_fine v v' : course v -> loop_step v v' -> host_fine v' -> host_fine v.
Proof. intros Hdo Hs Hf. destruct (step_log v v' Hdo Hs) as (x & Hx). rewrite Hx in Hf. by eapply Hprefix. Qed.
Lemma steps_fine v v' : course v -> rtc loop_step v v' -> host_fine v' -> host_fine v.
Proof.
  intros Hdo Hs. induction Hs as [v|v v1 v' Hs _ IH]; [done|]. intros Hf.
  apply (step_fine v v1 Hdo Hs), IH; [|done]. by eapply course_step.
Qed.

Lemma work_step v v' : course v -> host_fine v -> loop_step v v' -> work v' <= work v.
Proof.
  intros Hdo Hfine [v1 Hnb Hrun|r v1 Hrun|req v1 Hreq Hrun|b Hb].
  - destruct (usb_poll_run _ _ Hrun) as (r & Hp & Hs). by eapply work_poll.
  - by eapply work_command.
  - destruct (control_in_run _ _ _ Hrun) as (Hp & [Hst _]).
    destruct (wp_returns _ _ _ _ _ (control_in_step d req _ (good_live d _ (course_good v Hdo))) Hp) as [_ Hv].
    rewrite Hreq in Hv. by rewrite (work_same v).
  - assert (bus_ok (d_in d) (d_out d) (bus (transport v))) as Hbus by apply (course_good v Hdo).
    destruct (host_step_law _ _ _ _ Hb Hbus) as (_ & Hi & Ho).
    rewrite (work_same v); [done| |done]. rewrite device_transport_set. unfold view. cbn. by rewrite Hi, Ho.
Qed.

Lemma course_round v v' : course v -> round v v' -> course v'.
Proof. intros Hdo Hr%round_loop. by eapply course_loop. Qed.

Lemma work_round v v' : course v -> round v v' -> host_fine v' -> work v' < work v.
Proof.
  intros Hdo [v1 r Hnb Husb Hready Hm] Hfine. destruct (usb_poll_run _ _ Husb) as (rp & Hp & Hs).
  assert (course v1) as Hdo1 by (eapply (course_step _ _ d t0); [done..|by apply loop_usb]).
  destruct (work_poll v rp v1 Hdo Hnb Hp Hs) as (Hle1 & Hlt1 & Hoff).
  assert (host_fine v1) as Hfine1 by (eapply (step_fine v1); [done|by eapply loop_command|done]).
  destruct (work_command v1 r v' Hdo1 Hfine1 Hm) as (Hle2 & Hlt2).
  destruct (offered (transport v)) eqn:Hof; [specialize (Hlt1 (Hready eq_refl)); lia|].
  destruct (cs (transport v)) as [s|] eqn:Hcs.
  - rewrite (offered_status d _ s) in Hof; [done|by apply course_good|done|].
    intros Ho. apply Hnb. by right.
  - destruct (Hoff eq_refl eq_refl) as [Hs1 Hof1]. specialize (Hlt2 Hs1 Hof1). lia.
Qed.

Lemma driven_work n v v' :
  course v -> driven n v v' -> host_fine v' -> host_fine v /\ Z.of_nat n + work v' <= work v.
Proof.
  intros Hdo Hdr Hfine. induction Hdr as [v|n v v1 v' Hs _ IH|n v v1 v' Hr _ IH]; [split; [done|lia]|..].
  - assert (course v1) as Hdo1 by by eapply course_step. destruct (IH Hdo1 Hfine) as [Hf1 ?].
    pose proof (step_fine v v1 Hdo Hs Hf1) as Hf. pose proof (work_step v v1 Hdo Hf Hs). split; [done|lia].
  - destruct (IH (course_round v v1 Hdo Hr) Hfine) as [Hf1 ?]. pose proof (work_round v v1 Hdo Hr Hf1).
    split; [|lia].
    eapply steps_fine; [done|by apply round_loop|done].
Qed.

(** Until the wrapper is out another round runs. *)
Definition goes_on v : Prop :=
  exists v1 r v2, usb_poll v = Returns (tt, v1) /\ main v1 = Returns (r, v2).

Lemma main_returns v : course v -> exists r v', main v = Returns (r, v').
Proof.
  intros Hdo. pose proof Hdo as (acc & del & Ht & Hc & Hs).
  assert (reachable (transport v)) as Hr by by eapply transfer_reachable.
  destruct (decide (awaits_user (transport v))) as [Hu|Hu]; [|rewrite main_idle by done; eauto].
  rewrite awaits_no_status in Hs by done.
  pose proof (Hturn v acc del (Bbb.lun c) ltac:(by split) Hs)
    as (r1 & v1 & Hrun1 & Hdo1)%wp_run.
  unfold main_poll_command. rewrite poll_command_run by done. unfold command_bytes. rewrite Hc, Hk.
  change (bind (lift (Returns k)) ?f v) with (f k v). cbv beta.
  unfold bind_try at 1, bind at 1. rewrite Hrun1. destruct r1 as [[]|e]; [|by eexists _, _].
  unfold bind_try, bind, on_transport, zoom.
  pose proof (poll_good d Hd _ (course_good v1 (turn_course _ _ _ _ _ _ Hdo1))) as (r2 & t2 & -> & _)%wp_run.
  destruct r2; by eexists _, _.
Qed.

Lemma usb_poll_returns v : course v -> exists v', usb_poll v = Returns (tt, v').
Proof.
  intros Hdo. pose proof (poll_good d Hd _ (course_good v Hdo)) as (r & t & Hp & _)%wp_run.
  unfold usb_poll, zoom. rewrite class_poll_law. unfold on_transport, zoom, bind, ret.
  change (transport (class_ v)) with (transport v). rewrite Hp. by eexists.
Qed.

Lemma course_goes_on v : course v -> out (transport v) \/ goes_on v.
Proof.
  intros Hdo. destruct (usb_poll_returns v Hdo) as (v1 & Husb).
  destruct (decide (between (transport v))) as [Hb|Hnb]; [left; apply between_out; [by apply course_phase|done]|].
  right. assert (course v1) as Hdo1 by (eapply (course_step _ _ d t0); [done..|by apply loop_usb]).
  destruct (main_returns v1 Hdo1) as (r & v2 & Hm). by exists v1, r, v2.
Qed.

(** A command that begins: the rounds are bounded, and it goes on to the end. *)
Lemma command_completes n v0 v :
  begins t0 v0 -> Bbb.cbw (transport v0) = c -> J (STATE v0) (MEMORY v0) [] [] None ->
  driven n v0 v -> host_fine v ->
  Z.of_nat n <= gap (STATE v0) + data_transfer_len c + CSW_LEN + 1 /\ (out (transport v) \/ goes_on v).
Proof.
  intros Hb Hc HJ Hdr Hfine.
  assert (course v0) as Hdo0 by by apply (course_begins d t0 Hd Ht0 Hbt).
  assert (course v) as Hdo by (eapply (course_loop _ _ d t0); [done..|by eapply driven_loop]).
  split; [|by apply course_goes_on]. pose proof (driven_work n v0 v Hdo0 Hdr Hfine) as [_ ?].
  pose proof (work_nonneg v Hdo Hfine). pose proof (course_left v0 Hdo0).
  assert (work v0 = gap (STATE v0) + left_to_transfer (transport v0) + CSW_LEN + 1); [|lia].
  unfold work. by rewrite (proj2 (begins_open d t0 Hd Ht0 Hbt v0 Hb)).
Qed.
End Live.

(** The same by the direction of the data, for a command that asks for no more bytes than
    the host has announced. *)
Section Directions.
Context `{!UsbStack, !UsbStackLaws} {T D : Type} `{!OverBulkOnly T, !StackClass T} (inv : D -> Prop).
Context {Kind : Type} (parse_cb : list byte -> outcome Kind).
Context (process_command : callback (C := Device T D) Kind).
Implicit Types v : Device T D.

Context (d : device) (vb v0 : Device T D) (n : nat) (v : Device T D).
Hypothesis Hstart : command_start inv d vb v0.
Hypothesis Hdriven : driven parse_cb process_command n v0 v.
Local Abbreviation t0 := (transport vb).
Local Abbreviation c := (Bbb.cbw (transport v0)).
Context (P : Z -> list byte -> list byte -> D -> Prop) (total : Z) (k : Kind).
Hypothesis Hk : parse_cb (command_bytes (transport v0)) = Returns k.
Hypothesis HP0 : P 0 [] [] (MEMORY vb).
Hypothesis Htotal : 0 <= total <= data_transfer_len c.

Definition completes : Prop :=
  Z.of_nat n <= total + data_transfer_len c + CSW_LEN + 1 /\
  (out (transport v) \/ goes_on parse_cb process_command v).

Context (fine : list byte -> Prop).
Hypothesis Hprefix : forall l x, fine (l ++ x) -> fine l.
Hypothesis Hfine : fine (out_log (bus (transport v))).

(** Not more is moved than the command asks for, and while bytes are missing and no packet
    can move, the handler can go on. *)
Lemma moving_completes stuck :
  turn_keeps process_command t0 c P total stuck k ->
  (forall v acc del, serving t0 c v v acc del -> P (storage_offset (STATE v)) acc del (MEMORY v) ->
     fine (out_log (bus (transport v))) -> storage_offset (STATE v) <= total /\
     (storage_offset (STATE v) < total -> offered (transport v) = false -> ~ stuck (transport v))) ->
  completes.
Proof.
  destruct Hstart as [Hr Hbt Hb Hd Hg _ _ Hm]. intros Hturn HP.
  pose proof Hb as (_ & _ & Ho). unfold completes. rewrite <- (Z.sub_0_r total) at 1. rewrite <- Ho.
  apply (command_completes parse_cb process_command d t0 Hd Hg Hbt c _ _ k Hr Hk Hturn fine Hprefix
    (fun st => total - storage_offset st)); [..|done|done| |done|done].
  - intros v1 acc del Hv HP1 Hf. destruct (HP v1 acc del Hv HP1 Hf). lia.
  - intros v1 v2 acc del Hv HP1 Hf Ha. destruct (HP v1 acc del Hv HP1 Hf) as [Hle Hgo].
    destruct Ha as [Ha|(Ha & Hne & Hst)]; [lia|]. split; [lia|]. intros Hoff. destruct Hgo; [lia|done..].
  - cbn [moving_data]. by rewrite Ho, Hm.
Qed.

Lemma in_completes :
  direction c = DataIn ->
  turn_keeps process_command t0 c P total write_stuck k ->
  (forall o acc del m, P o acc del m -> len acc <= data_transfer_len c -> len acc = o /\ o <= total) ->
  completes.
Proof.
  intros Hdir Hturn HP. apply (moving_completes write_stuck Hturn).
  destruct Hstart as [Hr Hbt Hb Hd Hg _ _ _]. intros v1 acc del [Ht Hc Hu _ _] HP1 _.
  destruct (HP _ _ _ _ HP1) as [Hlen Hle].
  { rewrite <- Hc, <- wanted_in by (by rewrite Hc). by apply (transfer_within d t0 Hd Hg Hbt _ _ _ Ht). }
  split; [done|]. intros Hlt Hoff. eapply (in_unstuck d); try done; rewrite Hc; [done|lia].
Qed.

Lemma out_completes :
  direction c = DataOut ->
  turn_keeps process_command t0 c P total read_stuck k ->
  (forall o acc del m, P o acc del m -> len del = o) ->
  (forall o acc del t m, transfer t0 acc del t -> Bbb.cbw t = c -> P o acc del m ->
     fine (out_log (bus t)) -> o <= total) ->
  completes.
Proof.
  intros Hdir Hturn HP Hmax. apply (moving_completes read_stuck Hturn).
  destruct Hstart as [Hr Hbt Hb Hd Hg _ _ _]. intros v1 acc del [Ht Hc Hu _ _] HP1 Hf.
  pose proof (HP _ _ _ _ HP1). pose proof (Hmax _ _ _ _ _ Ht Hc HP1 Hf).
  split; [done|]. intros Hlt Hoff. eapply (out_unstuck d); try done; rewrite Hc; [done|lia].
Qed.
End Directions.

(** ** Rounds on the test bus *)

Inductive live_event := LRound | LHost (bytes : list byte).

Section Rounds.
Context {T D : Type} `{!@OverBulkOnly MockStack T, !@StackClass MockStack T _}.
Context {Kind : Type} (parse_cb : list byte -> outcome Kind).
Context (process_command : callback (C := Device T D) Kind).

Definition moved_b (t t' : MockBbb) : bool :=
  negb (bool_decide (in_log (bus t') = in_log (bus t)) && bool_decide (out_log (bus t') = out_log (bus t))).
Lemma moved_b_spec t t' : moved_b t t' = true -> moved t t'.
Proof.
  unfold moved_b. intros [Hf|Hf]%negb_true_iff%andb_false_iff [??];
    by apply bool_decide_eq_false in Hf.
Qed.

Definition do_live (e : live_event) (v : Device T D) : option (Device T D) :=
  match e with
  | LHost bytes => do_event parse_cb process_command (EHost bytes) v
  | LRound =>
    match do_event parse_cb process_command EUsb v with
    | Some v1 =>
      if negb (offered (transport v)) || moved_b (transport v) (transport v1)
      then do_event parse_cb process_command ECommand v1 else None
    | None => None
    end
  end.
Fixpoint do_lives (l : list live_event) (v : Device T D) : option (Device T D) :=
  match l with
  | [] => Some v
  | e :: l => match do_live e v with Some v => do_lives l v | None => None end
  end.
Fixpoint rounds (l : list live_event) : nat :=
  match l with [] => 0 | LRound :: l => S (rounds l) | LHost _ :: l => rounds l end.

Lemma do_live_driven l v v' :
  do_lives l v = Some v' -> driven parse_cb process_command (rounds l) v v'.
Proof.
  revert v. induction l as [|[|bytes] l IH]; intros v; cbn [do_lives]; [intros [= <-]; constructor|..].
  - destruct (do_live LRound v) as [v1|] eqn:He; [|done]. intros Hl. eapply driven_round; [|by apply IH].
    cbn [do_live do_event] in He. destruct (between_b _) eqn:Hb; [done|].
    destruct (usb_poll v) as [[[] v2]| |] eqn:Hr; [|done..]. destruct (negb _ || _) eqn:Hof; [|done].
    destruct (main_poll_command _ _ v2) as [[r v3]| |] eqn:Hm; [|done..]. injection He as <-.
    apply (round_run _ _ v v3 v2 r); [|done| |done].
    + intros Hbt. exact (diff_true_false (eq_trans (eq_sym (proj2 (between_b_spec _) Hbt)) Hb)).
    + intros Hoff. rewrite Hoff in Hof. by apply moved_b_spec.
  - destruct (do_live (LHost bytes) v) as [v1|] eqn:He; [|done]. intros Hl.
    eapply driven_step; [|by apply IH]. cbn [do_live] in He.
    cbn [do_event] in He. destruct (0 <=? _) eqn:Hm; [|done]. injection He as <-. apply loop_host.
    refine (ex_intro _ (chunks _ bytes) (conj _ eq_refl)).
    exact (chunks_fuel_le _ _ _ (proj1 (Z.leb_le _ _) Hm)).
Qed.

(** A run of rounds, for the witnesses. *)
Definition is_run (v : option (Device T D)) : bool := match v with Some _ => true | None => false end.
Lemma do_lives_spec l v :
  is_run (do_lives l v) = true ->
  exists v', do_lives l v = Some v' /\ driven parse_cb process_command (rounds l) v v'.
Proof.
  destruct (do_lives l v) as [v'|] eqn:Hl; [|done]. intros _. exists v'. split; [done|].
  by apply do_live_driven.
Qed.
(** One that ends in a device with the property [ok]. *)
Definition is_run_to (ok : Device T D -> bool) (v : option (Device T D)) : bool :=
  match v with Some v => ok v | None => false end.
Lemma do_lives_to l ok v :
  is_run_to ok (do_lives l v) = true ->
  exists v', do_lives l v = Some v' /\ driven parse_cb process_command (rounds l) v v' /\ ok v' = true.
Proof.
  destruct (do_lives l v) as [v'|] eqn:Hl; [|done]. intros Hok. exists v'. split; [done|].
  split; [by apply do_live_driven|done].
Qed.
End Rounds.
