(* ===== verification/FirmwareReply.v ===== *)
(** * Commands that the firmwares answer at once

    [reply]: what a handler does with a command that it does not spread over several turns:
    a status alone, an answer with a status, REQUEST SENSE, or a refusal. For any class and
    memory, over any run of the main loop: an answer that the host has room for is on the
    wire with its status, after a bounded number of rounds; one that is longer than what the
    host asked for is never sent, and the command never gets a status ([replied]). *)
From stdpp Require Import relations.
From S2P Require Import Prelude.
From S2P Require Import Usb.
From S2P Require Import Buffer.
From S2P Require Import Transport.
From S2P Require Import Bbb.
From S2P Require Import BotSpec.
From S2P Require Import BbbRefine.
From S2P Require Import BbbMethods.
From S2P Require Import BbbReach.
From S2P Require Import BotStream.
From S2P Require Import Transfer.
From S2P Require Import Subclass.
From S2P Require Import Scsi.
From S2P Require Import Firmware.
From S2P Require Import FirmwareSpec.
From S2P Require Import FirmwareRun.
From S2P Require Import FirmwareLive.

Local Open Scope Z_scope.
Local Open Scope rust_scope.

Inductive reply :=
| RPass
| RAnswer (data : list byte)
| RSense (additional_length : Z)
| RRefuse.

Definition run_reply `{!UsbStack} {T D} `{!OverBulkOnly T} (r : reply) : M (Device T D) (BResult unit) :=
  match r with
  | RPass => do! Subclass.pass 0 in ret (Ok tt)
  | RAnswer data => answer data
  | RSense n => answer_sense n
  | RRefuse => refuse
  end.

(** What it writes when [STATE] is [st], which status it gives, and what it makes of [STATE]. *)
Definition reply_data (r : reply) (st : State) : list byte :=
  match r with RAnswer data => data | RSense n => sense_data n st | _ => [] end.
Definition reply_status (r : reply) : CommandStatus :=
  match r with RRefuse => Failed | _ => Passed end.
Definition reply_state (r : reply) (st : State) : State :=
  match r with RSense _ => State_reset | RRefuse => set_sense 0x05 0x20 0x00 st | _ => st end.

(** The host has asked for all of it, and the IO buffer of [cap] bytes can hold it. *)
Definition can_write (c : CommandBlockWrapper) (cap : Z) (data : list byte) : bool :=
  match direction c with
  | DataIn => (len data <=? data_transfer_len c) && (len data <=? cap)
  | _ => false
  end.
Definition reply_fits (r : reply) (st : State) (c : CommandBlockWrapper) (cap : Z) : bool :=
  match r with RPass | RRefuse => true | _ => can_write c cap (reply_data r st) end.

Section Reply.
Context `{!UsbStack, !UsbStackLaws} {T D : Type} `{!OverBulkOnly T, !StackClass T}.
Implicit Types v vt : Device T D.
Context (d : device) (t0 : BulkOnly).
Hypothesis Hd : device_ok d.
Hypothesis Ht0 : good d t0.
Hypothesis Hbt : between t0.
Context (c : CommandBlockWrapper).
Local Abbreviation serving := (serving t0 c).

(** Before anything is written an IN command waits for its data with an empty buffer. *)
Lemma fresh_in t :
  transfer t0 [] [] t -> awaits_user t -> direction (Bbb.cbw t) = DataIn ->
  Bbb.state t = DataTransferToHost /\ contents (buf t) = [] /\
  left_to_transfer t = data_transfer_len (Bbb.cbw t).
Proof.
  intros Ht Hu Hdir. pose proof (transfer_good d t0 Hd Ht0 Hbt _ _ _ Ht) as Hg.
  pose proof (awaits_status_phase d t Hg Hu) as Hph. pose proof (good_cbw d t Hg (proj1 Hu)) as Hok.
  destruct (transfer_tracked d Hd t0 [] [] t Ht0 Hbt Ht) as [_ _ (p & _ & _ & [_ Hin _ _])].
  unfold in_part in Hin. cbn [view phase queue left cmd] in Hin.
  assert (complete (Bbb.cbw t) [] -> False) as Hno.
  { intros Hc%complete_in; [|done]. pose proof (proj2 (cbw_direction _ Hok) (eq_sym Hc)). congruence. }
  destruct (Bbb.state t); try done; try (destruct Hin as [Hin _]; congruence).
  - destruct Hin as (_ & _ & Hc). by destruct (Hno Hc).
  - destruct Hin as (_ & sent & _ & Hnil & Hlen). symmetry in Hnil. apply app_nil in Hnil as [-> Hq]. done.
  - destruct Hin as (_ & _ & Hc). by destruct (Hno Hc).
Qed.
Lemma fresh_not_in t :
  transfer t0 [] [] t -> direction (Bbb.cbw t) <> DataIn -> Bbb.state t <> DataTransferToHost.
Proof.
  intros Ht Hdir Hp. destruct (transfer_tracked d Hd t0 [] [] t Ht0 Hbt Ht) as [_ _ (p & _ & _ & [_ Hin _ _])].
  unfold in_part in Hin. change (phase (view t)) with (Bbb.state t) in Hin. rewrite Hp in Hin.
  by destruct Hdir; apply Hin.
Qed.

(** So all of an answer is queued, or nothing. *)
Lemma serving_write_all data Q vt v :
  serving vt v [] [] ->
  (forall r v', serving vt v' (match r with Ok _ => data | Err _ => [] end) [] -> same_globals v v' ->
     match r with Ok _ => true | Err _ => false end = can_write c (d_capacity d) data -> Q r v') ->
  wp (Subclass.try_write_data_all data) Q v.
Proof.
  intros Hv HQ. pose proof (serving_good d t0 Hd Ht0 Hbt c _ _ _ _ Hv) as Hg.
  unfold Subclass.try_write_data_all. eapply wp_call; [by apply write_all_kept|].
  intros r v' Hrun Hk Hs. destruct Hv as [Ht Hc Hu Hl Hw].
  apply HQ; [|done|].
  - eapply (serving_kept d); [by split| |done]. change (match r with Ok _ => data | Err _ => [] end) with
      ([] ++ match r with Ok _ => data | Err _ => [] end). by eapply tr_write_all.
  - unfold can_write. rewrite <- Hc. destruct (direction _) eqn:Hdir.
    2:{ destruct (fresh_in _ Ht Hu Hdir) as (Hp & Hq & Hleft).
        destruct (wp_returns _ _ _ _ _ (try_write_data_all_step d data _ Hg Hp) Hrun) as (_ & Hr).
        cbn [view left queue] in Hr. rewrite Hq, Hleft in Hr. change (len []) with 0 in Hr. rewrite !Z.sub_0_r in Hr.
        repeat case_match; destruct Hr as [Hr _]; try done; lia. }
    all: rewrite try_write_data_all_invalid in Hrun by (apply fresh_not_in; congruence); by injection Hrun as <- _.
Qed.

Context (r : reply) (st0 : State) (m0 : D).
Local Abbreviation fits := (reply_fits r st0 c (d_capacity d)).
Local Abbreviation data := (reply_data r st0).
Local Abbreviation sent := (mkStatusAndResidue (reply_status r) (saturating_sub (data_transfer_len c) (len data))).

(** In the course of such a command: nothing is written yet, or all of it and the status. *)
Definition replying (st : State) (m : D) (acc del : list byte) (s : option StatusAndResidue) : Prop :=
  m = m0 /\ del = [] /\
  match s with
  | None => acc = [] /\ st = st0
  | Some s => fits = true /\ acc = data /\ s = sent /\ st = reply_state r st0
  end.
(** Only an answer that does not fit leaves the status open. *)
Definition unfit (vt v : Device T D) : Prop := fits = false.
Local Abbreviation reply_turn vt := (fun (_ : BResult unit) v' => course_turn t0 c replying unfit vt v').

(** The status at the end of the turn. *)
Lemma status_turn vt v n st Q :
  serving vt v data [] -> fits = true -> MEMORY v = m0 -> st = reply_status r -> n = as_u32 (len data) ->
  STATE v = reply_state r st0 ->
  (forall v', course_turn t0 c replying unfit vt v' -> Q tt v') ->
  wp (on_transport (set_status st n)) Q v.
Proof.
  intros Hv Hf Hm -> -> Hst HQ. pose proof Hv as [Ht Hc Hu _ _].
  apply (wp_set_status d); [by eapply (serving_good d)|done|]. intros v' Hrun Ht' [Hs' Hm'].
  apply HQ. assert (is_u32 (len data)) as H32.
  { pose proof (transfer_cbw_range d t0 Hd Ht0 Hbt _ _ _ Ht) as [_ Hlt]. rewrite Hc in Hlt.
    split; [apply len_nonneg|]. unfold reply_fits, can_write in Hf.
    destruct r; try done; destruct (direction c); try done; lia. }
  unfold as_u32 in Hrun, Ht'. rewrite Z.mod_small in Hrun, Ht' by exact H32.
  eapply (status_course d); [done..|by eapply tr_set_status|exact Ht'|].
  split; [congruence|]. split; [done|]. rewrite Hc. by rewrite Hs'.
Qed.

Lemma unfit_turn vt v :
  serving vt v [] [] -> fits = false -> MEMORY v = m0 -> STATE v = st0 ->
  course_turn t0 c replying unfit vt v.
Proof. intros Hv Hf Hm Hst. by eapply (serving_course d). Qed.

(** A turn of the handler. *)
Lemma run_reply_turn v acc del :
  serving v v acc del -> replying (STATE v) (MEMORY v) acc del None ->
  wp (run_reply r) (reply_turn v) v.
Proof.
  intros Hv (Hm & -> & -> & Hst).
  destruct r as [|bytes|n|] eqn:Hr; cbn [run_reply].
  - unfold pass. wp_steps. by apply (status_turn v); rewrite ?Hr.
  - unfold answer, pass. wp_steps. eapply serving_write_all; [done|]. intros r' v' Hv' [Hst' Hm'] Hf.
    destruct r' as [[]|e]; wp_steps.
    + apply (status_turn v); rewrite ?Hr; cbn; done || congruence.
    + by apply (unfit_turn v v'); rewrite ?Hr; cbn; congruence || done.
  - unfold answer_sense, pass. wp_steps. rewrite Hst. eapply serving_write_all; [done|]. intros r' v' Hv' [Hst' Hm'] Hf.
    destruct r' as [[]|e]; wp_steps.
    + apply (status_turn v); rewrite ?Hr; cbn; try done; [by apply (serving_same _ _ _ v')|congruence].
    + by apply (unfit_turn v v'); rewrite ?Hr; cbn; congruence || done.
  - unfold refuse, fail. wp_steps. apply (status_turn v); rewrite ?Hr; try done; [by apply (serving_same _ _ _ v)|].
    cbn. by rewrite Hst.
Qed.
End Reply.

(** ** The whole command *)

Section Replied.
Context `{!UsbStack, !UsbStackLaws} {T D : Type} `{!OverBulkOnly T, !StackClass T} (inv : D -> Prop).
Context {Kind : Type} (parse_cb : list byte -> outcome Kind).
Context (process_command : callback (C := Device T D) Kind).
Implicit Types v : Device T D.

(** In [v], after [n] rounds (and whatever else the loop and the host do) since the command
    began in [v0], with [vb] before it: an answer that fits is there, with its status, when
    the wrapper is out, and that takes a bounded number of rounds; one that does not fit is
    never sent, and no status is set. *)
Definition replied (r : reply) vb v0 (n : nat) v : Prop :=
  let c := Bbb.cbw (transport v0) in
  let data := reply_data r (STATE vb) in
  let residue := saturating_sub (data_transfer_len c) (len data) in
  if reply_fits r (STATE vb) c (capacity (buf (transport vb))) then
    Z.of_nat n <= data_transfer_len c + CSW_LEN + 1 /\
    (out (transport v) \/ goes_on parse_cb process_command v) /\
    (out (transport v) ->
     in_log (bus (transport v)) = in_log (bus (transport vb)) ++ payload c data ++
       csw_bytes c (mkStatusAndResidue (reply_status r) residue) /\
     MEMORY v = MEMORY vb /\ STATE v = reply_state r (STATE vb))
  else
    cs (transport v) = None /\ in_log (bus (transport v)) = in_log (bus (transport vb)).

(** As long as nothing is written and no status is set nothing is on the wire. *)
Lemma open_log d t0 t :
  device_ok d -> good d t0 -> between t0 -> transfer t0 [] [] t -> cs t = None ->
  in_log (bus t) = in_log (bus t0).
Proof.
  intros Hd Ht0 Hbt Ht Hs. destruct (transfer_tracked d Hd t0 [] [] t Ht0 Hbt Ht) as [Hg _ (p & _ & _ & [_ Hin _ _])].
  assert (awaits_user t) as Hu.
  { split; [by apply (transfer_phase d t0 Hd Ht0 Hbt [] [] t)|]. unfold has_status. by rewrite Hs. }
  pose proof (awaits_status_phase d t Hg Hu) as Hph.
  assert (complete (Bbb.cbw t) [] -> payload (Bbb.cbw t) [] = []) as Hpay.
  { intros Hc. unfold payload. destruct (direction _) eqn:Hdir; try done. by rewrite <- (complete_in _ _ Hdir Hc). }
  unfold in_part in Hin. cbn [view phase queue left cmd wire_in] in Hin.
  destruct (Bbb.state t); try done.
  - destruct Hin as (_ & Hw & Hc). by rewrite Hw, (Hpay Hc), app_nil_r.
  - destruct Hin as (_ & sent & Hw & Hnil & _). symmetry in Hnil. apply app_nil in Hnil as [-> _].
    by rewrite Hw, app_nil_r.
  - apply Hin.
  - apply Hin.
  - destruct Hin as (_ & Hw & Hc). by rewrite Hw, (Hpay Hc), app_nil_r.
Qed.

Section Served.
Context (d : device) (r : reply) (k : Kind) (vb v0 : Device T D).
Hypothesis Hstart : command_start inv d vb v0.
Hypothesis Hk : parse_cb (command_bytes (transport v0)) = Returns k.
Hypothesis Hreply : forall l v, process_command (mkCommand k l) v = run_reply r v.
Local Abbreviation t0 := (transport vb).
Local Abbreviation c := (Bbb.cbw (transport v0)).
Local Abbreviation J := (replying d c r (STATE vb) (MEMORY vb)).
Local Abbreviation next := (unfit (T := T) (D := D) d c r (STATE vb)).

Lemma reply_turns : turn_courses process_command t0 c J next k.
Proof.
  destruct Hstart as [_ Hbt _ Hd Hg _ _ _ _].
  intros v acc del l Hv HJ. unfold wp. rewrite Hreply. by eapply (run_reply_turn d).
Qed.
Lemma reply_begins : J (STATE v0) (MEMORY v0) [] [] None.
Proof. by destruct Hstart. Qed.
Lemma reply_course v : rtc (loop_step parse_cb process_command) v0 v -> course t0 c J v.
Proof.
  pose proof reply_begins. destruct Hstart as [Hr Hbt Hb Hd Hg _ _ _ _].
  apply (course_loop parse_cb process_command d _ Hd Hg Hbt c J next Hr (turn_courses_safe _ _ _ _ _ _ k Hk reply_turns)).
  by apply (course_begins d _ Hd Hg Hbt).
Qed.

(** When the status wrapper is out, the answer did fit. *)
Lemma reply_ended v :
  rtc (loop_step parse_cb process_command) v0 v -> out (transport v) ->
  MEMORY v = MEMORY vb /\ STATE v = reply_state r (STATE vb) /\
  command_ended d t0 c v (reply_data r (STATE vb)) [] (mkStatusAndResidue (reply_status r)
    (saturating_sub (data_transfer_len c) (len (reply_data r (STATE vb))))).
Proof.
  intros Hv%reply_course [Hp Hq]. destruct Hstart as [Hr Hbt Hb Hd Hg _ _ _ _].
  by destruct (course_done d _ Hd Hg Hbt c J v Hv Hp Hq) as (acc & del & s & (-> & -> & _ & -> & -> & ->) & Hend).
Qed.

Lemma reply_served n v : driven parse_cb process_command n v0 v -> replied r vb v0 n v.
Proof.
  intros Hdriven. pose proof (reply_ended v (driven_loop _ _ _ _ _ Hdriven)) as Hend.
  pose proof (reply_course v (driven_loop _ _ _ _ _ Hdriven)) as Hcourse.
  pose proof reply_turns as Hturn. pose proof reply_begins as HJ0.
  destruct Hstart as [Hr Hbt Hb Hd Hg _ _ _ _]. unfold replied.
  rewrite (live_capacity d _ (good_live d _ Hg)). destruct (reply_fits _ _ _ _) eqn:Hf.
  - destruct (command_completes parse_cb process_command d _ Hd Hg Hbt c J next k Hr Hk Hturn (fun _ => True)
      ltac:(done) (fun _ => 0)) with (n := n) (v0 := v0) (v := v) as [Hn Hgo]; try done.
    { intros v1 v2 acc del _ _ _ Hno. unfold unfit in Hno. congruence. }
    split; [exact Hn|]. split; [exact Hgo|]. intros Hout. by destruct (Hend Hout) as (? & ? & [? _ _ _]).
  - destruct Hcourse as (acc & del & Ht & Hc & HJ). destruct (cs (transport v)) as [s|] eqn:Hs.
    { destruct HJ as (_ & _ & Hno & _). congruence. }
    destruct HJ as (_ & -> & -> & _). split; [done|]. by eapply (open_log d).
Qed.
End Served.
End Replied.

(** The commands of the SCSI drives. READ CAPACITY (16) panics; READ and WRITE take turns. *)
Definition scsi_reply (inquiry_data : list byte) (BLOCKS BLOCK_SIZE : Z) (k : ScsiCommand) : option reply :=
  let answered (o : outcome (list byte)) :=
    match o with Returns data => Some (RAnswer data) | _ => None end in
  match k with
  | TestUnitReady => Some RPass
  | Inquiry _ _ _ => Some (RAnswer inquiry_data)
  | RequestSense _ _ => Some (RSense 0x00)
  | ReadCapacity10 => answered (capacity10_data BLOCKS BLOCK_SIZE)
  | ReadFormatCapacities _ => answered (format_capacities_data BLOCKS BLOCK_SIZE)
  | ModeSense6 _ _ _ _ _ => Some (RAnswer mode_sense6_data)
  | ModeSense10 _ _ _ _ _ => Some (RAnswer mode_sense10_data)
  | Unknown _ => Some RRefuse
  | ReadCapacity16 _ | Read _ _ | Write _ _ => None
  end.
