(* ===== verification/Disk.v ===== *)
(** * The drives as abstract disks

    What a host may rely on, without turns, buffers or phases: a disk is its contents and
    [STATE], it answers one command after the other ([run_disk]), each with its data and a
    status wrapper ([respond]). [scsi_disk] are the commands of a disk of blocks, [spoken]
    how a list of commands and their data lies in the byte stream of the host. File
    FirmwareSession has the sessions of a host with a firmware, and what it takes for them
    to be runs of such a disk. *)
From S2P Require Import Prelude.
From S2P Require Import Usb.
From S2P Require Import Transport.
From S2P Require Import Bbb.
From S2P Require Import BotSpec.
From S2P Require Import BotStream.
From S2P Require Import Scsi.
From S2P Require Import Firmware.
From S2P Require Import FirmwareReply.

Local Open Scope Z_scope.

(** ** Commands *)

(** What a disk makes of a command: its globals and contents, the data for the host, the
    status, and how many bytes count as moved. *)
Record answer (A : Type) := mkAnswer {
  answer_state : State;
  answer_disk : A;
  answer_data : list byte;
  answer_status : CommandStatus;
  answer_moved : Z
}.
Arguments mkAnswer {A} _ _ _ _ _.
Arguments answer_state {A} a.
Arguments answer_disk {A} a.
Arguments answer_data {A} a.
Arguments answer_status {A} a.
Arguments answer_moved {A} a.

(** The request of a host: a command, and the data that it sends with it. *)
Definition request : Type := CommandBlockWrapper * list byte.

Section Disk.
Context {Kind A : Type} (parse_cb : list byte -> outcome Kind).
Context (serve : Kind -> list byte -> State -> A -> option (answer A)).

(** What it sends: the data, filled to the length that the host asked for, and the status
    wrapper. There is no answer to a command that the disk does not serve, nor one that is
    longer than what the host asked for. *)
Definition respond (q : request) (st : State) (disk : A) : option (State * A * list byte) :=
  let (c, data) := q in
  match parse_cb (ztake (block_len c) (block c)) with
  | Returns k =>
    match serve k data st disk with
    | Some a =>
      if len (answer_data a) <=? wanted c then
        Some (answer_state a, answer_disk a, payload c (answer_data a) ++ csw_bytes c
          (mkStatusAndResidue (answer_status a) (saturating_sub (data_transfer_len c) (answer_moved a))))
      else None
    | None => None
    end
  | _ => None
  end.

Fixpoint run_disk (l : list request) (st : State) (disk : A) : option (State * A * list byte) :=
  match l with
  | [] => Some (st, disk, [])
  | q :: l =>
    match respond q st disk with
    | Some (st, disk, x) =>
      match run_disk l st disk with Some (st, disk, y) => Some (st, disk, x ++ y) | None => None end
    | None => None
    end
  end.

Lemma run_disk_app l1 l2 st0 disk0 st1 disk1 x st2 disk2 y :
  run_disk l1 st0 disk0 = Some (st1, disk1, x) -> run_disk l2 st1 disk1 = Some (st2, disk2, y) ->
  run_disk (l1 ++ l2) st0 disk0 = Some (st2, disk2, x ++ y).
Proof.
  revert st0 disk0 x. induction l1 as [|q l1 IH]; intros st0 disk0 x; cbn [run_disk app]; [by intros [= -> -> <-]|].
  destruct (respond q st0 disk0) as [[[st disk] x1]|]; [|done].
  destruct (run_disk l1 st disk) as [[[st' disk'] x2]|] eqn:Hl; [|done]. intros [= -> -> <-] Hl2.
  by rewrite (IH _ _ _ Hl Hl2), app_assoc.
Qed.
End Disk.

(** What the host sends for a list of requests: for each one a wrapper, which may be longer
    than it has to, then the data, and what was announced beyond it. *)
Inductive spoken : list request -> list byte -> Prop :=
| spoken_none : spoken [] []
| spoken_request c data w rest reqs l :
    CBW_LEN <= len w -> decode_cbw (ztake CBW_LEN w) = Some c -> announced c data rest ->
    spoken reqs l -> spoken ((c, data) :: reqs) (w ++ data ++ rest ++ l).

(** ** A disk of blocks *)

(** A command that is answered at once leaves the contents alone. *)
Definition replies {A} (r : reply) (st : State) (disk : A) : answer A :=
  mkAnswer (reply_state r st) disk (reply_data r st) (reply_status r) (len (reply_data r st)).

(** The commands of a SCSI disk of [BLOCKS] blocks of [BLOCK_SIZE] bytes. It does not serve READ
    CAPACITY (16), and nothing beyond its blocks. *)
Section Scsi.
Context (inquiry_data : list byte) (BLOCKS BLOCK_SIZE : Z).

Definition has_blocks (lba l : Z) : bool := (l <=? 0) || (lba + l <=? BLOCKS).

Definition scsi_disk (k : ScsiCommand) (data : list byte) (st : State) (disk : list byte) :
    option (answer (list byte)) :=
  match k with
  | Read lba l =>
    if has_blocks lba l then
      Some (mkAnswer st disk (zslice (BLOCK_SIZE * lba) (BLOCK_SIZE * (lba + l)) disk) Passed (BLOCK_SIZE * l))
    else None
  | Write lba l =>
    if has_blocks lba l && (len data =? BLOCK_SIZE * l) then
      Some (mkAnswer st (splice disk (BLOCK_SIZE * lba) data) [] Passed (BLOCK_SIZE * l))
    else None
  | _ => option_map (fun r => replies r st disk) (scsi_reply inquiry_data BLOCKS BLOCK_SIZE k)
  end.

Lemma has_blocks_spec lba l : has_blocks lba l = true -> 0 < l -> lba + l <= BLOCKS.
Proof. unfold has_blocks. lia. Qed.

(** What is written is read back. *)
Lemma scsi_disk_read_back parse_cb cw cr data other lba l st disk :
  parse_cb (ztake (block_len cw) (block cw)) = Returns (Write lba l) ->
  parse_cb (ztake (block_len cr) (block cr)) = Returns (Read lba l) ->
  0 <= BLOCK_SIZE -> 0 <= lba -> 0 <= l -> len disk = BLOCKS * BLOCK_SIZE ->
  match run_disk parse_cb scsi_disk [(cw, data); (cr, other)] st disk with
  | Some (st', disk', x) => len data = BLOCK_SIZE * l /\ st' = st /\ disk' = splice disk (BLOCK_SIZE * lba) data /\
    x = payload cw [] ++ csw_bytes cw (mkStatusAndResidue Passed (saturating_sub (data_transfer_len cw) (len data))) ++
      payload cr data ++ csw_bytes cr (mkStatusAndResidue Passed (saturating_sub (data_transfer_len cr) (len data)))
  | None => True
  end.
Proof.
  intros Hw Hr ??? Hdisk. cbn [run_disk respond]. rewrite Hw, Hr. cbn [scsi_disk].
  destruct (has_blocks lba l) eqn:Hb; [|done]. cbn [andb]. destruct (Z.eqb_spec (len data) (BLOCK_SIZE * l)) as [Hl|]; [|done].
  cbn [answer_data answer_status answer_moved answer_state answer_disk].
  destruct (len [] <=? _); [|done]. rewrite <- Hl.
  assert (zslice (BLOCK_SIZE * lba) (BLOCK_SIZE * (lba + l)) (splice disk (BLOCK_SIZE * lba) data) = data) as ->.
  { rewrite Z.mul_add_distr_l, <- Hl. pose proof (has_blocks_spec _ _ Hb). destruct (decide (l = 0)) as [->|].
    - assert (data = []) as -> by (apply len_zero_inv; lia). by rewrite len_nil, zslice_empty by lia.
    - rewrite zslice_splice_app by nia. by rewrite zslice_empty, ztake_all by lia. }
  destruct (_ <=? wanted cr); [|done]. rewrite app_nil_r, <- !app_assoc. done.
Qed.
End Scsi.
