(* ===== verification/FirmwareSession.v ===== *)
(** * Sessions of a host with a firmware

    A [session] is a run of the main loop over any number of commands: each one from the
    [poll] in which it begins until its status wrapper is out, and what goes on between two
    of them. For any class, memory and handler: if the handler serves each command as a disk
    does ([carried_out]), the session is a run of that disk on what the host has sent
    ([session_refines]). A command on which the handler panics has no end ([panic_lasts]). *)
From stdpp Require Import relations.
From S2P Require Import Prelude.
From S2P Require Import Usb.
From S2P Require Import Buffer.
From S2P Require Import Transport.
From S2P Require Import Bbb.
From S2P Require Import BotSpec.
From S2P Require Import BbbRefine.
From S2P Require Import BbbMethods.
From S2P Require Import BbbReach.
From S2P Require Import MockBus.
From S2P Require Import BbbSafe.
From S2P Require Import BotStream.
From S2P Require Import Transfer.
From S2P Require Import Subclass.
From S2P Require Import Firmware.
From S2P Require Import FirmwareSense.
From S2P Require Import FirmwareSpec.
From S2P Require Import FirmwareRun.
From S2P Require Import FirmwareLive.
From S2P Require Import FirmwareReply.
From S2P Require Import Disk.

Local Open Scope Z_scope.
Local Open Scope rust_scope.

Section Session.
Context `{!UsbStack, !UsbStackLaws} {T D : Type} `{!OverBulkOnly T, !StackClass T} (inv : D -> Prop).
Context {Kind : Type} (parse_cb : list byte -> outcome Kind) (moves : Kind -> bool).
Context (process_command : callback (C := Device T D) Kind).
Implicit Types v : Device T D.
Local Abbreviation main := (main_poll_command parse_cb process_command).
Local Abbreviation loop_step := (loop_step parse_cb process_command).
Local Abbreviation run_step := (run_step parse_cb process_command).
Local Abbreviation device_inv := (device_inv inv parse_cb moves).

(** What happens between two commands: the stack polls the class and a wrapper is still not
    complete, the loop polls the command, a control request comes in, the host acts on the
    bus. *)
Inductive idle_step v : Device T D -> Prop :=
| idle_usb v' : usb_poll v = Returns (tt, v') -> state (transport v') = CommandTransfer -> idle_step v v'
| idle_command r v' : main v = Returns (r, v') -> idle_step v v'
| idle_control req v' :
    is_bot_reset req = false -> usb_control_in req v = Returns (tt, v') -> idle_step v v'
| idle_host b :
    host_step (bus (transport v)) b -> idle_step v (set_transport (set_bus b (transport v)) v).

(** The commands of the list, one after the other. *)
Inductive session : Device T D -> list CommandBlockWrapper -> Device T D -> Prop :=
| session_none v : session v [] v
| session_idle v v1 cs v' : idle_step v v1 -> session v1 cs v' -> session v cs v'
| session_command v v0 v1 cs v' :
    usb_poll v = Returns (tt, v0) -> command_phase (state (transport v0)) = false ->
    rtc loop_step v0 v1 -> out (transport v1) -> session v1 cs v' ->
    session v (Bbb.cbw (transport v0) :: cs) v'.

Lemma loop_run v v' : loop_step v v' -> run_step v v'.
Proof.
  intros [v1 _ Hrun|r v1 Hrun|req v1 Hreq Hrun|b Hb];
    [by apply run_usb|by eapply run_command|by eapply run_control|by apply run_host].
Qed.
Lemma idle_run v v' : idle_step v v' -> run_step v v'.
Proof.
  intros [v1 Hrun _|r v1 Hrun|req v1 Hreq Hrun|b Hb];
    [by apply run_usb|by eapply run_command|by eapply run_control|by apply run_host].
Qed.

Hypothesis Hsafe : forall v k,
  device_inv v -> awaits_user (transport v) -> parse_cb (command_bytes (transport v)) = Returns k ->
  let c := mkCommand k (Bbb.lun (Bbb.cbw (transport v))) in
  process_command c v = Panics \/ wp (process_command c) (fun _ v' => turn inv (moves k) v v') v.

Lemma loop_inv v v' : device_inv v -> rtc loop_step v v' -> device_inv v'.
Proof.
  intros Hv Hrun. induction Hrun as [|v0 v1 v2 Hstep _ IH]; [done|].
  by apply IH, (device_inv_step inv parse_cb moves process_command Hsafe v0), loop_run.
Qed.

Context (d : device).
Hypothesis Hd : device_ok d.

(** Between two commands, on the device [d]. *)
Record ready v : Prop := {
  ready_inv : device_inv v;
  ready_good : good d (transport v);
  ready_between : between (transport v)
}.

Lemma between_waits t : good d t -> between t -> ~ awaits_user t.
Proof.
  intros Hg Hbt Hu. pose proof (awaits_status_phase d t Hg Hu) as Hsp.
  by destruct Hbt as [Hst|[Hst _]]; rewrite Hst in Hsp.
Qed.

Lemma ready_offset v : ready v -> storage_offset (STATE v) = 0.
Proof.
  intros [[_ _ [Ho|(Hu & _)]] Hg Hbt]; [done|]. by destruct (between_waits (transport v)).
Qed.

(** A wrapper that is waited for grows by what the host has sent; nothing else happens. *)
Lemma idle_step_spec v v' :
  ready v -> idle_step v v' ->
  ready v' /\ same_globals v v' /\ in_log (bus (transport v')) = in_log (bus (transport v)) /\
  exists x, pending (transport v') = pending (transport v) ++ x /\
    out_log (bus (transport v')) = out_log (bus (transport v)) ++ x.
Proof.
  intros [Hv Hg Hbt] Hstep. pose proof (device_reachable _ _ _ _ Hv) as Hr.
  assert (device_inv v') as Hv' by (eapply (device_inv_step _ _ _ _ Hsafe); [done|by apply idle_run]).
  assert (view (transport v') = view (transport v) -> good d (transport v') -> same_globals v v' ->
    ready v' /\ same_globals v v' /\ in_log (bus (transport v')) = in_log (bus (transport v)) /\
    exists x, pending (transport v') = pending (transport v) ++ x /\
      out_log (bus (transport v')) = out_log (bus (transport v)) ++ x) as Hsame.
  { intros Hview Hg' Hs. change (between (transport v)) with
      (phase (view (transport v)) = CommandTransfer \/
       phase (view (transport v)) = StatusTransfer /\ queue (view (transport v)) = []) in Hbt.
    split; [split; [done|done|by rewrite <- Hview in Hbt]|]. split; [done|].
    split; [exact (f_equal wire_in Hview)|]. exists []. rewrite !app_nil_r.
    split; [|exact (f_equal wire_out Hview)]. unfold pending.
    change (state ?t) with (phase (view t)). change (contents (buf ?t)) with (queue (view t)). by rewrite Hview. }
  destruct Hstep as [v1 Hrun Hp|r v1 Hrun|req v1 Hreq Hrun|b Hb].
  - destruct (usb_poll_run _ _ Hrun) as (r & Hpoll & Hs).
    destruct (wp_returns _ _ _ _ _ (poll_good d Hd _ Hg) Hpoll) as [Hg1 Hstep].
    destruct (command_awaited_bot _ _ _ _ _ (d_cbw_fits d Hd) Hbt (good_inv d _ Hg) Hstep Hp) as (x & Hq & Hi & Ho).
    split; [split; [done|done|by left]|]. split; [done|]. split; [exact Hi|]. exists x. split; [|exact Ho].
    unfold pending at 1. by rewrite Hp.
  - rewrite main_idle in Hrun by (done || by apply between_waits). injection Hrun as _ <-. by apply Hsame.
  - destruct (control_in_run _ _ _ Hrun) as (Hp & Hs).
    pose proof (wp_returns _ _ _ _ _ (control_in_good d Hd req _ Hg) Hp) as Hg1.
    destruct (wp_returns _ _ _ _ _ (control_in_step d req _ (good_live d _ Hg)) Hp) as [_ Hview].
    rewrite Hreq in Hview. by apply Hsame.
  - assert (bus_ok (d_in d) (d_out d) (bus (transport v))) as Hbus by apply Hg.
    apply Hsame; [|rewrite device_transport_set; by eapply step_good, step_host|apply same_set_transport].
    destruct (host_step_law _ _ _ _ Hb Hbus) as (_ & Hi & Ho).
    rewrite device_transport_set. unfold view. cbn. by rewrite Hi, Ho.
Qed.

(** A command begins. *)
Lemma ready_start v v0 :
  ready v -> usb_poll v = Returns (tt, v0) -> command_phase (state (transport v0)) = false ->
  command_start inv d v v0 /\ device_inv v0.
Proof.
  intros Hready Hrun Hph. pose proof Hready as [Hv Hg Hbt]. pose proof (ready_offset v Hready) as Ho.
  pose proof (device_inv_step _ _ _ _ Hsafe v v0 Hv (run_usb _ _ _ _ Hrun)) as Hv0.
  destruct (usb_poll_run _ _ Hrun) as (r & Hpoll & [Hst Hm]).
  destruct (wp_returns _ _ _ _ _ (poll_good d Hd _ Hg) Hpoll) as [Hg0 _].
  split; [|done]. split; try done; [by eapply device_reachable| |by destruct Hv as [_ [_ ?] _]].
  split; [by exists r|]. split; [done|]. by rewrite Hst.
Qed.

(** ** Commands *)

Context {A : Type} (contents_of : D -> A).
Context (serve : Kind -> list byte -> State -> A -> option (answer A)).
Local Abbreviation respond := (respond parse_cb serve).
Local Abbreviation run_disk := (run_disk parse_cb serve).

(** From [vb] to [v] the command [c] was answered as the disk answers it, and the packet [p]
    that completes its wrapper, the data and what was announced beyond it were received. *)
Definition carried_out vb (c : CommandBlockWrapper) v : Prop :=
  good d (transport v) /\
  exists data x p rest,
    respond (c, data) (STATE vb) (contents_of (MEMORY vb)) =
      Some (STATE v, contents_of (MEMORY v), x) /\
    in_log (bus (transport v)) = in_log (bus (transport vb)) ++ x /\
    out_log (bus (transport v)) = out_log (bus (transport vb)) ++ p ++ data ++ rest /\
    CBW_LEN <= len (pending (transport vb) ++ p) /\
    decode_cbw (ztake CBW_LEN (pending (transport vb) ++ p)) = Some c /\ announced c data rest.

(** It was, when the streams are those of an answer of the disk. *)
Lemma ended_carried vb c v k acc del status n :
  command_ended d (transport vb) c v acc del
    (mkStatusAndResidue status (saturating_sub (data_transfer_len c) n)) ->
  parse_cb (ztake (block_len c) (block c)) = Returns k ->
  serve k del (STATE vb) (contents_of (MEMORY vb)) =
    Some (mkAnswer (STATE v) (contents_of (MEMORY v)) acc status n) ->
  carried_out vb c v.
Proof.
  intros [Hin (p & rest & Hout & Hlen & Hdec & Han) Hw Hg] Hk Hserve. split; [done|].
  exists del, (payload c acc ++ csw_bytes c (mkStatusAndResidue status (saturating_sub (data_transfer_len c) n))), p, rest.
  split; [|done]. cbn [Disk.respond]. rewrite Hk, Hserve. cbn [answer_data answer_status answer_moved answer_state answer_disk].
  unfold within in Hw. by replace (len acc <=? wanted c) with true by lia.
Qed.

(** Such an answer is one of those that are given at once. *)
Lemma reply_carried r k vb v0 v :
  command_start inv d vb v0 -> rtc loop_step v0 v -> out (transport v) ->
  parse_cb (command_bytes (transport v0)) = Returns k ->
  (forall l v, process_command (mkCommand k l) v = run_reply r v) ->
  (forall data st disk, serve k data st disk = Some (replies r st disk)) ->
  carried_out vb (Bbb.cbw (transport v0)) v.
Proof.
  intros Hs Hloop Hout Hk Hreply Hserve.
  destruct (reply_ended inv parse_cb process_command d r k vb v0 Hs Hk Hreply v Hloop Hout) as (Hm & Hst & Hend).
  eapply (ended_carried vb _ v k); [exact Hend|exact Hk|]. by rewrite Hserve, Hm, Hst.
Qed.

(** A command on which the handler, or the parser, panics has no end: the status stays open. *)
Lemma panic_lasts vb v0 v :
  command_start inv d vb v0 ->
  (forall k l v1, parse_cb (command_bytes (transport v0)) = Returns k ->
     good d (transport v1) -> awaits_user (transport v1) -> Bbb.cbw (transport v1) = Bbb.cbw (transport v0) ->
     STATE v1 = STATE v0 -> MEMORY v1 = MEMORY v0 -> process_command (mkCommand k l) v1 = Panics) ->
  rtc loop_step v0 v -> ~ out (transport v).
Proof.
  intros [Hr Hbt Hb _ Hg _ _ _ _] Hp Hloop [Hph Hq]. set (c := Bbb.cbw (transport v0)) in *.
  set (J := fun st m (acc del : list byte) (s : option StatusAndResidue) => st = STATE v0 /\ m = MEMORY v0 /\ s = None).
  set (next := fun _ _ : Device T D => True).
  assert (turns_safe parse_cb process_command (transport vb) c J next) as Hturns.
  { intros k v1 acc del l Hk Hv1 (Hst & Hm & _). left. apply Hp; [done| |apply Hv1|apply Hv1|done..].
    by eapply (serving_good d). }
  assert (course (transport vb) c J v) as Hdo.
  { apply (course_loop parse_cb process_command d (transport vb) Hd Hg Hbt c J next Hr Hturns v0); [|done].
    by apply (course_begins d (transport vb) Hd Hg Hbt). }
  by destruct (course_done d (transport vb) Hd Hg Hbt c J v Hdo Hph Hq) as (acc & del & s & (_ & _ & [=]) & _).
Qed.

(** ** The whole session *)

(** From [vb] to [v] the firmware was a disk that served the commands [cs]: the host sent
    wrappers and data, [l] and a part of a wrapper that is still pending, and received the
    answers to them, in order. *)
Definition disk_session vb (cs : list CommandBlockWrapper) v : Prop :=
  exists reqs sent l received, map fst reqs = cs /\ spoken reqs l /\
    out_log (bus (transport v)) = out_log (bus (transport vb)) ++ sent /\
    pending (transport vb) ++ sent = l ++ pending (transport v) /\
    in_log (bus (transport v)) = in_log (bus (transport vb)) ++ received /\
    run_disk reqs (STATE vb) (contents_of (MEMORY vb)) = Some (STATE v, contents_of (MEMORY v), received).

Context (in_scope : CommandBlockWrapper -> Prop).
Hypothesis Hserve : forall vb v0 v,
  command_start inv d vb v0 -> in_scope (Bbb.cbw (transport v0)) -> rtc loop_step v0 v ->
  out (transport v) -> carried_out vb (Bbb.cbw (transport v0)) v.

Lemma session_refines vb cs v :
  ready vb -> session vb cs v -> Forall in_scope cs -> disk_session vb cs v.
Proof.
  intros Hready Hses. induction Hses as [vb|vb v1 cs v Hidle _ IH|vb v0 v1 cs v Hpoll Hph Hloop Hout _ IH]; intros Hall.
  - exists [], [], [], []. rewrite !app_nil_r. split_and!; try done. constructor.
  - destruct (idle_step_spec vb v1 Hready Hidle) as (Hready1 & [Hst Hm] & Hin & x & Hp & Ho).
    destruct (IH Hready1 Hall) as (reqs & sent & l & received & Hmap & Hsp & Ho' & Hl & Hin' & Hrun).
    exists reqs, (x ++ sent), l, received. rewrite Ho', Ho, Hin', Hin, <- !app_assoc.
    rewrite Hp, <- app_assoc in Hl. by rewrite Hst, Hm in Hrun.
  - inversion_clear Hall as [|? ? Hc Hcs].
    destruct (ready_start vb v0 Hready Hpoll Hph) as [Hstart Hv0].
    destruct (Hserve vb v0 v1 Hstart Hc Hloop Hout) as (Hg1 & data & x & p & rest & Hresp & Hin & Ho & Hlen & Hdec & Han).
    assert (ready v1) as Hready1 by (split; [by eapply loop_inv|done|by right]).
    destruct (IH Hready1 Hcs) as (reqs & sent & l & received & <- & Hsp & Ho' & Hl & Hin' & Hrun).
    exists ((Bbb.cbw (transport v0), data) :: reqs), (p ++ data ++ rest ++ sent),
      ((pending (transport vb) ++ p) ++ data ++ rest ++ l), (x ++ received).
    split; [done|]. split; [by constructor|]. split; [by rewrite Ho', Ho, <- !app_assoc|].
    assert (pending (transport v1) = []) as Hnil by (unfold pending; by rewrite (proj1 Hout)).
    rewrite Hnil in Hl. split; [rewrite <- !app_assoc, <- Hl; done|].
    split; [by rewrite Hin', Hin, <- app_assoc|]. cbn [Disk.run_disk]. by rewrite Hresp, Hrun.
Qed.
End Session.

(** Whatever has happened since power-on, between two commands a session can begin. *)
Lemma run_ready `{!UsbStack, !UsbStackLaws} {T D} `{!OverBulkOnly T, !StackClass T} (inv : D -> Prop)
    {Kind} (parse_cb : list byte -> outcome Kind) moves (process_command : callback (C := Device T D) Kind) vi vb :
  (forall v k, device_inv inv parse_cb moves v -> awaits_user (transport v) ->
    parse_cb (command_bytes (transport v)) = Returns k ->
    let c := mkCommand k (Bbb.lun (Bbb.cbw (transport v))) in
    process_command c v = Panics \/ wp (process_command c) (fun _ v' => turn inv (moves k) v v') v) ->
  powered_on inv vi -> rtc (run_step parse_cb process_command) vi vb -> between (transport vb) ->
  exists d, device_ok d /\ ready inv parse_cb moves d vb.
Proof.
  intros Hsafe Hvi Hrun Hbt. pose proof (run_inv _ _ _ _ Hsafe _ _ Hvi Hrun) as Hv.
  destruct (reachable_good _ (device_reachable _ _ _ _ Hv)) as (d & Hd & Hg). by exists d.
Qed.

(** ** Sessions on the test bus *)

Section Runs.
Context {T D : Type} `{!@OverBulkOnly MockStack T, !@StackClass MockStack T _}.
Context {Kind : Type} (parse_cb : list byte -> outcome Kind).
Context (process_command : callback (C := Device T D) Kind).
Implicit Types v : Device T D.
Local Abbreviation do_event := (do_event parse_cb process_command).
Local Abbreviation loop_step := (loop_step parse_cb process_command).

(** Rounds of the main loop, until the status wrapper is out. *)
Fixpoint do_rounds (fuel : nat) v : option (Device T D) :=
  if ended (Some v) then Some v
  else match fuel with
  | O => None
  | S fuel => match do_events parse_cb process_command [EUsb; ECommand] v with
              | Some v => do_rounds fuel v
              | None => None
              end
  end.
Lemma do_rounds_loop fuel v v' : do_rounds fuel v = Some v' -> rtc loop_step v v' /\ out (transport v').
Proof.
  revert v. induction fuel as [|fuel IH]; intros v; cbn [do_rounds]; destruct (ended (Some v)) eqn:He; try done.
  1-2: intros [= <-]; split; [done|]; by apply andb_prop in He as [?%bool_decide_eq_true ?%bool_decide_eq_true].
  destruct (do_events _ _ _ v) as [v1|] eqn:Hv1; [|done]. intros [Hl Ho]%IH. split; [|done].
  etrans; [by eapply do_events_loop|done].
Qed.

(** The host sends a wrapper and, when the command has begun, its data. *)
Definition do_request (fuel : nat) (q : list byte * list byte) v : option (CommandBlockWrapper * Device T D) :=
  match do_event (EHost (fst q)) v with
  | Some v1 =>
    match usb_poll v1 with
    | Returns (_, v0) =>
      if command_phase (state (transport v0)) then None else
      match do_event (EHost (snd q)) v0 with
      | Some v2 => option_map (pair (Bbb.cbw (transport v0))) (do_rounds fuel v2)
      | None => None
      end
    | _ => None
    end
  | None => None
  end.
Fixpoint do_session (fuel : nat) (l : list (list byte * list byte)) v :
    option (list CommandBlockWrapper * Device T D) :=
  match l with
  | [] => Some ([], v)
  | q :: l =>
    match do_request fuel q v with
    | Some (c, v) => option_map (fun '(cs, v) => (c :: cs, v)) (do_session fuel l v)
    | None => None
    end
  end.

Lemma do_host_step bytes v v' :
  do_event (EHost bytes) v = Some v' ->
  exists b, host_step (bus (transport v)) b /\ v' = set_transport (set_bus b (transport v)) v.
Proof.
  cbn [FirmwareRun.do_event]. destruct (0 <=? _) eqn:Hm; [|done]. intros [= <-]. eexists. split; [|done].
  refine (ex_intro _ (chunks _ bytes) (conj _ eq_refl)). exact (chunks_fuel_le _ _ _ (proj1 (Z.leb_le _ _) Hm)).
Qed.

Lemma do_session_run fuel l v cs v' :
  do_session fuel l v = Some (cs, v') -> session parse_cb process_command v cs v'.
Proof.
  revert v cs. induction l as [|q l IH]; intros v cs; cbn [do_session]; [intros [= <- <-]; constructor|].
  unfold do_request. destruct (do_event (EHost (fst q)) v) as [v1|] eqn:Hv1; [|done].
  destruct (usb_poll v1) as [[[] v0]| |] eqn:Hpoll; [|done..].
  destruct (command_phase _) eqn:Hph; [done|]. destruct (do_event (EHost (snd q)) v0) as [v2|] eqn:Hv2; [|done].
  destruct (do_rounds fuel v2) as [v3|] eqn:Hv3; [|done]. cbn [option_map].
  destruct (do_session fuel l v3) as [[cs' v4]|] eqn:Hses; [|done]. intros [= <- <-].
  destruct (do_host_step _ _ _ Hv1) as (b1 & Hb1 & ->). destruct (do_host_step _ _ _ Hv2) as (b2 & Hb2 & ->).
  destruct (do_rounds_loop _ _ _ Hv3) as [Hloop Hout].
  eapply session_idle; [by apply idle_host|]. eapply session_command; [done..| |done|by apply IH].
  eapply rtc_l; [by apply loop_host|done].
Qed.

(** A session that begins at power-on. *)
Definition session_from (boot : outcome (Device T D)) (fuel : nat) (l : list (list byte * list byte)) :
    option (Device T D * list CommandBlockWrapper * Device T D) :=
  match boot with
  | Returns vi => option_map (fun '(cs, v) => (vi, cs, v)) (do_session fuel l vi)
  | _ => None
  end.
(** It was run, and the device it began on and its commands satisfy [ok]. *)
Definition is_session_of (ok : Device T D -> list CommandBlockWrapper -> bool)
    (s : option (Device T D * list CommandBlockWrapper * Device T D)) : bool :=
  match s with Some (vi, cs, _) => between_b (transport vi) && ok vi cs | None => false end.
Lemma session_from_spec boot fuel l ok vi :
  boot = Returns vi -> is_session_of ok (session_from boot fuel l) = true ->
  exists cs v, session_from boot fuel l = Some (vi, cs, v) /\ between (transport vi) /\
    session parse_cb process_command vi cs v /\ ok vi cs = true.
Proof.
  intros ->. cbn [session_from]. destruct (do_session fuel l vi) as [[cs v]|] eqn:Hses; [|done].
  intros [Hbt%between_b_spec Hok]%andb_prop. exists cs, v. split; [done|]. split; [done|].
  split; [by eapply do_session_run|done].
Qed.
End Runs.
