(* ===== verification/Stm32Scsi.v ===== *)
(** * The STM32 flash drive ([examples/stm32/src/bin/stm32f411x_scsi_bbb.rs])

    A drive of 200 blocks in memory over the SCSI subclass: the global [STORAGE] is the
    memory of the [Device]. A product or a sum beyond [2^32] panics (overflow checks on,
    as in cargo's default profile). *)
From S2P Require Import Prelude.
From S2P Require Import Usb.
From S2P Require Import Buffer.
From S2P Require Import Transport.
From S2P Require Import Bbb.
From S2P Require Import Subclass.
From S2P Require Import Scsi.
From S2P Require Import Firmware.

Local Open Scope Z_scope.
Local Open Scope rust_scope.

Definition BLOCK_SIZE : Z := 512.
Definition BLOCKS : Z := 200.
Definition USB_PACKET_SIZE : Z := 64.
Definition MAX_LUN : Z := 0.

Definition inquiry_data : list byte := map byte_of
  [0x00; 0x80; 0x04; 0x02; 0x20; 0x00; 0x00; 0x00;
   85; 78; 75; 78; 79; 87; 78; 32;
   83; 84; 77; 51; 50; 32; 85; 83; 66; 32; 70; 108; 97; 115; 104; 32;
   49; 46; 50; 51].

(** The memory is [STORAGE]. *)
Abbreviation STORAGE := MEMORY.
Abbreviation set_STORAGE := set_MEMORY.

Abbreviation Drive := (Device (Scsi BulkOnly) (list byte)).

Section Drive.
Context `{!UsbStack}.

Definition process_read (lba l : Z) : M Drive (BResult unit) :=
  let! st := gets STATE in
  let! total := lift (mul32 l BLOCK_SIZE) in
  if negb (storage_offset st =? total) then
    let! (start, end_) := lift (storage_range BLOCK_SIZE lba l (storage_offset st)) in
    let! v := gets id in
    let! data := lift (slice (STORAGE v) start end_) in
    let? count := write_data data in
    let! offset := lift (add32 (storage_offset st) count) in
    do! move_to offset st in
    ret (Ok tt)
  else finish.

Definition process_write (lba l : Z) : M Drive (BResult unit) :=
  let! st := gets STATE in
  let! total := lift (mul32 l BLOCK_SIZE) in
  if negb (storage_offset st =? total) then
    let! (start, end_) := lift (storage_range BLOCK_SIZE lba l (storage_offset st)) in
    let! v := gets id in
    let! dst := lift (slice (STORAGE v) start end_) in
    let! (dst, r) := read_data dst in
    do! modify (set_STORAGE (splice (STORAGE v) start dst)) in
    let? count := ret r in
    let! offset := lift (add32 (storage_offset st) count) in
    do! move_to offset st in
    if offset =? total then finish else ret (Ok tt)
  else finish.

Definition process_command : callback (C := Drive) ScsiCommand := fun command =>
  match kind command with
  | TestUnitReady => do! pass 0 in ret (Ok tt)
  | Inquiry _ _ _ => answer inquiry_data
  | RequestSense _ _ => answer_sense 0x00
  | ReadCapacity10 => let! data := lift (capacity10_data BLOCKS BLOCK_SIZE) in answer data
  | ReadCapacity16 _ => let! data := lift (capacity16_data BLOCKS BLOCK_SIZE) in answer data
  | ReadFormatCapacities _ =>
    let! data := lift (format_capacities_data BLOCKS BLOCK_SIZE) in answer data
  | Read lba l => process_read lba l
  | Write lba l => process_write lba l
  | ModeSense6 _ _ _ _ _ => answer mode_sense6_data
  | ModeSense10 _ _ _ _ _ => answer mode_sense10_data
  | Unknown _ => refuse
  end.

(** [main] up to its loop: the class on a fresh bus, with the global buffer, and the image
    [FAT], which is built into the firmware, in the memory. *)
Definition boot (USB_TRANSPORT_BUF FAT : list byte) (usb_bus : Bus) : outcome Drive :=
  let* storage := copy_from_slice (zreplicate (BLOCKS * BLOCK_SIZE) x00) FAT in
  power_on (Scsi.new USB_PACKET_SIZE MAX_LUN USB_TRANSPORT_BUF usb_bus) storage.

(** A round of the loop of [main]. *)
Definition main_round `{!TryFromPrimitive} (calls : list stack_call) (event default : bool) : M Drive unit :=
  main_loop (Scsi.parse_cb false) process_command calls event default.
End Drive.
