(* ===== verification/Stm32ScsiSpec.v ===== *)
(** * Specification of the STM32 flash drive

    On which commands the handler panics; what a READ and a WRITE do over all the
    turns that they take in the main loop: the blocks of the drive on the wire, the
    bytes of the host in the drive; that both come to their status. *)
From stdpp Require Import relations.
From S2P Require Import Prelude.
From S2P Require Import Usb.
From S2P Require Import Buffer.
From S2P Require Import Transport.
From S2P Require Import Bbb.
From S2P Require Import BotSpec.
From S2P Require Import BbbRefine.
From S2P Require Import BbbMethods.
From S2P Require Import BbbReach.
From S2P Require Import MockBus.
From S2P Require Import BbbSafe.
From S2P Require Import BotStream.
From S2P Require Import Transfer.
From S2P Require Import Subclass.
From S2P Require Import Scsi.
From S2P Require Import ScsiSpec.
From S2P Require Import Firmware.
From S2P Require Import FirmwareSense.
From S2P Require Import FirmwareSpec.
From S2P Require Import FirmwareRun.
From S2P Require Import FirmwareLive.
From S2P Require Import FirmwareReply.
From S2P Require Import Stm32Scsi.

Local Open Scope Z_scope.
Local Open Scope rust_scope.

Section Turns.
Context `{!UsbStack, !UsbStackLaws}.
Implicit Types v : Drive.

(** The size of the drive. *)
Definition full (sto : list byte) : Prop := len sto = BLOCKS * BLOCK_SIZE.

Lemma flash_data_runs :
  (exists l, capacity10_data BLOCKS BLOCK_SIZE = Returns l) /\
  capacity16_data BLOCKS BLOCK_SIZE = Panics /\
  (exists l, format_capacities_data BLOCKS BLOCK_SIZE = Returns l).
Proof. split_and!; [eexists; by vm_compute|by vm_compute|eexists; by vm_compute]. Qed.

(** The ranges of READ and WRITE. *)
Local Abbreviation in_drive := (in_memory BLOCK_SIZE (BLOCKS * BLOCK_SIZE)).

Lemma flash_total_u32 l : 0 <= l < 2 ^ 16 -> is_u32 (l * BLOCK_SIZE).
Proof. unfold is_u32, u32_modulus, BLOCK_SIZE. lia. Qed.
Lemma drive_total_run l : 0 <= l < 2 ^ 16 -> mul32 l BLOCK_SIZE = Returns (l * BLOCK_SIZE).
Proof. intros. by apply total_run, flash_total_u32. Qed.
Lemma drive_range_run lba l offset :
  0 <= lba -> 0 <= l -> 0 <= offset -> in_drive lba l offset = true ->
  storage_range BLOCK_SIZE lba l offset =
    Returns (BLOCK_SIZE * lba + offset, BLOCK_SIZE * lba + BLOCK_SIZE * l).
Proof. intros. by apply (storage_range_run BLOCK_SIZE ltac:(done) (BLOCKS * BLOCK_SIZE)). Qed.

(** ** READ and WRITE: one turn *)

Section Safe.
Context (d : device).
Hypothesis Hd : device_ok d.

(** In its turn a READ queues the longest part of the range that the transport takes;
    when all of it is taken, it sets the status. *)
Lemma flash_process_read_turn lba l v :
  in_turn d v v -> wf_device full v -> 0 <= lba -> 0 <= l < 2 ^ 16 ->
  storage_offset (STATE v) = l * BLOCK_SIZE \/ in_drive lba l (storage_offset (STATE v)) = true ->
  wp (process_read lba l) (fun _ v' => turn full true v v') v.
Proof.
  intros Hin Hwf ?? Hok. pose proof Hwf as [[Ho Ho'] HS]. unfold process_read. wp_steps.
  rewrite drive_total_run by done. cbn [owp]. destruct (Z.eqb_spec (storage_offset (STATE v)) (l * BLOCK_SIZE)) as [?|Hne].
  { by apply (finish_turn d). }
  destruct Hok as [?|Hdr]; [done|]. cbn [negb]. wp_steps. rewrite drive_range_run by (done || lia).
  apply andb_prop in Hdr as [?%Z.leb_le ?%Z.leb_le]. unfold full, BLOCK_SIZE, BLOCKS in *. cbn [owp]. wp_steps. cbn [id]. wp_steps.
  apply (wp_write_data d); [apply Hin|]. intros r v' _ Hk Hsame Hn.
  pose proof (in_turn_kept d _ _ _ Hin Hk) as Hin'. pose proof (wf_same _ _ _ Hsame Hwf) as [_ HS'].
  destruct r as [n|e]; wp_steps; [|by apply (turn_within d); [|eapply wf_same]].
  rewrite add32_run by (unfold u32_modulus; len_lia). cbn [owp].
  apply wp_bind. apply (move_to_turn d); [done|done|]. unfold is_u32, u32_modulus. len_lia.
Qed.

Lemma flash_process_write_turn lba l v :
  in_turn d v v -> wf_device full v -> 0 <= lba -> 0 <= l < 2 ^ 16 ->
  storage_offset (STATE v) = l * BLOCK_SIZE \/ in_drive lba l (storage_offset (STATE v)) = true ->
  wp (process_write lba l) (fun _ v' => turn full true v v') v.
Proof.
  intros Hin Hwf ?? Hok. pose proof Hwf as [[Ho Ho'] HS]. unfold process_write. wp_steps.
  rewrite drive_total_run by done. cbn [owp]. destruct (Z.eqb_spec (storage_offset (STATE v)) (l * BLOCK_SIZE)) as [?|Hne].
  { by apply (finish_turn d). }
  destruct Hok as [?|Hdr]; [done|]. cbn [negb]. wp_steps. rewrite drive_range_run by (done || lia).
  apply andb_prop in Hdr as [?%Z.leb_le ?%Z.leb_le]. unfold full, BLOCK_SIZE, BLOCKS in *. cbn [owp]. wp_steps. cbn [id]. wp_steps.
  apply (wp_read_data d); [apply Hin|]. intros r dst v' _ Hk [Hst _] Hdst Hr.
  pose proof (in_turn_kept d _ _ _ Hin Hk) as Hin'. wp_steps.
  set (v1 := set_MEMORY _ v').
  assert (len (MEMORY v1) = 200 * 512) as HS1 by (cbn; rewrite len_splice by len_lia; exact HS).
  assert (in_turn d v v1) as Hin1 by (by apply (in_turn_same d _ v')).
  destruct r as [n|e]; wp_steps.
  2:{ apply (turn_within d); [done|]. split; [|done]. cbn. by rewrite Hst. }
  destruct Hr as (x & Hx & Hle & _). pose proof (len_nonneg x).
  rewrite add32_run by (unfold u32_modulus; len_lia). cbn [owp].
  unfold move_to. wp_steps. destruct (_ =? _).
  - apply (finish_turn d); [by apply (in_turn_same d _ v1)|done].
  - wp_steps. apply (turn_within d); [by apply (in_turn_same d _ v1)|]. split; [|done].
    cbn. unfold is_u32, u32_modulus. len_lia.
Qed.

(** ** The commands on which the handler panics *)

Definition panics_on (st : State) (k : ScsiCommand) : bool :=
  match k with
  | ReadCapacity16 _ => true
  | Read lba l | Write lba l =>
    negb (storage_offset st =? l * BLOCK_SIZE) && negb (in_drive lba l (storage_offset st))
  | _ => false
  end.

Lemma not_panics_range st lba l :
  negb (storage_offset st =? l * BLOCK_SIZE) && negb (in_drive lba l (storage_offset st)) = false ->
  storage_offset st = l * BLOCK_SIZE \/ in_drive lba l (storage_offset st) = true.
Proof.
  intros [Hb%negb_false_iff|Hb%negb_false_iff]%andb_false_iff; [left; by apply Z.eqb_eq|by right].
Qed.

(** What READ and WRITE have in common before the range is accessed. *)
Lemma range_reached lba l v (k : State -> Z -> Z * Z -> M Drive (BResult unit)) :
  0 <= l < 2 ^ 16 -> wf_device full v ->
  negb (storage_offset (STATE v) =? l * BLOCK_SIZE) &&
    negb (in_drive lba l (storage_offset (STATE v))) = true ->
  (forall st total a b, slice (STORAGE v) a b = Panics -> k st total (a, b) v = Panics) ->
  (let! st := gets STATE in
   let! total := lift (mul32 l BLOCK_SIZE) in
   if negb (storage_offset st =? total) then
     let! r := lift (storage_range BLOCK_SIZE lba l (storage_offset st)) in k st total r
   else finish) v = Panics.
Proof.
  intros Hl [_ Hfull] [Hne Hno%negb_true_iff]%andb_prop Hk.
  unfold bind at 1 2, gets, lift at 1, gets_o at 1. rewrite drive_total_run by lia.
  cbv beta iota. rewrite Hne. apply (range_panics _ _ _ _ (STORAGE v)); [intros; by apply Hk|].
  by rewrite Hfull.
Qed.

Lemma flash_process_command_run k l v :
  in_turn d v v -> wf_device full v -> ScsiSpec.in_range false k ->
  (moves_data k = false -> storage_offset (STATE v) = 0) ->
  if panics_on (STATE v) k then process_command (mkCommand k l) v = Panics
  else wp (process_command (mkCommand k l)) (fun _ v' => turn full (moves_data k) v v') v.
Proof.
  intros Hin Hwf Hr Hstart. destruct flash_data_runs as ((l10 & H10) & H16 & (lf & Hf)).
  destruct k as [cmd|ev pg al| |ds al|db pc pg sp al|db pc pg sp al| |al|lba n|lba n|al];
    cbn [panics_on process_command kind moves_data]; cbn in Hr;
    try (wp_steps; rewrite ?H10, ?Hf; cbn [owp]; by apply (answer_turn d); [..|apply Hstart]).
  - by apply (refuse_turn d); [..|apply Hstart].
  - by apply (pass_turn d); [..|apply Hstart].
  - by apply (answer_sense_turn d); [..|apply Hstart].
  - unfold bind, lift, gets_o. by rewrite H16.
  - destruct (_ && _) eqn:Hp.
    + apply range_reached; [lia|done..|]. intros st total a b Hs.
      unfold bind, gets, lift, gets_o, id. by rewrite Hs.
    + apply flash_process_read_turn; [done..|lia|lia|by apply not_panics_range].
  - destruct (_ && _) eqn:Hp.
    + apply range_reached; [lia|done..|]. intros st total a b Hs.
      unfold bind, gets, lift, gets_o, id. by rewrite Hs.
    + apply flash_process_write_turn; [done..|lia|lia|by apply not_panics_range].
Qed.
End Safe.
(** ** READ and WRITE over all their turns *)

(** After [o] bytes of a READ of [total] bytes from the position [lo]. *)
Definition read_progress (sto0 : list byte) (lo total o : Z) (acc del sto : list byte) : Prop :=
  0 <= o <= total /\ sto = sto0 /\ acc = zslice lo (lo + o) sto0.
(** After [o] bytes of a WRITE. *)
Definition write_progress (sto0 : list byte) (lo total o : Z) (acc del sto : list byte) : Prop :=
  0 <= o <= total /\ len del = o /\ acc = [] /\ sto = splice sto0 lo del.

Section Served.
Context (d : device) (t0 : BulkOnly).
Hypothesis Hd : device_ok d.
Hypothesis Ht0 : good d t0.
Hypothesis Hbt : between t0.
Context (sto0 : list byte) (lba l : Z) (c : CommandBlockWrapper).
Hypothesis Hlba : 0 <= lba.
Hypothesis Hl : 0 <= l < 2 ^ 16.
Hypothesis Hfits : 0 < l -> lba + l <= BLOCKS.
Hypothesis Hsto0 : full sto0.

Local Abbreviation lo := (BLOCK_SIZE * lba).
Local Abbreviation total := (BLOCK_SIZE * l).

Lemma served_u32 : is_u32 total.
Proof. rewrite Z.mul_comm. by apply flash_total_u32. Qed.
Lemma served_range o : 0 <= o < total ->
  storage_range BLOCK_SIZE lba l o = Returns (lo + o, lo + total).
Proof.
  intros. assert (lba + l <= BLOCKS) by (apply Hfits; unfold BLOCK_SIZE in *; lia).
  apply drive_range_run; [done|lia..|]. unfold in_memory, BLOCK_SIZE, BLOCKS in *. lia.
Qed.

Lemma flash_read_turn_keeps :
  turn_keeps process_command t0 c (read_progress sto0 lo total) total write_stuck (Read lba l).
Proof.
  intros v acc del ln Hv (Ho & Hsto & Hacc). cbn [process_command kind].
  unfold process_read. wp_steps. rewrite drive_total_run by done. cbn [owp].
  destruct (Z.eqb_spec (storage_offset (STATE v)) (l * BLOCK_SIZE)) as [Heq|Hne]; cbn [negb].
  { assert (storage_offset (STATE v) = total) as Hof by lia.
    eapply (finish_doing d); [done..|apply served_u32|]. unfold read_progress. rewrite <- Hof.
    split; [lia|done]. }
  assert (0 < l) as Hpos by (unfold BLOCK_SIZE in *; lia). specialize (Hfits Hpos) as Hfits'.
  wp_steps. rewrite served_range by (unfold BLOCK_SIZE in *; lia). cbn [owp]. wp_steps. cbn [id].
  assert (full (MEMORY v)) as Hlen by (by rewrite Hsto).
  unfold full, BLOCK_SIZE, BLOCKS in *. wp_steps.
  eapply (serving_write d); [done..|]. intros r v' Hv' [Hst Hm] _ Hn Hgain.
  apply gained_advances with (total := 512 * l) in Hgain; [|lia|len_lia].
  destruct r as [k|e]; wp_steps.
  - rewrite add32_run by (unfold u32_modulus; len_lia). cbn [owp].
    apply wp_bind. eapply (move_to_doing d); [done..| |exact Hgain]. split; [len_lia|]. split; [by rewrite Hm|].
    rewrite Hacc. cbn [accepted].
    rewrite Hsto, <- (zslice_app (512 * lba) (512 * lba + storage_offset (STATE v))
      (512 * lba + (storage_offset (STATE v) + k))) by lia.
    f_equal. unfold zslice. rewrite ztake_ztake. f_equal. len_lia.
  - cbn [gained] in Hgain. rewrite Z.add_0_r in Hgain.
    eapply (serving_doing d); [done..| |by rewrite Hst].
    rewrite Hst, Hm. cbn [accepted]. rewrite app_nil_r. done.
Qed.

Lemma flash_write_turn_keeps :
  turn_keeps process_command t0 c (write_progress sto0 lo total) total read_stuck (Write lba l).
Proof.
  intros v acc del ln Hv (Ho & Hdel & Hno & Hsto). cbn [process_command kind].
  unfold process_write. wp_steps. rewrite drive_total_run by done. cbn [owp].
  destruct (Z.eqb_spec (storage_offset (STATE v)) (l * BLOCK_SIZE)) as [Heq|Hne]; cbn [negb].
  { assert (storage_offset (STATE v) = total) as Hof by lia.
    eapply (finish_doing d); [done..|apply served_u32|]. unfold write_progress. rewrite <- Hof.
    split; [lia|done]. }
  assert (0 < l) as Hpos by (unfold BLOCK_SIZE in *; lia). specialize (Hfits Hpos) as Hfits'.
  wp_steps. rewrite served_range by (unfold BLOCK_SIZE in *; lia). cbn [owp]. wp_steps. cbn [id].
  assert (full (MEMORY v)) as Hlen.
  { rewrite Hsto. unfold full, BLOCK_SIZE, BLOCKS in *. rewrite len_splice; lia. }
  unfold full, BLOCK_SIZE, BLOCKS in *. wp_steps. set (dst0 := zslice _ _ _).
  assert (len dst0 = 512 * l - storage_offset (STATE v)) as Hdst0 by (subst dst0; len_lia).
  eapply (serving_read d); [done..|]. intros r dst v' Hv' [Hst _] Hdst Hr _ Hgain.
  apply gained_advances with (total := 512 * l) in Hgain; [|lia|lia]. wp_steps.
  destruct r as [k|e]; wp_steps.
  - destruct Hr as (x & Hx & Hle & ->). pose proof (len_nonneg x).
    cbn [accepted] in Hv'. rewrite ztake_app_le, ztake_all in Hv' by lia.
    assert (splice (STORAGE v) (512 * lba + storage_offset (STATE v)) (x ++ zdrop k dst0) =
      splice sto0 (512 * lba) (del ++ x)) as Hnew.
    { subst dst0. rewrite <- Hx, splice_prefix by lia. rewrite Hsto, <- Hdel.
      apply splice_splice_app; lia. }
    rewrite add32_run by (unfold u32_modulus; lia). cbn [owp].
    unfold move_to. wp_steps. rewrite Hnew.
    destruct (Z.eqb_spec (storage_offset (STATE v) + k) (l * 512)).
    + eapply (finish_doing d); [done..|by apply (serving_same _ _ _ v')| |apply served_u32|].
      * unfold BLOCK_SIZE. cbn. lia.
      * unfold write_progress, BLOCK_SIZE. split; [lia|]. split; [len_lia|done].
    + wp_steps. eapply (serving_doing d); [done..|by apply (serving_same _ _ _ v')| |exact Hgain]. cbn.
      split; [lia|]. split; [len_lia|done].
  - cbn [gained] in Hgain. rewrite Z.add_0_r in Hgain.
    eapply (serving_doing d); [done..|by apply (serving_same _ _ _ v')| |cbn; by rewrite Hst].
    cbn. rewrite Hst, app_nil_r.
    split; [done|]. split; [done|]. subst dst dst0. rewrite splice_zslice; [done|lia|lia].
Qed.
End Served.

(** The turns of the handler keep the invariant. *)
Lemma flash_process_command_safe `{!TryFromPrimitive} v k :
  device_inv full (Scsi.parse_cb false) moves_data v -> awaits_user (transport v) ->
  Scsi.parse_cb false (command_bytes (transport v)) = Returns k ->
  let c := mkCommand k (Bbb.lun (Bbb.cbw (transport v))) in
  if panics_on (STATE v) k then process_command c v = Panics
  else wp (process_command c) (fun _ v' => turn full (moves_data k) v v') v.
Proof.
  intros [Hr Hwf Hpl] Hu Hk c. pose proof Hr as (d & Hd & Hg)%reachable_good.
  apply (flash_process_command_run d); [by apply in_turn_refl|done|..].
  - exact (scsi_decoded_range false d _ _ Hg (proj1 Hu) Hk).
  - by eapply place_start.
Qed.
Lemma flash_drive_safe `{!TryFromPrimitive} v k :
  device_inv full (Scsi.parse_cb false) moves_data v -> awaits_user (transport v) ->
  Scsi.parse_cb false (command_bytes (transport v)) = Returns k ->
  let c := mkCommand k (Bbb.lun (Bbb.cbw (transport v))) in
  process_command c v = Panics \/ wp (process_command c) (fun _ v' => turn full (moves_data k) v v') v.
Proof.
  intros Hv Hu Hk c. pose proof (flash_process_command_safe v k Hv Hu Hk) as Hrun. cbv zeta in Hrun.
  destruct (panics_on _ _); auto.
Qed.

(** ** The whole of a READ or WRITE *)

Lemma flash_read_sense lba l s : keeps_sense s (process_read (H := H) lba l).
Proof. unfold process_read. keep_sense. Qed.
Lemma flash_write_sense lba l s : keeps_sense s (process_write (H := H) lba l).
Proof. unfold process_write. keep_sense. Qed.

Section Ended.
Context `{!TryFromPrimitive} (d : device) (vb v0 v : Drive) (lba l : Z).
Hypothesis Hstart : command_start full d vb v0.
Hypothesis Hloop : rtc (loop_step (Scsi.parse_cb false) process_command) v0 v.
Local Abbreviation c := (Bbb.cbw (transport v0)).
Hypothesis Hfits : 0 < l -> lba + l <= BLOCKS.
Hypothesis Hout : out (transport v).

Lemma flash_read_ended :
  Scsi.parse_cb false (command_bytes (transport v0)) = Returns (Read lba l) ->
  let data := zslice (BLOCK_SIZE * lba) (BLOCK_SIZE * (lba + l)) (STORAGE vb) in
  len data = BLOCK_SIZE * l /\ STORAGE v = STORAGE vb /\ STATE v = STATE vb /\
  exists del, command_ended d (transport vb) c v data del
    (mkStatusAndResidue Passed (saturating_sub (data_transfer_len c) (BLOCK_SIZE * l))).
Proof.
  intros Hk data. destruct Hstart as [Hr Hbt Hb Hd Hg Hg0 Hsto Hm Hst], Hout as [Hp Hq].
  pose proof Hb as (_ & Hph & _).
  pose proof (scsi_decoded_range false d _ _ Hg0 Hph Hk) as Hir. cbn in Hir.
  destruct (command_served (Scsi.parse_cb false) process_command d (transport vb) Hd Hg Hbt c
    (read_progress (STORAGE vb) (BLOCK_SIZE * lba) (BLOCK_SIZE * l)) (BLOCK_SIZE * l)
    write_stuck (Read lba l) Hr Hk) with (v0 := v0) (v := v)
    as (acc & del & (Ho & Hm' & Hacc) & Hst' & Hend);
    [apply (flash_read_turn_keeps d); done || lia|intros; apply flash_read_sense|done|done| |done|done|done|].
  { split; [unfold BLOCK_SIZE; lia|]. split; [done|]. by rewrite zslice_empty by lia. }
  replace (BLOCK_SIZE * lba + BLOCK_SIZE * l) with (BLOCK_SIZE * (lba + l)) in Hacc by lia. fold data in Hacc.
  split; [|split; [done|split; [congruence|]]; exists del; by rewrite <- Hacc].
  subst data. unfold full, BLOCK_SIZE, BLOCKS in *. len_lia.
Qed.

Lemma flash_write_ended :
  Scsi.parse_cb false (command_bytes (transport v0)) = Returns (Write lba l) ->
  STATE v = STATE vb /\ exists data, 
  len data = BLOCK_SIZE * l /\ STORAGE v = splice (STORAGE vb) (BLOCK_SIZE * lba) data /\
  command_ended d (transport vb) c v [] data
    (mkStatusAndResidue Passed (saturating_sub (data_transfer_len c) (BLOCK_SIZE * l))).
Proof.
  intros Hk. destruct Hstart as [Hr Hbt Hb Hd Hg Hg0 Hsto Hm Hst], Hout as [Hp Hq].
  pose proof Hb as (_ & Hph & _).
  pose proof (scsi_decoded_range false d _ _ Hg0 Hph Hk) as Hir. cbn in Hir.
  destruct (command_served (Scsi.parse_cb false) process_command d (transport vb) Hd Hg Hbt c
    (write_progress (STORAGE vb) (BLOCK_SIZE * lba) (BLOCK_SIZE * l)) (BLOCK_SIZE * l)
    read_stuck (Write lba l) Hr Hk) with (v0 := v0) (v := v)
    as (acc & del & (Ho & Hdel & -> & Hacc) & Hst' & Hend);
    [apply (flash_write_turn_keeps d); done || lia|intros; apply flash_write_sense|done|done| |done|done|done|].
  { split; [unfold BLOCK_SIZE; lia|]. split; [done|]. split; [done|].
    rewrite splice_nil; [done|unfold BLOCK_SIZE; lia]. }
  split; [congruence|]. by exists del.
Qed.
End Ended.
End Turns.

(** ** Runs on the test bus *)

(** The drive when it enters its main loop. *)
Definition drive (sto : list byte) (t : MockBbb) : Device (Scsi (@BulkOnly MockStack)) (list byte) :=
  mkDevice (mkScsi (0 : @InterfaceNumber MockStack) t) State_reset sto.

(** A drive whose blocks hold 0xE5, and the wrappers of READ (10) and WRITE (10) of
    its block 1. *)
Definition blank : list byte := zreplicate (BLOCKS * BLOCK_SIZE) (byte_of 0xE5).
Definition read_wrapper : list byte :=
  splice (cbw 512 HostIn) 14 (map byte_of [10; READ_10; 0; 0; 0; 0; 1; 0; 0; 1; 0]).
Definition write_wrapper : list byte :=
  splice (cbw 512 HostOut) 14 (map byte_of [10; WRITE_10; 0; 0; 0; 0; 1; 0; 0; 1; 0]).
Definition read_before : MockBbb := at_ (history 64 read_wrapper []).
Definition write_before : MockBbb := at_ (history 64 write_wrapper []).
Lemma flash_read_before_reachable : reachable read_before.
Proof. apply at_reachable; [lia|by vm_compute]. Qed.
Lemma flash_write_before_reachable : reachable write_before.
Proof. apply at_reachable; [lia|by vm_compute]. Qed.

(** ** Theorems *)

(** [main] comes to its loop. *)
Lemma flash_boot_run `{!UsbStack, !UsbStackLaws} (USB_TRANSPORT_BUF FAT : list byte) (usb_bus : Bus) :
  len USB_TRANSPORT_BUF = 512 -> len FAT = 102400 -> bus_fresh usb_bus ->
  owp (boot USB_TRANSPORT_BUF FAT usb_bus) (powered_on full).
Proof.
  intros Hbuf HFAT Hb. unfold boot. apply owp_obind, owp_copy_from_slice.
  - rewrite HFAT, len_zreplicate; by vm_compute.
  - by apply (power_on_run full); [..|split; [|rewrite Hbuf; split]| |].
Qed.

(** C23: [main] comes to its loop. In any run from there ([run_step]: polls of the stack,
    turns of the main loop, control requests, the host, and rounds after bus resets, in any
    order) the transport is reachable, the globals are in range, and the offset is zero but
    in the course of a READ or WRITE. A turn of the main loop panics exactly on READ CAPACITY
    (16) and on a READ or WRITE that does not lie within the drive; every other turn returns
    and keeps all that; out of the user's turn nothing happens. A whole round keeps it too,
    and panics only if its turn does ([round_keeps]), when in it the stack resets the class
    neither for a bus reset nor with the Bulk-Only reset ([ordinary]). When it does, then
    before the loop sees an event ([unseen_step]) the transport stays reachable and the
    globals in range, and the round that finds the stack in its default state, whatever
    calls are made in it, clears [STATE] and so brings the invariant back, or its turn
    panics. *)
Theorem flash_poll_command_safe `{!UsbStack, !UsbStackLaws, !TryFromPrimitive}
    (USB_TRANSPORT_BUF FAT : list byte) (usb_bus : Bus) :
  let parse_cb := Scsi.parse_cb false in
  let main_poll_command := main_poll_command parse_cb process_command in
  len USB_TRANSPORT_BUF = 512 -> len FAT = 102400 -> bus_fresh usb_bus ->
  exists vi, boot USB_TRANSPORT_BUF FAT usb_bus = Returns vi /\
  forall v, rtc (run_step parse_cb process_command) vi v ->
  device_inv full parse_cb moves_data v /\
  (~ awaits_user (transport v) -> main_poll_command v = Returns (Ok tt, v)) /\
  (awaits_user (transport v) -> exists k, parse_cb (command_bytes (transport v)) = Returns k /\
     if panics_on (STATE v) k then main_poll_command v = Panics
     else wp main_poll_command (fun _ v' => device_inv full parse_cb moves_data v') v) /\
  (forall calls event default, Forall ordinary calls ->
     round_keeps full parse_cb moves_data process_command calls event default v (main_round calls event default v)) /\
  (forall vn, rtc (unseen_step parse_cb process_command) v vn ->
     reachable (transport vn) /\ wf_device full vn /\
     forall calls, round_keeps full parse_cb moves_data process_command calls true true vn (main_round calls true true vn)).
Proof.
  intros parse_cb main Hbuf HFAT Hb. pose proof (flash_boot_run _ _ _ Hbuf HFAT Hb) as Hboot.
  destruct (boot _ _ _) as [vi| |]; [|done..]. exists vi. split; [done|]. intros v Hrun.
  pose proof (run_inv full parse_cb moves_data process_command flash_drive_safe vi v Hboot Hrun) as Hv.
  pose proof (device_reachable _ _ _ _ Hv) as Hr.
  split; [done|]. split; [intros Hno; by apply main_idle|]. split; [intros Hu|split].
  - destruct (command_parses false _ Hr Hu) as (k & Hk & _). exists k. split; [done|].
    pose proof (flash_process_command_safe v k Hv Hu Hk) as Hturn. cbv zeta in Hturn.
    destruct (panics_on _ _); [by eapply main_panics|by eapply main_turn].
  - intros calls event default Hall. by apply (main_loop_inv full parse_cb moves_data process_command flash_drive_safe (command_fuel false)).
  - intros vn. by apply (unseen_inv full parse_cb moves_data process_command flash_drive_safe (command_fuel false)).
Qed.

(** READ CAPACITY (16) as the first command of a blank drive. *)
Definition capacity_wrapper : list byte :=
  splice (cbw 32 HostIn) 14 (map byte_of [16; READ_CAPACITY_16; 0x10; 0; 0; 0; 0; 0; 0; 0; 0; 0; 0; 0; 32]).
Local Abbreviation capacity_run :=
  (run_from (Scsi.parse_cb false) process_command (boot (zreplicate 512 x00) blank (fresh_bus : @Bus MockStack))
     [EHost capacity_wrapper; EUsb]).

Lemma flash_poll_command_safe_witness :
  match capacity_run with
  | Some v => main_poll_command (Scsi.parse_cb false) process_command v = Panics
  | None => False
  end.
Proof.
  destruct (flash_poll_command_safe (zreplicate 512 x00) blank (fresh_bus : @Bus MockStack)) as (vi & Hvi & Hall);
    [by vm_compute..|].
  assert (is_turn_of (Scsi.parse_cb false) (fun k => match k with ReadCapacity16 _ => true | _ => false end)
    capacity_run = true) as Hturn by (by vm_compute).
  destruct (run_from_spec _ _ _ _ _ _ Hvi Hturn) as (v & k & -> & Hrun & Hu & Hk & Hcap).
  destruct (proj1 (proj2 (proj2 (Hall v Hrun))) Hu) as (k' & Hk' & Hmain).
  rewrite Hk in Hk'. injection Hk' as <-. destruct k; try discriminate Hcap. exact Hmain.
Defined.

(** C14: READ (10), end to end: a READ that lies within the drive and whose wrapper asks for
    data from the device, over all the turns that it takes in the main loop (polls, turns
    of the handler, control requests and the host in any order): when its status wrapper
    is out, the wire has the blocks of the drive, in order, 0xFF up to the length that
    the host asked for, and the status Passed with what was missing as residue; the drive
    is unchanged. A host that asks for less than the blocks never gets a status. *)
Theorem flash_read_served `{!UsbStack, !UsbStackLaws, !TryFromPrimitive} 
    (vi vb v0 v : Drive) (lba l : Z) :
  command_begins full (Scsi.parse_cb false) process_command vi vb v0 ->
  rtc (loop_step (Scsi.parse_cb false) process_command) v0 v ->
  Scsi.parse_cb false (command_bytes (transport v0)) = Returns (Read lba l) ->
  lba + l <= BLOCKS ->
  direction (Bbb.cbw (transport v0)) = DataIn ->
  Bbb.state (transport v) = StatusTransfer -> contents (buf (transport v)) = [] ->
  let c := Bbb.cbw (transport v0) in
  let missing := data_transfer_len c - BLOCK_SIZE * l in
  STORAGE v = STORAGE vb /\ 0 <= missing /\
  in_log (bus (transport v)) = in_log (bus (transport vb)) ++
    zslice (BLOCK_SIZE * lba) (BLOCK_SIZE * (lba + l)) (STORAGE vb) ++
    zreplicate missing FILL_BYTE ++ csw_bytes c (mkStatusAndResidue Passed missing).
Proof.
  intros Hbegins Hloop Hk Hfits Hdir Hp Hq c missing.
  destruct (command_begins_start _ _ _ _ flash_drive_safe _ _ _ Hbegins) as (d & Hs).
  destruct (flash_read_ended d vb v0 v lba l Hs Hloop (fun _ => Hfits) (conj Hp Hq) Hk) as (Hlen & Hm & _ & del & [Hin _ Hw _]).
  unfold within in Hw. rewrite wanted_in in Hw by done.
  split; [done|]. split; [subst missing; fold c in Hw; lia|].
  rewrite Hin. unfold payload. fold c in Hdir |- *. rewrite Hdir, <- app_assoc, Hlen.
  unfold saturating_sub. by rewrite (Z.max_r 0) by (subst c; lia).
Qed.

(** A bus reset, or a Bulk-Only reset, in the middle of a READ. *)
Definition offset_after (calls : list stack_call) (default : bool) : option Z :=
  match do_events (Scsi.parse_cb false) process_command [ECommand; EUsb] (first_command (drive blank read_before)) with
  | Some v => match main_round calls true default v with Returns (_, v') => Some (storage_offset (STATE v')) | _ => None end
  | None => None
  end.
Definition bulk_only_reset : stack_call := StackControlIn (mkRequest true true CLASS_SPECIFIC_BULK_ONLY_MASS_STORAGE_RESET).

(** The round that finds the stack in its default state clears the offset. A round that does
    not leaves it over for the next READ: after a Bulk-Only reset, which does not put the
    stack in that state, nothing clears it. *)
Lemma flash_reset_offsets :
  (offset_after [StackReset] true, offset_after [StackReset] false, offset_after [bulk_only_reset] false) =
  (Some 0, Some 512, Some 512).
Proof. by vm_compute. Qed.

Local Abbreviation read_run :=
  (do_events (Scsi.parse_cb false) process_command ([ECommand; EUsb; ECommand] ++ replicate 6 EUsb)
     (first_command (drive blank read_before))).

(** Block 1 of a blank drive. *)
Lemma flash_read_served_witness :
  match read_run with
  | Some v => exists m, 0 <= m /\ in_log (bus (transport v)) = in_log (bus read_before) ++
      zslice (BLOCK_SIZE * 1) (BLOCK_SIZE * (1 + 1)) (STORAGE (drive blank read_before)) ++
      zreplicate m FILL_BYTE ++
      csw_bytes (Bbb.cbw (transport (first_command (drive blank read_before)))) (mkStatusAndResidue Passed m)
  | None => False
  end.
Proof.
  assert (ended read_run = true) as Hend by (by vm_compute).
  destruct (ended_spec _ _ _ _ Hend) as (v & -> & Hloop & Hp & Hq).
  assert (command_begins full (Scsi.parse_cb false) process_command (drive blank read_before)
    (drive blank read_before) (first_command (drive blank read_before))) as Hb
    by (apply first_command_begins; [exact flash_read_before_reachable|by vm_compute..]).
  assert (Scsi.parse_cb false (command_bytes (transport (first_command (drive blank read_before)))) =
    Returns (Read 1 1)) as Hk by (by vm_compute).
  assert (direction (Bbb.cbw (transport (first_command (drive blank read_before)))) = DataIn) as Hdir by (by vm_compute).
  assert (1 + 1 <= BLOCKS) as Hfits by (by vm_compute).
  destruct (flash_read_served _ _ _ v 1 1 Hb Hloop Hk Hfits Hdir Hp Hq) as (_ & Hm & Hin).
  eexists. exact (conj Hm Hin).
Defined.

(** C15: WRITE (10), end to end: a WRITE that lies within the drive and whose wrapper
    announces data from the host, over all the turns that it takes in the main loop: when
    its status wrapper is out, the drive holds in those blocks the first bytes that the
    host sent after the wrapper, in order, and is unchanged elsewhere; nothing but the
    status wrapper is on the wire, Passed with what the host announced beyond the blocks
    as residue. *)
Theorem flash_write_served `{!UsbStack, !UsbStackLaws, !TryFromPrimitive} 
    (vi vb v0 v : Drive) (lba l : Z) :
  command_begins full (Scsi.parse_cb false) process_command vi vb v0 ->
  rtc (loop_step (Scsi.parse_cb false) process_command) v0 v ->
  Scsi.parse_cb false (command_bytes (transport v0)) = Returns (Write lba l) ->
  lba + l <= BLOCKS ->
  direction (Bbb.cbw (transport v0)) = DataOut ->
  Bbb.state (transport v) = StatusTransfer -> contents (buf (transport v)) = [] ->
  let c := Bbb.cbw (transport v0) in
  exists p data rest,
    CBW_LEN <= len (pending (transport vb) ++ p) /\ decode_cbw (ztake CBW_LEN (pending (transport vb) ++ p)) = Some c /\
    out_log (bus (transport v)) = out_log (bus (transport vb)) ++ p ++ data ++ rest /\
    len data = BLOCK_SIZE * l /\
    STORAGE v = splice (STORAGE vb) (BLOCK_SIZE * lba) data /\
    in_log (bus (transport v)) = in_log (bus (transport vb)) ++
      csw_bytes c (mkStatusAndResidue Passed (saturating_sub (data_transfer_len c) (BLOCK_SIZE * l))).
Proof.
  intros Hbegins Hloop Hk Hfits Hdir Hp Hq c.
  destruct (command_begins_start _ _ _ _ flash_drive_safe _ _ _ Hbegins) as (d & Hs).
  destruct (flash_write_ended d vb v0 v lba l Hs Hloop (fun _ => Hfits) (conj Hp Hq) Hk)
    as (_ & data & Hlen & Hst & [Hin (p & rest & Hout & Hp1 & Hdec & _) _ _]).
  exists p, data, rest. do 5 (split; [done|]). rewrite Hin. unfold payload, c. by rewrite Hdir.
Qed.

Local Abbreviation write_run :=
  (do_events (Scsi.parse_cb false) process_command ([ECommand; EUsb; EHost (zreplicate 512 (byte_of 0xAA)); EUsb; ECommand] ++
     [EUsb; EUsb; ECommand; EUsb; EUsb; EUsb; EUsb; ECommand])
     (first_command (drive blank write_before))).

Lemma flash_write_served_witness :
  match write_run with
  | Some v => exists data, len data = BLOCK_SIZE * 1 /\
      STORAGE v = splice (STORAGE (drive blank write_before)) (BLOCK_SIZE * 1) data
  | None => False
  end.
Proof.
  assert (ended write_run = true) as Hend by (by vm_compute).
  destruct (ended_spec _ _ _ _ Hend) as (v & -> & Hloop & Hp & Hq).
  assert (command_begins full (Scsi.parse_cb false) process_command (drive blank write_before)
    (drive blank write_before) (first_command (drive blank write_before))) as Hb
    by (apply first_command_begins; [exact flash_write_before_reachable|by vm_compute..]).
  assert (Scsi.parse_cb false (command_bytes (transport (first_command (drive blank write_before)))) =
    Returns (Write 1 1)) as Hk by (by vm_compute).
  assert (direction (Bbb.cbw (transport (first_command (drive blank write_before)))) = DataOut) as Hdir by (by vm_compute).
  assert (1 + 1 <= BLOCKS) as Hfits by (by vm_compute).
  destruct (flash_write_served _ _ _ v 1 1 Hb Hloop Hk Hfits Hdir Hp Hq)
    as (p & data & rest & _ & _ & _ & Hlen & Hst & _).
  exists data. exact (conj Hlen Hst).
Defined.

(** C17: READ (10) completes: a READ that lies within the drive and whose wrapper asks for at
    least its blocks, driven by the main loop (polls, turns of the handler, control requests
    and the host in any order). In a round the stack polls the class and the loop polls the
    command, and the host takes a packet when there is one for it. Not more rounds pass than
    there are bytes to move, and until the status wrapper is out another one runs: it ends,
    without a panic. *)
Theorem flash_read_completes `{!UsbStack, !UsbStackLaws, !TryFromPrimitive}
    (vi vb v0 v : Drive) (lba l : Z) (n : nat) :
  command_begins full (Scsi.parse_cb false) process_command vi vb v0 ->
  driven (Scsi.parse_cb false) process_command n v0 v ->
  Scsi.parse_cb false (command_bytes (transport v0)) = Returns (Read lba l) ->
  lba + l <= BLOCKS ->
  direction (Bbb.cbw (transport v0)) = DataIn ->
  BLOCK_SIZE * l <= data_transfer_len (Bbb.cbw (transport v0)) ->
  Z.of_nat n <= BLOCK_SIZE * l + data_transfer_len (Bbb.cbw (transport v0)) + CSW_LEN + 1 /\
  (out (transport v) \/ goes_on (Scsi.parse_cb false) process_command v).
Proof.
  intros Hbegins Hdriven Hk Hfits Hdir Htot.
  destruct (command_begins_start _ _ _ _ flash_drive_safe _ _ _ Hbegins) as (d & Hs).
  pose proof Hs as [_ Hbt [_ [Hph _]] Hd Hg Hg0 Hsto _].
  pose proof (scsi_decoded_range false d _ _ Hg0 Hph Hk) as Hir. cbn in Hir.
  apply (in_completes full _ _ d vb v0 n v Hs Hdriven
    (read_progress (STORAGE vb) (BLOCK_SIZE * lba) (BLOCK_SIZE * l)) _ _ Hk) with (fine := fun _ => True); [..|done|done|done| |].
  - split; [unfold BLOCK_SIZE; lia|]. split; [done|]. by rewrite zslice_empty by lia.
  - unfold BLOCK_SIZE in *. lia.
  - by apply (flash_read_turn_keeps d); done || lia.
  - intros o acc del m (Ho & _ & ->) _. unfold full, BLOCK_SIZE, BLOCKS in *. split; [len_lia|lia].
Qed.

(** Six rounds of the READ of block 1. *)
Local Abbreviation read_rounds :=
  (do_lives (Scsi.parse_cb false) process_command (replicate 6 LRound)
     (first_command (drive blank read_before))).

Lemma flash_read_completes_witness :
  match read_rounds with
  | Some v => out (transport v) \/ goes_on (Scsi.parse_cb false) process_command v
  | None => False
  end.
Proof.
  assert (is_run read_rounds = true) as Hrun by (by vm_compute).
  destruct (do_lives_spec _ _ _ _ Hrun) as (v & -> & Hdriven).
  assert (command_begins full (Scsi.parse_cb false) process_command (drive blank read_before)
    (drive blank read_before) (first_command (drive blank read_before))) as Hb
    by (apply first_command_begins; [exact flash_read_before_reachable|by vm_compute..]).
  assert (Scsi.parse_cb false (command_bytes (transport (first_command (drive blank read_before)))) =
    Returns (Read 1 1)) as Hk by (by vm_compute).
  assert (direction (Bbb.cbw (transport (first_command (drive blank read_before)))) = DataIn) as Hdir by (by vm_compute).
  assert (BLOCK_SIZE * 1 <= data_transfer_len (Bbb.cbw (transport (first_command (drive blank read_before))))) as Htot
    by (by vm_compute).
  assert (1 + 1 <= BLOCKS) as Hfits by (by vm_compute).
  exact (proj2 (flash_read_completes _ _ _ v 1 1 _ Hb Hdriven Hk Hfits Hdir Htot)).
Defined.

(** C18: WRITE (10) completes: a WRITE that lies within the drive and whose wrapper announces
    at least its blocks, driven by the main loop with a host that sends a packet when there
    is room for one. *)
Theorem flash_write_completes `{!UsbStack, !UsbStackLaws, !TryFromPrimitive}
    (vi vb v0 v : Drive) (lba l : Z) (n : nat) :
  command_begins full (Scsi.parse_cb false) process_command vi vb v0 ->
  driven (Scsi.parse_cb false) process_command n v0 v ->
  Scsi.parse_cb false (command_bytes (transport v0)) = Returns (Write lba l) ->
  lba + l <= BLOCKS ->
  direction (Bbb.cbw (transport v0)) = DataOut ->
  BLOCK_SIZE * l <= data_transfer_len (Bbb.cbw (transport v0)) ->
  Z.of_nat n <= BLOCK_SIZE * l + data_transfer_len (Bbb.cbw (transport v0)) + CSW_LEN + 1 /\
  (out (transport v) \/ goes_on (Scsi.parse_cb false) process_command v).
Proof.
  intros Hbegins Hdriven Hk Hfits Hdir Htot.
  destruct (command_begins_start _ _ _ _ flash_drive_safe _ _ _ Hbegins) as (d & Hs).
  pose proof Hs as [_ Hbt [_ [Hph _]] Hd Hg Hg0 Hsto _].
  pose proof (scsi_decoded_range false d _ _ Hg0 Hph Hk) as Hir. cbn in Hir.
  apply (out_completes full _ _ d vb v0 n v Hs Hdriven
    (write_progress (STORAGE vb) (BLOCK_SIZE * lba) (BLOCK_SIZE * l)) _ _ Hk) with (fine := fun _ => True);
    [..|done|done|done| | |].
  - split; [unfold BLOCK_SIZE; lia|]. split; [done|]. rewrite splice_nil; [done|unfold BLOCK_SIZE; lia].
  - unfold BLOCK_SIZE in *. lia.
  - by apply (flash_write_turn_keeps d); done || lia.
  - by intros o acc del m (_ & Hdel & _).
  - intros o acc del t m _ _ (Ho & _) _. apply Ho.
Qed.

Local Abbreviation write_rounds :=
  (do_lives (Scsi.parse_cb false) process_command (LHost (zreplicate 512 (byte_of 0xAA)) :: replicate 4 LRound)
     (first_command (drive blank write_before))).

Lemma flash_write_completes_witness :
  match write_rounds with
  | Some v => out (transport v) \/ goes_on (Scsi.parse_cb false) process_command v
  | None => False
  end.
Proof.
  assert (is_run write_rounds = true) as Hrun by (by vm_compute).
  destruct (do_lives_spec _ _ _ _ Hrun) as (v & -> & Hdriven).
  assert (command_begins full (Scsi.parse_cb false) process_command (drive blank write_before)
    (drive blank write_before) (first_command (drive blank write_before))) as Hb
    by (apply first_command_begins; [exact flash_write_before_reachable|by vm_compute..]).
  assert (Scsi.parse_cb false (command_bytes (transport (first_command (drive blank write_before)))) =
    Returns (Write 1 1)) as Hk by (by vm_compute).
  assert (direction (Bbb.cbw (transport (first_command (drive blank write_before)))) = DataOut) as Hdir by (by vm_compute).
  assert (BLOCK_SIZE * 1 <= data_transfer_len (Bbb.cbw (transport (first_command (drive blank write_before))))) as Htot
    by (by vm_compute).
  assert (1 + 1 <= BLOCKS) as Hfits by (by vm_compute).
  exact (proj2 (flash_write_completes _ _ _ v 1 1 _ Hb Hdriven Hk Hfits Hdir Htot)).
Defined.

Lemma flash_process_reply `{!UsbStack} k r l (v : Drive) :
  scsi_reply inquiry_data BLOCKS BLOCK_SIZE k = Some r ->
  process_command (mkCommand k l) v = run_reply r v.
Proof.
  destruct k; cbn [scsi_reply process_command kind];
    try (destruct (_ BLOCKS BLOCK_SIZE) as [data| |] eqn:Hdata); intros [= <-]; try done;
    unfold bind, lift, gets_o; by rewrite ?Hdata.
Qed.

(** C21: The commands that the drive answers at once (all but READ, WRITE and READ CAPACITY
    (16)), end to end: after a bounded number of rounds of the main loop the answer is on the
    wire, filled to the length that the host asked for, with the status (Failed for a command
    that is not known) and what was missing as residue; the drive is unchanged, and the sense
    data is kept, reported once or set. But when the host asks for less than the whole answer,
    or for none, nothing is sent and the command never gets a status. *)
Theorem flash_replies `{!UsbStack, !UsbStackLaws, !TryFromPrimitive}
    (vi vb v0 v : Drive) (k : ScsiCommand) (r : reply) (n : nat) :
  command_begins full (Scsi.parse_cb false) process_command vi vb v0 ->
  driven (Scsi.parse_cb false) process_command n v0 v ->
  Scsi.parse_cb false (command_bytes (transport v0)) = Returns k ->
  scsi_reply inquiry_data BLOCKS BLOCK_SIZE k = Some r ->
  replied (Scsi.parse_cb false) process_command r vb v0 n v.
Proof.
  intros Hbegins Hdriven Hk Hreply.
  destruct (command_begins_start _ _ _ _ flash_drive_safe _ _ _ Hbegins) as (d & Hs).
  apply (reply_served full _ _ d r k vb v0 Hs Hk); [|done]. intros l v1. by apply flash_process_reply.
Qed.

(** INQUIRY of [n] bytes. *)
Definition inquiry_before (n : Z) : MockBbb :=
  at_ (history 64 (splice (cbw n HostIn) 14 (map byte_of [6; 0x12; 0; 0; 0; n; 0])) []).
Lemma flash_inquiry_before_reachable : reachable (inquiry_before 40).
Proof. apply at_reachable; [lia|by vm_compute]. Qed.
Local Abbreviation inquiry_rounds :=
  (do_lives (Scsi.parse_cb false) process_command (replicate 2 LRound)
     (first_command (drive blank (inquiry_before 40)))).

(** Forty bytes are asked for: the answer of 36 and four of filler. *)
Lemma flash_replies_witness :
  match inquiry_rounds with
  | Some v => in_log (bus (transport v)) = in_log (bus (inquiry_before 40)) ++
      inquiry_data ++ zreplicate 4 FILL_BYTE ++
      csw_bytes (Bbb.cbw (transport (first_command (drive blank (inquiry_before 40))))) (mkStatusAndResidue Passed 4)
  | None => False
  end.
Proof.
  assert (is_run_to (fun v => ended (Some v)) inquiry_rounds = true) as Hrun by (by vm_compute).
  destruct (do_lives_to _ _ _ _ _ Hrun) as (v & -> & Hdriven & Hend).
  assert (command_begins full (Scsi.parse_cb false) process_command (drive blank (inquiry_before 40))
    (drive blank (inquiry_before 40)) (first_command (drive blank (inquiry_before 40)))) as Hb
    by (apply first_command_begins; [exact flash_inquiry_before_reachable|by vm_compute..]).
  assert (exists evpd page len, Scsi.parse_cb false
    (command_bytes (transport (first_command (drive blank (inquiry_before 40))))) =
    Returns (Inquiry evpd page len)) as (evpd & page & len & Hk) by (eexists _, _, _; by vm_compute).
  pose proof (flash_replies _ _ _ v _ (RAnswer inquiry_data) _ Hb Hdriven Hk eq_refl) as Hr.
  apply andb_prop in Hend as [Hp%bool_decide_eq_true Hq%bool_decide_eq_true].
  exact (proj1 (proj2 (proj2 Hr) (conj Hp Hq))).
Defined.

(** Five bytes are asked for: they are not sent, and no status comes. *)
Lemma flash_short_inquiry_hangs :
  match do_lives (Scsi.parse_cb false) process_command (replicate 9 LRound)
    (first_command (drive blank (inquiry_before 5))) with
  | Some v => in_log (bus (transport v)) = in_log (bus (inquiry_before 5)) /\ cs (transport v) = None
  | None => False
  end.
Proof. by vm_compute. Qed.
