(* ===== verification/Stm32ScsiDisk.v ===== *)
(** * The STM32 flash drive is a disk

    Every session of a host with the drive is a run of the disk [scsi_disk] of its blocks, on
    the commands and the data that the host has sent; a command that is not served (READ
    CAPACITY (16), and READ or WRITE beyond the blocks) does not come to an end. So what is
    written is read back. *)
From stdpp Require Import relations.
From S2P Require Import Prelude.
From S2P Require Import Usb.
From S2P Require Import Buffer.
From S2P Require Import Transport.
From S2P Require Import Bbb.
From S2P Require Import BotSpec.
From S2P Require Import BbbRefine.
From S2P Require Import BbbMethods.
From S2P Require Import BbbReach.
From S2P Require Import MockBus.
From S2P Require Import BbbSafe.
From S2P Require Import BotStream.
From S2P Require Import Transfer.
From S2P Require Import Subclass.
From S2P Require Import Scsi.
From S2P Require Import ScsiSpec.
From S2P Require Import Firmware.
From S2P Require Import FirmwareSpec.
From S2P Require Import FirmwareRun.
From S2P Require Import FirmwareLive.
From S2P Require Import FirmwareReply.
From S2P Require Import Disk.
From S2P Require Import FirmwareSession.
From S2P Require Import Stm32Scsi.
From S2P Require Import Stm32ScsiSpec.

Local Open Scope Z_scope.
Local Open Scope rust_scope.

Local Abbreviation flash_disk := (scsi_disk inquiry_data BLOCKS BLOCK_SIZE).

Section Disk.
Context `{!UsbStack, !UsbStackLaws, !TryFromPrimitive}.
Implicit Types v : Drive.

Section Serves.
Context (d : device) (vb v0 v : Drive).
Hypothesis Hstart : command_start full d vb v0.
Hypothesis Hloop : rtc (loop_step (Scsi.parse_cb false) process_command) v0 v.
Hypothesis Hout : out (transport v).
Local Abbreviation c := (Bbb.cbw (transport v0)).
Local Abbreviation carried := (carried_out (Scsi.parse_cb false) d id flash_disk vb c v).

(** A command on which the handler panics at once has no end. *)
Lemma flash_panics_last k :
  Scsi.parse_cb false (command_bytes (transport v0)) = Returns k ->
  panics_on (STATE v0) k = true -> False.
Proof.
  intros Hk Hp. pose proof Hstart as [Hr Hbt (_ & Hph & Ho) Hd Hg Hg0 Hfull Hm Hst].
  refine (panic_lasts full _ process_command d Hd vb v0 v Hstart _ Hloop Hout).
  intros k' l v1 Hk' Hg1 Hu1 Hc1 Hst1 Hm1. assert (k' = k) as -> by congruence.
  pose proof (flash_process_command_run d k l v1) as Hrun. rewrite Hst1, Hp in Hrun. apply Hrun.
  - by apply in_turn_refl.
  - split; [rewrite Hst1, Ho; by vm_compute|by rewrite Hm1, Hm].
  - exact (scsi_decoded_range false d _ _ Hg0 Hph Hk).
  - by intros _.
Qed.

Lemma flash_beyond lba l :
  0 <= l -> has_blocks BLOCKS lba l = false ->
  negb (storage_offset (STATE v0) =? l * BLOCK_SIZE) &&
    negb (in_memory BLOCK_SIZE (BLOCKS * BLOCK_SIZE) lba l (storage_offset (STATE v0))) = true.
Proof.
  destruct (start_begins _ _ _ _ Hstart) as (_ & _ & ->).
  unfold has_blocks, in_memory, BLOCKS, BLOCK_SIZE. lia.
Qed.

Lemma flash_serves : carried.
Proof.
  pose proof Hstart as [Hr Hbt (_ & Hph & Ho) Hd Hg Hg0 Hfull Hm Hst].
  destruct (Scsi.parse_cb false (command_bytes (transport v0))) as [k| |] eqn:Hk.
  2-3: exfalso; refine (panic_lasts full _ process_command d Hd vb v0 v Hstart _ Hloop Hout); congruence.
  pose proof (scsi_decoded_range false d _ _ Hg0 Hph Hk) as Hir.
  destruct (scsi_reply inquiry_data BLOCKS BLOCK_SIZE k) as [r|] eqn:Hreply.
  { apply (reply_carried full _ process_command d id flash_disk r k vb v0 v Hstart Hloop Hout Hk).
    - intros. by apply flash_process_reply.
    - intros data st disk. unfold scsi_disk. rewrite Hreply. by destruct k. }
  destruct k as [| | | | | | | |lba l|lba l|]; try discriminate Hreply; cbn in Hir.
  - destruct (flash_panics_last _ Hk eq_refl).
  - destruct (has_blocks BLOCKS lba l) eqn:Hb.
    2:{ destruct (flash_panics_last _ Hk). apply flash_beyond; [lia|done]. }
    destruct (flash_read_ended d vb v0 v lba l Hstart Hloop (has_blocks_spec _ _ _ Hb) Hout Hk)
      as (_ & Hsto & Hst' & del & Hend).
    eapply (ended_carried _ d id flash_disk); [exact Hend|exact Hk|].
    cbn [scsi_disk]. by rewrite Hb, Hst', Hsto.
  - destruct (has_blocks BLOCKS lba l) eqn:Hb.
    2:{ destruct (flash_panics_last _ Hk). apply flash_beyond; [lia|done]. }
    destruct (flash_write_ended d vb v0 v lba l Hstart Hloop (has_blocks_spec _ _ _ Hb) Hout Hk)
      as (Hst' & data & Hlen & Hsto & Hend).
    eapply (ended_carried _ d id flash_disk); [exact Hend|exact Hk|].
    cbn [scsi_disk]. by rewrite Hb, Hlen, Z.eqb_refl, Hst', Hsto.
Qed.
End Serves.

Lemma flash_session vi vb cs v :
  powered_on full vi -> rtc (run_step (Scsi.parse_cb false) process_command) vi vb ->
  between (transport vb) -> session (Scsi.parse_cb false) process_command vb cs v ->
  disk_session (Scsi.parse_cb false) id flash_disk vb cs v.
Proof.
  intros Hvi Hrun Hbt Hses.
  destruct (run_ready full _ moves_data _ vi vb flash_drive_safe Hvi Hrun Hbt) as (d & Hd & Hready).
  refine (session_refines full _ moves_data process_command flash_drive_safe d Hd id flash_disk (fun _ => True)
    _ vb cs v Hready Hses _); [|by apply Forall_forall].
  intros vb' v0 v' Hstart _ Hloop Hout. by eapply flash_serves.
Qed.
End Disk.

(** ** Theorems *)

(** C1: The flash drive is a disk: [main] comes to its loop; whatever happens from there
    (polls, rounds of the main loop, control requests, bus resets and the host in any order),
    from any moment between two commands every session of a host with the drive, of any
    commands and over all the turns that they take, is a run of the disk [scsi_disk] of its
    200 blocks, on the wrappers and data that are in the byte stream of the host: the host
    has received exactly the answers of the disk, in order, the memory holds the contents of
    the disk and [STATE] its sense data. READ CAPACITY (16), a READ or WRITE beyond the blocks and
    a command that asks for less than its answer are not served: no session gets to the end
    of one. *)
Theorem flash_drive_is_disk `{!UsbStack, !UsbStackLaws, !TryFromPrimitive}
    (USB_TRANSPORT_BUF FAT : list byte) (usb_bus : Bus) :
  len USB_TRANSPORT_BUF = 512 -> len FAT = 102400 -> bus_fresh usb_bus ->
  exists vi, boot USB_TRANSPORT_BUF FAT usb_bus = Returns vi /\
  forall vb v cs, rtc (run_step (Scsi.parse_cb false) process_command) vi vb -> between (transport vb) ->
  session (Scsi.parse_cb false) process_command vb cs v ->
  exists reqs sent l received, map fst reqs = cs /\ spoken reqs l /\
    out_log (bus (transport v)) = out_log (bus (transport vb)) ++ sent /\
    pending (transport vb) ++ sent = l ++ pending (transport v) /\
    in_log (bus (transport v)) = in_log (bus (transport vb)) ++ received /\
    run_disk (Scsi.parse_cb false) (scsi_disk inquiry_data BLOCKS BLOCK_SIZE) reqs (STATE vb) (STORAGE vb) =
      Some (STATE v, STORAGE v, received).
Proof.
  intros Hbuf HFAT Hb. pose proof (flash_boot_run _ _ _ Hbuf HFAT Hb) as Hboot.
  destruct (boot _ _ _) as [vi| |]; [|done..]. exists vi. split; [done|]. intros vb v cs Hrun Hbt Hses.
  by apply (flash_session vi vb cs v).
Qed.

(** INQUIRY, a WRITE of block 1 and a READ of the same block. *)
Definition session_requests : list (list byte * list byte) :=
  [(splice (cbw 36 HostIn) 14 (map byte_of [6; 0x12; 0; 0; 0; 36; 0]), []);
   (write_wrapper, zreplicate 512 (byte_of 0xAA)); (read_wrapper, [])].
Local Abbreviation booted := (boot (zreplicate 512 x00) blank (fresh_bus : @Bus MockStack)).
Local Abbreviation session_run :=
  (session_from (Scsi.parse_cb false) process_command booted 60 session_requests).
Lemma flash_drive_is_disk_witness :
  match session_run with
  | Some (vb, cs, v) => exists reqs received, map fst reqs = cs /\
      in_log (bus (transport v)) = in_log (bus (transport vb)) ++ received /\
      run_disk (Scsi.parse_cb false) (scsi_disk inquiry_data BLOCKS BLOCK_SIZE) reqs (STATE vb) (STORAGE vb) =
        Some (STATE v, STORAGE v, received)
  | None => False
  end.
Proof.
  destruct (flash_drive_is_disk (zreplicate 512 x00) blank (fresh_bus : @Bus MockStack)) as (vi & Hvi & Hall);
    [by vm_compute..|].
  assert (is_session_of (fun _ cs => len cs =? 3) session_run = true) as Hok by (by vm_compute).
  destruct (session_from_spec _ _ _ _ _ _ _ Hvi Hok) as (cs & v & -> & Hbt & Hses & _).
  destruct (Hall vi v cs (rtc_refl _ _) Hbt Hses) as (reqs & sent & l & received & Hmap & _ & _ & _ & Hin & Hdisk).
  exists reqs, received. exact (conj Hmap (conj Hin Hdisk)).
Defined.

(** C13: What is written is read back, through any number of turns, polls and packets: when a
    session consists of a WRITE and a READ of the same blocks, the host has received the
    status of the WRITE, and then the bytes that it sent with the WRITE, filled up to the
    length that it asked for, and the status of the READ. *)
Theorem flash_write_read_back `{!UsbStack, !UsbStackLaws, !TryFromPrimitive}
    (vi vb v : Drive) (cw cr : CommandBlockWrapper) (lba l : Z) :
  powered_on full vi -> rtc (run_step (Scsi.parse_cb false) process_command) vi vb ->
  between (transport vb) -> session (Scsi.parse_cb false) process_command vb [cw; cr] v ->
  Scsi.parse_cb false (ztake (block_len cw) (block cw)) = Returns (Write lba l) ->
  Scsi.parse_cb false (ztake (block_len cr) (block cr)) = Returns (Read lba l) ->
  exists sent w data rest more,
    out_log (bus (transport v)) = out_log (bus (transport vb)) ++ sent /\
    pending (transport vb) ++ sent = w ++ data ++ rest ++ more /\
    CBW_LEN <= len w /\ decode_cbw (ztake CBW_LEN w) = Some cw /\
    len data = BLOCK_SIZE * l /\ announced cw data rest /\
    in_log (bus (transport v)) = in_log (bus (transport vb)) ++
      payload cw [] ++ csw_bytes cw (mkStatusAndResidue Passed (saturating_sub (data_transfer_len cw) (len data))) ++
      payload cr data ++ csw_bytes cr (mkStatusAndResidue Passed (saturating_sub (data_transfer_len cr) (len data))).
Proof.
  intros Hvi Hrun Hbt Hses Hw Hr.
  destruct (flash_session vi vb _ v Hvi Hrun Hbt Hses)
    as (reqs & sent & l' & received & Hmap & Hsp & Hout & Hl & Hin & Hdisk).
  pose proof (proj2 (device_wf _ _ _ _ (run_inv _ _ _ _ flash_drive_safe _ _ Hvi Hrun))) as Hfull.
  destruct reqs as [|[c1 data] [|[c2 other] [|]]]; try discriminate Hmap. injection Hmap as -> ->.
  inversion Hsp as [|c data' w rest reqs more Hlen Hdec Han]; subst.
  assert (cbw_ok cw) as [_ _ _ _ ? ?] by (eapply decode_cbw_ok; [|exact Hdec]; unfold CBW_LEN in *; len_lia).
  destruct (scsi_parse_cb_run false (ztake (block_len cw) (block cw))) as (cmd & k & _ & _ & Hk & Hir & _); [len_lia|].
  assert (k = Write lba l) as -> by congruence. cbn in Hir.
  pose proof (scsi_disk_read_back inquiry_data BLOCKS BLOCK_SIZE (Scsi.parse_cb false) cw cr data other lba l
    (STATE vb) (STORAGE vb) Hw Hr ltac:(done) ltac:(lia) ltac:(lia) Hfull) as Hback.
  change (id (STORAGE vb)) with (STORAGE vb) in Hdisk.
  cbv beta in Hdisk. rewrite Hdisk in Hback. destruct Hback as (Hlen' & _ & _ & ->).
  exists sent, w, data, rest, (more ++ pending (transport v)).
  split; [done|]. split; [by rewrite Hl, <- !app_assoc|]. do 2 (split; [done|]).
  do 2 (split; [done|]). exact Hin.
Qed.

(** A WRITE and a READ of block 1. *)
Definition copies (cs : list CommandBlockWrapper) : bool :=
  match cs with
  | [cw; cr] =>
    match Scsi.parse_cb false (ztake (block_len cw) (block cw)), Scsi.parse_cb false (ztake (block_len cr) (block cr)) with
    | Returns (Write 1 1), Returns (Read 1 1) => true
    | _, _ => false
    end
  | _ => false
  end.
Lemma copies_spec cs :
  copies cs = true -> exists cw cr, cs = [cw; cr] /\
    Scsi.parse_cb false (ztake (block_len cw) (block cw)) = Returns (Write 1 1) /\
    Scsi.parse_cb false (ztake (block_len cr) (block cr)) = Returns (Read 1 1).
Proof.
  destruct cs as [|cw [|cr [|]]]; cbn [copies]; try done. intros Hc. exists cw, cr. split; [done|].
  repeat case_match; by try discriminate Hc.
Qed.

Local Abbreviation copy_run :=
  (session_from (Scsi.parse_cb false) process_command booted 60 (tail session_requests)).
Lemma flash_write_read_back_witness :
  match copy_run with
  | Some (vb, [cw; cr], v) => exists data, len data = BLOCK_SIZE * 1 /\
      in_log (bus (transport v)) = in_log (bus (transport vb)) ++
        payload cw [] ++ csw_bytes cw (mkStatusAndResidue Passed (saturating_sub (data_transfer_len cw) (len data))) ++
        payload cr data ++ csw_bytes cr (mkStatusAndResidue Passed (saturating_sub (data_transfer_len cr) (len data)))
  | _ => False
  end.
Proof.
  pose proof (flash_boot_run (zreplicate 512 x00) blank (fresh_bus : @Bus MockStack)
    ltac:(by vm_compute) ltac:(by vm_compute) ltac:(by vm_compute)) as (vi & Hvi & Hon)%owp_returns.
  assert (is_session_of (fun _ => copies) copy_run = true) as Hok by (by vm_compute).
  destruct (session_from_spec _ _ _ _ _ _ _ Hvi Hok) as (cs & v & -> & Hbt & Hses & Hcs).
  destruct (copies_spec cs Hcs) as (cw & cr & -> & Hw & Hr).
  destruct (flash_write_read_back vi vi v cw cr 1 1 Hon (rtc_refl _ _) Hbt Hses Hw Hr)
    as (sent & w & data & rest & more & _ & _ & _ & _ & Hlen & _ & Hin).
  exists data. exact (conj Hlen Hin).
Defined.
