(* ===== verification/Stm32Ufi.v ===== *)
(** * The STM32 floppy ([examples/stm32/src/bin/stm32f411x_ufi_bbb.rs])

    A read-only floppy over the UFI subclass. The first blocks come from an image that is
    built into the firmware ([FAT], the file [empty_fat12.img]: a parameter), the others
    read as 0xF6; writes are accepted and dropped. There is no memory behind the commands
    that changes. Overflow checks are on, as in cargo's default profile. *)
From S2P Require Import Prelude.
From S2P Require Import Usb.
From S2P Require Import Buffer.
From S2P Require Import Transport.
From S2P Require Import Bbb.
From S2P Require Import Ufi.
From S2P Require Import Subclass.
From S2P Require Import Firmware.

Local Open Scope Z_scope.
Local Open Scope rust_scope.

Definition BLOCK_SIZE : Z := 512.
Definition USB_PACKET_SIZE : Z := 64.
(** The first block that is not taken from the image. *)
Definition DUMP_MAX_LBA : Z := 0xCE.

Definition inquiry_data : list byte := map byte_of
  [0x00; 0x80; 0; 0x01; 0x1F; 0; 0; 0; 70; 111; 111; 32; 66; 97; 114;
   48; 70; 111; 111; 32; 66; 97; 114; 48; 70; 111; 111; 32; 66;
   97; 114; 48; 49; 46; 50; 51].
Definition capacity_data : list byte := map byte_of [0x00; 0x00; 0x0b; 0x3f; 0x00; 0x00; 0x02; 0x00].
Definition mode_sense_data : list byte :=
  map byte_of [0x00; 0x46; 0x02; 0x80; 0x00; 0x00; 0x00; 0x00].

Abbreviation Floppy := (Device (Ufi BulkOnly) unit).

Section Floppy.
Context `{!UsbStack}.
Context (FAT : list byte).

(** One round of [loop { .. }] over the blocks beyond the image. *)
Definition fill_round : M Floppy (BResult bool) :=
  let? count := write_data (zreplicate BLOCK_SIZE (byte_of 0xF6)) in
  let! st := gets STATE in
  let! offset := lift (add32 (storage_offset st) count) in
  do! move_to offset st in
  ret (Ok (negb (count =? 0))).

Definition process_read (lba l : Z) : M Floppy (BResult unit) :=
  let! st := gets STATE in
  let! total := lift (mul32 l BLOCK_SIZE) in
  if negb (storage_offset st =? total) then
    if lba <? DUMP_MAX_LBA then
      let! (start, end_) := lift (storage_range BLOCK_SIZE lba l (storage_offset st)) in
      let! data := lift (slice FAT start end_) in
      let? count := write_data data in
      let! offset := lift (add32 (storage_offset st) count) in
      do! move_to offset st in
      ret (Ok tt)
    else
      let! fuel := gets buffer_fuel in
      loop fuel fill_round
  else finish.

Definition process_command : callback (C := Floppy) UfiCommand := fun command =>
  match kind command with
  | Inquiry _ => answer inquiry_data
  | StartStop _ _ | TestUnitReady | PreventAllowMediumRemoval _ => do! pass 0 in ret (Ok tt)
  | ReadCapacity => answer capacity_data
  | RequestSense _ => answer_sense 0x0A
  | ModeSense _ _ _ => answer mode_sense_data
  | Write _ _ _ => do! pass 0 in ret (Ok tt)
  | Read lba l => process_read lba l
  | _ => refuse
  end.

(** [main] up to its loop: the class on a fresh bus, with the global buffer. *)
Definition boot (USB_TRANSPORT_BUF : list byte) (usb_bus : Bus) : outcome Floppy :=
  power_on (Ufi.new USB_PACKET_SIZE USB_TRANSPORT_BUF usb_bus) tt.

(** A round of the loop of [main]. *)
Definition main_round (calls : list stack_call) (event default : bool) : M Floppy unit :=
  main_loop Ufi.parse_cb process_command calls event default.
End Floppy.
