(* ===== verification/Stm32UfiSpec.v ===== *)
(** * Specification of the STM32 floppy

    On which commands the handler panics; that the loop over the blocks beyond the image
    ends; what a READ puts on the wire over all the turns that it takes, and that it comes
    to its status. *)
From stdpp Require Import relations.
From S2P Require Import Prelude.
From S2P Require Import Usb.
From S2P Require Import Buffer.
From S2P Require Import Transport.
From S2P Require Import Bbb.
From S2P Require Import BotSpec.
From S2P Require Import BbbRefine.
From S2P Require Import BbbMethods.
From S2P Require Import BbbReach.
From S2P Require Import MockBus.
From S2P Require Import BbbSafe.
From S2P Require Import BotStream.
From S2P Require Import Transfer.
From S2P Require Import Ufi.
From S2P Require Import UfiSpec.
From S2P Require Import Subclass.
From S2P Require Import Firmware.
From S2P Require Import FirmwareSense.
From S2P Require Import FirmwareSpec.
From S2P Require Import FirmwareRun.
From S2P Require Import FirmwareLive.
From S2P Require Import FirmwareReply.
From S2P Require Import Stm32Ufi.

Local Open Scope Z_scope.
Local Open Scope rust_scope.

Section Floppy.
Context `{!UsbStack, !UsbStackLaws}.
Context (FAT : list byte).
(** The image is in the address space. *)
Hypothesis HFAT : len FAT < u32_modulus.
Implicit Types v : Floppy.

(** There is no memory to speak of. *)
Definition any (m : unit) : Prop := True.

Local Abbreviation in_image := (in_memory BLOCK_SIZE (len FAT)).

Lemma image_range_run lba l offset :
  0 <= lba -> 0 <= l -> 0 <= offset -> in_image lba l offset = true ->
  storage_range BLOCK_SIZE lba l offset =
    Returns (BLOCK_SIZE * lba + offset, BLOCK_SIZE * lba + BLOCK_SIZE * l).
Proof. intros. by apply (storage_range_run BLOCK_SIZE ltac:(done) (len FAT)). Qed.

(** ** The turns *)

Section Safe.
Context (d : device).
Hypothesis Hd : device_ok d.

(** A write in the IN data phase. *)
Lemma write_runs src v :
  good d (transport v) -> Bbb.state (transport v) = DataTransferToHost ->
  exists n v1, Subclass.write_data src v = Returns (Ok n, v1) /\
    kept d (transport v) (transport v1) /\ same_globals v v1 /\
    n = Z.min (len src) (room (transport v)) /\ room (transport v1) = room (transport v) - n.
Proof.
  intros Hg Hp.
  assert (wp (Subclass.write_data src) (fun r v1 => exists n, r = Ok n /\
    kept d (transport v) (transport v1) /\ same_globals v v1 /\
    n = Z.min (len src) (room (transport v)) /\ room (transport v1) = room (transport v) - n) v)
    as (r & v1 & Hrun & n & -> & Hr)%wp_run; [|by exists n, v1].
  apply (wp_write_data d); [done|]. intros r v1 Hrun Hk Hs _.
  destruct (wp_returns _ _ _ _ _ (write_data_step d src _ Hg Hp) Hrun) as (_ & -> & _).
  destruct (write_room d _ _ _ _ Hg Hrun) as (_ & Hn & Hroom). eauto 6.
Qed.

Lemma fill_round_run v :
  good d (transport v) -> Bbb.state (transport v) = DataTransferToHost ->
  let n := Z.min BLOCK_SIZE (room (transport v)) in
  let offset := storage_offset (STATE v) in
  if u32_modulus <=? offset + n then fill_round v = Panics
  else exists v1, fill_round v = Returns (Ok (negb (n =? 0)), v1) /\
    kept d (transport v) (transport v1) /\ storage_offset (STATE v1) = offset + n /\
    room (transport v1) = room (transport v) - n.
Proof.
  intros Hg Hp n offset. destruct (write_runs (zreplicate BLOCK_SIZE (byte_of 0xF6)) v Hg Hp)
    as (n' & v1 & Hrun & Hk & Hs & Hn & Hroom).
  assert (n' = n) as -> by (rewrite Hn; subst n; unfold BLOCK_SIZE; len_lia).
  pose proof (same_STATE _ _ Hs) as Hst.
  unfold fill_round, bind_try, bind. rewrite Hrun. unfold gets, lift, gets_o, add32.
  rewrite Hst. fold offset. destruct (Z.leb_spec u32_modulus (offset + n)).
  - by replace (offset + n <? u32_modulus) with false by lia.
  - replace (offset + n <? u32_modulus) with true by lia. by eexists.
Qed.

(** The loop ends: it fills what the transport takes, or panics where the offset
    overflows. *)
Lemma fill_run fuel v0 v :
  in_turn d v0 v -> Bbb.state (transport v) = DataTransferToHost ->
  is_u32 (storage_offset (STATE v)) -> room (transport v) < Z.of_nat fuel ->
  if u32_modulus <=? storage_offset (STATE v) + room (transport v)
  then loop fuel fill_round v = Panics
  else wp (loop fuel fill_round) (fun _ v' => turn any true v0 v') v.
Proof.
  revert v. induction fuel as [|fuel IH]; intros v Hin Hp [Ho Ho'] Hf;
    pose proof (room_range d _ (in_turn_good _ _ _ Hin) Hp) as Hr; [lia|].
  pose proof (fill_round_run v (in_turn_good _ _ _ Hin) Hp) as Hround.
  set (n := Z.min BLOCK_SIZE (room (transport v))) in *. cbv zeta in Hround.
  assert (0 <= n <= room (transport v)) by (unfold n, BLOCK_SIZE; lia).
  unfold wp. cbn [loop]. unfold bind_try, bind.
  destruct (Z.leb_spec u32_modulus (storage_offset (STATE v) + n)).
  { rewrite Hround. by replace (_ <=? _) with true by lia. }
  destruct Hround as (v1 & -> & Hk & Ho1 & Hr1).
  pose proof (in_turn_kept d _ _ _ Hin Hk) as Hin1.
  assert (is_u32 (storage_offset (STATE v1))) as Hu1 by (rewrite Ho1; split; lia).
  destruct (Z.eqb_spec n 0) as [Hz|Hnz]; cbn [negb].
  - replace (room (transport v)) with 0 by (unfold n, BLOCK_SIZE in Hz; lia).
    replace (_ <=? _) with false by lia. by apply (turn_within d).
  - specialize (IH v1 Hin1). rewrite Ho1, Hr1 in IH.
    replace (storage_offset (STATE v) + n + (room (transport v) - n)) with
      (storage_offset (STATE v) + room (transport v)) in IH by lia.
    rewrite Ho1 in Hu1. apply IH; [by rewrite (kept_state _ _ _ Hk)|done|lia].
Qed.

(** The commands on which the handler panics. *)
Definition panics_on (t : BulkOnly) (st : State) (k : UfiCommand) : bool :=
  match k with
  | Read lba l =>
    (u32_modulus <=? l * BLOCK_SIZE) ||
    negb (storage_offset st =? l * BLOCK_SIZE) &&
      if lba <? DUMP_MAX_LBA then negb (in_image lba l (storage_offset st))
      else bool_decide (Bbb.state t = DataTransferToHost) &&
           (u32_modulus <=? storage_offset st + room t)
  | _ => false
  end.

(** READ of blocks of the image. *)
Definition read_image (lba l : Z) (st : State) : M Floppy (BResult unit) :=
  let! (start, end_) := lift (storage_range BLOCK_SIZE lba l (storage_offset st)) in
  let! data := lift (slice FAT start end_) in
  let? count := Subclass.write_data data in
  let! offset := lift (add32 (storage_offset st) count) in
  do! move_to offset st in
  ret (Ok tt).

Lemma floppy_process_read_eq lba l v :
  l * BLOCK_SIZE < u32_modulus ->
  process_read FAT lba l v =
    (if storage_offset (STATE v) =? l * BLOCK_SIZE then finish
     else if lba <? DUMP_MAX_LBA then read_image lba l (STATE v)
     else loop (buffer_fuel v) fill_round) v.
Proof.
  intros Hl. unfold process_read. unfold bind at 1 2, gets at 1, lift at 1, gets_o at 1.
  rewrite total_run by done. destruct (_ =? _); [done|]. by destruct (lba <? _).
Qed.

Lemma floppy_process_read_run lba l v :
  in_turn d v v -> wf_device any v -> 0 <= lba -> 0 <= l ->
  if panics_on (transport v) (STATE v) (Read lba l) then process_read FAT lba l v = Panics
  else wp (process_read FAT lba l) (fun _ v' => turn any true v v') v.
Proof.
  intros Hin Hwf ??. pose proof Hwf as [[Ho Ho'] _]. cbn [panics_on].
  destruct (Z.leb_spec u32_modulus (l * BLOCK_SIZE)) as [Hbig|Hl]; cbn [orb].
  { unfold process_read, bind, gets, lift, gets_o, mul32.
    by replace (l * BLOCK_SIZE <? u32_modulus) with false by lia. }
  unfold wp. rewrite floppy_process_read_eq by done.
  destruct (Z.eqb_spec (storage_offset (STATE v)) (l * BLOCK_SIZE)); cbn [negb andb].
  { by apply (finish_turn d any true v v). }
  destruct (lba <? DUMP_MAX_LBA).
  - unfold read_image. destruct (in_image lba l (storage_offset (STATE v))) eqn:Him; cbn [negb].
    2:{ apply (range_panics _ _ _ _ FAT); [|done]. intros a b Hs.
        unfold bind, lift, gets_o. by rewrite Hs. }
    change (wp (read_image lba l (STATE v)) (fun (_ : BResult unit) v' => turn any true v v') v). unfold read_image.
    wp_steps. rewrite image_range_run by done. apply andb_prop in Him as [?%Z.leb_le ?%Z.leb_le].
    unfold BLOCK_SIZE in *. cbn [owp]. 
    wp_steps. apply (wp_write_data d); [apply Hin|]. intros r v' _ Hk Hsame Hn.
    pose proof (in_turn_kept d _ _ _ Hin Hk) as Hin'.
    destruct r as [n'|e]; wp_steps; [|by apply (turn_within d); [|eapply wf_same]].
    rewrite add32_run by (unfold BLOCK_SIZE in *; len_lia). cbn [owp].
    apply wp_bind. apply (move_to_turn d); [done..|]. unfold is_u32, BLOCK_SIZE in *. len_lia.
  - case_bool_decide as Hp; cbn [andb].
    + apply fill_run; [done..|]. pose proof (room_range d _ (in_turn_good _ _ _ Hin) Hp).
      unfold buffer_fuel. unfold capacity, len in *. lia.
    + unfold buffer_fuel. cbn [loop]. unfold fill_round, bind_try, bind, Subclass.write_data, on_transport, zoom.
      rewrite write_data_invalid by done. change (turn any true v (set_transport (transport v) v)).
      rewrite set_transport_same. by apply (turn_within d).
Qed.

Lemma floppy_process_command_run k l v :
  in_turn d v v -> wf_device any v -> in_range k ->
  (moves_data k = false -> storage_offset (STATE v) = 0) ->
  if panics_on (transport v) (STATE v) k then process_command FAT (mkCommand k l) v = Panics
  else wp (process_command FAT (mkCommand k l)) (fun _ v' => turn any (moves_data k) v v') v.
Proof.
  intros Hin Hwf Hr Hstart. destruct k; cbn [panics_on process_command kind moves_data];
    lazymatch goal with
    | |- wp refuse _ _ => by apply (refuse_turn d); [..|apply Hstart]
    | |- wp (answer _) _ _ => by apply (answer_turn d); [..|apply Hstart]
    | |- wp (answer_sense _) _ _ => by apply (answer_sense_turn d); [..|apply Hstart]
    | |- wp (bind (Subclass.pass _) _) _ _ => by apply (pass_turn d); [..|apply Hstart]
    | |- _ => by apply floppy_process_read_run; [done..|apply Hr|apply Hr]
    end.
Qed.
End Safe.

(** ** READ over all its turns *)

(** What the floppy holds in the blocks from [lba]. *)
Definition blocks (lba n : Z) : list byte :=
  if lba <? DUMP_MAX_LBA then zslice (BLOCK_SIZE * lba) (BLOCK_SIZE * lba + n) FAT
  else zreplicate n (byte_of 0xF6).

(** After [o] bytes of a READ. Beyond the image more may be queued than the blocks hold,
    when the host asks for more. *)
Definition read_progress (lba total o : Z) (acc del : list byte) (m : unit) : Prop :=
  0 <= o /\ (lba < DUMP_MAX_LBA -> o <= total) /\ acc = blocks lba o.

Section Served.
Context (d : device) (t0 : BulkOnly).
Hypothesis Hd : device_ok d.
Hypothesis Ht0 : good d t0.
Hypothesis Hbt : between t0.
Context (lba l : Z) (c : CommandBlockWrapper).
Hypothesis Hlba : 0 <= lba.
Hypothesis Hl : 0 <= l.
Hypothesis H32 : l * BLOCK_SIZE < u32_modulus.
Hypothesis Hfits : lba < DUMP_MAX_LBA -> 0 < l -> BLOCK_SIZE * (lba + l) <= len FAT.

Local Abbreviation total := (BLOCK_SIZE * l).
Local Abbreviation doing_read := (doing_turn t0 c (read_progress lba total) total write_stuck).

Lemma read_image_keeps v acc del :
  lba < DUMP_MAX_LBA -> serving t0 c v v acc del ->
  read_progress lba total (storage_offset (STATE v)) acc del tt -> storage_offset (STATE v) <> total ->
  wp (read_image lba l (STATE v)) (fun _ v' => doing_read v v') v.
Proof.
  intros Him Hv (Ho & Hle & Hacc) Hne. specialize (Hle Him).
  specialize (Hfits Him ltac:(unfold BLOCK_SIZE in *; lia)). unfold read_image.
  wp_steps. rewrite image_range_run by (unfold in_memory; lia). cbn [owp].
  unfold BLOCK_SIZE in *. wp_steps.
  eapply (serving_write d); [done..|]. intros r v' Hv' [Hst _] _ Hn Hgain.
  apply gained_advances with (total := 512 * l) in Hgain; [|done|len_lia]. destruct r as [k|e]; wp_steps.
  - rewrite add32_run by len_lia. cbn [owp]. apply wp_bind.
    eapply (move_to_doing d); [done..| |exact Hgain]. split; [lia|]. split; [len_lia|].
    rewrite Hacc. cbn [accepted]. unfold blocks, BLOCK_SIZE. replace (lba <? DUMP_MAX_LBA) with true by lia.
    rewrite <- (zslice_app (512 * lba) (512 * lba + storage_offset (STATE v))
      (512 * lba + (storage_offset (STATE v) + k))) by lia.
    f_equal. unfold zslice. rewrite ztake_ztake. f_equal. len_lia.
  - cbn [gained] in Hgain. rewrite Z.add_0_r in Hgain.
    eapply (serving_doing d); [done..| |by rewrite Hst]. rewrite Hst. cbn [accepted]. by rewrite app_nil_r.
Qed.

(** In the loop over the blocks beyond the image, in the turn that began in [v0]. *)
Definition filling v0 del v : Prop :=
  moved_on v0 v /\
  exists acc, serving t0 c v0 v acc del /\ read_progress lba total (storage_offset (STATE v)) acc del tt.

(** One round keeps the bytes right, and there is less room afterwards if it goes on. *)
Lemma fill_keeps v0 acc0 del :
  DUMP_MAX_LBA <= lba -> serving t0 c v0 v0 acc0 del ->
  read_progress lba total (storage_offset (STATE v0)) acc0 del tt ->
  storage_offset (STATE v0) <> total ->
  wp (loop (buffer_fuel v0) fill_round) (fun _ v' => doing_read v0 v') v0.
Proof.
  intros Him Hv0 Hacc0 Hne.
  apply (wp_loop (filling v0 del) (fun v => Z.max 0 (room (transport v))));
    [|lia|by split; [left|exists acc0]|].
  2:{ unfold buffer_fuel, room, capacity. pose proof (len_nonneg (contents (buf (transport v0)))).
      unfold len in *. lia. }
  intros v (Hmoved & acc & Hv & Ho & _ & Hacc). unfold fill_round. wp_steps.
  eapply (serving_write d); [done..|]. intros r v' Hv' [Hst _] Hrun Hn Hgain.
  apply (moved_advances total write_stuck v0 v) in Hgain; [|done|done|by vm_compute].
  assert (len (acc ++ accepted (zreplicate BLOCK_SIZE (byte_of 0xF6)) r) < u32_modulus) as Hacc'.
  { pose proof (transfer_within d t0 Hd Ht0 Hbt _ _ _ (serving_transfer _ _ _ _ _ _ Hv')) as Hw.
    pose proof (transfer_cbw_range d t0 Hd Ht0 Hbt _ _ _ (serving_transfer _ _ _ _ _ _ Hv')) as [_ Hlt].
    rewrite (serving_cbw _ _ _ _ _ _ Hv') in *. unfold within, wanted, u32_modulus in *. destruct (direction c); lia. }
  destruct r as [k|e]; wp_steps.
  2:{ cbn [accepted gained] in Hv', Hgain. rewrite app_nil_r in Hv'. rewrite Z.add_0_r in Hgain.
      eapply (serving_doing d); [done..| |by rewrite Hst]. rewrite Hst. split; [done|]. split; [lia|done]. }
  destruct (write_room d _ _ _ _ (serving_good d t0 Hd Ht0 Hbt _ _ _ _ _ Hv) Hrun) as (Hp & Hk & Hr).
  pose proof (room_range d _ (serving_good d t0 Hd Ht0 Hbt _ _ _ _ _ Hv) Hp) as Hroom.
  cbn [accepted gained] in Hv', Hacc', Hgain. unfold blocks in Hacc.
  replace (lba <? DUMP_MAX_LBA) with false in Hacc by lia.
  subst acc. rewrite Hst, add32_run by (unfold BLOCK_SIZE in *; len_lia). cbn [owp].
  unfold move_to. wp_steps. set (v1 := set_STATE _ v').
  assert (exists acc, serving t0 c v0 v1 acc del /\ read_progress lba total (storage_offset (STATE v1)) acc del tt) as HI1.
  { eexists. split; [by apply (serving_same _ _ _ v')|]. cbn. split; [lia|]. split; [lia|].
    unfold blocks. replace (lba <? DUMP_MAX_LBA) with false by lia.
    rewrite zreplicate_add by lia. f_equal.
    assert (k <= 512) by (unfold BLOCK_SIZE in *; len_lia).
    unfold zreplicate, ztake, BLOCK_SIZE. rewrite take_replicate. f_equal. lia. }
  destruct (Z.eqb_spec k 0) as [Hz|Hnz]; cbn [negb].
  { destruct HI1 as (acc1 & ? & ?). by eapply (serving_doing d). }
  split; [split; [|done]; by apply (moved_more v0 v v1 k); [..|lia]|]. change (transport v1) with (transport v'). lia.
Qed.

Lemma floppy_read_turn_keeps :
  turn_keeps (process_command FAT) t0 c (read_progress lba total) total write_stuck (Read lba l).
Proof.
  intros v acc del ln Hv HP. cbn [process_command kind]. unfold wp. rewrite floppy_process_read_eq by done.
  destruct (Z.eqb_spec (storage_offset (STATE v)) (l * BLOCK_SIZE)) as [Heq|Hne].
  { apply (finish_doing d t0 Hd Ht0 Hbt c (read_progress lba total) total write_stuck v v acc del Hv); [lia|split; unfold BLOCK_SIZE in *; lia|].
    destruct HP as (? & ? & ->). by replace total with (storage_offset (STATE v)) by lia. }
  destruct (MEMORY v). destruct (Z.ltb_spec lba DUMP_MAX_LBA).
  - by apply (read_image_keeps v acc del); [..|unfold BLOCK_SIZE in *; lia].
  - by apply (fill_keeps v acc del); [..|unfold BLOCK_SIZE in *; lia].
Qed.
End Served.

(** The turns of the handler keep the invariant. *)
Lemma floppy_process_command_safe v k :
  device_inv any Ufi.parse_cb moves_data v -> awaits_user (transport v) ->
  Ufi.parse_cb (command_bytes (transport v)) = Returns k ->
  let c := mkCommand k (Bbb.lun (Bbb.cbw (transport v))) in
  if panics_on (transport v) (STATE v) k then process_command FAT c v = Panics
  else wp (process_command FAT c) (fun _ v' => turn any (moves_data k) v v') v.
Proof.
  intros [Hr Hwf Hpl] Hu Hk c. pose proof Hr as (d & Hd & Hg)%reachable_good.
  apply (floppy_process_command_run d); [by apply in_turn_refl|done|..].
  - exact (ufi_decoded_range d _ _ Hg (proj1 Hu) Hk).
  - by eapply place_start.
Qed.
Lemma floppy_safe v k :
  device_inv any Ufi.parse_cb moves_data v -> awaits_user (transport v) ->
  Ufi.parse_cb (command_bytes (transport v)) = Returns k ->
  let c := mkCommand k (Bbb.lun (Bbb.cbw (transport v))) in
  process_command FAT c v = Panics \/
  wp (process_command FAT c) (fun _ v' => turn any (moves_data k) v v') v.
Proof.
  intros Hv Hu Hk c. pose proof (floppy_process_command_safe v k Hv Hu Hk) as Hrun. cbv zeta in Hrun.
  destruct (panics_on _ _ _); auto.
Qed.

(** ** The whole of a READ *)

Lemma floppy_read_sense lba l s : keeps_sense s (process_read (H := H) FAT lba l).
Proof. unfold process_read, fill_round. keep_sense. Qed.

Lemma len_blocks lba l :
  0 <= lba -> 0 <= l -> (lba < DUMP_MAX_LBA -> 0 < l -> BLOCK_SIZE * (lba + l) <= len FAT) ->
  len (blocks lba (BLOCK_SIZE * l)) = BLOCK_SIZE * l.
Proof.
  intros ?? Hfits. unfold blocks. destruct (Z.ltb_spec lba DUMP_MAX_LBA) as [Him|Him].
  - specialize (Hfits Him). destruct (decide (l = 0)) as [->|]; [by rewrite zslice_empty by lia|].
    unfold BLOCK_SIZE in *. len_lia.
  - unfold BLOCK_SIZE. len_lia.
Qed.

Lemma floppy_read_ended d vb v0 v lba l :
  command_start any d vb v0 ->
  rtc (loop_step Ufi.parse_cb (process_command FAT)) v0 v -> out (transport v) ->
  l * BLOCK_SIZE < u32_modulus ->
  (lba < DUMP_MAX_LBA -> 0 < l -> BLOCK_SIZE * (lba + l) <= len FAT) ->
  Ufi.parse_cb (command_bytes (transport v0)) = Returns (Read lba l) ->
  let c := Bbb.cbw (transport v0) in
  let data := blocks lba (BLOCK_SIZE * l) in
  len data = BLOCK_SIZE * l /\ STATE v = STATE vb /\
  exists del, command_ended d (transport vb) c v data del
    (mkStatusAndResidue Passed (saturating_sub (data_transfer_len c) (BLOCK_SIZE * l))).
Proof.
  intros [Hr Hbt Hb Hd Hg Hg0 _ _ Hst] Hloop [Hp Hq] H32 Hfits Hk c data. pose proof Hb as (_ & Hph & _).
  pose proof (ufi_decoded_range d _ _ Hg0 Hph Hk) as [[Hlba _] [Hl _]].
  destruct (command_served Ufi.parse_cb (process_command FAT) d (transport vb) Hd Hg Hbt c
    (read_progress lba (BLOCK_SIZE * l)) (BLOCK_SIZE * l) write_stuck (Read lba l) Hr Hk)
    with (v0 := v0) (v := v) as (acc & del & (Ho & _ & ->) & Hst' & Hend);
    [by apply (floppy_read_turn_keeps d)|intros; apply floppy_read_sense|done|done| |done|done|done|].
  { split; [lia|]. split; [unfold BLOCK_SIZE; lia|]. unfold blocks.
    destruct (lba <? DUMP_MAX_LBA); [|done]. by rewrite zslice_empty by lia. }
  split; [by apply len_blocks|]. split; [congruence|]. by exists del.
Qed.
End Floppy.

(** ** Runs on the test bus *)

(** The floppy when it enters its main loop, an image of 200 blocks, and the wrappers of
    READ (10) of block 206 and of the blocks 199 and 200. *)
Definition floppy (t : MockBbb) : Device (Ufi (@BulkOnly MockStack)) unit :=
  mkDevice (mkUfi (0 : @InterfaceNumber MockStack) t) State_reset tt.
Definition image : list byte := zreplicate (200 * BLOCK_SIZE) (byte_of 0x55).
Definition read_wrapper (lba n : Z) : list byte :=
  splice (cbw (512 * n) HostIn) 14 (map byte_of [12; READ_10; 0; 0; 0; 0; lba; 0; 0; n; 0; 0; 0]).
Definition fill_before : MockBbb := at_ (history 64 (read_wrapper 0xCE 1) []).
Lemma fill_before_reachable : reachable fill_before.
Proof. apply at_reachable; [lia|by vm_compute]. Qed.

(** ** Theorems *)

(** READ on the floppy, end to end: a READ of blocks of the image, or of any blocks
    beyond it, whose wrapper asks for data from the device, over all the turns that it
    takes in the main loop: when its status wrapper is out, the wire has the blocks of the
    image, or 0xF6 for every byte beyond it, 0xFF up to the length that the host asked
    for, and the status Passed with what was missing as residue. *)
Lemma floppy_read_served `{!UsbStack, !UsbStackLaws} (FAT : list byte)
    (vi vb v0 v : Floppy) (lba l : Z) :
  len FAT < u32_modulus ->
  command_begins any Ufi.parse_cb (process_command FAT) vi vb v0 ->
  rtc (loop_step Ufi.parse_cb (process_command FAT)) v0 v ->
  Ufi.parse_cb (command_bytes (transport v0)) = Returns (Read lba l) ->
  l * BLOCK_SIZE < u32_modulus ->
  (lba < DUMP_MAX_LBA -> BLOCK_SIZE * (lba + l) <= len FAT) ->
  direction (Bbb.cbw (transport v0)) = DataIn ->
  Bbb.state (transport v) = StatusTransfer -> contents (buf (transport v)) = [] ->
  let c := Bbb.cbw (transport v0) in
  let missing := data_transfer_len c - BLOCK_SIZE * l in
  0 <= missing /\
  in_log (bus (transport v)) = in_log (bus (transport vb)) ++
    (if lba <? DUMP_MAX_LBA then zslice (BLOCK_SIZE * lba) (BLOCK_SIZE * (lba + l)) FAT
     else zreplicate (BLOCK_SIZE * l) (byte_of 0xF6)) ++
    zreplicate missing FILL_BYTE ++ csw_bytes c (mkStatusAndResidue Passed missing).
Proof.
  intros HFAT Hbegins Hloop Hk H32 Hfits Hdir Hp Hq c missing.
  destruct (command_begins_start _ _ _ _ (floppy_safe FAT HFAT) _ _ _ Hbegins) as (d & Hs).
  destruct (floppy_read_ended FAT HFAT d vb v0 v lba l Hs Hloop (conj Hp Hq) H32 (fun Him _ => Hfits Him) Hk)
    as (Hlen & _ & del & [Hin _ Hw _]).
  unfold within in Hw. rewrite wanted_in in Hw by done.
  split; [subst missing; fold c in Hw; lia|].
  rewrite Hin. unfold payload. fold c in Hdir |- *. rewrite Hdir, <- app_assoc, Hlen.
  unfold saturating_sub, blocks. rewrite (Z.max_r 0) by (subst c; lia).
  by replace (BLOCK_SIZE * lba + BLOCK_SIZE * l) with (BLOCK_SIZE * (lba + l)) by lia.
Qed.

Local Abbreviation fill_served :=
  (do_events Ufi.parse_cb (process_command image) ([ECommand; EUsb; ECommand] ++ replicate 6 EUsb)
     (first_command (floppy fill_before))).

(** The first block beyond the image. *)
Lemma floppy_read_served_witness :
  match fill_served with
  | Some v => exists m, 0 <= m /\ in_log (bus (transport v)) = in_log (bus fill_before) ++
      zreplicate (BLOCK_SIZE * 1) (byte_of 0xF6) ++ zreplicate m FILL_BYTE ++
      csw_bytes (Bbb.cbw (transport (first_command (floppy fill_before)))) (mkStatusAndResidue Passed m)
  | None => False
  end.
Proof.
  assert (ended fill_served = true) as Hend by (by vm_compute).
  destruct (ended_spec _ _ _ _ Hend) as (v & -> & Hloop & Hp & Hq).
  assert (command_begins any Ufi.parse_cb (process_command image) (floppy fill_before)
    (floppy fill_before) (first_command (floppy fill_before))) as Hb
    by (apply first_command_begins; [exact fill_before_reachable|by vm_compute..]).
  assert (Ufi.parse_cb (command_bytes (transport (first_command (floppy fill_before)))) = Returns (Read 0xCE 1)) as Hk
    by (by vm_compute).
  assert (direction (Bbb.cbw (transport (first_command (floppy fill_before)))) = DataIn) as Hdir by (by vm_compute).
  assert (len image < u32_modulus) as Himage by (by vm_compute).
  assert (1 * BLOCK_SIZE < u32_modulus) as H32 by (by vm_compute).
  assert (0xCE < DUMP_MAX_LBA -> BLOCK_SIZE * (0xCE + 1) <= len image) as Hfits by (intros Hlt; exfalso; revert Hlt; by vm_compute).
  destruct (floppy_read_served image _ _ _ v 0xCE 1 Himage Hb Hloop Hk H32 Hfits Hdir Hp Hq) as (Hm & Hin).
  eexists. exact (conj Hm Hin).
Defined.

(** C20: READ on the floppy completes: a READ of blocks of the image whose wrapper asks for at
    least those blocks, or of any blocks beyond it whose wrapper asks for exactly those,
    driven by the main loop with a host that takes a packet when there is one: not more
    rounds pass than there are bytes to move, and until the status wrapper is out another
    one runs, without a panic. *)
Theorem floppy_read_completes `{!UsbStack, !UsbStackLaws} (FAT : list byte)
    (vi vb v0 v : Floppy) (lba l : Z) (n : nat) :
  len FAT < u32_modulus ->
  command_begins any Ufi.parse_cb (process_command FAT) vi vb v0 ->
  driven Ufi.parse_cb (process_command FAT) n v0 v ->
  Ufi.parse_cb (command_bytes (transport v0)) = Returns (Read lba l) ->
  l * BLOCK_SIZE < u32_modulus ->
  (lba < DUMP_MAX_LBA -> BLOCK_SIZE * (lba + l) <= len FAT) ->
  direction (Bbb.cbw (transport v0)) = DataIn ->
  BLOCK_SIZE * l <= data_transfer_len (Bbb.cbw (transport v0)) ->
  (DUMP_MAX_LBA <= lba -> data_transfer_len (Bbb.cbw (transport v0)) = BLOCK_SIZE * l) ->
  Z.of_nat n <= BLOCK_SIZE * l + data_transfer_len (Bbb.cbw (transport v0)) + CSW_LEN + 1 /\
  (out (transport v) \/ goes_on Ufi.parse_cb (process_command FAT) v).
Proof.
  intros HFAT Hbegins Hdriven Hk H32 Hfits Hdir Htot Hexact.
  destruct (command_begins_start _ _ _ _ (floppy_safe FAT HFAT) _ _ _ Hbegins) as (d & Hs).
  pose proof Hs as [_ Hbt [_ [Hph _]] Hd Hg Hg0 _ _].
  pose proof (ufi_decoded_range d _ _ Hg0 Hph Hk) as [[Hlba _] [Hl _]].
  apply (in_completes any _ _ d vb v0 n v Hs Hdriven
    (read_progress FAT lba (BLOCK_SIZE * l)) _ _ Hk) with (fine := fun _ => True); [..|done|done|done| |].
  - split; [lia|]. split; [unfold BLOCK_SIZE; lia|]. unfold blocks.
    destruct (lba <? DUMP_MAX_LBA); [|done]. by rewrite zslice_empty by lia.
  - unfold BLOCK_SIZE in *. lia.
  - by apply (floppy_read_turn_keeps FAT HFAT d); [..|intros Him _; apply Hfits].
  - intros o acc del m (Ho & Hle & ->). unfold blocks. destruct (Z.ltb_spec lba DUMP_MAX_LBA) as [Him|Him].
    + specialize (Hfits Him). specialize (Hle Him). clear Hexact. intros _. unfold BLOCK_SIZE in *. split; [len_lia|lia].
    + rewrite (Hexact Him), len_zreplicate by lia. lia.
Qed.

Local Abbreviation fill_rounds :=
  (do_lives Ufi.parse_cb (process_command image) (replicate 6 LRound) (first_command (floppy fill_before))).

Lemma floppy_read_completes_witness :
  match fill_rounds with
  | Some v => out (transport v) \/ goes_on Ufi.parse_cb (process_command image) v
  | None => False
  end.
Proof.
  assert (is_run fill_rounds = true) as Hrun by (by vm_compute).
  destruct (do_lives_spec _ _ _ _ Hrun) as (v & -> & Hdriven).
  assert (command_begins any Ufi.parse_cb (process_command image) (floppy fill_before)
    (floppy fill_before) (first_command (floppy fill_before))) as Hb
    by (apply first_command_begins; [exact fill_before_reachable|by vm_compute..]).
  assert (Ufi.parse_cb (command_bytes (transport (first_command (floppy fill_before)))) = Returns (Read 0xCE 1)) as Hk
    by (by vm_compute).
  assert (direction (Bbb.cbw (transport (first_command (floppy fill_before)))) = DataIn) as Hdir by (by vm_compute).
  assert (len image < u32_modulus) as Himage by (by vm_compute).
  assert (1 * BLOCK_SIZE < u32_modulus) as H32 by (by vm_compute).
  assert (0xCE < DUMP_MAX_LBA -> BLOCK_SIZE * (0xCE + 1) <= len image) as Hfits
    by (intros Hlt; exfalso; revert Hlt; by vm_compute).
  assert (data_transfer_len (Bbb.cbw (transport (first_command (floppy fill_before)))) = BLOCK_SIZE * 1) as Hlen
    by (by vm_compute).
  exact (proj2 (floppy_read_completes image _ _ _ v 0xCE 1 _ Himage Hb Hdriven Hk H32 Hfits Hdir
    (Z.eq_le_incl _ _ (eq_sym Hlen)) (fun _ => Hlen))).
Defined.

(** READ of two blocks beyond the image, in a wrapper that asks for three. A turn that finds
    room for more than is missing passes the end of the two blocks, and the command waits
    for a status that is not set: the whole length has been sent. *)
Definition overshoot_before : MockBbb :=
  at_ (history 64 (splice (read_wrapper 0xCE 2) 8 (to_le_bytes 4 (BLOCK_SIZE * 3))) []).
Lemma floppy_read_overshoots :
  waits_at (BLOCK_SIZE * 3) (do_events Ufi.parse_cb (process_command image)
    ([ECommand; ECommand] ++ concat (replicate 20 [EUsb; ECommand]))
    (first_command (floppy overshoot_before))) = true.
Proof. by vm_compute. Qed.

(** [main] comes to its loop. *)
Lemma floppy_boot_run `{!UsbStack, !UsbStackLaws} (USB_TRANSPORT_BUF : list byte) (usb_bus : Bus) :
  len USB_TRANSPORT_BUF = 512 -> bus_fresh usb_bus -> owp (boot USB_TRANSPORT_BUF usb_bus) (powered_on any).
Proof.
  intros Hbuf Hb. unfold boot.
  by apply (power_on_run any); [..|split; [|rewrite Hbuf; split]| |].
Qed.

(** C24: [main] comes to its loop. In any run from there the transport is reachable, the
    globals are in range, and the offset is zero but in the course of a READ. A turn of the
    main loop panics exactly when the wrapper declares fewer bytes than its opcode needs, or
    when READ asks for blocks that reach beyond the image from a block before
    [DUMP_MAX_LBA] (the image is shorter than that), or for [2^32] bytes or more, or when
    the offset would pass [2^32] beyond the image. Every other turn, the loop over the
    blocks beyond the image included, ends and keeps all that; out of the user's turn
    nothing happens. A whole round keeps it too, and panics only if its turn does
    ([round_keeps]), when in it the stack does not reset the class ([ordinary]); when it does,
    the round that finds the stack in its default state brings it back. *)
Theorem floppy_poll_command_safe `{!UsbStack, !UsbStackLaws}
    (FAT USB_TRANSPORT_BUF : list byte) (usb_bus : Bus) :
  let parse_cb := Ufi.parse_cb in
  let main_poll_command := main_poll_command parse_cb (process_command FAT) in
  len FAT < u32_modulus -> len USB_TRANSPORT_BUF = 512 -> bus_fresh usb_bus ->
  exists vi, boot USB_TRANSPORT_BUF usb_bus = Returns vi /\
  forall v, rtc (run_step parse_cb (process_command FAT)) vi v ->
  device_inv any parse_cb moves_data v /\
  (~ awaits_user (transport v) -> main_poll_command v = Returns (Ok tt, v)) /\
  (awaits_user (transport v) ->
     match parse_cb (command_bytes (transport v)) with
     | Returns k =>
       if panics_on FAT (transport v) (STATE v) k then main_poll_command v = Panics
       else wp main_poll_command (fun _ v' => device_inv any parse_cb moves_data v') v
     | Panics => main_poll_command v = Panics
     | OutOfFuel => False
     end) /\
  (forall calls event default, Forall ordinary calls ->
     round_keeps any parse_cb moves_data (process_command FAT) calls event default v (main_round FAT calls event default v)) /\
  (forall vn, rtc (unseen_step parse_cb (process_command FAT)) v vn ->
     reachable (transport vn) /\ wf_device any vn /\
     forall calls, round_keeps any parse_cb moves_data (process_command FAT) calls true true vn (main_round FAT calls true true vn)).
Proof.
  intros parse_cb main HFAT Hbuf Hb. pose proof (floppy_boot_run _ _ Hbuf Hb) as Hboot.
  destruct (boot _ _) as [vi| |]; [|done..]. exists vi. split; [done|]. intros v Hrun.
  pose proof (run_inv any parse_cb moves_data _ (floppy_safe FAT HFAT) vi v Hboot Hrun) as Hv.
  pose proof (device_reachable _ _ _ _ Hv) as Hr.
  split; [done|]. split; [intros Hno; by apply main_idle|]. split; [intros Hu|split].
  - destruct (parse_cb (command_bytes (transport v))) as [k| |] eqn:Hk.
    + pose proof (floppy_process_command_safe FAT HFAT v k Hv Hu Hk) as Hturn. cbv zeta in Hturn.
      destruct (panics_on _ _ _ _); [by eapply main_panics|by eapply main_turn].
    + unfold main, main_poll_command. rewrite poll_command_run, Hk by done. done.
    + by apply parse_cb_fuel in Hk.
  - intros calls event default Hall. by apply (main_loop_inv any parse_cb moves_data _ (floppy_safe FAT HFAT) (fun _ _ _ => parse_cb_fuel _)).
  - intros vn. by apply (unseen_inv any parse_cb moves_data _ (floppy_safe FAT HFAT) (fun _ _ _ => parse_cb_fuel _)).
Qed.

(** READ of the blocks 199 and 200 as the first command: the image ends between them. *)
Local Abbreviation beyond_run :=
  (run_from Ufi.parse_cb (process_command image) (boot (zreplicate 512 x00) (fresh_bus : @Bus MockStack))
     [EHost (read_wrapper 199 2); EUsb]).

Lemma floppy_poll_command_safe_witness :
  match beyond_run with
  | Some v => main_poll_command Ufi.parse_cb (process_command image) v = Panics
  | None => False
  end.
Proof.
  destruct (floppy_poll_command_safe image (zreplicate 512 x00) (fresh_bus : @Bus MockStack)) as (vi & Hvi & Hall);
    [by vm_compute..|].
  assert (is_turn_of Ufi.parse_cb (fun k => match k with Read 199 2 => true | _ => false end)
    beyond_run = true) as Hturn by (by vm_compute).
  destruct (run_from_spec _ _ _ _ _ _ Hvi Hturn) as (v & k & Heq & Hrun & Hu & Hk & His).
  assert (k = Read 199 2) as -> by (clear - His; repeat case_match; congruence).
  pose proof (proj1 (proj2 (proj2 (Hall v Hrun))) Hu) as Hmain. rewrite Hk in Hmain.
  assert (match beyond_run with Some v => panics_on image (transport v) (STATE v) (Read 199 2) | None => false end = true)
    as Hp by (by vm_compute).
  rewrite Heq in Hp |- *. rewrite Hp in Hmain. exact Hmain.
Defined.

(** ** The commands that are answered at once *)

Definition floppy_reply (k : UfiCommand) : option reply :=
  match k with
  | Inquiry _ => Some (RAnswer inquiry_data)
  | StartStop _ _ | TestUnitReady | PreventAllowMediumRemoval _ | Write _ _ _ => Some RPass
  | ReadCapacity => Some (RAnswer capacity_data)
  | RequestSense _ => Some (RSense 0x0A)
  | ModeSense _ _ _ => Some (RAnswer mode_sense_data)
  | Read _ _ => None
  | _ => Some RRefuse
  end.

Lemma floppy_process_reply `{!UsbStack} FAT k r l (v : Floppy) :
  floppy_reply k = Some r -> process_command FAT (mkCommand k l) v = run_reply r v.
Proof. by destruct k; intros [= <-]. Qed.

(** C22: The commands that the floppy answers at once (all but READ; WRITE is one of them, its
    data is dropped), end to end: after a bounded number of rounds of the main loop the
    answer is on the wire, filled to the length that the host asked for, with the status
    (Failed for a command that is not known) and what was missing as residue; the sense data
    is kept, reported once or set. But when the host asks for less than the whole answer, or
    for none, nothing is sent and the command never gets a status. *)
Theorem floppy_replies `{!UsbStack, !UsbStackLaws} (FAT : list byte)
    (vi vb v0 v : Floppy) (k : UfiCommand) (r : reply) (n : nat) :
  len FAT < u32_modulus ->
  command_begins any Ufi.parse_cb (process_command FAT) vi vb v0 ->
  driven Ufi.parse_cb (process_command FAT) n v0 v ->
  Ufi.parse_cb (command_bytes (transport v0)) = Returns k ->
  floppy_reply k = Some r ->
  replied Ufi.parse_cb (process_command FAT) r vb v0 n v.
Proof.
  intros HFAT Hbegins Hdriven Hk Hreply.
  destruct (command_begins_start _ _ _ _ (floppy_safe FAT HFAT) _ _ _ Hbegins) as (d & Hs).
  apply (reply_served any _ _ d r k vb v0 Hs Hk); [|done]. intros l v1. by apply floppy_process_reply.
Qed.

(** REQUEST SENSE of 14 bytes: the answer has 18. *)
Definition sense_before : MockBbb :=
  at_ (history 64 (splice (cbw 14 HostIn) 14 (map byte_of [12; 0x03; 0; 0; 0; 14; 0; 0; 0; 0; 0; 0; 0])) []).
Lemma sense_before_reachable : reachable sense_before.
Proof. apply at_reachable; [lia|by vm_compute]. Qed.
Local Abbreviation sense_rounds :=
  (do_lives Ufi.parse_cb (process_command image) (replicate 5 LRound) (first_command (floppy sense_before))).

Lemma floppy_replies_witness :
  match sense_rounds with
  | Some v => cs (transport v) = None /\ in_log (bus (transport v)) = in_log (bus sense_before)
  | None => False
  end.
Proof.
  assert (is_run sense_rounds = true) as Hrun by (by vm_compute).
  destruct (do_lives_spec _ _ _ _ Hrun) as (v & -> & Hdriven).
  assert (command_begins any Ufi.parse_cb (process_command image) (floppy sense_before)
    (floppy sense_before) (first_command (floppy sense_before))) as Hb
    by (apply first_command_begins; [exact sense_before_reachable|by vm_compute..]).
  assert (Ufi.parse_cb (command_bytes (transport (first_command (floppy sense_before)))) = Returns (RequestSense 14)) as Hk
    by (by vm_compute).
  assert (len image < u32_modulus) as Himage by (by vm_compute).
  exact (floppy_replies image _ _ _ v _ (RSense 0x0A) _ Himage Hb Hdriven Hk eq_refl).
Defined.
