(* ===== verification/Stm32UfiDisk.v ===== *)
(** * The STM32 floppy is a disk

    Every session of a host with the floppy is a run of [floppy_disk], on the commands that the
    host has sent: a disk without contents of its own, which reads the image and 0xF6 beyond
    it. A command on which the parser or the handler panics does not come to an end. *)
From stdpp Require Import relations.
From S2P Require Import Prelude.
From S2P Require Import Usb.
From S2P Require Import Buffer.
From S2P Require Import Transport.
From S2P Require Import Bbb.
From S2P Require Import BotSpec.
From S2P Require Import BbbRefine.
From S2P Require Import BbbMethods.
From S2P Require Import BbbReach.
From S2P Require Import MockBus.
From S2P Require Import BbbSafe.
From S2P Require Import BotStream.
From S2P Require Import Transfer.
From S2P Require Import Subclass.
From S2P Require Import Ufi.
From S2P Require Import UfiSpec.
From S2P Require Import Firmware.
From S2P Require Import FirmwareSpec.
From S2P Require Import FirmwareRun.
From S2P Require Import FirmwareLive.
From S2P Require Import FirmwareReply.
From S2P Require Import Disk.
From S2P Require Import FirmwareSession.
From S2P Require Import Stm32Ufi.
From S2P Require Import Stm32UfiSpec.

Local Open Scope Z_scope.
Local Open Scope rust_scope.

Section Disk.
Context (FAT : list byte).

(** The blocks that a READ can have: the handler counts their bytes in 32 bits, and the
    blocks before [DUMP_MAX_LBA] have to be in the image. *)
Definition readable (lba l : Z) : bool :=
  (l * BLOCK_SIZE <? u32_modulus) &&
  ((l <=? 0) || (DUMP_MAX_LBA <=? lba) || (BLOCK_SIZE * (lba + l) <=? len FAT)).

Definition floppy_disk (k : UfiCommand) (data : list byte) (st : State) (disk : unit) : option (answer unit) :=
  match k with
  | Read lba l =>
    if readable lba l then Some (mkAnswer st disk (blocks FAT lba (BLOCK_SIZE * l)) Passed (BLOCK_SIZE * l))
    else None
  | _ => option_map (fun r => replies r st disk) (floppy_reply k)
  end.

Context `{!UsbStack, !UsbStackLaws}.
Hypothesis HFAT : len FAT < u32_modulus.
Implicit Types v : Floppy.

Section Serves.
Context (d : device) (vb v0 v : Floppy).
Hypothesis Hstart : command_start any d vb v0.
Hypothesis Hloop : rtc (loop_step Ufi.parse_cb (process_command FAT)) v0 v.
Hypothesis Hout : out (transport v).
Local Abbreviation c := (Bbb.cbw (transport v0)).

(** A READ on which the handler panics at once has no end. *)
Lemma floppy_unreadable lba l :
  Ufi.parse_cb (command_bytes (transport v0)) = Returns (Read lba l) -> readable lba l = true.
Proof.
  intros Hk. pose proof Hstart as [Hr Hbt (_ & Hph & Ho) Hd Hg Hg0 _ Hm Hst].
  pose proof (ufi_decoded_range d _ _ Hg0 Hph Hk) as Hir. pose proof Hir as [[? _] [? _]].
  destruct (readable lba l) eqn:Hread; [done|exfalso].
  refine (panic_lasts any _ (process_command FAT) d Hd vb v0 v Hstart _ Hloop Hout).
  intros k ln v1 Hk1 Hg1 Hu1 Hc1 Hst1 Hm1. assert (k = Read lba l) as -> by congruence.
  pose proof (floppy_process_command_run FAT HFAT d (Read lba l) ln v1) as Hrun.
  assert (panics_on FAT (transport v1) (STATE v1) (Read lba l) = true) as Hp.
  { cbn [panics_on]. rewrite Hst1, Ho. unfold readable, in_memory, BLOCK_SIZE in *.
    destruct (Z.ltb_spec lba DUMP_MAX_LBA); lia. }
  rewrite Hp in Hrun. apply Hrun.
  - by apply in_turn_refl.
  - split; [rewrite Hst1, Ho; by vm_compute|done].
  - done.
  - intros _. by rewrite Hst1.
Qed.

Lemma floppy_serves : carried_out Ufi.parse_cb d id floppy_disk vb c v.
Proof.
  pose proof Hstart as [Hr Hbt (_ & Hph & Ho) Hd Hg Hg0 _ Hm Hst].
  destruct (Ufi.parse_cb (command_bytes (transport v0))) as [k| |] eqn:Hk.
  2-3: exfalso; refine (panic_lasts any _ (process_command FAT) d Hd vb v0 v Hstart _ Hloop Hout); congruence.
  destruct (floppy_reply k) as [r|] eqn:Hreply.
  { apply (reply_carried any _ (process_command FAT) d id floppy_disk r k vb v0 v Hstart Hloop Hout Hk).
    - intros. by apply floppy_process_reply.
    - intros data st disk. unfold floppy_disk. rewrite Hreply. by destruct k. }
  assert (exists lba l, k = Read lba l) as (lba & l & ->) by (destruct k; try discriminate Hreply; eauto).
  pose proof (floppy_unreadable _ _ Hk) as Hread.
  destruct (floppy_read_ended FAT HFAT d vb v0 v lba l Hstart Hloop Hout) as (_ & Hst' & del & Hend).
  - unfold readable in Hread. lia.
  - unfold readable in Hread. lia.
  - done.
  - eapply (ended_carried _ d id floppy_disk); [exact Hend|exact Hk|].
    cbn [floppy_disk]. rewrite Hread, Hst'. by destruct (MEMORY v), (MEMORY vb).
Qed.
End Serves.

Lemma floppy_session vi vb cs v :
  powered_on any vi -> rtc (run_step Ufi.parse_cb (process_command FAT)) vi vb ->
  between (transport vb) -> session Ufi.parse_cb (process_command FAT) vb cs v ->
  disk_session Ufi.parse_cb id floppy_disk vb cs v.
Proof.
  intros Hvi Hrun Hbt Hses.
  destruct (run_ready any _ moves_data _ vi vb (floppy_safe FAT HFAT) Hvi Hrun Hbt) as (d & Hd & Hready).
  refine (session_refines any _ moves_data _ (floppy_safe FAT HFAT) d Hd id floppy_disk (fun _ => True)
    _ vb cs v Hready Hses _); [|by apply Forall_forall].
  intros vb' v0 v' Hstart _ Hloop Hout. by eapply floppy_serves.
Qed.
End Disk.

(** ** Theorems *)

(** C12: The floppy is a disk: [main] comes to its loop; whatever happens from there, from any
    moment between two commands every session of a host with the floppy, of any commands and
    over all the turns that they take, is a run of the disk [floppy_disk]: the host has
    received exactly the answers of the disk to the commands that are in its byte stream, in
    order: the blocks of the image, 0xF6 beyond it, and a status for a WRITE whose data is
    dropped. What is not [readable], what the parser panics on and a command that asks for
    less than its answer are not served: no session gets to the end of one. *)
Theorem floppy_is_disk `{!UsbStack, !UsbStackLaws} (FAT USB_TRANSPORT_BUF : list byte) (usb_bus : Bus) :
  len FAT < u32_modulus -> len USB_TRANSPORT_BUF = 512 -> bus_fresh usb_bus ->
  exists vi, boot USB_TRANSPORT_BUF usb_bus = Returns vi /\
  forall vb v cs, rtc (run_step Ufi.parse_cb (process_command FAT)) vi vb -> between (transport vb) ->
  session Ufi.parse_cb (process_command FAT) vb cs v ->
  exists reqs sent l received, map fst reqs = cs /\ spoken reqs l /\
    out_log (bus (transport v)) = out_log (bus (transport vb)) ++ sent /\
    pending (transport vb) ++ sent = l ++ pending (transport v) /\
    in_log (bus (transport v)) = in_log (bus (transport vb)) ++ received /\
    run_disk Ufi.parse_cb (floppy_disk FAT) reqs (STATE vb) tt = Some (STATE v, tt, received).
Proof.
  intros HFAT Hbuf Hb. pose proof (floppy_boot_run _ _ Hbuf Hb) as Hboot.
  destruct (boot _ _) as [vi| |]; [|done..]. exists vi. split; [done|]. intros vb v cs Hrun Hbt Hses.
  pose proof (floppy_session FAT HFAT vi vb cs v Hboot Hrun Hbt Hses) as Hdisk. unfold disk_session, id in Hdisk.
  by destruct (MEMORY vb), (MEMORY v).
Qed.

(** A READ of block 206, which is beyond the image, a command that the floppy does not know,
    and REQUEST SENSE. *)
Definition session_requests : list (list byte * list byte) :=
  [(read_wrapper 0xCE 1, []); (splice (cbw 0 HostIn) 14 (map byte_of [12; 0x01; 0; 0; 0; 0; 0; 0; 0; 0; 0; 0; 0]), []);
   (splice (cbw 18 HostIn) 14 (map byte_of [12; 0x03; 0; 0; 0; 18; 0; 0; 0; 0; 0; 0; 0]), [])].
Local Abbreviation booted := (boot (zreplicate 512 x00) (fresh_bus : @Bus MockStack)).
Local Abbreviation session_run :=
  (session_from Ufi.parse_cb (process_command image) booted 60 session_requests).
Lemma floppy_is_disk_witness :
  match session_run with
  | Some (vb, cs, v) => exists reqs received, map fst reqs = cs /\
      in_log (bus (transport v)) = in_log (bus (transport vb)) ++ received /\
      run_disk Ufi.parse_cb (floppy_disk image) reqs (STATE vb) tt = Some (STATE v, tt, received)
  | None => False
  end.
Proof.
  destruct (floppy_is_disk image (zreplicate 512 x00) (fresh_bus : @Bus MockStack)) as (vi & Hvi & Hall);
    [by vm_compute..|].
  assert (is_session_of (fun _ cs => len cs =? 3) session_run = true) as Hok by (by vm_compute).
  destruct (session_from_spec _ _ _ _ _ _ _ Hvi Hok) as (cs & v & -> & Hbt & Hses & _).
  destruct (Hall vi v cs (rtc_refl _ _) Hbt Hses) as (reqs & sent & l & received & Hmap & _ & _ & _ & Hin & Hdisk).
  exists reqs, received. exact (conj Hmap (conj Hin Hdisk)).
Defined.
