(* ===== verification/Rp2040Scsi.v ===== *)
(** * The RP2040 flash drive ([examples/rp2040/src/bin/rp2040_scsi_bbb.rs])

    A drive of 256 blocks of 4096 bytes over the SCSI subclass, in the flash chip that the
    program runs from: READ takes the bytes of the static [FILESYSTEM]; WRITE collects a
    block in [WRITE_BUFFER] and then erases and programs it through the crate
    [rp2040-flash]. The chip and that crate are the class [FlashChip]. The README asks for
    release builds: products and sums wrap around. *)
From S2P Require Import Prelude.
From S2P Require Import Usb.
From S2P Require Import Buffer.
From S2P Require Import Transport.
From S2P Require Import Bbb.
From S2P Require Import Subclass.
From S2P Require Import Scsi.
From S2P Require Import Firmware.

Local Open Scope Z_scope.
Local Open Scope rust_scope.

Definition BLOCK_SIZE : Z := 4096.
Definition BLOCKS : Z := 256.
Definition USB_PACKET_SIZE : Z := 64.
Definition MAX_LUN : Z := 0.

Definition inquiry_data : list byte := map byte_of
  [0x00; 0x80; 0x04; 0x02; 0x20; 0x00; 0x00; 0x00;
   85; 78; 75; 78; 79; 87; 78; 32;
   82; 80; 50; 48; 52; 48; 32; 85; 83; 66; 32; 70; 108; 97; 115; 104;
   49; 46; 50; 51].

(** [FILESYSTEM.as_ptr()]: the linker places the section at the start of its region
    ([memory.x]). Flash addresses are relative to the chip. *)
Definition FILESYSTEM_ADDRESS : Z := 0x10100000.
Definition filesystem_offset : Z := Z.land FILESYSTEM_ADDRESS 0xffffff.

(** The flash chip: the bytes of [FILESYSTEM], and
    [rp2040_flash::flash::flash_range_erase_and_program(addr, data, use_boot2)]. *)
Class FlashChip := {
  Chip : Type;
  FILESYSTEM : Chip -> list byte;
  flash_range_erase_and_program : Z -> list byte -> bool -> Chip -> Chip
}.

(** What the code relies on: whole blocks at their addresses are replaced. Nothing is
    said about other addresses and sizes. *)
Class FlashChipLaws `{!FlashChip} := {
  FILESYSTEM_len chip : len (FILESYSTEM chip) = BLOCK_SIZE * BLOCKS;
  program_block block data use_boot2 chip :
    0 <= block < BLOCKS -> len data = BLOCK_SIZE ->
    FILESYSTEM (flash_range_erase_and_program (filesystem_offset + BLOCK_SIZE * block) data use_boot2 chip) =
      splice (FILESYSTEM chip) (BLOCK_SIZE * block) data
}.

(** The chip and the block that is being received. *)
Record Flash `{!FlashChip} := mkFlash { chip : Chip; WRITE_BUFFER : list byte }.
Definition set_chip `{!FlashChip} (c : Chip) (m : Flash) : Flash := mkFlash _ c (WRITE_BUFFER m).
Definition set_WRITE_BUFFER `{!FlashChip} (l : list byte) (m : Flash) : Flash := mkFlash _ (chip m) l.

Abbreviation Drive := (Device (Scsi BulkOnly) Flash).

Section Drive.
Context `{!UsbStack, !FlashChip}.

Definition process_read (lba l : Z) : M Drive (BResult unit) :=
  let! st := gets STATE in
  if negb (storage_offset st =? wrapping_mul32 l BLOCK_SIZE) then
    let start := wrapping_add32 (wrapping_mul32 BLOCK_SIZE lba) (storage_offset st) in
    let end_ := wrapping_add32 (wrapping_mul32 BLOCK_SIZE lba) (wrapping_mul32 BLOCK_SIZE l) in
    let! m := gets MEMORY in
    let! data := lift (slice (FILESYSTEM (chip m)) start end_) in
    let? count := write_data data in
    do! move_to (wrapping_add32 (storage_offset st) count) st in
    ret (Ok tt)
  else finish.

(** One round of [loop { .. }]: receive a part of the block at the offset, and program
    the block when it is complete. *)
Definition write_round (lba : Z) : M Drive (BResult bool) :=
  let! st := gets STATE in
  let start := wrapping_add32 (wrapping_mul32 BLOCK_SIZE lba) (storage_offset st) in
  let block_offset := start mod BLOCK_SIZE in
  let! m := gets MEMORY in
  let! dst := lift (slice (WRITE_BUFFER m) block_offset (len (WRITE_BUFFER m))) in
  let! (dst, r) := read_data dst in
  let m := set_WRITE_BUFFER (splice (WRITE_BUFFER m) block_offset dst) m in
  do! modify (set_MEMORY m) in
  let? count := ret r in
  let offset := wrapping_add32 (storage_offset st) count in
  do! move_to offset st in
  if (0 <? count) && (offset mod BLOCK_SIZE =? 0) then
    do! modify (set_MEMORY (set_chip (flash_range_erase_and_program
      (wrapping_add32 filesystem_offset (Z.land start 0xfffff000)) (WRITE_BUFFER m) false (chip m)) m)) in
    ret (Ok true)
  else ret (Ok false).

Definition process_write (lba l : Z) : M Drive (BResult unit) :=
  let! st := gets STATE in
  if negb (storage_offset st =? wrapping_mul32 l BLOCK_SIZE) then
    let! fuel := gets buffer_fuel in
    let? _ := loop fuel (write_round lba) in
    let! st := gets STATE in
    if storage_offset st =? wrapping_mul32 l BLOCK_SIZE then finish else ret (Ok tt)
  else finish.

Definition process_command : callback (C := Drive) ScsiCommand := fun command =>
  match kind command with
  | TestUnitReady => do! pass 0 in ret (Ok tt)
  | Inquiry _ _ _ => answer inquiry_data
  | RequestSense _ _ => answer_sense 0x00
  | ReadCapacity10 => let! data := lift (capacity10_data BLOCKS BLOCK_SIZE) in answer data
  | ReadCapacity16 _ => let! data := lift (capacity16_data BLOCKS BLOCK_SIZE) in answer data
  | ReadFormatCapacities _ =>
    let! data := lift (format_capacities_data BLOCKS BLOCK_SIZE) in answer data
  | Read lba l => process_read lba l
  | Write lba l => process_write lba l
  | ModeSense6 _ _ _ _ _ => answer mode_sense6_data
  | ModeSense10 _ _ _ _ _ => answer mode_sense10_data
  | Unknown _ => refuse
  end.

(** [main] up to its loop: the class on a fresh bus, with the global buffer; the chip is as
    the last run left it. *)
Definition boot (USB_TRANSPORT_BUF : list byte) (chip : Chip) (usb_bus : Bus) : outcome Drive :=
  power_on (Scsi.new USB_PACKET_SIZE MAX_LUN USB_TRANSPORT_BUF usb_bus)
    (mkFlash _ chip (zreplicate BLOCK_SIZE x00)).

(** A round of the loop of [main]. *)
Definition main_round `{!TryFromPrimitive} (calls : list stack_call) (event default : bool) : M Drive unit :=
  main_loop (Scsi.parse_cb false) process_command calls event default.
End Drive.
