(* ===== verification/Rp2040ScsiSpec.v ===== *)
(** * Specification of the RP2040 flash drive

    On which commands the handler panics; that the loop of WRITE ends; what a READ and a
    WRITE do over all the turns that they take: the blocks of the drive on the wire, the
    bytes of the host in the flash, block by block; that both come to their status. *)
From stdpp Require Import relations.
From S2P Require Import Prelude.
From S2P Require Import Usb.
From S2P Require Import Buffer.
From S2P Require Import Transport.
From S2P Require Import Bbb.
From S2P Require Import BotSpec.
From S2P Require Import BbbRefine.
From S2P Require Import BbbMethods.
From S2P Require Import BbbReach.
From S2P Require Import MockBus.
From S2P Require Import BbbSafe.
From S2P Require Import BotStream.
From S2P Require Import Transfer.
From S2P Require Import Subclass.
From S2P Require Import Scsi.
From S2P Require Import ScsiSpec.
From S2P Require Import Firmware.
From S2P Require Import FirmwareSense.
From S2P Require Import FirmwareSpec.
From S2P Require Import FirmwareRun.
From S2P Require Import FirmwareLive.
From S2P Require Import FirmwareReply.
From S2P Require Import Rp2040Scsi.

Local Open Scope Z_scope.
Local Open Scope rust_scope.

Lemma rp2040_data_runs :
  (exists l, capacity10_data BLOCKS BLOCK_SIZE = Returns l) /\
  capacity16_data BLOCKS BLOCK_SIZE = Panics /\
  (exists l, format_capacities_data BLOCKS BLOCK_SIZE = Returns l).
Proof. split_and!; [eexists; by vm_compute|by vm_compute|eexists; by vm_compute]. Qed.

Lemma wrapping_u32 a b : is_u32 (wrapping_add32 a b).
Proof. unfold wrapping_add32, is_u32. by apply Z.mod_pos_bound. Qed.
Lemma wrapping_add32_small a b : is_u32 (a + b) -> wrapping_add32 a b = a + b.
Proof. intros. by apply Z.mod_small. Qed.
Lemma wrapping_mul32_small a b : is_u32 (a * b) -> wrapping_mul32 a b = a * b.
Proof. intros. by apply Z.mod_small. Qed.

(** [start & !0xfff]: the start of its block. *)
Lemma block_start s : is_u32 s -> Z.land s 0xfffff000 = BLOCK_SIZE * (s / BLOCK_SIZE).
Proof.
  intros [? Hs]. change 0xfffff000 with (Z.ldiff (Z.ones 32) (Z.ones 12)).
  assert (Z.land s (Z.ldiff (Z.ones 32) (Z.ones 12)) = Z.ldiff (Z.land s (Z.ones 32)) (Z.ones 12)) as ->.
  { apply Z.bits_inj'. intros n ?. rewrite Z.land_spec, !Z.ldiff_spec, Z.land_spec.
    by rewrite andb_assoc. }
  rewrite Z.land_ones, Z.mod_small, Z.ldiff_ones_r, Z.shiftl_mul_pow2, Z.shiftr_div_pow2 by
    (unfold u32_modulus in *; lia).
  unfold BLOCK_SIZE. change (2 ^ 12) with 4096. lia.
Qed.

Section Turns.
Context `{!UsbStack, !UsbStackLaws, !FlashChip, !FlashChipLaws}.
Implicit Types v : Drive.

(** The size of [WRITE_BUFFER]. *)
Definition buffered (m : Flash) : Prop := len (WRITE_BUFFER m) = BLOCK_SIZE.

(** The commands on which the handler panics. *)
Definition panics_on (st : State) (k : ScsiCommand) : bool :=
  match k with
  | ReadCapacity16 _ => true
  | Read lba l =>
    let start := wrapping_add32 (wrapping_mul32 BLOCK_SIZE lba) (storage_offset st) in
    let end_ := wrapping_add32 (wrapping_mul32 BLOCK_SIZE lba) (wrapping_mul32 BLOCK_SIZE l) in
    negb (storage_offset st =? wrapping_mul32 l BLOCK_SIZE) &&
    negb ((start <=? end_) && (end_ <=? BLOCK_SIZE * BLOCKS))
  | _ => false
  end.

(** READ of what is left of the blocks. *)
Definition read_blocks (lba l : Z) (st : State) : M Drive (BResult unit) :=
  let start := wrapping_add32 (wrapping_mul32 BLOCK_SIZE lba) (storage_offset st) in
  let end_ := wrapping_add32 (wrapping_mul32 BLOCK_SIZE lba) (wrapping_mul32 BLOCK_SIZE l) in
  let! m := gets MEMORY in
  let! data := lift (slice (FILESYSTEM (chip m)) start end_) in
  let? count := Subclass.write_data data in
  do! move_to (wrapping_add32 (storage_offset st) count) st in
  ret (Ok tt).
Lemma rp2040_process_read_eq lba l v :
  process_read lba l v =
    (if storage_offset (STATE v) =? wrapping_mul32 l BLOCK_SIZE then finish
     else read_blocks lba l (STATE v)) v.
Proof. unfold process_read, bind at 1, gets at 1. by destruct (_ =? _). Qed.

Section Safe.
Context (d : device).
Hypothesis Hd : device_ok d.

Lemma rp2040_process_read_run lba l v :
  in_turn d v v -> wf_device buffered v ->
  if panics_on (STATE v) (Read lba l) then process_read lba l v = Panics
  else wp (process_read lba l) (fun _ v' => turn buffered true v v') v.
Proof.
  intros Hin Hwf. pose proof Hwf as [Ho Hm]. cbn [panics_on].
  unfold wp. rewrite rp2040_process_read_eq.
  destruct (_ =? _); cbn [negb andb]; [by apply (finish_turn d buffered true v v)|]. unfold read_blocks.
  set (start := wrapping_add32 _ _). set (end_ := wrapping_add32 _ _).
  pose proof (FILESYSTEM_len (chip (MEMORY v))) as Hlen.
  pose proof (wrapping_u32 (wrapping_mul32 BLOCK_SIZE lba) (storage_offset (STATE v))) as [Hs _].
  fold start in Hs.
  destruct ((start <=? end_) && (end_ <=? BLOCK_SIZE * BLOCKS)) eqn:Hb; cbn [negb].
  - apply andb_prop in Hb as [?%Z.leb_le ?%Z.leb_le].
    change (wp (let! m := gets MEMORY in
      let! data := lift (slice (FILESYSTEM (chip m)) start end_) in
      let? count := Subclass.write_data data in
      do! move_to (wrapping_add32 (storage_offset (STATE v)) count) (STATE v) in
      ret (Ok tt)) (fun (_ : BResult unit) v' => turn buffered true v v') v).
    wp_steps. apply (wp_write_data d); [apply Hin|]. intros r v' _ Hk Hsame Hn.
    pose proof (in_turn_kept d _ _ _ Hin Hk) as Hin'. pose proof (wf_same _ _ _ Hsame Hwf) as [_ Hm'].
    destruct r as [n|e]; wp_steps; [|by apply (turn_within d); [|eapply wf_same]].
    apply (turn_within d); [by apply (in_turn_same d _ v')|]. split; [apply wrapping_u32|done].
  - unfold bind, gets, lift, gets_o, slice.
    replace ((0 <=? start) && (start <=? end_) && (end_ <=? len (FILESYSTEM (chip (MEMORY v))))) with false;
      [done|]. rewrite Hlen. apply andb_false_iff in Hb. symmetry. rewrite <- andb_assoc.
    apply andb_false_iff. right. by apply andb_false_iff.
Qed.

(** The loop of WRITE ends, on any range. *)
Lemma write_loop_turn lba v :
  in_turn d v v -> wf_device buffered v ->
  wp (loop (buffer_fuel v) (write_round lba)) (fun _ v' => in_turn d v v' /\ wf_device buffered v') v.
Proof.
  intros Hin Hwf.
  apply (wp_loop (fun v' => in_turn d v v' /\ wf_device buffered v')
    (fun v' => len (contents (buf (transport v'))))); [|intros; apply len_nonneg|done|].
  2:{ unfold buffer_fuel. pose proof (in_turn_good _ _ _ Hin) as Hg.
      pose proof (len_contents_le _ (live_buf d _ (good_live d _ Hg))). unfold capacity, len in *. lia. }
  intros v1 [Hin1 Hwf1]. pose proof Hwf1 as [Ho Hm]. unfold buffered in Hm. unfold write_round. wp_steps.
  pose proof (Z.mod_pos_bound (wrapping_add32 (wrapping_mul32 BLOCK_SIZE lba)
    (storage_offset (STATE v1))) BLOCK_SIZE ltac:(done)) as Hbo.
  set (bo := _ mod BLOCK_SIZE) in *.
  assert (0 <= bo <= len (WRITE_BUFFER (MEMORY v1))) as Hbo' by lia.
  wp_steps. apply (wp_read_data d); [apply Hin1|].
  intros r dst v2 Hrun Hk [Hst _] Hdst Hr. wp_steps.
  pose proof (in_turn_kept d _ _ _ Hin1 Hk) as Hin2.
  assert (len (splice (WRITE_BUFFER (MEMORY v1)) bo dst) = BLOCK_SIZE) as Hwb
    by (rewrite len_splice by len_lia; done).
  destruct r as [n|e]; wp_steps.
  2:{ split; [by apply (in_turn_same d _ v2)|]. split; [by rewrite <- Hst in Ho|exact Hwb]. }
  destruct (read_queue d _ _ _ _ _ (in_turn_good _ _ _ Hin1) Hrun) as [Hq Hn].
  unfold move_to. wp_steps. destruct (Z.ltb_spec 0 n); cbn [andb].
  2:{ wp_steps. split; [by apply (in_turn_same d _ v2)|]. split; [apply wrapping_u32|exact Hwb]. }
  destruct (_ =? 0); wp_steps.
  - split; [|cbn in Hq |- *; lia]. split; [by apply (in_turn_same d _ v2)|]. split; [apply wrapping_u32|exact Hwb].
  - split; [by apply (in_turn_same d _ v2)|]. split; [apply wrapping_u32|exact Hwb].
Qed.

Lemma rp2040_process_write_turn lba l v :
  in_turn d v v -> wf_device buffered v ->
  wp (process_write lba l) (fun _ v' => turn buffered true v v') v.
Proof.
  intros Hin Hwf. unfold process_write. wp_steps. destruct (_ =? _); cbn [negb].
  { apply (finish_turn d); [done|apply Hwf]. }
  wp_steps. eapply wp_mono; [by apply write_loop_turn|]. intros [[]|e] v' [Hin' Hwf'].
  - wp_steps. destruct (_ =? _); [apply (finish_turn d); [done|apply Hwf']|].
    wp_steps. by apply (turn_within d).
  - by apply (turn_within d).
Qed.

Lemma rp2040_process_command_run k l v :
  in_turn d v v -> wf_device buffered v ->
  (moves_data k = false -> storage_offset (STATE v) = 0) ->
  if panics_on (STATE v) k then process_command (mkCommand k l) v = Panics
  else wp (process_command (mkCommand k l)) (fun _ v' => turn buffered (moves_data k) v v') v.
Proof.
  intros Hin Hwf Hstart. destruct rp2040_data_runs as ((l10 & H10) & H16 & (lf & Hf)).
  destruct k as [cmd|ev pg al| |ds al|db pc pg sp al|db pc pg sp al| |al|lba n|lba n|al];
    cbn [panics_on process_command kind moves_data];
    try (wp_steps; rewrite ?H10, ?Hf; cbn [owp]; by apply (answer_turn d); [..|apply Hstart]).
  - by apply (refuse_turn d); [..|apply Hstart].
  - by apply (pass_turn d); [..|apply Hstart].
  - by apply (answer_sense_turn d); [..|apply Hstart].
  - unfold bind, lift, gets_o. by rewrite H16.
  - by apply rp2040_process_read_run.
  - by apply rp2040_process_write_turn.
Qed.
End Safe.

(** ** READ and WRITE over all their turns *)

(** After [o] bytes of a READ of [total] bytes from the position [lo]. *)
Definition read_progress (fs0 : list byte) (lo total o : Z) (acc del : list byte) (m : Flash) : Prop :=
  0 <= o <= total /\ FILESYSTEM (chip m) = fs0 /\ acc = zslice lo (lo + o) fs0.

(** The bytes of the blocks that are complete after [o] bytes. *)
Definition programmed (o : Z) : Z := BLOCK_SIZE * (o / BLOCK_SIZE).

(** After [o] bytes of a WRITE: the complete blocks are programmed, what there is of the
    next one is in [WRITE_BUFFER]. *)
Definition write_progress (fs0 : list byte) (lo o : Z) (acc del : list byte) (m : Flash) : Prop :=
  len del = o /\ FILESYSTEM (chip m) = splice fs0 lo (ztake (programmed o) del) /\ buffered m /\
  ztake (o - programmed o) (WRITE_BUFFER m) = zdrop (programmed o) del.

Lemma programmed_spec o :
  0 <= o -> 0 <= programmed o <= o /\ o < programmed o + BLOCK_SIZE /\
  o mod BLOCK_SIZE = o - programmed o.
Proof. unfold programmed, BLOCK_SIZE. intros. dm_lia. Qed.
(** Within the block nothing is programmed, at its end all of it is. *)
Lemma programmed_within o n :
  0 <= o -> 0 <= n -> o - programmed o + n < BLOCK_SIZE -> programmed (o + n) = programmed o.
Proof. unfold programmed, BLOCK_SIZE. intros. dm_lia. Qed.
Lemma programmed_end o n :
  0 <= o -> 0 < n <= BLOCK_SIZE - (o - programmed o) -> (o + n) mod BLOCK_SIZE = 0 ->
  programmed (o + n) = o + n /\ o - programmed o + n = BLOCK_SIZE.
Proof. unfold programmed, BLOCK_SIZE. intros. dm_lia. Qed.

(** [x] goes into [WRITE_BUFFER]. *)
Definition received (o : Z) (x : list byte) (m : Flash) : Flash :=
  set_WRITE_BUFFER (splice (WRITE_BUFFER m) (o - programmed o) (x ++
    zdrop (len x) (zslice (o - programmed o) (len (WRITE_BUFFER m)) (WRITE_BUFFER m)))) m.

Lemma received_spec o x del m :
  0 <= o -> len del = o -> buffered m -> len x <= BLOCK_SIZE - (o - programmed o) ->
  ztake (o - programmed o) (WRITE_BUFFER m) = zdrop (programmed o) del ->
  buffered (received o x m) /\
  ztake (o - programmed o + len x) (WRITE_BUFFER (received o x m)) = zdrop (programmed o) (del ++ x).
Proof.
  intros Ho Hdel Hm Hx Hwb. destruct (programmed_spec o Ho) as (? & ? & _). pose proof (len_nonneg x).
  unfold buffered, received in *. cbn. rewrite splice_prefix by lia. split; [by rewrite len_splice by lia|].
  rewrite ztake_zslice, zslice_splice_app by lia.
  rewrite <- ztake_zslice, Hwb, (ztake_all _ x) by lia. by rewrite zdrop_app_le by lia.
Qed.

Lemma progress_within fs0 lo o acc del x m :
  0 <= o -> write_progress fs0 lo o acc del m -> o - programmed o + len x < BLOCK_SIZE ->
  write_progress fs0 lo (o + len x) acc (del ++ x) (received o x m).
Proof.
  intros Ho (Hdel & Hfs & Hm & Hwb) Hlt. pose proof (len_nonneg x).
  destruct (programmed_spec o Ho) as (? & ? & _).
  destruct (received_spec o x del m Ho Hdel Hm ltac:(lia) Hwb) as [Hm' Hwb'].
  unfold write_progress. rewrite programmed_within by lia. split; [len_lia|].
  split; [|split; [done|]].
  - cbn. by rewrite Hfs, ztake_app_le by lia.
  - rewrite <- Hwb'. f_equal. lia.
Qed.

Lemma progress_end fs0 block o acc del x m :
  0 <= o -> write_progress fs0 (BLOCK_SIZE * block) o acc del m ->
  0 < len x <= BLOCK_SIZE - (o - programmed o) -> (o + len x) mod BLOCK_SIZE = 0 ->
  0 <= block -> BLOCK_SIZE * block + o + len x <= BLOCK_SIZE * BLOCKS -> len fs0 = BLOCK_SIZE * BLOCKS ->
  let m' := received o x m in
  write_progress fs0 (BLOCK_SIZE * block) (o + len x) acc (del ++ x)
    (set_chip (flash_range_erase_and_program
      (filesystem_offset + BLOCK_SIZE * (block + o / BLOCK_SIZE)) (WRITE_BUFFER m') false (chip m')) m').
Proof.
  intros Ho (Hdel & Hfs & Hm & Hwb) Hx Hend Hblock Hfits Hfs0 m'.
  destruct (programmed_spec o Ho) as (? & ? & _).
  destruct (programmed_end o (len x) Ho Hx Hend) as [Hp Hfull].
  destruct (received_spec o x del m Ho Hdel Hm ltac:(lia) Hwb) as [Hm' Hwb'].
  fold m' in Hm', Hwb'. unfold buffered in Hm'. rewrite Hfull, ztake_all in Hwb' by lia.
  unfold write_progress. rewrite Hp. cbn [set_chip chip WRITE_BUFFER]. split; [len_lia|].
  assert (0 <= o / BLOCK_SIZE) by (unfold BLOCK_SIZE; dm_lia).
  assert (programmed o = BLOCK_SIZE * (o / BLOCK_SIZE)) as Hpo by done.
  rewrite program_block by (exact Hm' || (unfold BLOCK_SIZE, BLOCKS in *; lia)).
  split; [|split; [exact Hm'|]].
  - change (chip m') with (chip m). rewrite Hfs, Hwb', Z.mul_add_distr_l, <- Hpo.
    replace (BLOCK_SIZE * block + programmed o) with
      (BLOCK_SIZE * block + len (ztake (programmed o) del)) by len_lia.
    rewrite splice_splice_app by (unfold BLOCK_SIZE, BLOCKS in *; len_lia). f_equal.
    rewrite <- (ztake_app_le (programmed o) del x), ztake_zdrop by lia. by rewrite ztake_all by len_lia.
  - rewrite ztake_le0, zdrop_all by len_lia. done.
Qed.

Section Served.
Context (d : device) (t0 : BulkOnly).
Hypothesis Hd : device_ok d.
Hypothesis Ht0 : good d t0.
Hypothesis Hbt : between t0.
Context (fs0 : list byte) (lba l : Z) (c : CommandBlockWrapper).
Hypothesis Hlba : 0 <= lba.
Hypothesis Hl : 0 <= l.
Hypothesis Hfits : lba + l <= BLOCKS.
Hypothesis Hfs0 : len fs0 = BLOCK_SIZE * BLOCKS.

Local Abbreviation lo := (BLOCK_SIZE * lba).
Local Abbreviation total := (BLOCK_SIZE * l).

Lemma rp2040_total_u32 : is_u32 total.
Proof. unfold is_u32, u32_modulus, BLOCK_SIZE, BLOCKS in *. lia. Qed.
Lemma rp2040_total_run : wrapping_mul32 l BLOCK_SIZE = total.
Proof. rewrite wrapping_mul32_small; rewrite Z.mul_comm; [done|apply rp2040_total_u32]. Qed.
Lemma address_run o :
  0 <= o < total + BLOCK_SIZE -> wrapping_add32 (wrapping_mul32 BLOCK_SIZE lba) o = lo + o.
Proof.
  intros. unfold BLOCK_SIZE, BLOCKS in *.
  rewrite wrapping_mul32_small by (unfold is_u32, u32_modulus; lia).
  apply wrapping_add32_small. unfold is_u32, u32_modulus. lia.
Qed.

Lemma rp2040_read_turn_keeps :
  turn_keeps process_command t0 c (read_progress fs0 lo total) total write_stuck (Read lba l).
Proof.
  intros v acc del ln Hv (Ho & Hfs & Hacc). cbn [process_command kind]. unfold wp. rewrite rp2040_process_read_eq.
  rewrite rp2040_total_run. destruct (Z.eqb_spec (storage_offset (STATE v)) total) as [Heq|Hne].
  { apply (finish_doing d t0 Hd Ht0 Hbt c (read_progress fs0 lo total) total write_stuck v v acc del Hv Heq rp2040_total_u32).
    rewrite Heq in Ho, Hacc. by split. }
  change (wp (read_blocks lba l (STATE v)) (fun (_ : BResult unit) v' =>
    doing_turn t0 c (read_progress fs0 lo total) total write_stuck v v') v).
  unfold read_blocks. rewrite address_run by (unfold BLOCK_SIZE in *; lia).
  rewrite (wrapping_mul32_small BLOCK_SIZE l) by apply rp2040_total_u32. rewrite address_run by (unfold BLOCK_SIZE in *; lia).
  wp_steps. rewrite Hfs. unfold BLOCK_SIZE, BLOCKS in *. wp_steps.
  eapply (serving_write d); [done..|]. intros r v' Hv' [Hst Hm] _ Hn Hgain.
  apply gained_advances with (total := 4096 * l) in Hgain; [|done|len_lia]. destruct r as [k|e]; wp_steps.
  - rewrite wrapping_add32_small by (unfold is_u32, u32_modulus; len_lia).
    eapply (serving_doing d); [done..|by apply (serving_same _ _ _ v')| |exact Hgain]. cbn.
    split; [len_lia|]. rewrite Hm. split; [done|]. rewrite Hacc. cbn [accepted].
    rewrite <- (zslice_app (4096 * lba) (4096 * lba + storage_offset (STATE v))
      (4096 * lba + (storage_offset (STATE v) + k))) by lia.
    f_equal. unfold zslice. rewrite ztake_ztake. f_equal. len_lia.
  - cbn [gained] in Hgain. rewrite Z.add_0_r in Hgain.
    eapply (serving_doing d); [done..| |by rewrite Hst]. rewrite Hst, Hm. cbn [accepted]. by rewrite app_nil_r.
Qed.

(** The host announces data, and not more than the blocks hold. *)
Hypothesis Hdir : direction c = DataOut.
Hypothesis Hdtl : data_transfer_len c <= total.
Hypothesis Hps : d_ps d <= BLOCK_SIZE.

Local Abbreviation progress := (write_progress fs0 lo).
(** In the turn that began in [vt]. *)
Definition writing vt v : Prop :=
  exists acc del, serving t0 c vt v acc del /\ progress (storage_offset (STATE v)) acc del (MEMORY v).

Lemma writing_bound vt v acc del :
  serving t0 c vt v acc del -> len del < total + BLOCK_SIZE.
Proof.
  intros [Ht Hc _ _]. pose proof (transfer_delivered d t0 Hd Ht0 Hbt _ _ _ Ht) as Hlt.
  rewrite Hc in Hlt. specialize (Hlt Hdir). lia.
Qed.

Lemma write_round_keeps vt v :
  storage_offset (STATE vt) <> total -> moved_on vt v -> writing vt v ->
  wp (write_round lba) (fun r v' => writing vt v' /\
    match r with
    | Ok true => moved_on vt v' /\ len (contents (buf (transport v'))) < len (contents (buf (transport v)))
    | _ => advances total read_stuck vt (storage_offset (STATE v'))
    end) v.
Proof.
  intros Hne Hmoved (acc & del & Hv & HP). pose proof HP as (Hdel & _ & Hm & _).
  pose proof (writing_bound _ _ _ _ Hv) as Hbound. pose proof (len_nonneg del).
  set (o := storage_offset (STATE v)) in *. assert (0 <= o) as Ho by lia.
  destruct (programmed_spec o Ho) as (Hp1 & Hp2 & Hp3).
  unfold write_round. wp_steps. fold o. rewrite address_run by lia.
  assert ((lo + o) mod BLOCK_SIZE = o - programmed o) as ->.
  { by rewrite Z.add_comm, Z.mul_comm, Z.mod_add by done. }
  unfold buffered in Hm. wp_steps. rewrite Hm in *.
  eapply (serving_read d); [done..|]. intros r dst v' Hv' [Hst _] Hdst Hr Hrun Hgain.
  apply (moved_advances total read_stuck vt v) in Hgain; [|done|done|unfold BLOCK_SIZE in *; len_lia]. wp_steps.
  destruct r as [n|e]; wp_steps.
  2:{ cbn [gained] in Hgain. rewrite Z.add_0_r in Hgain. split; [|cbn; by rewrite Hst]. exists acc, del. cbn [accepted] in Hv'. rewrite app_nil_r in Hv'.
      split; [by apply (serving_same _ _ _ v')|]. cbn. rewrite Hst. fold o. subst dst.
      rewrite splice_zslice by (rewrite ?Hm; lia). by destruct (MEMORY v). }
  destruct Hr as (x & <- & Hle & ->). pose proof (len_nonneg x).
  destruct (read_queue d _ _ _ _ _ (serving_good d t0 Hd Ht0 Hbt _ _ _ _ _ Hv) Hrun) as [Hq _].
  cbn [accepted] in Hv'. rewrite ztake_app_le, ztake_all in Hv' by lia.
  pose proof (writing_bound _ _ _ _ Hv') as Hbound'.
  rewrite wrapping_add32_small by (unfold is_u32, u32_modulus, BLOCK_SIZE, BLOCKS in *; len_lia).
  assert (set_WRITE_BUFFER (splice (WRITE_BUFFER (MEMORY v)) (o - programmed o)
    (x ++ zdrop (len x) (zslice (o - programmed o) BLOCK_SIZE (WRITE_BUFFER (MEMORY v))))) (MEMORY v) =
    received o x (MEMORY v)) as -> by (by unfold received; rewrite Hm).
  unfold move_to. wp_steps. destruct ((0 <? len x) && ((o + len x) mod BLOCK_SIZE =? 0)) eqn:Hend; wp_steps.
  - apply andb_prop in Hend as [?%Z.ltb_lt Hend%Z.eqb_eq].
    split; [|split; [by apply (moved_more vt v _ (len x))|]; change (transport (set_MEMORY ?m ?w)) with (transport w);
      change (transport (set_STATE ?s ?w)) with (transport w);
      change (transport (set_MEMORY ?m ?w)) with (transport w); lia].
    exists acc, (del ++ x). split; [by apply (serving_same _ _ _ v')|]. cbn [STATE storage_offset set_STATE set_MEMORY set_storage_offset MEMORY].
    assert (len x <= BLOCK_SIZE - (o - programmed o)) by len_lia.
    destruct (programmed_end o (len x) Ho ltac:(lia) Hend) as [Hpe _].
    assert (o + len x <= total) by (unfold programmed, BLOCK_SIZE in *; len_lia).
    rewrite block_start by (unfold is_u32, u32_modulus, BLOCK_SIZE, BLOCKS in *; lia).
    replace ((lo + o) / BLOCK_SIZE) with (lba + o / BLOCK_SIZE)
      by (by rewrite (Z.add_comm lo), (Z.mul_comm BLOCK_SIZE lba), Z.div_add, Z.add_comm by done).
    rewrite wrapping_add32_small.
    2:{ change filesystem_offset with 0x100000. unfold is_u32, u32_modulus, BLOCK_SIZE, BLOCKS in *. dm_lia. }
    by apply progress_end; try done; unfold BLOCK_SIZE in *; lia.
  - split; [|exact Hgain]. exists acc, (del ++ x). split; [by apply (serving_same _ _ _ v')|].
    cbn [STATE storage_offset set_STATE set_MEMORY set_storage_offset MEMORY].
    apply progress_within; [done|done|]. apply andb_false_iff in Hend as [?%Z.ltb_ge|Hend%Z.eqb_neq]; [lia|].
    assert (len x <= BLOCK_SIZE - (o - programmed o)) by len_lia.
    unfold programmed, BLOCK_SIZE in *. dm_lia.
Qed.

Lemma writing_doing vt v :
  writing vt v -> advances total read_stuck vt (storage_offset (STATE v)) ->
  doing_turn t0 c progress total read_stuck vt v.
Proof. intros (acc & del & Hv & HP) Ha. by eapply (serving_doing d). Qed.

Lemma write_finish vt v :
  writing vt v -> storage_offset (STATE v) = total ->
  wp finish (fun _ v' => doing_turn t0 c progress total read_stuck vt v') v.
Proof.
  intros (acc & del & Hv & HP) Ho. rewrite Ho in HP.
  eapply (finish_doing d); [done..|apply rp2040_total_u32|done].
Qed.

Lemma write_loop_keeps v :
  storage_offset (STATE v) <> total -> writing v v ->
  wp (loop (buffer_fuel v) (write_round lba)) (fun _ v' =>
    writing v v' /\ advances total read_stuck v (storage_offset (STATE v'))) v.
Proof.
  intros Hne Hw.
  apply (wp_loop (fun v' => moved_on v v' /\ writing v v') (fun v' => len (contents (buf (transport v')))));
    [|intros; apply len_nonneg|by split; [left|]|].
  - intros v1 [Hmoved Hw1]. eapply wp_mono; [by apply write_round_keeps|].
    intros [[]|e] v2 [Hw2 Hr]; [|done..]. by destruct Hr.
  - destruct Hw as (acc & del & Hv & _). unfold buffer_fuel.
    pose proof (serving_good d t0 Hd Ht0 Hbt _ _ _ _ _ Hv) as Hg.
    pose proof (len_contents_le _ (live_buf d _ (good_live d _ Hg))). unfold capacity, len in *. lia.
Qed.

Lemma rp2040_write_turn_keeps :
  turn_keeps process_command t0 c progress total read_stuck (Write lba l).
Proof.
  intros v acc del ln Hv HP. assert (writing v v) as Hw by (by exists acc, del).
  cbn [process_command kind]. unfold process_write. rewrite rp2040_total_run. wp_steps.
  destruct (Z.eqb_spec (storage_offset (STATE v)) total) as [Heq|Hne]; cbn [negb]; [by apply write_finish|].
  wp_steps. eapply wp_mono; [by apply write_loop_keeps|].
  intros [[]|e] v' [Hw' Ha]; [|by apply writing_doing].
  wp_steps. destruct (Z.eqb_spec (storage_offset (STATE v')) total); [by apply write_finish|].
  wp_steps. by apply writing_doing.
Qed.
End Served.

(** The turns of the handler keep the invariant. *)
Lemma rp2040_process_command_safe `{!TryFromPrimitive} v k :
  device_inv buffered (Scsi.parse_cb false) moves_data v -> awaits_user (transport v) ->
  Scsi.parse_cb false (command_bytes (transport v)) = Returns k ->
  let c := mkCommand k (Bbb.lun (Bbb.cbw (transport v))) in
  if panics_on (STATE v) k then process_command c v = Panics
  else wp (process_command c) (fun _ v' => turn buffered (moves_data k) v v') v.
Proof.
  intros [Hr Hwf Hpl] Hu Hk c. pose proof Hr as (d & Hd & Hg)%reachable_good.
  apply (rp2040_process_command_run d); [by apply in_turn_refl|done|by eapply place_start].
Qed.
Lemma rp2040_drive_safe `{!TryFromPrimitive} v k :
  device_inv buffered (Scsi.parse_cb false) moves_data v -> awaits_user (transport v) ->
  Scsi.parse_cb false (command_bytes (transport v)) = Returns k ->
  let c := mkCommand k (Bbb.lun (Bbb.cbw (transport v))) in
  process_command c v = Panics \/
  wp (process_command c) (fun _ v' => turn buffered (moves_data k) v v') v.
Proof.
  intros Hv Hu Hk c. pose proof (rp2040_process_command_safe v k Hv Hu Hk) as Hrun. cbv zeta in Hrun.
  destruct (panics_on _ _); auto.
Qed.

(** ** The whole of a READ or WRITE *)

Lemma rp2040_read_sense lba l s : keeps_sense s (process_read (H := H) lba l).
Proof. unfold process_read. keep_sense. Qed.
Lemma rp2040_write_sense lba l s : keeps_sense s (process_write (H := H) lba l).
Proof. unfold process_write, write_round. keep_sense. Qed.

Section Ended.
Context `{!TryFromPrimitive} (d : device) (vb v0 v : Drive) (lba l : Z).
Hypothesis Hstart : command_start buffered d vb v0.
Hypothesis Hloop : rtc (loop_step (Scsi.parse_cb false) process_command) v0 v.
Local Abbreviation c := (Bbb.cbw (transport v0)).
Local Abbreviation fs := (FILESYSTEM (chip (MEMORY vb))).
Hypothesis Hfits : lba + l <= BLOCKS.
Hypothesis Hout : out (transport v).

Lemma rp2040_read_ended :
  Scsi.parse_cb false (command_bytes (transport v0)) = Returns (Read lba l) ->
  let data := zslice (BLOCK_SIZE * lba) (BLOCK_SIZE * (lba + l)) fs in
  len data = BLOCK_SIZE * l /\ FILESYSTEM (chip (MEMORY v)) = fs /\ STATE v = STATE vb /\
  exists del, command_ended d (transport vb) c v data del
    (mkStatusAndResidue Passed (saturating_sub (data_transfer_len c) (BLOCK_SIZE * l))).
Proof.
  intros Hk data. destruct Hstart as [Hr Hbt Hb Hd Hg Hg0 Hwb Hm Hst], Hout as [Hp Hq].
  pose proof Hb as (_ & Hph & _).
  pose proof (scsi_decoded_range false d _ _ Hg0 Hph Hk) as [[Hlba _] [Hl _]].
  pose proof (FILESYSTEM_len (chip (MEMORY vb))) as Hfs.
  destruct (command_served (Scsi.parse_cb false) process_command d (transport vb) Hd Hg Hbt c
    (read_progress fs (BLOCK_SIZE * lba) (BLOCK_SIZE * l)) (BLOCK_SIZE * l)
    write_stuck (Read lba l) Hr Hk) with (v0 := v0) (v := v)
    as (acc & del & (Ho & Hm' & Hacc) & Hst' & Hend);
    [by apply (rp2040_read_turn_keeps d)|intros; apply rp2040_read_sense|done|done| |done|done|done|].
  { split; [unfold BLOCK_SIZE; lia|]. split; [by rewrite Hm|]. by rewrite zslice_empty by lia. }
  replace (BLOCK_SIZE * lba + BLOCK_SIZE * l) with (BLOCK_SIZE * (lba + l)) in Hacc by lia. fold data in Hacc.
  split; [|split; [done|split; [congruence|]]; exists del; by rewrite <- Hacc].
  subst data. unfold BLOCK_SIZE, BLOCKS in *. len_lia.
Qed.

Lemma rp2040_write_ended :
  direction c = DataOut -> data_transfer_len c <= BLOCK_SIZE * l -> d_ps d <= BLOCK_SIZE ->
  Scsi.parse_cb false (command_bytes (transport v0)) = Returns (Write lba l) ->
  STATE v = STATE vb /\ exists data,
  len data = BLOCK_SIZE * l /\ FILESYSTEM (chip (MEMORY v)) = splice fs (BLOCK_SIZE * lba) data /\
  command_ended d (transport vb) c v [] data
    (mkStatusAndResidue Passed (saturating_sub (data_transfer_len c) (BLOCK_SIZE * l))).
Proof.
  intros Hdir Hdtl Hps Hk. destruct Hstart as [Hr Hbt Hb Hd Hg Hg0 Hwb Hm Hst], Hout as [Hp Hq].
  pose proof Hb as (_ & Hph & _).
  pose proof (scsi_decoded_range false d _ _ Hg0 Hph Hk) as [[Hlba _] [Hl _]].
  pose proof (FILESYSTEM_len (chip (MEMORY vb))) as Hfs.
  destruct (command_served (Scsi.parse_cb false) process_command d (transport vb) Hd Hg Hbt c
    (write_progress fs (BLOCK_SIZE * lba)) (BLOCK_SIZE * l) read_stuck (Write lba l) Hr Hk)
    with (v0 := v0) (v := v)
    as (acc & del & (Hlen & Hfs' & _) & Hst' & Hend);
    [by apply (rp2040_write_turn_keeps d)|intros; apply rp2040_write_sense|done|done| |done|done|done|].
  { rewrite Hm. split; [done|]. split; [|split; [done|]].
    - by rewrite ztake_le0, splice_nil by (unfold BLOCK_SIZE; lia || done).
    - by rewrite ztake_le0 by done. }
  assert (acc = []) as ->.
  { apply len_zero_inv. pose proof (len_nonneg acc). pose proof (ended_within _ _ _ _ _ _ _ Hend) as Hw.
    unfold within in Hw. rewrite wanted_not_in in Hw by congruence. lia. }
  split; [congruence|]. exists del. split; [done|]. split; [|done].
  rewrite Hfs', ztake_all; [done|]. unfold programmed. rewrite Hlen, (Z.mul_comm _ l), Z.div_mul by done. lia.
Qed.
End Ended.
End Turns.

(** ** Runs on the test bus *)

(** A chip as the list of the blocks that were programmed, the last one first. *)
Definition program (b : Z * list byte) (fs : list byte) : list byte :=
  if (0 <=? b.1) && (b.1 <? BLOCKS) && (len b.2 =? BLOCK_SIZE) then splice fs (BLOCK_SIZE * b.1) b.2 else fs.
#[export] Instance list_chip : FlashChip := {
  Chip := list (Z * list byte);
  FILESYSTEM chip := foldr program (zreplicate (BLOCK_SIZE * BLOCKS) (byte_of 0xFF)) chip;
  flash_range_erase_and_program addr data _ chip :=
    ((addr - filesystem_offset) / BLOCK_SIZE, data) :: chip
}.
Lemma len_program b fs : len fs = BLOCK_SIZE * BLOCKS -> len (program b fs) = BLOCK_SIZE * BLOCKS.
Proof.
  intros Hfs. unfold program. destruct (_ && _) eqn:Hb; [|done].
  apply andb_prop in Hb as [[? ?]%andb_prop ?]. rewrite len_splice; unfold BLOCK_SIZE, BLOCKS in *; lia.
Qed.
#[export] Instance list_chip_laws : FlashChipLaws.
Proof.
  assert (forall chip : Chip, len (FILESYSTEM chip) = BLOCK_SIZE * BLOCKS) as Hlen.
  { intros chip. cbn. induction chip as [|b chip IH]; cbn [foldr]; [|by apply len_program].
    rewrite len_zreplicate. by unfold BLOCK_SIZE, BLOCKS. }
  split; [done|]. intros block data use_boot2 chip Hblock Hdata. cbn [FILESYSTEM list_chip flash_range_erase_and_program foldr].
  assert ((filesystem_offset + BLOCK_SIZE * block - filesystem_offset) / BLOCK_SIZE = block) as ->
    by (rewrite Z.add_simpl_l, Z.mul_comm; by apply Z.div_mul).
  unfold program at 1. cbn [fst snd]. rewrite Hdata, Z.eqb_refl.
  by replace ((0 <=? block) && (block <? BLOCKS)) with true by lia.
Qed.

(** The drive when it enters its main loop, with an erased chip; its buffer holds a block,
    as in the firmware; packets of 512 bytes keep the runs short. The wrappers of READ (10)
    and WRITE (10) of its block 1. *)
Definition drive (t : MockBbb) : Device (Scsi (@BulkOnly MockStack)) Flash :=
  mkDevice (mkScsi (0 : @InterfaceNumber MockStack) t) State_reset
    (mkFlash _ [] (zreplicate BLOCK_SIZE x00)).
Definition wrapper (host : Host) (opcode : Z) : list byte :=
  splice (cbw 4096 host) 14 (map byte_of [10; opcode; 0; 0; 0; 0; 1; 0; 0; 1; 0]).
Definition before (w : list byte) : MockBbb := at_ (history_on (zreplicate BLOCK_SIZE x00) 512 w []).
Definition read_before : MockBbb := before (wrapper HostIn READ_10).
Definition write_before : MockBbb := before (wrapper HostOut WRITE_10).
Lemma rp2040_read_before_reachable : reachable read_before.
Proof. apply at_reachable; [lia|by vm_compute]. Qed.
Lemma rp2040_write_before_reachable : reachable write_before.
Proof. apply at_reachable; [lia|by vm_compute]. Qed.

(** ** Theorems *)

(** C16: WRITE (10) on the flash drive, end to end: a WRITE that lies within the drive and
    whose wrapper announces data from the host, not more than the blocks hold, over all
    the turns that it takes in the main loop, with packets that a block can hold: when its
    status wrapper is out, the flash holds in those blocks the bytes that the host sent
    after the wrapper, in order, each block programmed once it was complete, and is
    unchanged elsewhere; the status is Passed without residue. *)
Theorem rp2040_write_served `{!UsbStack, !UsbStackLaws, !TryFromPrimitive, !FlashChip, !FlashChipLaws}
    (vi vb v0 v : Drive) (lba l : Z) :
  command_begins buffered (Scsi.parse_cb false) process_command vi vb v0 ->
  rtc (loop_step (Scsi.parse_cb false) process_command) v0 v ->
  Scsi.parse_cb false (command_bytes (transport v0)) = Returns (Write lba l) ->
  lba + l <= BLOCKS ->
  direction (Bbb.cbw (transport v0)) = DataOut ->
  data_transfer_len (Bbb.cbw (transport v0)) <= BLOCK_SIZE * l ->
  max_packet_size (out_ep (transport vb)) <= BLOCK_SIZE ->
  Bbb.state (transport v) = StatusTransfer -> contents (buf (transport v)) = [] ->
  let c := Bbb.cbw (transport v0) in
  exists p data rest,
    CBW_LEN <= len (pending (transport vb) ++ p) /\ decode_cbw (ztake CBW_LEN (pending (transport vb) ++ p)) = Some c /\
    out_log (bus (transport v)) = out_log (bus (transport vb)) ++ p ++ data ++ rest /\
    len data = BLOCK_SIZE * l /\
    FILESYSTEM (chip (MEMORY v)) = splice (FILESYSTEM (chip (MEMORY vb))) (BLOCK_SIZE * lba) data /\
    in_log (bus (transport v)) = in_log (bus (transport vb)) ++ csw_bytes c (mkStatusAndResidue Passed 0).
Proof.
  intros Hbegins Hloop Hk Hfits Hdir Hdtl Hps Hp Hq c.
  destruct (command_begins_start _ _ _ _ rp2040_drive_safe _ _ _ Hbegins) as (d & Hs).
  rewrite (live_out d _ (good_live d _ (start_good _ _ _ _ Hs))), (d_same_ps d (start_device _ _ _ _ Hs)) in Hps.
  destruct (rp2040_write_ended d vb v0 v lba l Hs Hloop Hfits (conj Hp Hq) Hdir Hdtl Hps Hk)
    as (_ & data & Hlen & Hst & [Hin (p & rest & Hout & Hp1 & Hdec & _) _ _]).
  exists p, data, rest. do 5 (split; [done|]). rewrite Hin. unfold payload, c. rewrite Hdir.
  unfold saturating_sub. by rewrite Z.max_l by lia.
Qed.

Local Abbreviation write_run :=
  (do_events (Scsi.parse_cb false) process_command
     ([EHost (zreplicate 4096 (byte_of 0xAA)); EUsb] ++ replicate 8 ECommand)
     (first_command (drive write_before))).

Lemma rp2040_write_served_witness :
  match write_run with
  | Some v => exists data, len data = BLOCK_SIZE * 1 /\ FILESYSTEM (chip (MEMORY v)) =
      splice (FILESYSTEM (chip (MEMORY (drive write_before)))) (BLOCK_SIZE * 1) data
  | None => False
  end.
Proof.
  assert (ended write_run = true) as Hend by (by vm_compute).
  destruct (ended_spec _ _ _ _ Hend) as (v & -> & Hloop & Hp & Hq).
  assert (command_begins buffered (Scsi.parse_cb false) process_command (drive write_before)
    (drive write_before) (first_command (drive write_before))) as Hb
    by (apply first_command_begins; [exact rp2040_write_before_reachable|by vm_compute..]).
  assert (Scsi.parse_cb false (command_bytes (transport (first_command (drive write_before)))) = Returns (Write 1 1)) as Hk
    by (by vm_compute).
  assert (direction (Bbb.cbw (transport (first_command (drive write_before)))) = DataOut) as Hdir by (by vm_compute).
  assert (data_transfer_len (Bbb.cbw (transport (first_command (drive write_before)))) <= BLOCK_SIZE * 1) as Hdtl
    by (by vm_compute).
  assert (1 + 1 <= BLOCKS) as Hfits by (by vm_compute).
  assert (max_packet_size (out_ep write_before) <= BLOCK_SIZE) as Hps by (by vm_compute).
  destruct (rp2040_write_served _ _ _ v 1 1 Hb Hloop Hk Hfits Hdir Hdtl Hps Hp Hq) as (p & data & rest & _ & _ & _ & Hlen & Hst & _).
  exists data. exact (conj Hlen Hst).
Defined.

(** READ (10) on the flash drive, end to end: a READ that lies within the drive and
    whose wrapper asks for data from the device, over all the turns that it takes in the
    main loop: when its status wrapper is out, the wire has the blocks of the flash, in
    order, 0xFF up to the length that the host asked for, and the status Passed with what
    was missing as residue; the flash is unchanged. *)
Lemma rp2040_read_served `{!UsbStack, !UsbStackLaws, !TryFromPrimitive, !FlashChip, !FlashChipLaws}
    (vi vb v0 v : Drive) (lba l : Z) :
  command_begins buffered (Scsi.parse_cb false) process_command vi vb v0 ->
  rtc (loop_step (Scsi.parse_cb false) process_command) v0 v ->
  Scsi.parse_cb false (command_bytes (transport v0)) = Returns (Read lba l) ->
  lba + l <= BLOCKS -> direction (Bbb.cbw (transport v0)) = DataIn ->
  Bbb.state (transport v) = StatusTransfer -> contents (buf (transport v)) = [] ->
  let c := Bbb.cbw (transport v0) in
  let fs := FILESYSTEM (chip (MEMORY vb)) in
  let missing := data_transfer_len c - BLOCK_SIZE * l in
  FILESYSTEM (chip (MEMORY v)) = fs /\ 0 <= missing /\
  in_log (bus (transport v)) = in_log (bus (transport vb)) ++
    zslice (BLOCK_SIZE * lba) (BLOCK_SIZE * (lba + l)) fs ++
    zreplicate missing FILL_BYTE ++ csw_bytes c (mkStatusAndResidue Passed missing).
Proof.
  intros Hbegins Hloop Hk Hfits Hdir Hp Hq c fs missing.
  destruct (command_begins_start _ _ _ _ rp2040_drive_safe _ _ _ Hbegins) as (d & Hs).
  destruct (rp2040_read_ended d vb v0 v lba l Hs Hloop Hfits (conj Hp Hq) Hk) as (Hlen & Hm & _ & del & [Hin _ Hw _]).
  unfold within in Hw. rewrite wanted_in in Hw by done.
  split; [done|]. split; [subst missing; fold c in Hw; lia|].
  rewrite Hin. unfold payload. fold c in Hdir |- *. rewrite Hdir, <- app_assoc, Hlen.
  unfold saturating_sub. by rewrite (Z.max_r 0) by (subst c; lia).
Qed.

Local Abbreviation read_run :=
  (do_events (Scsi.parse_cb false) process_command ([ECommand; ECommand] ++ replicate 7 EUsb)
     (first_command (drive read_before))).

(** Block 1 of an erased chip. *)
Lemma rp2040_read_served_witness :
  match read_run with
  | Some v => exists m, 0 <= m /\ in_log (bus (transport v)) = in_log (bus read_before) ++
      zslice (BLOCK_SIZE * 1) (BLOCK_SIZE * (1 + 1)) (FILESYSTEM (chip (MEMORY (drive read_before)))) ++
      zreplicate m FILL_BYTE ++
      csw_bytes (Bbb.cbw (transport (first_command (drive read_before)))) (mkStatusAndResidue Passed m)
  | None => False
  end.
Proof.
  assert (ended read_run = true) as Hend by (by vm_compute).
  destruct (ended_spec _ _ _ _ Hend) as (v & -> & Hloop & Hp & Hq).
  assert (command_begins buffered (Scsi.parse_cb false) process_command (drive read_before)
    (drive read_before) (first_command (drive read_before))) as Hb
    by (apply first_command_begins; [exact rp2040_read_before_reachable|by vm_compute..]).
  assert (Scsi.parse_cb false (command_bytes (transport (first_command (drive read_before)))) = Returns (Read 1 1)) as Hk
    by (by vm_compute).
  assert (direction (Bbb.cbw (transport (first_command (drive read_before)))) = DataIn) as Hdir by (by vm_compute).
  assert (1 + 1 <= BLOCKS) as Hfits by (by vm_compute).
  destruct (rp2040_read_served _ _ _ v 1 1 Hb Hloop Hk Hfits Hdir Hp Hq) as (_ & Hm & Hin).
  eexists. exact (conj Hm Hin).
Defined.

(** READ (10) on the flash drive completes: a READ that lies within the drive and whose
    wrapper asks for at least its blocks, driven by the main loop with a host that takes a
    packet when there is one: not more rounds pass than there are bytes to move, and until
    the status wrapper is out another one runs, without a panic. *)
Lemma rp2040_read_completes `{!UsbStack, !UsbStackLaws, !TryFromPrimitive, !FlashChip, !FlashChipLaws}
    (vi vb v0 v : Drive) (lba l : Z) (n : nat) :
  command_begins buffered (Scsi.parse_cb false) process_command vi vb v0 ->
  driven (Scsi.parse_cb false) process_command n v0 v ->
  Scsi.parse_cb false (command_bytes (transport v0)) = Returns (Read lba l) ->
  lba + l <= BLOCKS ->
  direction (Bbb.cbw (transport v0)) = DataIn ->
  BLOCK_SIZE * l <= data_transfer_len (Bbb.cbw (transport v0)) ->
  Z.of_nat n <= BLOCK_SIZE * l + data_transfer_len (Bbb.cbw (transport v0)) + CSW_LEN + 1 /\
  (out (transport v) \/ goes_on (Scsi.parse_cb false) process_command v).
Proof.
  intros Hbegins Hdriven Hk Hfits Hdir Htot.
  destruct (command_begins_start _ _ _ _ rp2040_drive_safe _ _ _ Hbegins) as (d & Hs).
  pose proof Hs as [_ Hbt [_ [Hph _]] Hd Hg Hg0 _ _].
  pose proof (scsi_decoded_range false d _ _ Hg0 Hph Hk) as [[Hlba _] [Hl _]].
  set (fs := FILESYSTEM (chip (MEMORY vb))).
  assert (len fs = BLOCK_SIZE * BLOCKS) as Hfs by (apply FILESYSTEM_len).
  apply (in_completes buffered _ _ d vb v0 n v Hs Hdriven
    (read_progress fs (BLOCK_SIZE * lba) (BLOCK_SIZE * l)) _ _ Hk) with (fine := fun _ => True); [..|done|done|done| |].
  - split; [unfold BLOCK_SIZE; lia|]. split; [done|]. by rewrite zslice_empty by lia.
  - unfold BLOCK_SIZE in *. lia.
  - by apply (rp2040_read_turn_keeps d).
  - intros o acc del m (Ho & _ & ->) _. unfold BLOCK_SIZE, BLOCKS in *. split; [len_lia|lia].
Qed.

Local Abbreviation read_rounds :=
  (do_lives (Scsi.parse_cb false) process_command (replicate 6 LRound)
     (first_command (drive read_before))).

Lemma rp2040_read_completes_witness :
  match read_rounds with
  | Some v => out (transport v) \/ goes_on (Scsi.parse_cb false) process_command v
  | None => False
  end.
Proof.
  assert (is_run read_rounds = true) as Hrun by (by vm_compute).
  destruct (do_lives_spec _ _ _ _ Hrun) as (v & -> & Hdriven).
  assert (command_begins buffered (Scsi.parse_cb false) process_command (drive read_before)
    (drive read_before) (first_command (drive read_before))) as Hb
    by (apply first_command_begins; [exact rp2040_read_before_reachable|by vm_compute..]).
  assert (Scsi.parse_cb false (command_bytes (transport (first_command (drive read_before)))) =
    Returns (Read 1 1)) as Hk by (by vm_compute).
  assert (direction (Bbb.cbw (transport (first_command (drive read_before)))) = DataIn) as Hdir by (by vm_compute).
  assert (BLOCK_SIZE * 1 <= data_transfer_len (Bbb.cbw (transport (first_command (drive read_before))))) as Htot
    by (by vm_compute).
  assert (1 + 1 <= BLOCKS) as Hfits by (by vm_compute).
  exact (proj2 (rp2040_read_completes _ _ _ v 1 1 _ Hb Hdriven Hk Hfits Hdir Htot)).
Defined.

(** C19: WRITE (10) on the flash drive completes: a WRITE that lies within the drive, of
    exactly the data that its wrapper announces, in packets that a block can hold, driven by
    the main loop with a host that sends a packet when there is room for one, and no more
    than it announced: not more rounds pass than there are bytes to move, and until the
    status wrapper is out another one runs, without a panic. *)
Theorem rp2040_write_completes `{!UsbStack, !UsbStackLaws, !TryFromPrimitive, !FlashChip, !FlashChipLaws}
    (vi vb v0 v : Drive) (lba l : Z) (n : nat) :
  command_begins buffered (Scsi.parse_cb false) process_command vi vb v0 ->
  driven (Scsi.parse_cb false) process_command n v0 v ->
  Scsi.parse_cb false (command_bytes (transport v0)) = Returns (Write lba l) ->
  lba + l <= BLOCKS ->
  direction (Bbb.cbw (transport v0)) = DataOut ->
  data_transfer_len (Bbb.cbw (transport v0)) = BLOCK_SIZE * l ->
  max_packet_size (out_ep (transport vb)) <= BLOCK_SIZE ->
  sent_announced (transport vb) (out_log (bus (transport v))) (BLOCK_SIZE * l) ->
  Z.of_nat n <= 2 * (BLOCK_SIZE * l) + CSW_LEN + 1 /\
  (out (transport v) \/ goes_on (Scsi.parse_cb false) process_command v).
Proof.
  intros Hbegins Hdriven Hk Hfits Hdir Htot Hps Hsent.
  destruct (command_begins_start _ _ _ _ rp2040_drive_safe _ _ _ Hbegins) as (d & Hs).
  pose proof Hs as [_ Hbt [_ [Hph _]] Hd Hg Hg0 Hwb _].
  pose proof (scsi_decoded_range false d _ _ Hg0 Hph Hk) as [[Hlba _] [Hl _]].
  rewrite (live_out d _ (good_live d _ Hg)), (d_same_ps d Hd) in Hps.
  set (fs := FILESYSTEM (chip (MEMORY vb))).
  assert (len fs = BLOCK_SIZE * BLOCKS) as Hfs by (apply FILESYSTEM_len).
  destruct (out_completes buffered _ _ d vb v0 n v Hs Hdriven
    (write_progress fs (BLOCK_SIZE * lba)) (BLOCK_SIZE * l) (Write lba l) Hk) with
    (fine := fun sent => sent_announced (transport vb) sent (BLOCK_SIZE * l)) as [Hn Hgo].
  - split; [done|]. split; [by rewrite ztake_le0, splice_nil by (unfold BLOCK_SIZE; lia || done)|].
    split; [done|]. by rewrite ztake_le0 by done.
  - unfold BLOCK_SIZE in *. lia.
  - intros sent x. apply sent_announced_prefix.
  - done.
  - done.
  - apply (rp2040_write_turn_keeps d); done || lia.
  - by intros o acc del m (Hdel & _).
  - intros o acc del t m Ht Hc (Hdel & _) Hf. rewrite <- Hdel, <- Htot, <- Hc.
    apply (delivered_announced d _ Hd Hg Hbt acc del t Ht). by rewrite Hc, Htot.
  - split; [lia|done].
Qed.

Local Abbreviation write_rounds :=
  (do_lives (Scsi.parse_cb false) process_command (LHost (zreplicate 4096 (byte_of 0xAA)) :: replicate 4 LRound)
     (first_command (drive write_before))).

Lemma rp2040_write_completes_witness :
  match write_rounds with
  | Some v => out (transport v) \/ goes_on (Scsi.parse_cb false) process_command v
  | None => False
  end.
Proof.
  assert (is_run_to (fun v => bool_decide (sent_announced write_before (out_log (bus (transport v))) (BLOCK_SIZE * 1)))
    write_rounds = true) as Hrun by (by vm_compute).
  destruct (do_lives_to _ _ _ _ _ Hrun) as (v & -> & Hdriven & Hsent).
  assert (command_begins buffered (Scsi.parse_cb false) process_command (drive write_before)
    (drive write_before) (first_command (drive write_before))) as Hb
    by (apply first_command_begins; [exact rp2040_write_before_reachable|by vm_compute..]).
  assert (Scsi.parse_cb false (command_bytes (transport (first_command (drive write_before)))) = Returns (Write 1 1)) as Hk
    by (by vm_compute).
  assert (direction (Bbb.cbw (transport (first_command (drive write_before)))) = DataOut) as Hdir by (by vm_compute).
  assert (data_transfer_len (Bbb.cbw (transport (first_command (drive write_before)))) = BLOCK_SIZE * 1) as Htot
    by (by vm_compute).
  assert (1 + 1 <= BLOCKS) as Hfits by (by vm_compute).
  assert (max_packet_size (out_ep write_before) <= BLOCK_SIZE) as Hps by (by vm_compute).
  apply bool_decide_eq_true in Hsent.
  exact (proj2 (rp2040_write_completes _ _ _ v 1 1 _ Hb Hdriven Hk Hfits Hdir Htot Hps Hsent)).
Defined.

(** WRITE of one block, in a wrapper that announces two, on an erased chip: the loop goes on
    behind the end of the command. The second block is programmed too, and the command waits
    for a status that is not set. *)
Definition overrun_before : MockBbb :=
  before (splice (wrapper HostOut WRITE_10) 8 (to_le_bytes 4 (BLOCK_SIZE * 2))).
Local Abbreviation overrun :=
  (do_events (Scsi.parse_cb false) process_command
    (EHost (zreplicate (BLOCK_SIZE * 2) (byte_of 0xAA)) :: concat (replicate 12 [EUsb; ECommand]))
    (first_command (drive overrun_before))).
Lemma rp2040_write_overruns :
  waits_at (BLOCK_SIZE * 2) overrun = true /\
  match overrun with
  | Some v => bool_decide (zslice BLOCK_SIZE (BLOCK_SIZE * 3) (FILESYSTEM (chip (MEMORY v))) =
                           zreplicate (BLOCK_SIZE * 2) (byte_of 0xAA))
  | None => false
  end = true.
Proof. split; by vm_compute. Qed.

Lemma rp2040_process_reply `{!UsbStack, !FlashChip} k r l (v : Drive) :
  scsi_reply inquiry_data BLOCKS BLOCK_SIZE k = Some r ->
  process_command (mkCommand k l) v = run_reply r v.
Proof.
  destruct k; cbn [scsi_reply process_command kind];
    try (destruct (_ BLOCKS BLOCK_SIZE) as [data| |] eqn:Hdata); intros [= <-]; try done;
    unfold bind, lift, gets_o; by rewrite ?Hdata.
Qed.

(** The commands that the drive answers at once, end to end: the answer with its status, or,
    when the host asks for less than the whole answer, nothing and no status. *)
Lemma rp2040_replies `{!UsbStack, !UsbStackLaws, !TryFromPrimitive, !FlashChip, !FlashChipLaws}
    (vi vb v0 v : Drive) (k : ScsiCommand) (r : reply) (n : nat) :
  command_begins buffered (Scsi.parse_cb false) process_command vi vb v0 ->
  driven (Scsi.parse_cb false) process_command n v0 v ->
  Scsi.parse_cb false (command_bytes (transport v0)) = Returns k ->
  scsi_reply inquiry_data BLOCKS BLOCK_SIZE k = Some r ->
  replied (Scsi.parse_cb false) process_command r vb v0 n v.
Proof.
  intros Hbegins Hdriven Hk Hreply.
  destruct (command_begins_start _ _ _ _ rp2040_drive_safe _ _ _ Hbegins) as (d & Hs).
  apply (reply_served buffered _ _ d r k vb v0 Hs Hk); [|done]. intros l v1. by apply rp2040_process_reply.
Qed.

(** [main] comes to its loop. *)
Lemma rp2040_boot_run `{!UsbStack, !UsbStackLaws, !FlashChip}
    (USB_TRANSPORT_BUF : list byte) (chip : Chip) (usb_bus : Bus) :
  len USB_TRANSPORT_BUF = BLOCK_SIZE -> bus_fresh usb_bus ->
  owp (boot USB_TRANSPORT_BUF chip usb_bus) (powered_on buffered).
Proof.
  intros Hbuf Hb. unfold boot.
  by apply (power_on_run buffered); [..|split; [|rewrite Hbuf; split]| |].
Qed.

(** C25: [main] comes to its loop. In any run from there the transport is reachable, the
    globals are in range, and the offset is zero but in the course of a READ or WRITE. A
    turn of the main loop panics exactly on READ CAPACITY (16) and on a READ whose range,
    with the wrap-around of 32-bit words, does not lie within the drive. A WRITE never does,
    whatever it addresses: its loop ends, within a round per byte that was received. Every
    other turn returns and keeps all that; out of the user's turn nothing happens. A whole
    round keeps it too, and panics only if its turn does ([round_keeps]), when in it the
    stack does not reset the class ([ordinary]); when it does, the round that finds the stack
    in its default state brings it back. *)
Theorem rp2040_poll_command_safe
    `{!UsbStack, !UsbStackLaws, !TryFromPrimitive, !FlashChip, !FlashChipLaws}
    (USB_TRANSPORT_BUF : list byte) (chip : Chip) (usb_bus : Bus) :
  let parse_cb := Scsi.parse_cb false in
  let main_poll_command := main_poll_command parse_cb process_command in
  len USB_TRANSPORT_BUF = BLOCK_SIZE -> bus_fresh usb_bus ->
  exists vi, boot USB_TRANSPORT_BUF chip usb_bus = Returns vi /\
  forall v, rtc (run_step parse_cb process_command) vi v ->
  device_inv buffered parse_cb moves_data v /\
  (~ awaits_user (transport v) -> main_poll_command v = Returns (Ok tt, v)) /\
  (awaits_user (transport v) -> exists k, parse_cb (command_bytes (transport v)) = Returns k /\
     if panics_on (STATE v) k then main_poll_command v = Panics
     else wp main_poll_command (fun _ v' => device_inv buffered parse_cb moves_data v') v) /\
  (forall calls event default, Forall ordinary calls ->
     round_keeps buffered parse_cb moves_data process_command calls event default v (main_round calls event default v)) /\
  (forall vn, rtc (unseen_step parse_cb process_command) v vn ->
     reachable (transport vn) /\ wf_device buffered vn /\
     forall calls, round_keeps buffered parse_cb moves_data process_command calls true true vn (main_round calls true true vn)).
Proof.
  intros parse_cb main Hbuf Hb. pose proof (rp2040_boot_run _ chip _ Hbuf Hb) as Hboot.
  destruct (boot _ _ _) as [vi| |]; [|done..]. exists vi. split; [done|]. intros v Hrun.
  pose proof (run_inv buffered parse_cb moves_data process_command rp2040_drive_safe vi v Hboot Hrun) as Hv.
  pose proof (device_reachable _ _ _ _ Hv) as Hr.
  split; [done|]. split; [intros Hno; by apply main_idle|]. split; [intros Hu|split].
  - destruct (command_parses false _ Hr Hu) as (k & Hk & _). exists k. split; [done|].
    pose proof (rp2040_process_command_safe v k Hv Hu Hk) as Hturn. cbv zeta in Hturn.
    destruct (panics_on _ _); [by eapply main_panics|by eapply main_turn].
  - intros calls event default Hall. by apply (main_loop_inv buffered parse_cb moves_data process_command rp2040_drive_safe (command_fuel false)).
  - intros vn. by apply (unseen_inv buffered parse_cb moves_data process_command rp2040_drive_safe (command_fuel false)).
Qed.

(** A WRITE of block 256, which the drive does not have, as the first command. *)
Definition outside_wrapper : list byte :=
  splice (cbw 4096 HostOut) 14 (map byte_of [10; WRITE_10; 0; 0; 0; 1; 0; 0; 0; 1; 0]).
Local Abbreviation outside_run :=
  (run_from (Scsi.parse_cb false) process_command
     (boot (zreplicate BLOCK_SIZE x00) (chip (MEMORY (drive write_before))) (fresh_bus : @Bus MockStack))
     [EHost outside_wrapper; EUsb]).

Lemma rp2040_poll_command_safe_witness :
  match outside_run with
  | Some v => wp (main_poll_command (Scsi.parse_cb false) process_command)
      (fun _ v' => device_inv buffered (Scsi.parse_cb false) moves_data v') v
  | None => False
  end.
Proof.
  destruct (rp2040_poll_command_safe (zreplicate BLOCK_SIZE x00) (chip (MEMORY (drive write_before)))
    (fresh_bus : @Bus MockStack)) as (vi & Hvi & Hall); [by vm_compute..|].
  assert (is_turn_of (Scsi.parse_cb false) (fun k => match k with Write 256 1 => true | _ => false end)
    outside_run = true) as Hturn by (by vm_compute).
  destruct (run_from_spec _ _ _ _ _ _ Hvi Hturn) as (v & k & -> & Hrun & Hu & Hk & His).
  destruct (proj1 (proj2 (proj2 (Hall v Hrun))) Hu) as (k' & Hk' & Hmain).
  rewrite Hk in Hk'. injection Hk' as <-. destruct k; try discriminate His. exact Hmain.
Defined.
