(* ===== verification/Rp2040ScsiDisk.v ===== *)
(** * The RP2040 flash drive is a disk

    Every session of a host with the drive is a run of the disk [scsi_disk] of the blocks of
    the flash, when the host keeps to [orderly] commands. The others show what the handler
    leaves to the host: addresses wrap around ([rp2040_read_wraps]), and a WRITE goes on behind
    its end (file Rp2040ScsiSpec). *)
From stdpp Require Import relations.
From S2P Require Import Prelude.
From S2P Require Import Usb.
From S2P Require Import Buffer.
From S2P Require Import Transport.
From S2P Require Import Bbb.
From S2P Require Import BotSpec.
From S2P Require Import BbbRefine.
From S2P Require Import BbbMethods.
From S2P Require Import BbbReach.
From S2P Require Import MockBus.
From S2P Require Import BbbSafe.
From S2P Require Import BotStream.
From S2P Require Import Transfer.
From S2P Require Import Subclass.
From S2P Require Import Scsi.
From S2P Require Import ScsiSpec.
From S2P Require Import Firmware.
From S2P Require Import FirmwareSpec.
From S2P Require Import FirmwareRun.
From S2P Require Import FirmwareLive.
From S2P Require Import FirmwareReply.
From S2P Require Import Disk.
From S2P Require Import FirmwareSession.
From S2P Require Import Rp2040Scsi.
From S2P Require Import Rp2040ScsiSpec.

Local Open Scope Z_scope.
Local Open Scope rust_scope.

Local Abbreviation rp2040_disk := (scsi_disk inquiry_data BLOCKS BLOCK_SIZE).

(** A READ that is not of zero blocks beyond the end, nor of addresses of more than 32 bits;
    a WRITE of blocks of the drive whose wrapper announces data from the host, not more than
    the blocks hold; any other command. *)
Definition orderly `{!TryFromPrimitive} (c : CommandBlockWrapper) : bool :=
  match Scsi.parse_cb false (ztake (block_len c) (block c)) with
  | Returns (Read lba l) => (lba + l <=? BLOCKS) || ((0 <? l) && (BLOCK_SIZE * lba <? u32_modulus))
  | Returns (Write lba l) =>
    (lba + l <=? BLOCKS) && match direction c with DataOut => true | _ => false end &&
    (data_transfer_len c <=? BLOCK_SIZE * l)
  | _ => true
  end.

Section Disk.
Context `{!UsbStack, !UsbStackLaws, !TryFromPrimitive, !FlashChip, !FlashChipLaws}.
Implicit Types v : Drive.
Local Abbreviation filesystem := (fun m : Flash => FILESYSTEM (chip m)).

Section Serves.
Context (d : device) (vb v0 v : Drive).
Hypothesis Hstart : command_start buffered d vb v0.
Hypothesis Hloop : rtc (loop_step (Scsi.parse_cb false) process_command) v0 v.
Hypothesis Hout : out (transport v).
Local Abbreviation c := (Bbb.cbw (transport v0)).

(** A command on which the handler panics at once has no end. *)
Lemma rp2040_panics_last k :
  Scsi.parse_cb false (command_bytes (transport v0)) = Returns k -> panics_on (STATE v0) k = true -> False.
Proof.
  intros Hk Hp. pose proof Hstart as [Hr Hbt (_ & Hph & Ho) Hd Hg Hg0 Hwb Hm Hst].
  refine (panic_lasts buffered _ process_command d Hd vb v0 v Hstart _ Hloop Hout).
  intros k' l v1 Hk' Hg1 Hu1 Hc1 Hst1 Hm1. assert (k' = k) as -> by congruence.
  pose proof (rp2040_process_command_run d k l v1) as Hrun. rewrite Hst1, Hp in Hrun. apply Hrun.
  - by apply in_turn_refl.
  - split; [rewrite Hst1, Ho; by vm_compute|by rewrite Hm1, Hm].
  - by intros _.
Qed.

Lemma rp2040_beyond lba l :
  0 <= lba -> 0 < l < 2 ^ 16 -> BLOCKS < lba + l -> BLOCK_SIZE * lba < u32_modulus ->
  panics_on (STATE v0) (Read lba l) = true.
Proof.
  destruct (start_begins _ _ _ _ Hstart) as (_ & _ & Ho). intros. cbn [panics_on]. rewrite Ho.
  unfold BLOCKS, BLOCK_SIZE, u32_modulus in *.
  rewrite (wrapping_mul32_small l), !(wrapping_mul32_small 4096) by (unfold is_u32, u32_modulus; lia).
  rewrite (wrapping_add32_small _ 0) by (unfold is_u32, u32_modulus; lia).
  unfold wrapping_add32, u32_modulus. dm_lia.
Qed.

Lemma rp2040_serves :
  orderly c = true -> d_ps d <= BLOCK_SIZE -> carried_out (Scsi.parse_cb false) d filesystem rp2040_disk vb c v.
Proof.
  unfold orderly. intros Hord Hps. pose proof Hstart as [Hr Hbt (_ & Hph & Ho) Hd Hg Hg0 Hwb Hm Hst].
  change (ztake (block_len c) (block c)) with (command_bytes (transport v0)) in Hord.
  destruct (Scsi.parse_cb false (command_bytes (transport v0))) as [k| |] eqn:Hk.
  2-3: exfalso; refine (panic_lasts buffered _ process_command d Hd vb v0 v Hstart _ Hloop Hout); congruence.
  pose proof (scsi_decoded_range false d _ _ Hg0 Hph Hk) as Hir.
  destruct (scsi_reply inquiry_data BLOCKS BLOCK_SIZE k) as [r|] eqn:Hreply.
  { apply (reply_carried buffered _ process_command d filesystem rp2040_disk r k vb v0 v Hstart Hloop Hout Hk).
    - intros. by apply rp2040_process_reply.
    - intros data st disk. unfold scsi_disk. rewrite Hreply. by destruct k. }
  destruct k as [| | | | | | | |lba l|lba l|]; try discriminate Hreply; cbn in Hir.
  - destruct (rp2040_panics_last _ Hk eq_refl).
  - destruct (Z.leb_spec (lba + l) BLOCKS) as [Hfits|Hno].
    2:{ destruct (rp2040_panics_last _ Hk). apply rp2040_beyond; lia. }
    destruct (rp2040_read_ended d vb v0 v lba l Hstart Hloop Hfits Hout Hk) as (_ & Hfs & Hst' & del & Hend).
    eapply (ended_carried _ d filesystem rp2040_disk); [exact Hend|exact Hk|].
    cbn [scsi_disk]. replace (has_blocks BLOCKS lba l) with true by (unfold has_blocks; lia). by rewrite Hst', Hfs.
  - apply andb_prop in Hord as [[Hfits%Z.leb_le Hdir']%andb_prop Hdtl%Z.leb_le].
    assert (direction c = DataOut) as Hdir by (by destruct (direction c)).
    destruct (rp2040_write_ended d vb v0 v lba l Hstart Hloop Hfits Hout Hdir Hdtl Hps Hk)
      as (Hst' & data & Hlen & Hfs & Hend).
    eapply (ended_carried _ d filesystem rp2040_disk); [exact Hend|exact Hk|].
    cbn [scsi_disk]. replace (has_blocks BLOCKS lba l) with true by (unfold has_blocks; lia).
    by rewrite Hlen, Z.eqb_refl, Hst', Hfs.
Qed.
End Serves.

Lemma rp2040_session vi vb cs v :
  powered_on buffered vi -> rtc (run_step (Scsi.parse_cb false) process_command) vi vb ->
  between (transport vb) -> max_packet_size (out_ep (transport vb)) <= BLOCK_SIZE ->
  session (Scsi.parse_cb false) process_command vb cs v -> Forall (fun c => orderly c = true) cs ->
  disk_session (Scsi.parse_cb false) filesystem rp2040_disk vb cs v.
Proof.
  intros Hvi Hrun Hbt Hps Hses Hall.
  destruct (run_ready buffered _ moves_data _ vi vb rp2040_drive_safe Hvi Hrun Hbt) as (d & Hd & Hready).
  rewrite (live_out d _ (good_live d _ (ready_good _ _ _ _ _ Hready))), (d_same_ps d Hd) in Hps.
  refine (session_refines buffered _ moves_data process_command rp2040_drive_safe d Hd filesystem rp2040_disk
    (fun c => orderly c = true) _ vb cs v Hready Hses Hall).
  intros vb' v0 v' Hstart Hord Hloop Hout. by eapply rp2040_serves.
Qed.
End Disk.

(** ** Theorems *)

(** C2: The RP2040 flash drive is a disk: [main] comes to its loop; whatever happens from
    there, from any moment between two commands every session of a host with the drive, of
    [orderly] commands, in packets that a block can hold and over all the turns that they
    take, is a run of the disk [scsi_disk] of its 256 blocks: the host has received exactly the
    answers of the disk, in order, and the flash holds the contents of the disk, each block
    programmed when its status is out. *)
Theorem rp2040_drive_is_disk `{!UsbStack, !UsbStackLaws, !TryFromPrimitive, !FlashChip, !FlashChipLaws}
    (USB_TRANSPORT_BUF : list byte) (flash : Chip) (usb_bus : Bus) :
  len USB_TRANSPORT_BUF = BLOCK_SIZE -> bus_fresh usb_bus ->
  exists vi, boot USB_TRANSPORT_BUF flash usb_bus = Returns vi /\
  forall vb v cs, rtc (run_step (Scsi.parse_cb false) process_command) vi vb -> between (transport vb) ->
  max_packet_size (out_ep (transport vb)) <= BLOCK_SIZE ->
  session (Scsi.parse_cb false) process_command vb cs v -> Forall (fun c => orderly c = true) cs ->
  exists reqs sent l received, map fst reqs = cs /\ spoken reqs l /\
    out_log (bus (transport v)) = out_log (bus (transport vb)) ++ sent /\
    pending (transport vb) ++ sent = l ++ pending (transport v) /\
    in_log (bus (transport v)) = in_log (bus (transport vb)) ++ received /\
    run_disk (Scsi.parse_cb false) (scsi_disk inquiry_data BLOCKS BLOCK_SIZE) reqs
      (STATE vb) (FILESYSTEM (chip (MEMORY vb))) = Some (STATE v, FILESYSTEM (chip (MEMORY v)), received).
Proof.
  intros Hbuf Hb. pose proof (rp2040_boot_run _ flash _ Hbuf Hb) as Hboot.
  destruct (boot _ _ _) as [vi| |]; [|done..]. exists vi. split; [done|]. intros vb v cs Hrun Hbt Hps Hses Hall.
  by apply (rp2040_session vi vb cs v).
Qed.

(** MODE SENSE, a WRITE of block 1 and a READ of the same block, in packets of 64 bytes. *)
Definition session_requests : list (list byte * list byte) :=
  [(splice (cbw 4 HostIn) 14 (map byte_of [6; 0x1A; 0; 0; 0; 4; 0]), []);
   (wrapper HostOut WRITE_10, zreplicate 4096 (byte_of 0xAA)); (wrapper HostIn READ_10, [])].
Local Abbreviation booted := (boot (zreplicate BLOCK_SIZE x00) (chip (MEMORY (drive write_before))) (fresh_bus : @Bus MockStack)).
Local Abbreviation session_run :=
  (session_from (Scsi.parse_cb false) process_command booted 200 session_requests).
Lemma rp2040_drive_is_disk_witness :
  match session_run with
  | Some (vb, cs, v) => exists reqs received, map fst reqs = cs /\
      in_log (bus (transport v)) = in_log (bus (transport vb)) ++ received /\
      run_disk (Scsi.parse_cb false) (scsi_disk inquiry_data BLOCKS BLOCK_SIZE) reqs
        (STATE vb) (FILESYSTEM (chip (MEMORY vb))) = Some (STATE v, FILESYSTEM (chip (MEMORY v)), received)
  | None => False
  end.
Proof.
  destruct (rp2040_drive_is_disk (zreplicate BLOCK_SIZE x00) (chip (MEMORY (drive write_before)))
    (fresh_bus : @Bus MockStack)) as (vi & Hvi & Hall); [by vm_compute..|].
  assert (is_session_of (fun vi cs => (max_packet_size (out_ep (transport vi)) <=? BLOCK_SIZE) && forallb orderly cs)
    session_run = true) as Hok by (by vm_compute).
  destruct (session_from_spec _ _ _ _ _ _ _ Hvi Hok) as (cs & v & -> & Hbt & Hses & [Hps%Z.leb_le Hord]%andb_prop).
  destruct (Hall vi v cs (rtc_refl _ _) Hbt Hps Hses
    (proj2 (Forall_forall _ _) (fun c Hc => proj1 (forallb_forall _ _) Hord c (proj1 (list_elem_of_In _ _) Hc))))
    as (reqs & sent & l & received & Hmap & _ & _ & _ & Hin & Hdisk).
  exists reqs, received. exact (conj Hmap (conj Hin Hdisk)).
Defined.

(** READ of block 2^20, which the drive does not have, gives block 0: the address of a block
    wraps around. *)
Lemma rp2040_read_wraps : wrapping_mul32 BLOCK_SIZE (2 ^ 20) = 0 /\ panics_on State_reset (Read (2 ^ 20) 1) = false.
Proof. split; by vm_compute. Qed.

(** What is written to the flash is read back. *)
Lemma rp2040_write_read_back `{!UsbStack, !UsbStackLaws, !TryFromPrimitive, !FlashChip, !FlashChipLaws}
    (vi vb v : Drive) (cw cr : CommandBlockWrapper) (lba l : Z) :
  powered_on buffered vi -> rtc (run_step (Scsi.parse_cb false) process_command) vi vb ->
  between (transport vb) -> max_packet_size (out_ep (transport vb)) <= BLOCK_SIZE ->
  session (Scsi.parse_cb false) process_command vb [cw; cr] v ->
  orderly cw = true -> orderly cr = true -> 0 <= lba -> 0 <= l ->
  Scsi.parse_cb false (ztake (block_len cw) (block cw)) = Returns (Write lba l) ->
  Scsi.parse_cb false (ztake (block_len cr) (block cr)) = Returns (Read lba l) ->
  exists data, len data = BLOCK_SIZE * l /\
    in_log (bus (transport v)) = in_log (bus (transport vb)) ++
      payload cw [] ++ csw_bytes cw (mkStatusAndResidue Passed (saturating_sub (data_transfer_len cw) (len data))) ++
      payload cr data ++ csw_bytes cr (mkStatusAndResidue Passed (saturating_sub (data_transfer_len cr) (len data))).
Proof.
  intros Hvi Hrun Hbt Hps Hses Hcw Hcr ?? Hw Hr.
  destruct (rp2040_session vi vb _ v Hvi Hrun Hbt Hps Hses) as (reqs & sent & l' & received & Hmap & _ & _ & _ & Hin & Hdisk);
    [by repeat constructor|].
  destruct reqs as [|[c1 data] [|[c2 other] [|]]]; try discriminate Hmap. injection Hmap as -> ->.
  pose proof (scsi_disk_read_back inquiry_data BLOCKS BLOCK_SIZE (Scsi.parse_cb false) cw cr data other lba l
    (STATE vb) (FILESYSTEM (chip (MEMORY vb))) Hw Hr ltac:(done) ltac:(lia) ltac:(lia)) as Hback.
  rewrite (Z.mul_comm BLOCKS), FILESYSTEM_len in Hback. specialize (Hback eq_refl).
  cbv beta in Hdisk. rewrite Hdisk in Hback. destruct Hback as (Hlen & _ & _ & ->). by exists data.
Qed.
