(* ===== verification/Tests.v ===== *)
(** * The unit tests of the repository, run on the model

    The tests of [usbd-storage/src/buffer.rs] (Module BufferTests), of
    [usbd-storage/src/transport/bbb.rs] (Module BbbTests) and of
    [usbd-storage/src/subclass/scsi.rs] (Module ScsiTests), each as a definition
    that returns when the test passes and panics when one of its assertions
    fails. They are checked by computation: the model behaves as the code does on
    the thirteen cases of the Bulk-Only specification, at every packet size. *)
From S2P Require Import Subclass.
From S2P Require Import Scsi.
From S2P Require Import ScsiSpec.
From S2P Require Import Prelude.
From S2P Require Import Usb.
From S2P Require Import Buffer.
From S2P Require Import Transport.
From S2P Require Import Bbb.
From S2P Require Import BotSpec.
From S2P Require Import BbbRefine.
From S2P Require Import BbbMethods.
From S2P Require Import BbbReach.
From S2P Require Import MockBus.

Local Open Scope Z_scope.
Local Open Scope rust_scope.

(** [assert!] in a test, and [unwrap]. *)
Definition check (b : bool) : outcome unit := if b then Returns tt else Panics.
Definition unwrap {S A E} (m : M S (result A E)) : M S A :=
  let! r := m in match r with Ok a => ret a | Err _ => panic end.
(** What a test leaves behind is of no interest. *)
Definition runs {S A} (m : M S A) (s : S) : outcome unit :=
  let* _ := m s in Returns tt.

Module BufferTests.

Definition DATA : list byte := map byte_of [0; 1; 2; 3; 4; 5; 6; 7; 8; 9].

(** [assert_eq!(r, buf.available_read()); assert_eq!(w, buf.available_write());] *)
Definition available (r w : Z) : M Buffer unit :=
  let! ar := gets_o available_read in
  let! aw := gets_o available_write in
  assert ((ar =? r) && (aw =? w)).

Definition write_is (data : list byte) (n : Z) : M Buffer unit :=
  let! k := Buffer.write data in assert (k =? n).

(** [buf.read(|buf| { assert_eq!(seen, buf.len()); Ok(n) })] returns [n]. *)
Definition read_is (seen n : Z) (p : list byte -> bool) : M Buffer unit :=
  let! (r, _) := with_local tt (Buffer.read (E := unit) (fun buf =>
    do! assert ((len buf =? seen) && p buf) in ret (buf, Ok n))) in
  match r with Ok k => assert (k =? n) | Err _ => panic end.

Definition zeros (n : Z) : Buffer := Buffer.new (zreplicate n x00).

Definition write_when_space_available : outcome unit :=
  runs (do! write_is (ztake 5 DATA) 5 in available 5 3) (zeros 8).

Definition write_shift : outcome unit :=
  runs (do! write_is (ztake 8 DATA) 8 in
        do! available 8 2 in
        do! read_is 8 7 (fun _ => true) in
        do! available 1 2 in
        do! write_is (ztake 5 DATA) 5 in
        available 6 4) (zeros 10).

Definition write_all_shift : outcome unit :=
  runs (do! modify (fun buf => set_rpos 5 (set_wpos 6 buf)) in
        let! (res, _) := with_local tt (Buffer.write_all 6 tt (fun buf => ret (buf, Ok 6))) in
        do! (match res with Ok n => assert (n =? 6) | Err _ => panic end) in
        let! buf := gets id in
        assert ((rpos buf =? 0) && (wpos buf =? 7))) (zeros 10).

Definition write_full_read_full : outcome unit :=
  runs (do! write_is DATA 10 in
        do! available 10 0 in
        do! read_is 10 10 (fun _ => true) in
        do! available 0 0 in
        do! write_is DATA 10 in
        available 10 0) (zeros 10).

Definition fill_up_to_when_space_available : outcome unit :=
  runs (do! fill_up_to FILL_BYTE 7 in
        let! buf := gets id in
        do! assert ((rpos buf =? 0) && (wpos buf =? 7)) in
        read_is 7 7 (forallb (fun b => u8 b =? 0xFF))) (zeros 10).

Definition fill_up_to_shift : outcome unit :=
  runs (do! write_is (ztake 8 DATA) 8 in
        do! available 8 2 in
        do! read_is 8 7 (fun _ => true) in
        do! available 1 2 in
        do! fill_up_to FILL_BYTE 10 in
        available 10 0) (zeros 10).
End BufferTests.

Module BbbTests.

Definition is_invalid_state {A} (r : BResult A) : bool :=
  match r with Err (Error InvalidState) => true | _ => false end.

Definition AA (n : Z) : list byte := zreplicate n (byte_of 0xAA).

(** [b.write_data(src).unwrap()] and [b.read_data(&mut [0u8; n]).unwrap()]. *)
Definition write_n (src : list byte) : M MockBbb Z := unwrap (write_data src).
Definition read_n (n : Z) : M MockBbb Z :=
  unwrap (let! (_, r) := read_data (zreplicate n x00) in ret r).

(** Case 1: Hn = Dn *)
Definition host_expects_no_data_device_sends_no_data (ps : Z) : outcome unit :=
  let* csw := run ps 0 NoData (set_status Passed 0) in
  check ((csw_status csw =? 0) && (csw_residue csw =? 0)).

(** Case 2: Hn < Di -> Phase Error *)
Definition host_expects_no_data_device_wants_to_send (ps : Z) : outcome unit :=
  let* csw := run ps 0 NoData
    (let! r := write_data (AA 8) in do! assert (is_invalid_state r) in set_status PhaseError 0) in
  check ((csw_status csw =? 0x02) && (len (csw_data csw) =? 0)).

(** Case 3: Hn < Do -> Phase Error *)
Definition host_expects_no_data_device_wants_to_receive (ps : Z) : outcome unit :=
  let* csw := run ps 0 NoData
    (let! (_, r) := read_data (zreplicate 8 x00) in
     do! assert (is_invalid_state r) in set_status PhaseError 0) in
  check (csw_status csw =? 0x02).

(** Case 4: Hi > Dn *)
Definition host_expects_data_in_device_sends_none (ps : Z) : outcome unit :=
  let* csw := run ps 32 HostIn (set_status Passed 0) in
  check ((csw_status csw =? 0) && (csw_residue csw =? 32) && (len (csw_data csw) =? 32)).

(** Case 5: Hi > Di *)
Definition host_expects_more_data_in_than_device_sends (ps : Z) : outcome unit :=
  let* csw := run ps 32 HostIn (let! n := write_n (AA 16) in set_status Passed (as_u32 n)) in
  check ((csw_status csw =? 0) && (csw_residue csw =? 16) && (len (csw_data csw) =? 32)).

(** Case 6: Hi = Di *)
Definition host_expects_exactly_what_device_sends (ps : Z) : outcome unit :=
  let* csw := run ps 32 HostIn (let! n := write_n (AA 32) in set_status Passed (as_u32 n)) in
  check ((csw_status csw =? 0) && (csw_residue csw =? 0) && bool_decide (csw_data csw = AA 32)).

(** Case 7: Hi < Di -> Phase Error *)
Definition host_expects_less_data_in_than_device_sends (ps : Z) : outcome unit :=
  let* csw := run ps 16 HostIn
    (let! n := write_n (AA 32) in do! assert (n =? 16) in set_status PhaseError 0) in
  check ((csw_status csw =? 0x02) && (len (csw_data csw) =? 16)).

(** Case 8: Hi <> Do -> Phase Error *)
Definition host_expects_data_in_device_wants_to_receive (ps : Z) : outcome unit :=
  let* csw := run ps 32 HostIn
    (let! (_, r) := read_data (zreplicate 32 x00) in
     do! assert (is_invalid_state r) in set_status PhaseError 0) in
  check ((csw_status csw =? 0x02) && (len (csw_data csw) =? 32)).

(** Case 9: Ho > Dn *)
Definition host_sends_data_device_receives_none (ps : Z) : outcome unit :=
  let* csw := run ps 32 HostOut (set_status Passed 0) in
  check ((csw_status csw =? 0) && (csw_residue csw =? 32)).

(** Case 10: Ho <> Di -> Phase Error *)
Definition host_sends_data_device_wants_to_send (ps : Z) : outcome unit :=
  let* csw := run ps 32 HostOut
    (let! r := write_data (AA 8) in do! assert (is_invalid_state r) in set_status PhaseError 0) in
  check (csw_status csw =? 0x02).

(** Case 11: Ho > Do *)
Definition host_sends_more_data_out_than_device_receives (ps : Z) : outcome unit :=
  let* csw := run ps 32 HostOut (let! n := read_n 16 in set_status Passed (as_u32 n)) in
  check ((csw_status csw =? 0) && (csw_residue csw =? 16)).

(** Case 12: Ho = Do *)
Definition host_sends_exactly_what_device_receives (ps : Z) : outcome unit :=
  let* csw := run ps 32 HostOut (let! n := read_n 32 in set_status Passed (as_u32 n)) in
  check ((csw_status csw =? 0) && (csw_residue csw =? 0)).

(** Case 13: Ho < Do -> Phase Error *)
Definition host_sends_less_data_out_than_device_receives (ps : Z) : outcome unit :=
  let* csw := run ps 16 HostOut
    (let! n := read_n 32 in do! assert (n =? 16) in set_status PhaseError 0) in
  check (csw_status csw =? 0x02).

Definition should_read_data_into_small_buffer : outcome unit :=
  let* bbb := new_bbb 64 in
  runs (do! modify (set_state DataTransferFromHost) in
        do! Bbb.on_buf (Buffer.write (zreplicate 512 FILL_BYTE)) in
        let! n := read_n 123 in
        assert (n =? 123)) bbb.

Definition try_write_data_all_forbids_sending_more_data (ps : Z) : outcome unit :=
  let* bbb := new_bbb ps in
  runs (do! modify (set_left 4) in
        do! enter_state_data_transfer_to_host in
        let! r := try_write_data_all (AA 36) in
        assert (match r with Err (Error TransferLengthExceeded) => true | _ => false end)) bbb.

Definition invalid_cbw_yields_no_command_block (ps : Z) : outcome unit :=
  let* bbb := new_bbb ps in
  let bad := cbw 0 NoData in
  let bad := splice bad 0 [byte_of (Z.lxor (byte_at 0 bad) 0xFF)] in
  runs (do! enqueue bad ps in
        do! poll_until 64 (fun bbb => Returns (is_one_of (state bbb) [CommandTransferInvalid])) in
        let! st := gets state in
        do! assert (is_one_of st [CommandTransferInvalid]) in
        let! c := gets_o get_command in
        assert (match c with None => true | Some _ => false end)) bbb.

(** [for _ in 0..n { bbb.poll() }], with or without the [unwrap]. *)
Fixpoint polls (n : nat) : M MockBbb unit :=
  match n with O => ret tt | S n => do! poll in polls n end.
Fixpoint polls_unwrapped (n : nat) : M MockBbb unit :=
  match n with O => ret tt | S n => do! unwrap poll in polls_unwrapped n end.
(** [while bbb.read_data(&mut [0u8; n]).unwrap() > 0 {}] *)
Fixpoint drain (fuel : nat) (n : Z) : M MockBbb unit :=
  match fuel with
  | O => out_of_fuel
  | S fuel => let! k := read_n n in if 0 <? k then drain fuel n else ret tt
  end.
Definition div_ceil (a b : Z) : Z := (a + b - 1) / b.

Definition can_read_all_data_in_small_chunks_before_setting_status (ps : Z) : outcome unit :=
  let CHUNK_SIZE := 6 in
  let DATA_TRANSFER_SIZE := 100 in
  let* bbb := new_bbb ps in
  let cbw := cbw 100 HostOut in
  let awaiting := (let! st := gets state in assert (is_one_of st [DataTransferFromHostStatusAwait])) in
  let holds n := (let! ar := gets_o (available_read ∘ buf) in assert (ar =? n)) in
  runs (do! enqueue cbw ps in
        do! polls (Z.to_nat (div_ceil (len cbw) ps)) in
        let! st := gets state in
        do! assert (is_one_of st [DataTransferFromHost]) in
        do! enqueue (zreplicate DATA_TRANSFER_SIZE FILL_BYTE) ps in
        do! polls_unwrapped (Z.to_nat (div_ceil DATA_TRANSFER_SIZE ps)) in
        do! unwrap poll in
        do! awaiting in
        do! holds DATA_TRANSFER_SIZE in
        do! drain 64 CHUNK_SIZE in
        do! holds 0 in
        awaiting) bbb.
End BbbTests.

Module ScsiTests.

(** The tests of the feature [extended_addressing] are run with it, the others with
    and without it. *)
Definition parses (ext : bool) (cb : list Z) (p : ScsiCommand -> bool) : outcome unit :=
  let* c := Scsi.parse_cb ext (map byte_of cb) in check (p c).
Definition is_unknown_cmd (z : Z) (c : ScsiCommand) : bool :=
  match c with Scsi.Unknown cmd => cmd =? z | _ => false end.

Definition parse_cb_short_inquiry_does_not_panic (ext : bool) : outcome unit :=
  parses ext [INQUIRY] (is_unknown_cmd INQUIRY).

Definition parse_cb_short_read10_does_not_panic (ext : bool) : outcome unit :=
  parses ext [READ_10] (is_unknown_cmd READ_10).

Definition parse_cb_short_read_capacity_16_does_not_panic (ext : bool) : outcome unit :=
  parses ext [READ_CAPACITY_16; 0; 0; 0; 0; 0; 0; 0; 0; 0] (is_unknown_cmd READ_CAPACITY_16).

Definition parse_cb_short_read16_yields_unknown_not_panic : outcome unit :=
  parses true [READ_16; 0; 0; 0; 0; 0; 0; 0; 0; 0; 0; 0] (is_unknown_cmd READ_16).

Definition parse_cb_short_write16_yields_unknown_not_panic : outcome unit :=
  parses true [WRITE_16; 0; 0; 0; 0; 0; 0; 0; 0; 0; 0; 0; 0] (is_unknown_cmd WRITE_16).

Definition parse_cb_full_read16_parses : outcome unit :=
  parses true [READ_16; 0; 0; 0; 0; 0; 0; 0; 0; 0x01; 0; 0; 0; 0x08; 0; 0] (fun c =>
    match c with Scsi.Read lba len => (lba =? 1) && (len =? 8) | _ => false end).

Definition parse_cb_mode_sense_6_page_control_does_not_panic (ext : bool) : outcome unit :=
  let* _ := parses ext [MODE_SENSE_6; 0; 0xC0; 0; 0] (fun c =>
    match c with ModeSense6 _ SavedValues _ _ _ => true | _ => false end) in
  parses ext [MODE_SENSE_6] (is_unknown_cmd MODE_SENSE_6).
End ScsiTests.

(** The thirteen cases of Bulk-Only section 6.7 (what the host expects against
    what the device does): status, residue and the data on the wire are what the unit
    tests assert, at each of the packet sizes 8, 16, 32 and 64. *)
Lemma thirteen_cases_pass :
  forallb (fun ps => forallb (fun test => match test ps with Returns _ => true | _ => false end)
    [BbbTests.host_expects_no_data_device_sends_no_data;
     BbbTests.host_expects_no_data_device_wants_to_send;
     BbbTests.host_expects_no_data_device_wants_to_receive;
     BbbTests.host_expects_data_in_device_sends_none;
     BbbTests.host_expects_more_data_in_than_device_sends;
     BbbTests.host_expects_exactly_what_device_sends;
     BbbTests.host_expects_less_data_in_than_device_sends;
     BbbTests.host_expects_data_in_device_wants_to_receive;
     BbbTests.host_sends_data_device_receives_none;
     BbbTests.host_sends_data_device_wants_to_send;
     BbbTests.host_sends_more_data_out_than_device_receives;
     BbbTests.host_sends_exactly_what_device_receives;
     BbbTests.host_sends_less_data_out_than_device_receives]) PACKET_SIZES = true.
Proof. by vm_compute. Qed.

(** The other unit tests of bbb.rs, at every packet size, those of buffer.rs and
    those of scsi.rs pass on the model. *)
Lemma unit_tests_pass :
  forallb (fun ps => forallb (fun test => match test ps with Returns _ => true | _ => false end)
    [BbbTests.try_write_data_all_forbids_sending_more_data;
     BbbTests.invalid_cbw_yields_no_command_block;
     BbbTests.can_read_all_data_in_small_chunks_before_setting_status]) PACKET_SIZES &&
  forallb (fun test => match test with Returns _ => true | _ => false end)
    [BbbTests.should_read_data_into_small_buffer;
     BufferTests.write_when_space_available; BufferTests.write_shift;
     BufferTests.write_all_shift; BufferTests.write_full_read_full;
     BufferTests.fill_up_to_when_space_available; BufferTests.fill_up_to_shift;
     ScsiTests.parse_cb_short_read16_yields_unknown_not_panic;
     ScsiTests.parse_cb_short_write16_yields_unknown_not_panic;
     ScsiTests.parse_cb_full_read16_parses] &&
  forallb (fun ext => forallb (fun test => match test ext with Returns _ => true | _ => false end)
    [ScsiTests.parse_cb_short_inquiry_does_not_panic;
     ScsiTests.parse_cb_short_read10_does_not_panic;
     ScsiTests.parse_cb_short_read_capacity_16_does_not_panic;
     ScsiTests.parse_cb_mode_sense_6_page_control_does_not_panic]) [false; true] = true.
Proof. by vm_compute. Qed.
