(* ===== verification/DummyBus.v ===== *)
(** * The bus of the integration tests ([usbd-storage/tests/common/bbb.rs])

    [DummyUsbBus] is what the integration tests run the crate on: one IN and one OUT
    endpoint with a queue of packets each, and the host's side of them. It is an instance
    of [UsbStack] (an [Endpoint] of the stack passes its address on to the bus) that
    satisfies [UsbStackLaws]. The bus is shared between the stack and the host, here as
    the bus of the transport. [sent] and [taken] only record what went through the
    endpoints. *)
From S2P Require Import Prelude.
From S2P Require Import Usb.
From S2P Require Import Buffer.
From S2P Require Import Transport.
From S2P Require Import Bbb.
From S2P Require Import BotSpec.
From S2P Require Import BbbRefine.
From S2P Require Import BbbMethods.
From S2P Require Import BbbReach.
From S2P Require Import MockBus.

Local Open Scope Z_scope.
Local Open Scope rust_scope.

(** The errors of the stack that the bus gives. *)
Inductive DummyError := WouldBlock | BufferOverflow | InvalidEndpoint.

Record DummyEp := mkDummyEp {
  addr : Z;                        (* EndpointAddress *)
  max_packet_size : Z;             (* u16 *)
  ep_stalled : bool;
  bytes_written : Z;               (* usize *)
  bytes_read : Z;                  (* usize *)
  packets : list (list byte)
}.

Definition DummyEp_new (addr max_packet_size : Z) : DummyEp :=
  mkDummyEp addr max_packet_size false 0 0 [].

(** [bytes.chunks(0)] panics. *)
Definition write_bytes (bytes : list byte) (ep : DummyEp) : outcome DummyEp :=
  if max_packet_size ep =? 0 then Panics
  else Returns (mkDummyEp (addr ep) (max_packet_size ep) (ep_stalled ep)
         (bytes_written ep + len bytes) (bytes_read ep)
         (packets ep ++ chunks (max_packet_size ep) bytes)).

Definition ep_read_packet (ep : DummyEp) : option (list byte) * DummyEp :=
  match packets ep with
  | packet :: rest =>
    (Some packet, mkDummyEp (addr ep) (max_packet_size ep) (ep_stalled ep) (bytes_written ep)
       (bytes_read ep + len packet) rest)
  | [] => (None, ep)
  end.

Definition set_ep_stalled (stalled : bool) (ep : DummyEp) : DummyEp :=
  mkDummyEp (addr ep) (max_packet_size ep) stalled (bytes_written ep) (bytes_read ep) (packets ep).

(** [Inner]. *)
Record DummyBus := mkDummyBus {
  enabled : bool;
  ep_in : option DummyEp;
  ep_out : option DummyEp;
  sent : list byte;                (* what the device put on the IN endpoint *)
  taken : list byte                (* what the device took from the OUT endpoint *)
}.
Definition Inner_new : DummyBus := mkDummyBus false None None [] [].

Definition set_ep_in (ep : DummyEp) (b : DummyBus) : DummyBus :=
  mkDummyBus (enabled b) (Some ep) (ep_out b) (sent b) (taken b).
Definition set_ep_out (ep : DummyEp) (b : DummyBus) : DummyBus :=
  mkDummyBus (enabled b) (ep_in b) (Some ep) (sent b) (taken b).

(** [.as_mut().unwrap()]. *)
Definition unwrap_ep (o : option DummyEp) : outcome DummyEp :=
  match o with Some ep => Returns ep | None => Panics end.

(** ** [impl UsbBus] *)

Definition EP_OUT_ADDR : Z := 0xFF.
Definition EP_IN_ADDR : Z := 0xEE.
Definition EP_CTRL : Z := 0.

Definition alloc_ep (dir : UsbDirection) (control : bool) (mps : Z) : M DummyBus Z :=
  let! b := gets id in
  do! assert (negb (enabled b)) in
  if control then ret EP_CTRL
  else match dir with
       | UsbDirOut => do! modify (set_ep_out (DummyEp_new EP_OUT_ADDR mps)) in ret EP_OUT_ADDR
       | UsbDirIn => do! modify (set_ep_in (DummyEp_new EP_IN_ADDR mps)) in ret EP_IN_ADDR
       end.

Definition enable : M DummyBus unit :=
  modify (fun b => mkDummyBus true (ep_in b) (ep_out b) (sent b) (taken b)).

Definition write (ep_addr : Z) (buf : list byte) : M DummyBus (result Z DummyError) :=
  let! ep := gets_o (unwrap_ep ∘ ep_in) in
  if negb (addr ep =? ep_addr) then ret (Err InvalidEndpoint)
  else if max_packet_size ep <? len buf then ret (Err BufferOverflow)
  else
    let! ep := lift (write_bytes buf ep) in
    do! modify (fun b => mkDummyBus (enabled b) (Some ep) (ep_out b) (sent b ++ buf) (taken b)) in
    ret (Ok (len buf)).

Definition read (ep_addr : Z) (buf : list byte) : M DummyBus (list byte * result Z DummyError) :=
  let! ep := gets_o (unwrap_ep ∘ ep_out) in
  if negb (addr ep =? ep_addr) then ret (buf, Err InvalidEndpoint)
  else if match packets ep with p :: _ => len buf <? len p | [] => false end
  then ret (buf, Err BufferOverflow)
  else
    match ep_read_packet ep with
    | (Some packet, ep) =>
      do! modify (fun b => mkDummyBus (enabled b) (ep_in b) (Some ep) (sent b) (taken b ++ packet)) in
      let! d := lift (slice buf 0 (len packet)) in
      let! d := lift (copy_from_slice d packet) in
      ret (splice buf 0 d, Ok (len packet))
    | (None, _) => ret (buf, Err WouldBlock)
    end.

(** Whether the option holds the endpoint [a]. *)
Definition is_ep (o : option DummyEp) (a : Z) : bool :=
  match o with Some ep => addr ep =? a | None => false end.

Definition set_stalled (ep_addr : Z) (stalled : bool) : M DummyBus unit :=
  modify (fun b =>
    if is_ep (ep_in b) ep_addr then
      mkDummyBus (enabled b) (set_ep_stalled stalled <$> ep_in b) (ep_out b) (sent b) (taken b)
    else if is_ep (ep_out b) ep_addr then
      mkDummyBus (enabled b) (ep_in b) (set_ep_stalled stalled <$> ep_out b) (sent b) (taken b)
    else b).

Definition flag_of (o : option DummyEp) : bool :=
  match o with Some ep => ep_stalled ep | None => false end.
Definition is_stalled (ep_addr : Z) (b : DummyBus) : bool :=
  if is_ep (ep_in b) ep_addr then flag_of (ep_in b)
  else if is_ep (ep_out b) ep_addr then flag_of (ep_out b)
  else false.

(** The stack on this bus. No test looks at control replies and descriptors. *)
#[export] Instance DummyStack : UsbStack := {
  Bus := DummyBus;
  Endpoint := Z * Z;               (* address, packet size *)
  UsbError := DummyError;
  InterfaceNumber := Z;
  DescriptorWriter := unit;
  Usb.max_packet_size := snd;
  alloc_bulk dir ps := let! a := alloc_ep dir false ps in ret (a, ps);
  alloc_interface := ret 0;
  ep_write e := write e.1;
  ep_read e := read e.1;
  ep_stall e := set_stalled e.1 true;
  ep_unstall e := set_stalled e.1 false;
  accept_with _ := ret (Ok tt);
  writer_endpoint _ := ret (Ok tt);
  writer_iad _ _ _ _ _ := ret (Ok tt);
  writer_interface _ _ _ _ := ret (Ok tt)
}.

(** ** The host *)

Definition write_data (data : list byte) : M DummyBus unit :=
  let! ep := gets_o (unwrap_ep ∘ ep_out) in
  let! ep := lift (write_bytes data ep) in
  modify (set_ep_out ep).

Definition read_packet : M DummyBus (option (list byte)) :=
  let! ep := gets_o (unwrap_ep ∘ ep_in) in
  let (packet, ep) := ep_read_packet ep in
  do! modify (set_ep_in ep) in
  ret packet.

(** The loop of [read_n_bytes] and of [read_cs]: packets until there are [n] bytes; whether
    the packets ended before. Every round takes a packet: their number is the fuel. *)
Fixpoint read_until (fuel : nat) (n : Z) (bytes : list byte) : M DummyBus (list byte * bool) :=
  if n <=? len bytes then ret (bytes, true)
  else
    match fuel with
    | O => out_of_fuel
    | Datatypes.S fuel =>
      let! p := read_packet in
      match p with
      | Some packet => read_until fuel n (bytes ++ packet)
      | None => ret (bytes, false)
      end
    end.
Definition packet_fuel (b : DummyBus) : nat :=
  match ep_in b with Some ep => Datatypes.S (length (packets ep)) | None => 1 end.

Definition read_n_bytes (n : Z) : M DummyBus (list byte) :=
  let! ep := gets_o (unwrap_ep ∘ ep_in) in
  do! if max_packet_size ep =? 0 then panic else assert (n mod max_packet_size ep =? 0) in
  let! fuel := gets packet_fuel in
  let! (bytes, _) := read_until fuel n [] in
  ret bytes.

(** ((written, read) of the IN endpoint, (written, read) of the OUT endpoint) *)
Definition bytes_processed (b : DummyBus) : outcome ((Z * Z) * (Z * Z)) :=
  let* i := unwrap_ep (ep_in b) in
  let* o := unwrap_ep (ep_out b) in
  Returns ((bytes_written i, bytes_read i), (bytes_written o, bytes_read o)).

(** ** The bus behaves as documented *)

(** Both endpoints are there. *)
Record dummy_ok (i o : Z * Z) (b : DummyBus) : Prop := {
  ok_in : exists ep, ep_in b = Some ep /\ addr ep = i.1 /\ max_packet_size ep = i.2;
  ok_out : exists ep, ep_out b = Some ep /\ addr ep = o.1 /\ max_packet_size ep = o.2 /\
    Forall (fun p => len p <= max_packet_size ep) (packets ep);
  ok_sizes : 0 < i.2 /\ 0 < o.2
}.

(** What the host does between two calls into the device. *)
Inductive host_acts (b : DummyBus) : DummyBus -> Prop :=
| host_writes data b' : write_data data b = Returns (tt, b') -> host_acts b b'
| host_reads p b' : read_packet b = Returns (p, b') -> host_acts b b'.

Lemma chunks_small n bytes : 0 < n -> Forall (fun p => len p <= n) (chunks n bytes).
Proof. intros. apply chunks_fuel_le. lia. Qed.

Lemma write_bytes_run bytes ep :
  0 < max_packet_size ep ->
  write_bytes bytes ep = Returns (mkDummyEp (addr ep) (max_packet_size ep) (ep_stalled ep)
    (bytes_written ep + len bytes) (bytes_read ep) (packets ep ++ chunks (max_packet_size ep) bytes)).
Proof. intros. unfold write_bytes. by replace (_ =? 0) with false by lia. Qed.

Lemma wp_ep_in i o b (Q : DummyEp -> DummyBus -> Prop) :
  dummy_ok i o b ->
  (forall ep, ep_in b = Some ep -> addr ep = i.1 -> max_packet_size ep = i.2 -> Q ep b) ->
  wp (gets_o (unwrap_ep ∘ ep_in)) Q b.
Proof.
  intros [(ep & He & Ha & Hm) _ _] HQ. unfold wp, gets_o, compose. rewrite He. cbn. auto.
Qed.
Lemma wp_ep_out i o b (Q : DummyEp -> DummyBus -> Prop) :
  dummy_ok i o b ->
  (forall ep, ep_out b = Some ep -> addr ep = o.1 -> max_packet_size ep = o.2 ->
     Forall (fun p => len p <= max_packet_size ep) (packets ep) -> Q ep b) ->
  wp (gets_o (unwrap_ep ∘ ep_out)) Q b.
Proof.
  intros [_ (ep & He & Ha & Hm & Hp) _] HQ. unfold wp, gets_o, compose. rewrite He. cbn. auto.
Qed.

Lemma dummy_write_law i o b data :
  dummy_ok i o b -> len data <= i.2 ->
  wp (write i.1 data) (fun r b' => dummy_ok i o b' /\ taken b' = taken b /\
    match r with
    | Ok n => 0 <= n <= len data /\ sent b' = sent b ++ ztake n data
    | Err _ => sent b' = sent b
    end) b.
Proof.
  intros Hok Hlen. pose proof Hok as [_ Ho [Hi _]]. unfold write.
  apply wp_bind, (wp_ep_in i o); [done|]. intros ep He Ha Hm. rewrite Ha, Z.eqb_refl. cbn [negb].
  replace (_ <? len data) with false by lia. apply wp_bind. rewrite write_bytes_run by lia.
  wp_steps. pose proof (len_nonneg data). cbn. rewrite (ztake_all (len data)) by lia.
  split; [|split; [done|split; [lia|done]]]. split; [by eexists|exact Ho|apply Hok].
Qed.

Lemma dummy_read_law i o b sl :
  dummy_ok i o b -> o.2 <= len sl ->
  wp (read o.1 sl) (fun '(sl', r) b' => dummy_ok i o b' /\ sent b' = sent b /\ len sl' = len sl /\
    match r with
    | Ok n => 0 <= n <= len sl /\ taken b' = taken b ++ ztake n sl'
    | Err _ => taken b' = taken b
    end) b.
Proof.
  intros Hok Hlen. pose proof Hok as [Hi _ [_ Ho]]. unfold read.
  apply wp_bind, (wp_ep_out i o); [done|]. intros ep He Ha Hm Hp. rewrite Ha, Z.eqb_refl. cbn [negb].
  unfold ep_read_packet. destruct (packets ep) as [|p rest] eqn:Hpk; [by wp_steps|].
  apply Forall_cons in Hp as [Hlp Hrest]. replace (len sl <? len p) with false by lia.
  pose proof (len_nonneg p). wp_steps. cbn.
  split; [split; [exact Hi|by eexists|apply Hok]|].
  split; [done|]. split; [apply len_splice; lia|]. split; [lia|]. f_equal. unfold splice.
  rewrite (ztake_le0 0) by lia. cbn [app]. by rewrite ztake_app_le, ztake_all by lia.
Qed.

Lemma dummy_stall_law i o b a stalled :
  dummy_ok i o b ->
  wp (set_stalled a stalled) (fun _ b' => dummy_ok i o b' /\ sent b' = sent b /\ taken b' = taken b /\
    (forall a', is_stalled a' b' =
       if (a' =? a) && (is_ep (ep_in b) a || is_ep (ep_out b) a) then stalled else is_stalled a' b)) b.
Proof.
  intros [(ei & Hi & Hia & Him) (eo & Ho & Hoa & Hom & Hop) Hs]. unfold set_stalled. wp_steps.
  rewrite Hi, Ho. cbn [is_ep]. destruct (Z.eqb_spec (addr ei) a) as [Hai|Hai].
  - cbn. split; [split; cbn; [by eexists|by eexists|done]|]. do 2 (split; [done|]).
    intros a'. unfold is_stalled. cbn. rewrite Hi, Ho. cbn. destruct (Z.eqb_spec a' a) as [->|Hne].
    + by replace (addr ei =? a) with true by lia.
    + by destruct (_ =? _) eqn:Ha'; [lia|].
  - destruct (Z.eqb_spec (addr eo) a) as [Hao|Hao].
    + cbn. split; [split; cbn; [by eexists|by eexists|done]|]. do 2 (split; [done|]).
      intros a'. unfold is_stalled. cbn. rewrite Hi, Ho. cbn. destruct (Z.eqb_spec a' a) as [->|Hne].
      * replace (addr ei =? a) with false by lia. by replace (addr eo =? a) with true by lia.
      * destruct (addr ei =? a'); [done|]. destruct (addr eo =? a') eqn:Ha'; [lia|done].
    + split; [split; [by eexists|by eexists|done]|]. do 2 (split; [done|]). intros a'. cbn.
      by rewrite andb_false_r.
Qed.

Lemma dummy_host_law i o b b' :
  host_acts b b' -> dummy_ok i o b -> dummy_ok i o b' /\ sent b' = sent b /\ taken b' = taken b.
Proof.
  intros Hact Hok. pose proof Hok as [(ei & Hi & Hia & Him) (eo & Ho & Hoa & Hom & Hop) [Hs Hs']].
  destruct Hact as [data b' Hw|p b' Hr].
  - unfold write_data, bind, gets_o, compose, lift, gets_o in Hw. rewrite Ho in Hw. cbn [unwrap_ep] in Hw.
    rewrite write_bytes_run in Hw by lia. injection Hw as <-.
    split; [|done]. split; cbn; [by eexists| |done]. eexists. cbn. split; [done|]. do 2 (split; [done|]).
    apply Forall_app. split; [done|apply chunks_small; lia].
  - unfold read_packet, bind, gets_o, compose, modify in Hr. rewrite Hi in Hr. cbn [unwrap_ep] in Hr.
    unfold ep_read_packet in Hr. destruct (packets ei); injection Hr as _ <-;
      (split; [|done]; split; cbn; [by eexists|by eexists|done]).
Qed.

#[refine, export] Instance DummyLaws : UsbStackLaws := {
  bus_fresh b := b = Inner_new;
  bus_ok := dummy_ok;
  in_log := sent;
  out_log := taken;
  stalled e b := is_stalled e.1 b = true;
  host_step := host_acts
}.
Proof.
  - intros b ps -> Hps. cbn. unfold alloc_ep. wp_steps. cbn. wp_steps. cbn.
    split; [|done]. split; cbn; [by eexists|by eexists|lia].
  - intros i o b Hok. cbn. by wp_steps.
  - intros i o b data. apply dummy_write_law.
  - intros i o b sl. apply dummy_read_law.
  - intros i o b ep Hok Hep. cbn. eapply wp_mono; [by apply dummy_stall_law|].
    intros _ b' (Hok' & Hs & Ht & Hf). do 3 (split; [done|]).
    assert (is_ep (ep_in b) ep.1 || is_ep (ep_out b) ep.1 = true) as Hin.
    { destruct Hok as [(ei & Hi & Hia & _) (eo & Ho & Hoa & _) _]. rewrite Hi, Ho. cbn.
      destruct Hep as [-> | ->]; lia. }
    split; [by rewrite Hf, Hin, Z.eqb_refl|]. intros ep' He. rewrite Hf. by destruct (_ && _).
  - intros i o b ep Hok _. cbn. eapply wp_mono; [by apply dummy_stall_law|]. by intros _ b' (? & ? & ? & _).
  - intros i o b data Hok. cbn. by wp_steps.
  - intros i o b b' Hact Hok. destruct (dummy_host_law i o b b' Hact Hok) as (? & ? & ?). done.
Defined.
