(* ===== verification/Integration.v ===== *)
(** * The integration tests ([usbd-storage/tests])

    The host side of the tests ([common/bbb.rs]: [Cbw], [Csw]; [common/scsi.rs]: the encoder
    of commands), the steps that a test is made of ([common/mod.rs]) and the tests of
    [scsi_bbb.rs], as definitions that return when the test passes. The tests are built
    with the feature [extended_addressing]. The transport's own [CommandStatus] and
    [DataDirection] stand for the enums of the same variants that the tests declare. The
    loops of the steps have fuel, and running out of it is the time-out of a test. *)
From S2P Require Import Prelude.
From S2P Require Import Usb.
From S2P Require Import Buffer.
From S2P Require Import Transport.
From S2P Require Import Bbb.
From S2P Require Import BotSpec.
From S2P Require Import BbbRefine.
From S2P Require Import MockBus.
From S2P Require Import BbbSpec.
From S2P Require Import Subclass.
From S2P Require Import Scsi.
From S2P Require Import ScsiSpec.
From S2P Require Import DummyBus.

Local Open Scope Z_scope.
Local Open Scope rust_scope.

(** ** The host's wrappers *)

Definition MAX_CB_LEN : Z := 16.

Record Cbw := mkCbw {
  cbw_data_transfer_len : Z;       (* u32 *)
  cbw_direction : DataDirection;
  cbw_block : list byte
}.

Definition into_bytes (c : Cbw) : outcome (list byte) :=
  let CBW_SIGNATURE_LE := to_le_bytes 4 0x43425355 in
  let n := len (cbw_block c) in
  if (1 <=? n) && (n <=? 16) then
    let bytes := CBW_SIGNATURE_LE ++ zreplicate 4 x00 ++ to_le_bytes 4 (cbw_data_transfer_len c) in
    let direction := match cbw_direction c with DataIn => Z.shiftl 1 7 | DataOut | NotExpected => 0 end in
    let bytes := bytes ++ [byte_of direction] ++ [byte_of 0] ++ [byte_of (n mod 256)] in
    let* block := copy_into (zreplicate MAX_CB_LEN x00) 0 n (cbw_block c) in
    Returns (bytes ++ block)
  else Panics.

Record Csw := mkCsw { csw_data_transfer_len : Z; csw_status : CommandStatus }.

Definition from_bytes (bytes : list byte) : outcome Csw :=
  if CSW_LEN =? len bytes then
    let* residue := slice bytes 8 12 in
    let* code := u8_at bytes 12 in
    let* status :=
      match code with
      | 0 => Returns Passed
      | 1 => Returns Failed
      | 2 => Returns PhaseError
      | _ => Panics
      end in
    Returns (mkCsw (Prelude.from_le_bytes residue) status)
  else Panics.

Definition write_cbw (c : Cbw) : M DummyBus unit :=
  let! bytes := lift (into_bytes c) in DummyBus.write_data bytes.

Definition read_cs : M DummyBus (option Csw) :=
  let! fuel := gets packet_fuel in
  let! (bytes, enough) := read_until fuel CSW_LEN [] in
  if enough : bool then let! csw := lift (from_bytes bytes) in ret (Some csw) else ret None.

(** ** The encoder of commands *)

Definition UNKNOWN : Z := 0xFF.

Definition bool_u8 (b : bool) : Z := if b then 1 else 0.

Definition cmd_into_bytes (cmd : ScsiCommand) : list byte :=
  match cmd with
  | Scsi.Unknown _ => [byte_of UNKNOWN]
  | Inquiry evpd page_code alloc_len =>
    [byte_of INQUIRY; byte_of (bool_u8 evpd); byte_of page_code] ++ to_be_bytes 2 alloc_len
  | TestUnitReady => [byte_of TEST_UNIT_READY]
  | RequestSense desc alloc_len =>
    [byte_of REQUEST_SENSE; byte_of (bool_u8 desc)] ++ zreplicate 2 x00 ++ [byte_of alloc_len]
  | ModeSense6 dbd page_control page_code subpage_code alloc_len =>
    [byte_of MODE_SENSE_6; byte_of (Z.shiftl (bool_u8 dbd) 4);
     byte_of (Z.land (Z.shiftl (page_control_code page_control) 6) (Z.land page_code 63));
     byte_of subpage_code; byte_of alloc_len]
  | ModeSense10 dbd page_control page_code subpage_code alloc_len =>
    [byte_of MODE_SENSE_10; byte_of (Z.shiftl (bool_u8 dbd) 4);
     byte_of (Z.land (Z.shiftl (page_control_code page_control) 6) (Z.land page_code 63));
     byte_of subpage_code] ++ zreplicate 3 x00 ++ to_be_bytes 2 alloc_len
  | ReadCapacity10 => [byte_of READ_CAPACITY_10]
  | ReadCapacity16 alloc_len =>
    [byte_of READ_CAPACITY_16] ++ zreplicate 10 x00 ++ to_be_bytes 4 alloc_len
  | Read lba l => [byte_of READ_16; x00] ++ to_be_bytes 8 lba ++ [x00] ++ to_be_bytes 4 l
  | Write lba l => [byte_of WRITE_16; x00] ++ to_be_bytes 8 lba ++ [x00] ++ to_be_bytes 4 l
  | ReadFormatCapacities alloc_len =>
    [byte_of READ_FORMAT_CAPACITIES] ++ zreplicate 6 x00 ++ to_be_bytes 2 alloc_len
  end.

(** ** Steps *)

Definition PACKET_SIZE : list Z := [8; 16; 32; 64].

Abbreviation Class_ := (Scsi (@BulkOnly DummyStack)).

(** A variable that the callback captures. *)
#[export] Instance Captured_OverBulkOnly {L} : OverBulkOnly (Class_ * L).
Proof.
  refine {| transport p := transport p.1; set_transport t p := (set_transport t p.1, p.2) |}.
  - done.
  - by intros [[] l].
Defined.

Inductive Step :=
| HostIo (func : M DummyBus unit)
| DevIo
| DevCmdHandle (func : Command ScsiCommand -> M Class_ unit)
| DevAssertNoCommand.

(** The host and the device share the bus. *)
Definition on_dummy {A} (m : M DummyBus A) : M Class_ A := on_transport (C := Class_) (on_bus m).

(** [loop { scsi.poll(); if new == bytes_processed { break } .. }] *)
Fixpoint drive_device (fuel : nat) (before : (Z * Z) * (Z * Z)) : M Class_ unit :=
  match fuel with
  | O => out_of_fuel
  | S fuel =>
    do! Scsi.poll in
    let! new := on_dummy (gets_o bytes_processed) in
    if bool_decide (new = before) then ret tt else drive_device fuel new
  end.

(** [loop { poll_command(..); if command_processed { break } }] *)
Fixpoint handle_command (fuel : nat) (func : Command ScsiCommand -> M Class_ unit) : M (Class_ * bool) unit :=
  match fuel with
  | O => out_of_fuel
  | S fuel =>
    let! _ := poll_command_with (parse_cb true) (fun command =>
      do! zoom fst (fun s p => (s, p.2)) (func command) in
      do! modify (fun p => (p.1, true)) in
      ret (Ok tt)) in
    let! command_processed := gets snd in
    if command_processed : bool then ret tt else handle_command fuel func
  end.

Definition STEP_FUEL : nat := 1000.

Definition run_step (s : Step) : M Class_ unit :=
  match s with
  | HostIo func => on_dummy func
  | DevIo =>
    let! before := on_dummy (gets_o bytes_processed) in
    drive_device STEP_FUEL before
  | DevCmdHandle func => fun c =>
    let* (_, (c, _)) := handle_command STEP_FUEL func (c, false) in Returns (tt, c)
  | DevAssertNoCommand =>
    let! _ := Scsi.poll_command true (fun _ => panic) in ret tt
  end.
Fixpoint run_steps (steps : list Step) : M Class_ unit :=
  match steps with
  | [] => ret tt
  | s :: steps => do! run_step s in run_steps steps
  end.

(** A test at one packet size. *)
Definition run_on_scsi_bbb_bus_timed (steps : list Step) (packet_size : Z) : outcome unit :=
  let io_buf := zreplicate 1024 x00 in
  let* (r, _) := Scsi.new packet_size 0 io_buf Inner_new in
  match r with
  | Ok scsi => let* _ := (do! on_dummy enable in run_steps steps) scsi in Returns tt
  | Err _ => Panics
  end.

(** ** The tests *)

(** [assert_eq!(expected, bus.read_cs().unwrap())] *)
Definition status_is (residue : Z) (status : CommandStatus) : M DummyBus unit :=
  let! csw := read_cs in
  match csw with
  | Some csw => assert ((csw_data_transfer_len csw =? residue) &&
      (status_code (csw_status csw) =? status_code status))
  | None => panic
  end.

Definition invalid_first_cbw_does_not_reach_the_subclass : list Step :=
  [HostIo (
     let! bad_cbw_bytes := lift (into_bytes (mkCbw 0 NotExpected (map byte_of [0x12]))) in
     let! b := lift (u8_at bad_cbw_bytes 0) in
     DummyBus.write_data (splice bad_cbw_bytes 0 [byte_of (Z.lxor b 0xFF)]));
   DevIo;
   DevAssertNoCommand].

(** What the tests with a WRITE of a block have in common. *)
Definition a_block_is_written (func : Command ScsiCommand -> M Class_ unit)
    (residue : Z) (status : CommandStatus) : list Step :=
  [HostIo (
     do! write_cbw (mkCbw 512 DataOut (cmd_into_bytes (Write 0 1))) in
     DummyBus.write_data (zreplicate 512 x00));
   DevIo;
   DevCmdHandle func;
   DevIo;
   HostIo (status_is residue status)].

Definition should_fail_reading_data_from_host_with_bytes_processed : list Step :=
  a_block_is_written (fun _ => fail 512) 0 Failed.

Definition should_fail_reading_data_from_host_without_bytes_processed : list Step :=
  a_block_is_written (fun _ => fail_phase) 512 PhaseError.

Definition should_pass_reading_data_from_host_with_bytes_processed : list Step :=
  a_block_is_written (fun _ => pass 512) 0 Passed.

Definition should_phase_fail_reading_data_from_host_trying_to_pass_without_bytes_read : list Step :=
  a_block_is_written (fun _ => fail_phase) 512 PhaseError.

Definition should_fail_in_the_middle_writing_data_to_host : list Step :=
  [HostIo (write_cbw (mkCbw 512 DataIn (cmd_into_bytes (Read 0 1))));
   DevIo;
   DevCmdHandle (fun _ =>
     let! n := Subclass.write_data (zreplicate 256 (byte_of 0xFF)) in
     match n with Ok n => do! assert (n =? 256) in fail 256 | Err _ => panic end);
   DevIo;
   HostIo (
     let! bytes := read_n_bytes 512 in
     do! assert (len bytes =? 512) in
     status_is 256 Failed)].

(** Each test at each packet size. *)
Definition all_tests : list (outcome unit) :=
  flat_map (fun steps => map (run_on_scsi_bbb_bus_timed steps) PACKET_SIZE)
    [invalid_first_cbw_does_not_reach_the_subclass;
     should_fail_reading_data_from_host_with_bytes_processed;
     should_fail_reading_data_from_host_without_bytes_processed;
     should_pass_reading_data_from_host_with_bytes_processed;
     should_phase_fail_reading_data_from_host_trying_to_pass_without_bytes_read;
     should_fail_in_the_middle_writing_data_to_host].

(** ** What the encoder's blocks mean to the crate *)

(** What the parser makes of the block of a command: the encoder puts the length of READ
    CAPACITY (16), READ and WRITE a byte too late, and loses the flags of MODE SENSE. *)
Definition as_decoded (c : ScsiCommand) : ScsiCommand :=
  match c with
  | Scsi.Unknown _ => Scsi.Unknown 0xFF
  | ModeSense6 _ _ _ subpage_code alloc_len => ModeSense6 false CurrentValues 0 subpage_code alloc_len
  | ModeSense10 _ _ _ subpage_code alloc_len => ModeSense10 false CurrentValues 0 subpage_code alloc_len
  | ReadCapacity16 alloc_len => ReadCapacity16 (alloc_len / 256)
  | Read lba l => Read lba (l / 256)
  | Write lba l => Write lba (l / 256)
  | c => c
  end.

Lemma late_length l : 0 <= l < 2 ^ 32 -> x00 :: to_be_bytes 4 l = to_be_bytes 4 (l / 256) ++ [byte_of l].
Proof.
  intros Hl. change (to_be_bytes 4 ?x) with
    [byte_of (x / 256 / 256 / 256); byte_of (x / 256 / 256); byte_of (x / 256); byte_of x].
  cbn [app]. do 2 f_equal. rewrite !Z.div_div by lia. by rewrite Z.div_small by lia.
Qed.

Lemma page_bits pc page : Z.land (Z.shiftl (page_control_code pc) 6) (Z.land page 63) = 0.
Proof.
  apply Z.bits_inj'. intros n Hn. rewrite !Z.land_spec, Z.shiftl_spec, Z.bits_0 by lia.
  destruct (Z.ltb_spec n 6).
  - by rewrite (Z.testbit_neg_r _ (n - 6)) by lia.
  - change 63 with (Z.ones 6). rewrite Z.ones_spec_high by lia. by rewrite !andb_false_r.
Qed.

Lemma parse_encoded `{!TryFromPrimitive, !TryFromPrimitiveLaw} c rest :
  in_range true c -> parse_cb true (cmd_into_bytes c ++ rest) = Returns (as_decoded c).
Proof.
  intros Hr.
  destruct (page_control_parse CurrentValues 0) as [Hpc Hpage]; [lia|]. cbn [page_control_code] in Hpc, Hpage.
  destruct c as [cmd|[] pg al| |[] al|[] pc pg sp al|[] pc pg sp al| |al|lba n|lba n|al]; cbn in Hr;
    unfold parse_cb; cbn [cmd_into_bytes bool_u8]; rewrite ?page_bits.
  all: change (zreplicate 2 x00) with [x00; x00]; change (zreplicate 3 x00) with [x00; x00; x00];
    change (zreplicate 6 x00) with (replicate 6 x00); change (zreplicate 10 x00) with (replicate 9 x00 ++ [x00]);
    change (Z.shiftl 1 4) with 16; change (Z.shiftl 0 4) with 0.
  all: rewrite <- ?app_assoc; cbn [app replicate].
  all: repeat match goal with |- context [x00 :: to_be_bytes 4 ?n ++ ?r] =>
    change (x00 :: to_be_bytes 4 n ++ r) with ((x00 :: to_be_bytes 4 n) ++ r); rewrite (late_length n) by lia;
    assert (0 <= n / 256 < 2 ^ 32) by dm_lia end.
  all: match goal with |- context [len ?x =? 0] =>
    assert (0 < len x) by len_lia; replace (len x =? 0) with false by lia end.
  all: rewrite <- ?app_assoc; cbn [app].
  all: decode.
  all: try done.
  all: cbn [as_decoded]; change (0 * 64 + 0) with 0 in Hpc; by rewrite Hpc.
Qed.

Lemma cmd_into_bytes_len c : 1 <= len (cmd_into_bytes c) <= 15.
Proof. destruct c; cbn [cmd_into_bytes]; len_lia. Qed.

(** The wrapper of a block, in the terms of the protocol. *)
Definition wrapped (c : Cbw) : CommandBlockWrapper :=
  mkCommandBlockWrapper 0 (cbw_data_transfer_len c) (cbw_direction c) 0 (len (cbw_block c))
    (cbw_block c ++ zreplicate (16 - len (cbw_block c)) x00).

Lemma into_bytes_run c :
  1 <= len (cbw_block c) <= 16 -> into_bytes c = Returns (encode_cbw (wrapped c)).
Proof.
  intros Hn. unfold into_bytes, MAX_CB_LEN. replace ((1 <=? _) && _) with true by lia.
  set (n := len (cbw_block c)) in *.
  assert (copy_into (zreplicate 16 x00) 0 n (cbw_block c) =
    Returns (cbw_block c ++ zreplicate (16 - n) x00)) as ->.
  { replace (zreplicate 16 x00) with ([] ++ zreplicate n x00 ++ zreplicate (16 - n) x00).
    - rewrite copy_into_run by (subst n; len_lia). done.
    - cbn [app]. rewrite <- zreplicate_add by lia. f_equal. lia. }
  cbn [obind]. by rewrite Z.mod_small by lia.
Qed.

(** C38: The commands of the simulated host: for every command with fields in range, and
    every data phase, the host's encoders make a wrapper of 31 bytes without a panic; the
    transport takes it for a wrapper of that data phase and of the encoded block, no longer
    and no shorter, and the SCSI parser takes the block for the command, except that it reads a 256th of the length
    of READ (16), WRITE (16) and READ CAPACITY (16), and for MODE SENSE neither the flag
    nor the page, which the encoder does not put where the standard has them. *)
Theorem host_commands_decoded `{!TryFromPrimitive, !TryFromPrimitiveLaw}
    (c : ScsiCommand) (data_len : Z) (direction : DataDirection) :
  in_range true c -> is_u32 data_len -> (direction = NotExpected <-> data_len = 0) ->
  exists raw k, into_bytes (mkCbw data_len direction (cmd_into_bytes c)) = Returns raw /\
    len raw = CBW_LEN /\ from_le_bytes (zslice 4 CBW_LEN raw) = Returns (Ok k) /\
    data_transfer_len k = data_len /\ Bbb.direction k = direction /\
    block_len k = len (cmd_into_bytes c) /\
    parse_cb true (ztake (block_len k) (block k)) = Returns (as_decoded c).
Proof.
  intros Hc Hn Hd. pose proof (cmd_into_bytes_len c) as Hlen.
  set (w := mkCbw data_len direction (cmd_into_bytes c)).
  assert (cbw_ok (wrapped w)) as Hw by (split; cbn; [done|done|done|lia|lia|len_lia]).
  exists (encode_cbw (wrapped w)), (wrapped w). split; [apply into_bytes_run; cbn; lia|].
  split; [apply encode_cbw_len, Hw|]. split.
  { destruct (encode_cbw_fields _ Hw) as (Hs & _).
    rewrite parse_run by (done || apply encode_cbw_len, Hw). by rewrite decode_encode_cbw. }
  do 3 (split; [done|]). cbn. rewrite ztake_app_le, ztake_all by lia.
  rewrite <- (app_nil_r (cmd_into_bytes c)). by apply parse_encoded.
Qed.

(** The WRITE of one block that the tests send is a WRITE of no block. *)
Lemma host_commands_decoded_witness :
  exists raw k, into_bytes (mkCbw 512 DataOut (cmd_into_bytes (Write 0 1))) = Returns raw /\
    from_le_bytes (zslice 4 CBW_LEN raw) = Returns (Ok k) /\
    parse_cb true (ztake (block_len k) (block k)) = Returns (Write 0 0).
Proof.
  destruct (host_commands_decoded (Write 0 1) 512 DataOut) as (raw & k & Hraw & _ & Hk & _ & _ & _ & Hp);
    [cbn; lia|by vm_compute|done|]. exists raw, k. exact (conj Hraw (conj Hk Hp)).
Defined.

(** The integration tests of the crate pass on the model at every packet size: an
    invalid first wrapper does not reach the subclass, and the status wrappers that the
    host reads after a WRITE or a READ have the status and the residue that the tests
    assert. *)
Lemma integration_tests_pass :
  all_tests = replicate 24 (Returns tt).
Proof. by vm_compute. Qed.
